(* ===== verification/_CoqProject ===== *)
-Q . S2P
Prelude.v
GoStrings.v
ApiTypes.v
GoHeap.v
DeepCopy.v
DeepCopyTheorems.v
ApiServer.v
Features.v
Reconciler.v
ReconcilerFacts.v
EventHandlers.v
NextStatus.v
ControllerLoop.v
Failures.v
ReconcilerTheorems.v
MemLoop.v
RecordedTypes.v
MutatingHandler.v
MutatingFacts.v
Persistence.v
Cluster.v
ClusterFacts.v
ClusterTheorems.v
MemOperator.v
MutatingTheorems.v
Crypto.v
Generator.v
GeneratorFacts.v
CertWriter.v
CertWriterFacts.v
SecretWriter.v
SecretWriterFacts.v
CertWorld.v
MemCluster.v
WebhookUtil.v
CertTheorems.v
Clientset.v
TypedClient.v
FakeClients.v
FakeTheorems.v
ClientInterfaces.v
ClientsetTheorems.v
Listers.v
Informers.v
TestUtils.v
InformersTheorems.v
Configuration.v
ConfigurationTheorems.v
MemConfigurations.v
FileSystem.v
FileSystemFacts.v
AtomicWriter.v
AtomicWriterFacts.v
PathValidation.v
AtomicWriterSteps.v
AtomicWriterFiles.v
AtomicWriterPublish.v
AtomicWriterTheorems.v
MemHost.v
FsWriter.v
FsWriterTheorems.v
CertDirectory.v
WebhookServer.v
WebhookServerTheorems.v
PackageInit.v
HealthChecker.v
HealthTheorems.v
WebhookController.v
WorldLifts.v
ProcessFrames.v
FsCertFacts.v
ControllerTheorems.v
QuietRuns.v
SyncSucceeds.v
ControllerRuns.v
Startup.v
StartupTheorems.v
Readiness.v
MemProcess.v
MemStartup.v
