(* ===== verification/Prelude.v ===== *)
(** * persistent-pod-state: a verification of its controller and its webhook

    ** The program

    The operator keeps the IP address and the node of a pod across its recreation.  A
    controller watches KubeVirt VirtualMachineInstances and StatefulSets that ask for it: for
    each it makes a Calico IPReservation of the present address and records address and node
    in a PersistentPodState.  An admission webhook looks the record up when a Pod or a
    VirtualMachineInstance is created and pins the address (an annotation) and the node (a
    required node affinity).  So that the API server trusts the webhook, a second controller
    makes the serving certificates, keeps them in a Secret or a directory, writes them
    atomically to the directory of the HTTPS server, and registers the webhook with the CA
    bundle; a health check tells when the server answers.

    ** The effect of the code

    A Go function that touches the outside world is a [GoM W A] (this file): a function from
    a world to an outcome, returned or panicked, and the world it leaves.  Errors are
    returned values, as in Go.  What is not in the repository is an interface, a class of
    operations over the world, with a second class for its documented behaviour; each pair
    has an instance in memory, so that the laws can hold together and every definition
    runs.  The theorems hold for every instance.

    ** The parts, and where they are modelled

    - API types: [ApiTypes] (api/apps/v1alpha1/persistentpodstate_types.go and the deep
      copies of zz_generated.deepcopy.go, on values); [DeepCopy] has the same copies on a
      heap ([GoHeap]), where sharing can be seen.  [GoStrings] has Go's strings and strconv as the
      code uses them; [Features] the switches of pkg/features/features.go.
    - API server: [ApiServer], the interface [Client], [ClientLaws], and [MemServer].
    - Controller: [Reconciler] (internal/controller/apps/persistentpodstate_controller.go
      and _statefulset.go), [EventHandlers] (the two handler files).  One definition per
      Go function: [Reconcile], [VmiAutoGeneratePersistentPodState],
      [StatefulSetAutoGeneratePersistentPodState], [createOrUpdateIPReservation]; the loop
      over the pods is [record_pod] under [go_for], the closure retried on a conflict is
      [update_attempt].
    - Admission webhook: [MutatingHandler] (internal/webhook/pod/mutating): [Handle],
      [handlePod], [handleVMI], [handlePodCreate], [handleVMICreate],
      [getStatefulSetNameFromPod].  The object the code mutates through a pointer is a value
      that is passed on.
    - Certificates: [Crypto] (the library, an interface), [Generator]
      (internal/webhook/util/generator), [CertWriter] (writer/certwriter.go and error.go),
      [SecretWriter] (writer/secret.go), [FsWriter] (writer/fs.go), [AtomicWriter]
      (writer/atomic/atomic_writer.go) over [FileSystem], a tree of directories, files and
      links whose every call is one atomic step that the host may refuse.
    - Registration: [Configuration] (internal/webhook/util/configuration); settings from the
      environment: [WebhookUtil] (internal/webhook/util/util.go).
    - Server: [WebhookServer] (internal/webhook/server.go, add_pod.go, the builders);
      [HealthChecker] (internal/webhook/util/health); [WebhookController]
      (internal/webhook/util/controller): [sync], the turn of the worker
      [processNextWorkItem], the event handlers, and Start as a step relation ([start_step])
      over runs of events, turns and the end of the context.
    - Start: [Startup] (cmd/main.go: the options, [main_setup] up to the start of the
      manager, [main_goroutine], [main_start]; [Initialize] and [WaitReady_turns] of server.go; New and
      SetupWithManager of the controllers as far as they are not the library's).  The package
      variables of all packages are one record there, [Globals].
    - Generated clients (pkg/client): [Clientset] (clientset.go, apps_client.go,
      generic_client.go, registry.go), [TypedClient] (typed/.../persistentpodstate.go: each
      method as the request it builds), [Listers], and [Informers] (factory.go, generic.go
      and the accessors): one step per call that holds the factory's lock, and one per end
      of a goroutine.  [FakeClients] (the fake packages: each method as the action it
      invokes, the clientset over an object tracker).  The interfaces that both implement, and
      those of the informers and listers, are records of methods in [ClientInterfaces] and
      [Informers].
    - Initialization: [PackageInit], what Go runs before main: the feature gates
      (pkg/features/features.go), the registration of the types with their schemes
      (groupversion_info.go, the two register.go, the init function of cmd/main.go).
    - The helpers of the end-to-end tests (test/utils/utils.go): [TestUtils].

    The parts meet in [ControllerLoop] (event handlers, queue and reconciler), in
    [Persistence] (controller and webhook over one API server), in
    [Cluster], a step relation in which they act on that server together with the rest of a
    cluster (the scheduler, Calico and the users, by what their documentation promises), in
    [WebhookServerTheorems] (server and registration), and in [ControllerTheorems], where
    [sync] runs over the interfaces of certificates, Secrets, disk and configurations at
    once; [MemProcess] is such a world, put together by the liftings of [WorldLifts].

    ** What is shown

    - [Persistence]: the Pod or instance created in place of a recorded one is patched to
      ask for the address and the node of the first, and the address is reserved.
    - [ClusterTheorems] (from [ClusterFacts], by an invariant of the steps of [Cluster]): in every
      run, with any flags that make the operator look after StatefulSets (and no
      instances if it looks after them too), whatever reconciles fail, what is recorded for a
      Pod holds: its address is
      reserved, the Pod has it or asks for it, nobody else ever does, its node is kept, and
      the record does not change.  Two defects bound this: a record is dropped when the Pod is
      down while as many others are up as are recorded, and an instance with the name of a
      StatefulSet overwrites its record.  [MemOperator] has a run.
    - [ControllerLoop]: the reconciler driven by the queue of its events, those of its own
      writes among them, settles: it makes a bounded number of reconciles and stops only
      when what asks for it is recorded and reserved, as [NextStatus] specifies, which
      [Reconcile] is shown to compute.  [MemLoop] has a run, and two failures that are not retried (defects).
      [Failures]: in an orderly cluster, reconciles that fail, in any number and at any call,
      only delay this: the controller ends with the record that it ends with without them.
    - [ReconcilerTheorems] (from the lemmas of [ReconcilerFacts]): a reconcile refines an
      abstract step of the recorded status; two reconciles converge; whatever fails, what is
      newly recorded is reserved and live, records never shrink, nothing else changes.  Also
      two defects: reservations of different pods can share a name, and an instance without
      an owner makes the reconciler panic.  [RecordedTypes]: every reconcile keeps the
      form of what is stored, which the webhook relies on.  [DeepCopyTheorems]: the generated
      copies equal those on values and share nothing with the original.
    - [MutatingTheorems] (from [MutatingFacts]): what the patch is, that nothing else of the
      object changes, that the webhook lets everything through when it cannot help, and that
      it is idempotent.
    - [CertTheorems] (from [GeneratorFacts], [CertWriterFacts], [SecretWriterFacts],
      [CertWorld]): generated certificates pass the check that looks half a year ahead, for
      150 days; EnsureCert over a Secret, with racing replicas and failing calls, returns
      only certificates that are stored and valid, and keeps valid ones.  The shared logic is
      verified against the contract [certReadWriterLaws], which the Secret writer discharges
      there and the directory writer in [FsCertFacts] (over [CertDirectory], which follows
      the directory from not being there to being in order).
    - [AtomicWriterTheorems] (from [FileSystemFacts], [AtomicWriterFacts] and one file per
      group of steps: [AtomicWriterSteps], [AtomicWriterFiles], [AtomicWriterPublish]):
      every state the disk passes through during [Write] shows all of the old payload or all
      of the new one; success means the new one.  [FsWriterTheorems]: certificates written
      to a directory read back.  [PathValidation]: validatePath against a description of the
      paths it accepts (with lengths in bytes, where the code's comment says characters), and
      that they stay inside the directory.  Two defects: a [..data_tmp] left by a crash blocks
      every later update ([cut_short_blocks_updates]; [MemHost] has a crash that leaves one),
      and an error of Readlink is swallowed ([MemHost]).
    - [ConfigurationTheorems]: what is registered, that it is idempotent and succeeds
      (a nil slice of webhooks and an empty one are told apart, as reflect.DeepEqual does).
    - [WebhookServerTheorems]: the server serves exactly the handlers no gate turns off, and
      every registered webhook is one of them.
    - [HealthTheorems]: the health client trusts what the CA file holds or held; a failed
      first load is final (a defect).
    - [SyncSucceeds] (from [CertDirectory], what the disk does when it refuses nothing,
      and [QuietRuns], the contract [certWriterWorks] of a writer that succeeds, which both
      writers discharge): [sync] returns nil in a world that refuses no call.
    - [ControllerTheorems] (from [ProcessFrames], which shows what each operation leaves
      alone): a [sync] that returns nil leaves valid certificates in the store the settings
      choose, the Secret or the directory, the same in the directory of the server, and
      their CA in every registered webhook; no work is lost.  [ControllerRuns]: what every run
      of Start keeps; initialized means that a turn's sync returned nil.  [Readiness]: the
      first health check after it trusts that CA.
    - [StartupTheorems]: what main has put in place when it starts the manager; that the
      readiness loop ends when the server answers with a certificate the client accepts, not
      without one, and never with an error; that the controllers start after
      it, with the watches the flags ask for.
    - [InformersTheorems]: in every reachable state of a factory each informer runs at most
      once, and Shutdown waits for all that run and comes to an end.  [ClientsetTheorems]:
      the registry's clients follow its configuration; the time limits of requests in 64
      bits.  [Listers]: a lister shows the cache of its informer.  [FakeTheorems]: the fake
      client answers as the typed one does over a server that answers alike, so that
      ([ClientInterfaces]) no program that makes these calls (no watches) can tell the
      clientsets apart.
      [Informers]: all ways to the informer of a type lead to the same one.
    - [PackageInit]: an initialized process serves the Pod webhook, out of the box; every
      scheme knows the types of the group.

    What the theorems take from the code's surroundings is as narrow as its documentation.  A
    certificate is accepted by who trusts the one that signed it only if that one may issue it
    ([may_issue] of [Crypto]: CA:TRUE, key usage, extended key usage, no constraints), and the
    program does not ask that of the CA it is given: the theorems on certificates assume it of
    the CAs in the Secrets, and [leaf_signer_is_reused] (a defect) is about the others.  The
    HTTP client of the health check gets an answer only after a [handshake] with the server,
    which depends on what it trusts; WaitReady ends after one.  The host may refuse any call, but
    the theorems on what Write shows assume that reading a link fails only when it should
    ([refused_readlink_hides_file] is a defect otherwise).

    Each theorem with hypotheses is applied to a concrete input, its witness, in the same
    file or in the file of the in-memory instance ([MemCluster], [MemConfigurations],
    [MemHost], [MemProcess], [MemStartup]).

    ** Bounds

    The model follows the code's own recursion.  Where that is not structural: os.MkdirAll
    takes the length of the path for fuel, and gains at most one step per component;
    os.MkdirTemp tries 10000 names, as Go does; name resolution follows at most 40 links,
    as Linux does; the loop of pathsToRemove over the parents of a file takes the length of
    the name, which every turn shortens.  WaitReady may poll for ever: it has fuel, and a
    theorem says how much is enough when the server will answer.  Integers of a width (the
    port, modes, durations) are [Z] with their bounds or their wrap-around stated.  The order
    in which Go ranges over a map is a parameter, any permutation of the map.

    ** What is not modelled

    The parsing of the flags, the manager's own run and the informers and the queue of the
    webhook controller (all the libraries'; an event that arrives during a turn of its worker
    is taken to arrive before or after it), logging, the Windows branch of the atomic writer,
    the test suites themselves and the build's tools.  A reconcile and an admission read the server as it is: that a cached
    read may be older is not modelled.  The objects' fields the program never touches are one
    opaque token each; a slice is its whole backing array.

    This file: the effect, its program logic ([wp], [always]) and tactics. *)

From stdpp Require Export base tactics options option list strings gmap.
From stdpp Require Export fin_maps.
From Stdlib Require Export Lia.

(** A section lemma depends on exactly the section variables its proof uses. *)
#[export] Unset Default Proof Using.

(** ** The effect of a Go statement

    A Go function that touches the outside world (the API server, the file system, a
    clock) is a state transformer over a world [W].  It either returns or panics;
    a returned [error] is an ordinary value, as in Go. *)
Inductive outcome (A : Type) : Type :=
| Ret (a : A)
| Panic (why : string).
Arguments Ret {A} a.
Arguments Panic {A} why.

Definition GoM (W A : Type) : Type := W → outcome A * W.

Definition go_ret {W A} (a : A) : GoM W A := λ w, (Ret a, w).

Definition go_panic {W A} (why : string) : GoM W A := λ w, (Panic why, w).

Definition go_bind {W A B} (m : GoM W A) (k : A → GoM W B) : GoM W B := λ w,
  match m w with
  | (Ret a, w') => k a w'
  | (Panic why, w') => (Panic why, w')
  end.

(** [for _, x := range l { body }] without an early exit. *)
Fixpoint go_for {W A S} (body : A → S → GoM W S) (l : list A) (s : S) : GoM W S :=
  match l with
  | [] => go_ret s
  | x :: l' => go_bind (body x s) (λ s', go_for body l' s')
  end.

Declare Scope go_scope.
Delimit Scope go_scope with go.
Bind Scope go_scope with GoM.
Notation "'let!' x ':=' m 'in' k" := (go_bind m (λ x, k))
  (at level 10, x pattern, m at level 100, k at level 200) : go_scope.
Notation "'do!' m 'in' k" := (go_bind m (λ _, k))
  (at level 10, m at level 100, k at level 200) : go_scope.
Open Scope go_scope.

(** ** Running a computation

    [runs m w a w'] : started in world [w], [m] returns [a] and leaves world [w'].
    [wp m Q w] : [m] returns, and every return satisfies [Q].
    [wlp m Q w] : every return of [m] satisfies [Q]; a panic leaves a world in which
    nothing is claimed. *)
Definition runs {W A} (m : GoM W A) (w : W) (a : A) (w' : W) : Prop := m w = (Ret a, w').

Definition panics {W A} (m : GoM W A) (w : W) : Prop := ∃ why w', m w = (Panic why, w').

Definition wp {W A} (m : GoM W A) (Q : A → W → Prop) (w : W) : Prop :=
  match m w with (Ret a, w') => Q a w' | (Panic _, _) => False end.

(** [always I m] : whatever [m] does, returning or panicking, the world it leaves is
    related to the world it started in by [I]. *)
Definition always {W A} (I : W → W → Prop) (m : GoM W A) : Prop := ∀ w, I w (m w).2.

(** Error values. *)
Definition is_nil {E} (e : option E) : bool := match e with None => true | Some _ => false end.

(** A Go map is nil or holds a finite map; reading a nil map gives the zero value, and
    reflect.DeepEqual tells a nil map from an empty one, as Leibniz equality does here. *)
Abbreviation gomap V := (option (gmap string V)).

Definition gomap_lookup {V} (m : gomap V) (k : string) : option V := match m with None => None | Some m => m !! k end.

(** len(m) *)
Definition gomap_len {V} (m : gomap V) : nat := match m with None => 0 | Some m => size m end.

(** m[k] on a map of strings: the zero value of string when absent. *)
Definition gomap_str (m : gomap string) (k : string) : string := default "" (gomap_lookup m k).

(** ** Lemmas *)

Section lemmas.
Context {W : Type}.

Lemma go_bind_runs {A B} (m : GoM W A) (k : A → GoM W B) w a w' :
  runs m w a w' → go_bind m k w = k a w'.
Proof. unfold runs, go_bind. by intros ->. Qed.

Lemma go_bind_ret {A B} (a : A) (k : A → GoM W B) w : go_bind (go_ret a) k w = k a w.
Proof. done. Qed.

Lemma go_bind_assoc {A B C} (m : GoM W A) (f : A → GoM W B) (g : B → GoM W C) w :
  go_bind (go_bind m f) g w = go_bind m (λ a, go_bind (f a) g) w.
Proof. unfold go_bind. by destruct (m w) as [[a|why] w']. Qed.

Lemma go_bind_inv {A B} (m : GoM W A) (k : A → GoM W B) w b w' :
  runs (go_bind m k) w b w' → ∃ a w1, runs m w a w1 ∧ runs (k a) w1 b w'.
Proof. unfold runs, go_bind. destruct (m w) as [[a|why] w1]; naive_solver. Qed.

Lemma wp_runs {A} (m : GoM W A) (Q : A → W → Prop) w :
  wp m Q w ↔ ∃ a w', runs m w a w' ∧ Q a w'.
Proof. unfold wp, runs. destruct (m w) as [[a|why] w']; naive_solver. Qed.

Lemma wp_ret {A} (a : A) (Q : A → W → Prop) w : Q a w → wp (go_ret a) Q w.
Proof. done. Qed.

Lemma wp_bind {A B} (m : GoM W A) (k : A → GoM W B) (Q : B → W → Prop) w :
  wp m (λ a w', wp (k a) Q w') w → wp (go_bind m k) Q w.
Proof. unfold wp, go_bind. by destruct (m w) as [[a|why] w']. Qed.

Lemma wp_mono {A} (m : GoM W A) (P Q : A → W → Prop) w :
  wp m P w → (∀ a w', P a w' → Q a w') → wp m Q w.
Proof. unfold wp. destruct (m w) as [[a|why] w']; naive_solver. Qed.

Lemma wp_and {A} (m : GoM W A) (P Q : A → W → Prop) w :
  wp m P w → wp m Q w → wp m (λ a w', P a w' ∧ Q a w') w.
Proof. unfold wp. by destruct (m w) as [[a|why] w']. Qed.

Lemma wp_for {A S} (body : A → S → GoM W S) (I : list A → S → W → Prop) (l : list A) s w :
  I l s w →
  (∀ x l' s w, I (x :: l') s w → wp (body x s) (λ s' w', I l' s' w') w) →
  wp (go_for body l s) (λ s' w', I [] s' w') w.
Proof.
  intros HI Hstep. revert s w HI. induction l as [|x l IH]; intros s w HI; simpl.
  - by apply wp_ret.
  - apply wp_bind. eapply wp_mono; [by apply Hstep|]. intros s' w' HI'. by apply IH.
Qed.

(** A run that is known to return, with what it may do to the world. *)
Lemma wp_always {A} (I : W → W → Prop) (m : GoM W A) (Q : A → W → Prop) w :
  always I m → wp m Q w → wp m (λ a w', Q a w' ∧ I w w') w.
Proof. intros HI. specialize (HI w). unfold wp. by destruct (m w) as [[a|why] w']. Qed.

Lemma always_runs {A} (I : W → W → Prop) (m : GoM W A) w a w' : always I m → runs m w a w' → I w w'.
Proof. intros Hm Hrun. specialize (Hm w). by rewrite Hrun in Hm. Qed.

Lemma always_ret {A} (I : W → W → Prop) `{!Reflexive I} (a : A) : always I (go_ret a).
Proof. intros w. simpl. reflexivity. Qed.

Lemma always_panic {A} (I : W → W → Prop) `{!Reflexive I} why : always I (go_panic (A:=A) why).
Proof. intros w. simpl. reflexivity. Qed.

Lemma always_bind {A B} (I : W → W → Prop) `{!Transitive I}
    (m : GoM W A) (k : A → GoM W B) :
  always I m → (∀ a, always I (k a)) → always I (go_bind m k).
Proof.
  intros Hm Hk w. specialize (Hm w). unfold go_bind.
  destruct (m w) as [[a|why] w']; simpl in *; [|done].
  etrans; [exact Hm|apply Hk].
Qed.

Lemma always_for {A S} (I : W → W → Prop) `{!Reflexive I, !Transitive I}
    (body : A → S → GoM W S) (l : list A) s :
  (∀ x s, always I (body x s)) → always I (go_for body l s).
Proof.
  intros Hb. revert s. induction l as [|x l IH]; intros s; simpl.
  - by apply always_ret.
  - by apply always_bind.
Qed.
End lemmas.

Create HintDb go_always discriminated.
#[export] Hint Resolve always_ret always_panic always_for : go_always.

(** Walk a computation: split its binds, branch on what it branches on, close the leaves
    with the [always] facts of the hint database. *)
Ltac always_step :=
  first
    [ by eauto with go_always
    | apply always_bind; [ | intros ?]
    | apply always_bind; [typeclasses eauto | | intros ?]
    | match goal with
      | |- always _ (match ?x with _ => _ end) => destruct x
      | |- always _ (if ?x then _ else _) => destruct x
      | |- always _ (let '(_, _) := ?x in _) => destruct x
      end ].
Ltac always_solve := repeat always_step.

(** Expose a [wp] goal's next call. *)
Ltac wp_next := first [ apply wp_bind | apply wp_ret ].

(** Run the call in front of a [wp] goal by its specification. *)
Ltac wp_call H := eapply wp_mono; [apply H|cbv beta].
