(* ===== verification/GoStrings.v ===== *)
(** * Go's [strings], [strconv] and slicing, as the program uses them

    A Go string is a byte string: [String.string].  Separators the program passes to
    [strings.Split], [strings.Index] and [strings.LastIndex] are single bytes, so they are
    an [ascii] here.  Indices are Go [int]s ([Z]), with [-1] for "not found". *)
From S2P Require Export Prelude.
From stdpp Require Export pretty.
From Stdlib Require Export ZArith Ascii.

Open Scope string_scope.
Open Scope list_scope.
Open Scope nat_scope.

(** strings.Split(s, sep) for a one-byte separator: never the empty slice. *)
Fixpoint split (s : string) (sep : ascii) : list string :=
  match s with
  | "" => [""]
  | String c s' =>
      if decide (c = sep) then "" :: split s' sep
      else match split s' sep with
           | [] => [String c ""]
           | x :: l => String c x :: l
           end
  end.

(** strings.Join(l, sep). *)
Fixpoint join (l : list string) (sep : ascii) : string :=
  match l with
  | [] => ""
  | [x] => x
  | x :: l' => x +:+ String sep (join l' sep)
  end.

Definition has_prefix (s pre : string) : bool := String.prefix pre s.
#[global] Arguments has_prefix : simpl never.

(** strings.Contains(s, sub) *)
Fixpoint contains (s sub : string) : bool :=
  has_prefix s sub || match s with "" => false | String _ s' => contains s' sub end.

(** Whether the byte [c] occurs in [s]. *)
Fixpoint has_char (c : ascii) (s : string) : bool :=
  match s with "" => false | String c' s' => bool_decide (c = c') || has_char c s' end.

(** strings.Index(s, string(c)) *)
Fixpoint index_byte (s : string) (c : ascii) : Z :=
  match s with
  | "" => -1
  | String c' s' =>
      if decide (c = c') then 0
      else let i := index_byte s' c in if decide (i = -1)%Z then -1 else i + 1
  end.

(** strings.LastIndex(s, string(c)) *)
Fixpoint last_index_byte (s : string) (c : ascii) : Z :=
  match s with
  | "" => -1
  | String c' s' =>
      let i := last_index_byte s' c in
      if decide (i = -1)%Z then (if decide (c = c') then 0 else -1) else i + 1
  end.

Definition go_len (s : string) : Z := Z.of_nat (String.length s).

Fixpoint str_take (n : nat) (s : string) : string :=
  match n, s with S n', String c s' => String c (str_take n' s') | _, _ => "" end.
Fixpoint str_drop (n : nat) (s : string) : string :=
  match n, s with S n', String _ s' => str_drop n' s' | O, _ => s | _, "" => "" end.

(** s[:i] and s[i:] for an index within bounds. *)
Definition slice_to (s : string) (i : Z) : string := str_take (Z.to_nat i) s.
Definition slice_from (s : string) (i : Z) : string := str_drop (Z.to_nat i) s.

(** strings.TrimPrefix, strings.TrimSuffix *)
Definition trim_prefix (s pre : string) : string :=
  if has_prefix s pre then str_drop (String.length pre) s else s.
Definition has_suffix (s suf : string) : bool :=
  bool_decide (str_drop (String.length s - String.length suf) s = suf).
Definition trim_suffix (s suf : string) : string :=
  if has_suffix s suf then str_take (String.length s - String.length suf) s else s.

Definition is_digit (c : ascii) : bool :=
  (48 <=? nat_of_ascii c)%nat && (nat_of_ascii c <=? 57)%nat.

Fixpoint all_chars (P : ascii → bool) (s : string) : bool :=
  match s with "" => true | String c s' => P c && all_chars P s' end.

(** The digits of a decimal numeral, most significant first, on top of [acc]. *)
Fixpoint digits_value (s : string) (acc : Z) : option Z :=
  match s with
  | "" => Some acc
  | String c s' =>
      if is_digit c then digits_value s' (acc * 10 + (Z.of_nat (nat_of_ascii c) - 48))%Z
      else None
  end.

Definition parse_uint (s : string) : option Z :=
  match s with "" => None | _ => digits_value s 0 end.

(** strconv.ParseInt(s, 10, 32): [None] stands for both ErrSyntax and ErrRange. *)
Definition parse_int32 (s : string) : option Z :=
  let '(neg, body) :=
    match s with
    | String "+" s' => (false, s')
    | String "-" s' => (true, s')
    | _ => (false, s)
    end in
  match parse_uint body with
  | None => None
  | Some un =>
      if neg then (if (un >? 2 ^ 31)%Z then None else Some (- un)%Z)
      else (if (un >=? 2 ^ 31)%Z then None else Some un)
  end.

(** ** Facts about strings *)

Lemma str_app_nil_r (s : string) : s +:+ "" = s.
Proof. induction s as [|c s IH]; [done|]. change (String c (s +:+ "") = String c s). by rewrite IH. Qed.

Lemma str_app_assoc (a b c : string) : (a +:+ b) +:+ c = a +:+ (b +:+ c).
Proof.
  induction a as [|x a IH]; [done|].
  change (String x ((a +:+ b) +:+ c) = String x (a +:+ (b +:+ c))). by rewrite IH.
Qed.

Lemma str_app_cons c (a b : string) : String c a +:+ b = String c (a +:+ b).
Proof. done. Qed.

Lemma str_app_nil_l (a : string) : "" +:+ a = a.
Proof. done. Qed.

Lemma str_length_app (a b : string) :
  String.length (a +:+ b) = (String.length a + String.length b)%nat.
Proof. induction a as [|c a IH]; [done|]. rewrite str_app_cons. simpl. by rewrite IH. Qed.

Lemma has_char_app c (a b : string) : has_char c (a +:+ b) = has_char c a || has_char c b.
Proof. induction a as [|x a IH]; [done|]. rewrite str_app_cons. simpl. by rewrite IH, orb_assoc. Qed.

Lemma all_chars_app P (a b : string) : all_chars P (a +:+ b) = all_chars P a && all_chars P b.
Proof. induction a as [|x a IH]; [done|]. rewrite str_app_cons. simpl. by rewrite IH, andb_assoc. Qed.

Lemma str_take_app (a b : string) : str_take (String.length a) (a +:+ b) = a.
Proof. induction a as [|c a IH]; [by destruct b|]. rewrite str_app_cons. simpl. by rewrite IH. Qed.

Lemma str_drop_app (a b : string) : str_drop (String.length a) (a +:+ b) = b.
Proof. induction a as [|c a IH]; [by destruct b|]. rewrite str_app_cons. simpl. by rewrite IH. Qed.

Lemma str_app_inj_l (a b c : string) : a +:+ b = a +:+ c → b = c.
Proof. intros H. rewrite <-(str_drop_app a b), H. apply str_drop_app. Qed.

Lemma str_app_inj_r (a b c : string) : a +:+ c = b +:+ c → a = b.
Proof.
  intros H. assert (String.length a = String.length b) as Hlen.
  { apply (f_equal String.length) in H. rewrite !str_length_app in H. lia. }
  rewrite <-(str_take_app a c), H, Hlen. apply str_take_app.
Qed.

Lemma go_len_zero s : go_len s = 0%Z ↔ s = "".
Proof. unfold go_len. destruct s; simpl; [done|]. split; [lia|done]. Qed.

Lemma slice_to_app (a b : string) : slice_to (a +:+ b) (go_len a) = a.
Proof. unfold slice_to, go_len. rewrite Nat2Z.id. apply str_take_app. Qed.

Lemma slice_from_app (a b : string) : slice_from (a +:+ b) (go_len a) = b.
Proof. unfold slice_from, go_len. rewrite Nat2Z.id. apply str_drop_app. Qed.

Lemma has_prefix_spec s pre : has_prefix s pre = true ↔ ∃ t, s = pre +:+ t.
Proof.
  unfold has_prefix. revert s. induction pre as [|c pre IH]; intros s; simpl.
  - destruct s as [|c s]; simpl; (split; [intros _; by eexists|done]).
  - destruct s as [|c' s]; simpl.
    + split; [done|]. by intros [t Ht].
    + destruct (ascii_dec c c') as [->|Hne].
      * rewrite IH. split; intros [t Ht]; exists t; [by subst|]. by injection Ht.
      * split; [done|]. intros [t Ht]. by injection Ht as ->.
Qed.

Lemma contains_spec s sub : contains s sub = true ↔ ∃ a b, s = a +:+ sub +:+ b.
Proof.
  induction s as [|c s IH]; simpl.
  - rewrite orb_false_r, has_prefix_spec. split.
    + intros [t Ht]. by exists "", t.
    + intros (a & b & Hab). destruct a; [|done]. by exists b.
  - rewrite orb_true_iff, has_prefix_spec, IH. split.
    + intros [[t Ht]|(a & b & ->)]; [by exists "", t|by exists (String c a), b].
    + intros (a & b & Hab). destruct a as [|c' a]; [left; by exists b|right].
      exists a, b. by injection Hab.
Qed.

(** *** Split and Join *)

Lemma split_nonempty s sep : split s sep ≠ [].
Proof. destruct s; simpl; [done|]. case_decide; [done|]. by destruct (split _ _). Qed.

Lemma split_no_sep s sep : has_char sep s = false → split s sep = [s].
Proof.
  induction s as [|c s IH]; simpl; [done|]. intros [Hc Hs]%orb_false_iff.
  apply bool_decide_eq_false in Hc. rewrite decide_False by congruence. by rewrite IH.
Qed.

Lemma split_app_sep a b sep :
  has_char sep a = false → split (a +:+ String sep b) sep = a :: split b sep.
Proof.
  induction a as [|c a IH]; intros Ha.
  - simpl. by rewrite decide_True.
  - rewrite str_app_cons. simpl in *. apply orb_false_iff in Ha as [Hc Ha].
    apply bool_decide_eq_false in Hc. rewrite decide_False by congruence. by rewrite IH.
Qed.

Lemma split_items s sep : Forall (λ x, has_char sep x = false) (split s sep).
Proof.
  induction s as [|c s IH]; simpl; [by repeat constructor|].
  case_decide as Hc; [by constructor|].
  destruct (split s sep) as [|x l].
  - constructor; [|done]. simpl. by rewrite bool_decide_false by congruence.
  - inversion IH; subst. constructor; [|done]. simpl. by rewrite bool_decide_false by congruence.
Qed.

Lemma join_cons x y l sep : join (x :: y :: l) sep = x +:+ String sep (join (y :: l) sep).
Proof. done. Qed.

Lemma join_split s sep : join (split s sep) sep = s.
Proof.
  induction s as [|c s IH]; [done|]. simpl.
  pose proof (split_nonempty s sep) as Hne.
  destruct (split s sep) as [|x l]; [done|]. case_decide as Hc.
  - subst c. rewrite join_cons. by rewrite IH.
  - destruct l as [|y l]; [simpl in *; by subst|].
    rewrite join_cons, str_app_cons. f_equal. by rewrite <-join_cons.
Qed.

Lemma split_join l sep :
  l ≠ [] → Forall (λ x, has_char sep x = false) l → split (join l sep) sep = l.
Proof.
  intros Hne Hl. destruct l as [|x l]; [done|]. clear Hne.
  revert x Hl. induction l as [|y l IH]; intros x Hl; inversion Hl; subst.
  - by apply split_no_sep.
  - rewrite join_cons, split_app_sep by done. by rewrite IH.
Qed.

(** *** Index *)

Lemma last_index_byte_absent s c : has_char c s = false → last_index_byte s c = (-1)%Z.
Proof.
  induction s as [|c' s IH]; simpl; [done|]. intros [Hc Hs]%orb_false_iff.
  apply bool_decide_eq_false in Hc. by rewrite IH, decide_True, decide_False.
Qed.

Lemma last_index_byte_bound s c : (-1 ≤ last_index_byte s c)%Z.
Proof. induction s as [|c' s IH]; simpl; [done|]. repeat case_decide; lia. Qed.

Lemma last_index_byte_app a b c :
  has_char c b = false → last_index_byte (a +:+ String c b) c = go_len a.
Proof.
  intros Hb. unfold go_len. induction a as [|x a IH].
  - simpl. by rewrite last_index_byte_absent, decide_True, decide_True.
  - rewrite str_app_cons. simpl. rewrite IH. rewrite decide_False by lia. lia.
Qed.

Lemma last_index_byte_none s c : last_index_byte s c = (-1)%Z → has_char c s = false.
Proof.
  induction s as [|c' s IH]; simpl; [done|].
  pose proof (last_index_byte_bound s c).
  case_decide as Hi; [case_decide as Hc|]; intros Heq; try lia.
  rewrite bool_decide_false by done. by apply IH.
Qed.

Lemma last_index_byte_inv s c i :
  last_index_byte s c = i → (0 ≤ i)%Z →
  ∃ a b, s = a +:+ String c b ∧ has_char c b = false ∧ go_len a = i.
Proof.
  revert i. induction s as [|c' s IH]; intros i; simpl; [lia|].
  pose proof (last_index_byte_bound s c).
  case_decide as Hi; [case_decide as Hc|]; intros <-; try lia; intros _.
  - subst c'. exists "", s. split; [done|]. split; [|done]. by apply last_index_byte_none.
  - destruct (IH (last_index_byte s c)) as (a & b & -> & Hb & Ha); [done|lia|].
    exists (String c' a), b. split; [done|]. split; [done|]. unfold go_len in *. simpl. lia.
Qed.

Lemma index_byte_absent s c : has_char c s = false → index_byte s c = (-1)%Z.
Proof.
  induction s as [|c' s IH]; simpl; [done|]. intros [Hc Hs]%orb_false_iff.
  apply bool_decide_eq_false in Hc. by rewrite decide_False, IH, decide_True.
Qed.

Lemma index_byte_app a b c :
  has_char c a = false → index_byte (a +:+ String c b) c = go_len a.
Proof.
  intros Ha. unfold go_len. induction a as [|x a IH].
  - simpl. by rewrite decide_True.
  - rewrite str_app_cons. simpl in *. apply orb_false_iff in Ha as [Hc Ha].
    apply bool_decide_eq_false in Hc. rewrite IH by done.
    rewrite (decide_False (P:=c = x)) by done. rewrite decide_False by lia. lia.
Qed.

(** *** Decimal numerals *)

Lemma digits_value_nonneg s acc v : (0 ≤ acc)%Z → digits_value s acc = Some v → (0 ≤ v)%Z.
Proof.
  revert acc. induction s as [|c s IH]; simpl; intros acc Hacc Hv; [by simplify_eq|].
  destruct (is_digit c) eqn:Hd; [|done]. eapply IH; [|done].
  unfold is_digit in Hd. apply andb_true_iff in Hd as [Hd _]. apply Nat.leb_le in Hd. lia.
Qed.

Lemma parse_int32_range s v : parse_int32 s = Some v → (- 2 ^ 31 ≤ v < 2 ^ 31)%Z.
Proof.
  unfold parse_int32, parse_uint.
  set (p := match s with String "+" s' => _ | _ => _ end).
  destruct p as [neg body]. destruct body as [|c body]; [done|].
  destruct (digits_value _ 0) as [un|] eqn:Hun; [|done].
  apply digits_value_nonneg in Hun; [|done].
  destruct neg; [destruct (un >? 2 ^ 31)%Z eqn:E|destruct (un >=? 2 ^ 31)%Z eqn:E];
    intros ?; simplify_eq; lia.
Qed.

Create HintDb go_strings.
#[export] Hint Rewrite has_char_app all_chars_app str_length_app str_app_assoc
  slice_to_app slice_from_app : go_strings.
