(* ===== verification/ApiTypes.v ===== *)
(** * The API types

    [api/apps/v1alpha1/persistentpodstate_types.go] and its generated deep-copy functions
    ([zz_generated.deepcopy.go]), with the parts of the Kubernetes, KubeVirt and Calico
    object types that the program reads or writes.  A field of a foreign type that the
    program never touches is kept, with the others, in one opaque token ([opaque]), so that
    whole-object comparison and "nothing else changes" are about the whole object. *)
From S2P Require Export GoStrings.

Definition opaque : Type := string.
#[global] Instance opaque_eq_dec : EqDecision opaque.
Proof. unfold opaque. apply _. Defined.
#[global] Typeclasses Opaque opaque.

(** types.NamespacedName: (namespace, name) *)
Abbreviation NamespacedName := (string * string)%type.

(** ** metav1 *)
Record OwnerReference := mkOwnerReference {
  or_APIVersion : string; or_Kind : string; or_Name : string;
  or_Controller : option bool; or_UID : string }.

Record ObjectMeta := mkObjectMeta {
  om_Name : string; om_Namespace : string; om_UID : string; om_ResourceVersion : string;
  om_Labels : gomap string; om_Annotations : gomap string;
  om_OwnerReferences : list OwnerReference;
  om_rest : opaque }.

(** ** v1alpha1 *)
Definition AnnotationAutoGeneratePersistentPodState : string :=
  "clay.io/auto-generate-persistent-pod-state".
Definition AnnotationRequiredPersistentTopology : string :=
  "clay.io/required-persistent-topology".

Record TargetReference := mkTargetReference {
  tr_APIVersion : string; tr_Kind : string; tr_Name : string }.

Record PersistentPodAnnotation := mkPersistentPodAnnotation { ppa_Key : string }.

Record NodeTopologyTerm := mkNodeTopologyTerm { ntt_NodeTopologyKeys : option (list string) }.

Record PersistentPodStateSpec := mkPersistentPodStateSpec {
  ppss_TargetReference : TargetReference;
  ppss_PersistentPodAnnotations : option (list PersistentPodAnnotation);
  ppss_RequiredPersistentTopology : option NodeTopologyTerm }.

Record PodState := mkPodState {
  ps_NodeName : string;
  ps_NodeTopologyLabels : gomap string;
  ps_Annotations : gomap string;
  ps_PodIP : string }.

Record PersistentPodStateStatus := mkPersistentPodStateStatus {
  ppst_ObservedGeneration : Z;
  ppst_PodStates : gomap PodState }.

Record PersistentPodState := mkPersistentPodState {
  pps_ObjectMeta : ObjectMeta;
  pps_Spec : PersistentPodStateSpec;
  pps_Status : PersistentPodStateStatus }.

(** ** projectcalico v3: IPReservation is cluster scoped *)
Record IPReservation := mkIPReservation {
  ipr_ObjectMeta : ObjectMeta;
  ipr_ReservedCIDRs : option (list string);
  ipr_rest : opaque }.

(** ** core/v1 *)
Record NodeSelectorRequirement := mkNodeSelectorRequirement {
  nsr_Key : string; nsr_Operator : string; nsr_Values : list string }.
Record NodeSelectorTerm := mkNodeSelectorTerm {
  nst_MatchExpressions : list NodeSelectorRequirement;
  nst_MatchFields : list NodeSelectorRequirement }.
Record NodeSelector := mkNodeSelector { ns_NodeSelectorTerms : list NodeSelectorTerm }.
Record NodeAffinity := mkNodeAffinity {
  na_Required : option NodeSelector; na_Preferred : opaque }.
Record Affinity := mkAffinity {
  aff_NodeAffinity : option NodeAffinity;
  aff_PodAffinity : option opaque; aff_PodAntiAffinity : option opaque }.

Record Pod := mkPod {
  pod_ObjectMeta : ObjectMeta;
  pod_Affinity : option Affinity;
  pod_NodeName : string;
  pod_PodIP : string;
  pod_rest : opaque }.

(** ** apps/v1 *)
Record LabelSelector := mkLabelSelector { ls_MatchLabels : gomap string; ls_rest : opaque }.
Record StatefulSet := mkStatefulSet {
  sts_ObjectMeta : ObjectMeta; sts_Selector : option LabelSelector; sts_rest : opaque }.

(** ** kubevirt v1 *)
Record VirtualMachineInstanceNetworkInterface := mkVMIInterface { vif_IP : string; vif_rest : opaque }.
Record VirtualMachineInstance := mkVMI {
  vmi_ObjectMeta : ObjectMeta;
  vmi_Affinity : option Affinity;
  vmi_Interfaces : list VirtualMachineInstanceNetworkInterface;
  vmi_NodeName : string;
  vmi_rest : opaque }.

(** ** Equality is decidable: reflect.DeepEqual *)
#[global] Instance OwnerReference_eq_dec : EqDecision OwnerReference.
Proof. solve_decision. Defined.
#[global] Instance ObjectMeta_eq_dec : EqDecision ObjectMeta.
Proof. solve_decision. Defined.
#[global] Instance TargetReference_eq_dec : EqDecision TargetReference.
Proof. solve_decision. Defined.
#[global] Instance PersistentPodAnnotation_eq_dec : EqDecision PersistentPodAnnotation.
Proof. solve_decision. Defined.
#[global] Instance NodeTopologyTerm_eq_dec : EqDecision NodeTopologyTerm.
Proof. solve_decision. Defined.
#[global] Instance PersistentPodStateSpec_eq_dec : EqDecision PersistentPodStateSpec.
Proof. solve_decision. Defined.
#[global] Instance PodState_eq_dec : EqDecision PodState.
Proof. solve_decision. Defined.
#[global] Instance PersistentPodStateStatus_eq_dec : EqDecision PersistentPodStateStatus.
Proof. solve_decision. Defined.
#[global] Instance PersistentPodState_eq_dec : EqDecision PersistentPodState.
Proof. solve_decision. Defined.
#[global] Instance NodeSelectorRequirement_eq_dec : EqDecision NodeSelectorRequirement.
Proof. solve_decision. Defined.
#[global] Instance NodeSelectorTerm_eq_dec : EqDecision NodeSelectorTerm.
Proof. solve_decision. Defined.
#[global] Instance NodeSelector_eq_dec : EqDecision NodeSelector.
Proof. solve_decision. Defined.
#[global] Instance NodeAffinity_eq_dec : EqDecision NodeAffinity.
Proof. solve_decision. Defined.
#[global] Instance Affinity_eq_dec : EqDecision Affinity.
Proof. solve_decision. Defined.
#[global] Instance Pod_eq_dec : EqDecision Pod.
Proof. solve_decision. Defined.
#[global] Instance VMIInterface_eq_dec : EqDecision VirtualMachineInstanceNetworkInterface.
Proof. solve_decision. Defined.
#[global] Instance VMI_eq_dec : EqDecision VirtualMachineInstance.
Proof. solve_decision. Defined.

(** reflect.DeepEqual on two values of one of these types. *)
Definition DeepEqual {A} `{EqDecision A} (x y : A) : bool := bool_decide (x = y).

(** ** What the JSON tags of the types keep

    A status is stored as JSON and read back: a map tagged [omitempty] comes back nil when
    it is empty, everything else comes back as it was. *)
Definition omitempty_map {V} (m : gomap V) : gomap V :=
  match m with Some x => if decide (size x = 0) then None else Some x | None => None end.

Definition PodState_json (x : PodState) : PodState :=
  mkPodState (ps_NodeName x) (omitempty_map (ps_NodeTopologyLabels x))
    (omitempty_map (ps_Annotations x)) (ps_PodIP x).

Definition Status_json (x : PersistentPodStateStatus) : PersistentPodStateStatus :=
  mkPersistentPodStateStatus (ppst_ObservedGeneration x)
    (omitempty_map (match ppst_PodStates x with
                    | Some m => Some (PodState_json <$> m) | None => None end)).

(** The zero value of the status. *)
Definition Status_zero : PersistentPodStateStatus := mkPersistentPodStateStatus 0 None.

(** ** The generated deep copies

    On values (what the copy reads as); the loops are the generated ones: a nil map or
    slice stays nil, a non-nil one is rebuilt entry by entry. *)

(** make([]T, len(in)); copy(out, in) *)
Fixpoint copy_slice {A} (l : list A) : list A :=
  match l with [] => [] | x :: l' => x :: copy_slice l' end.

(** make(map[string]T, len(in)); for key, val := range in { out[key] = f val } *)
Definition copy_map {A} (f : A → A) (m : gmap string A) : gmap string A :=
  map_fold (λ k v out, <[k := f v]> out) ∅ m.

Definition NodeTopologyTerm_DeepCopy (x : NodeTopologyTerm) : NodeTopologyTerm :=
  mkNodeTopologyTerm
    (match ntt_NodeTopologyKeys x with None => None | Some l => Some (copy_slice l) end).

Definition TargetReference_DeepCopy (x : TargetReference) : TargetReference := x.
Definition PersistentPodAnnotation_DeepCopy (x : PersistentPodAnnotation) := x.

Definition PersistentPodStateSpec_DeepCopy (x : PersistentPodStateSpec) : PersistentPodStateSpec :=
  mkPersistentPodStateSpec
    (ppss_TargetReference x)
    (match ppss_PersistentPodAnnotations x with None => None | Some l => Some (copy_slice l) end)
    (match ppss_RequiredPersistentTopology x with
     | None => None
     | Some t => Some (NodeTopologyTerm_DeepCopy t)
     end).

Definition PodState_DeepCopy (x : PodState) : PodState :=
  mkPodState (ps_NodeName x)
    (match ps_NodeTopologyLabels x with None => None | Some m => Some (copy_map id m) end)
    (match ps_Annotations x with None => None | Some m => Some (copy_map id m) end)
    (ps_PodIP x).

Definition PersistentPodStateStatus_DeepCopy (x : PersistentPodStateStatus) : PersistentPodStateStatus :=
  mkPersistentPodStateStatus (ppst_ObservedGeneration x)
    (match ppst_PodStates x with
     | None => None
     | Some m => Some (copy_map PodState_DeepCopy m)
     end).

(** ** Lemmas *)

Lemma DeepEqual_true {A} `{EqDecision A} (x y : A) : DeepEqual x y = true ↔ x = y.
Proof. apply bool_decide_eq_true. Qed.
Lemma DeepEqual_eq {A} `{EqDecision A} (x y : A) : DeepEqual x y = true → x = y.
Proof. apply DeepEqual_true. Qed.
Lemma DeepEqual_ne {A} `{EqDecision A} (x y : A) : DeepEqual x y = false → x ≠ y.
Proof. apply bool_decide_eq_false. Qed.
Lemma DeepEqual_refl {A} `{EqDecision A} (x : A) : DeepEqual x x = true.
Proof. by apply DeepEqual_true. Qed.

Lemma copy_slice_id {A} (l : list A) : copy_slice l = l.
Proof. induction l; simpl; congruence. Qed.

Lemma copy_map_fmap {A} (f : A → A) (m : gmap string A) : copy_map f m = f <$> m.
Proof.
  unfold copy_map. induction m as [|k v m Hk IH] using map_ind.
  - by rewrite map_fold_empty, fmap_empty.
  - rewrite map_fold_insert_L; [|intros; by apply insert_insert_ne|done].
    by rewrite IH, fmap_insert.
Qed.

Lemma copy_map_id {A} (f : A → A) (m : gmap string A) : (∀ x, f x = x) → copy_map f m = m.
Proof.
  intros Hf. rewrite copy_map_fmap. apply map_eq. intros k. rewrite lookup_fmap.
  destruct (m !! k); simpl; by rewrite ?Hf.
Qed.

Lemma NodeTopologyTerm_DeepCopy_id x : NodeTopologyTerm_DeepCopy x = x.
Proof. destruct x as [[l|]]; unfold NodeTopologyTerm_DeepCopy; simpl; by rewrite ?copy_slice_id. Qed.

Lemma Spec_DeepCopy_id x : PersistentPodStateSpec_DeepCopy x = x.
Proof.
  destruct x as [t [l|] [r|]]; unfold PersistentPodStateSpec_DeepCopy; simpl;
    by rewrite ?copy_slice_id, ?NodeTopologyTerm_DeepCopy_id.
Qed.

Lemma PodState_DeepCopy_id x : PodState_DeepCopy x = x.
Proof.
  destruct x as [n [l|] [a|] ip]; unfold PodState_DeepCopy; simpl; by rewrite ?copy_map_id.
Qed.

Lemma Status_DeepCopy_id x : PersistentPodStateStatus_DeepCopy x = x.
Proof.
  destruct x as [g [m|]]; unfold PersistentPodStateStatus_DeepCopy; simpl; [|done].
  by rewrite copy_map_id by apply PodState_DeepCopy_id.
Qed.
#[export] Hint Rewrite Spec_DeepCopy_id Status_DeepCopy_id PodState_DeepCopy_id : go_strings.
