(* ===== verification/GoHeap.v ===== *)
(** * Values behind pointers

    A heap of objects of a type [O]; readers, which follow pointers from a value and
    return what it reads as, with the locations visited; and what it means that an
    operation makes a copy: the copy reads the same, the old heap is untouched, and the
    copy visits no location of it. *)
From S2P Require Export Prelude.

Abbreviation loc := positive.

Section heap.
Context {O : Type}.
Abbreviation heap := (gmap loc O).

(** ** Operations *)
Definition hp_alloc (o : O) : GoM heap loc := λ h,
  let l := fresh (dom h) in (Ret l, <[l := o]> h).
Definition hp_load (l : loc) : GoM heap O := λ h,
  match h !! l with
  | Some o => (Ret o, h)
  | None => (Panic "invalid memory address or nil pointer dereference", h)
  end.
Definition hp_store (l : loc) (o : O) : GoM heap () := λ h, (Ret (), <[l := o]> h).

(** if x != nil { … } over a field *)
Definition if_set {X} (copy : X → GoM heap X) (x : option X) : GoM heap (option X) :=
  match x with None => go_ret None | Some x => let! x' := copy x in go_ret (Some x') end.

(** ** Readers *)
Definition reader (A : Type) : Type := heap → option (A * gset loc).
Definition rd_ret {A} (a : A) : reader A := λ _, Some (a, ∅).
Definition rd_bind {A B} (m : reader A) (k : A → reader B) : reader B := λ h,
  '(a, s) ← m h; '(b, t) ← k a h; Some (b, s ∪ t).
(** The object at [l], as [f] sees it. *)
Definition rd_at {A} (f : O → option A) (l : loc) : reader A := λ h,
  o ← h !! l; a ← f o; Some (a, {[l]}).
(** A pointer that may be nil. *)
Definition rd_opt {X A} (f : X → reader A) (x : option X) : reader (option A) :=
  match x with None => rd_ret None | Some x => rd_bind (f x) (λ a, rd_ret (Some a)) end.
Fixpoint rd_list {X A} (f : X → reader A) (l : list X) : reader (list A) :=
  match l with
  | [] => rd_ret []
  | x :: l => rd_bind (f x) (λ a, rd_bind (rd_list f l) (λ l, rd_ret (a :: l)))
  end.
(** All values of a map. *)
Definition rd_map {X A} (f : X → reader A) (m : gmap string X) : reader (gmap string A) := λ h,
  let results := (λ x, f x h) <$> m in
  if decide (map_Forall (λ _ r, is_Some r) results)
  then Some (omap (fmap fst) results, ⋃ ((λ kr, default ∅ (snd <$> kr.2)) <$> map_to_list results))
  else None.

(** A reader looks at no more than it says. *)
Definition local {A} (m : reader A) : Prop := ∀ h h' a s,
  m h = Some (a, s) → s ⊆ dom h ∧ ((∀ l, l ∈ s → h' !! l = h !! l) → m h' = Some (a, s)).

Lemma local_ret {A} (a : A) : local (rd_ret a).
Proof. intros h h' b s [= <- <-]. split; [set_solver|done]. Qed.

Lemma rd_bind_inv {A B} (m : reader A) (k : A → reader B) h b s :
  rd_bind m k h = Some (b, s) → ∃ a s1 s2, m h = Some (a, s1) ∧ k a h = Some (b, s2) ∧ s = s1 ∪ s2.
Proof.
  unfold rd_bind. intros ([a s1] & Hm & Hk)%bind_Some. apply bind_Some in Hk as ([b' s2] & Hk & Heq).
  injection Heq as <- <-. by exists a, s1, s2.
Qed.

Lemma rd_bind_intro {A B} (m : reader A) (k : A → reader B) h a s1 b s2 :
  m h = Some (a, s1) → k a h = Some (b, s2) → rd_bind m k h = Some (b, s1 ∪ s2).
Proof. unfold rd_bind. intros -> Hk. cbn. by rewrite Hk. Qed.

Lemma local_bind {A B} (m : reader A) (k : A → reader B) :
  local m → (∀ a, local (k a)) → local (rd_bind m k).
Proof.
  intros Hm Hk h h' b s (a & s1 & s2 & Ha & Hb & ->)%rd_bind_inv.
  destruct (Hm h h' a s1 Ha) as [? Hm']. destruct (Hk a h h' b s2 Hb) as [? Hk']. split; [set_solver|].
  intros Hag. eapply rd_bind_intro; [apply Hm'|apply Hk']; intros l Hl; apply Hag; set_solver.
Qed.

Lemma local_at {A} (f : O → option A) l : local (rd_at f l).
Proof.
  unfold rd_at. intros h h' a s (o & Ho & Hf)%bind_Some. apply bind_Some in Hf as (a' & Hf & Heq).
  injection Heq as <- <-. split; [apply singleton_subseteq_l, elem_of_dom; by eexists|].
  intros Hag. rewrite Hag by set_solver. rewrite Ho. cbn. by rewrite Hf.
Qed.

Lemma local_opt {X A} (f : X → reader A) x : (∀ x, local (f x)) → local (rd_opt f x).
Proof. intros Hf. destruct x; [|apply local_ret]. apply local_bind; [done|intros; apply local_ret]. Qed.

Lemma local_list {X A} (f : X → reader A) l : (∀ x, local (f x)) → local (rd_list f l).
Proof.
  intros Hf. induction l as [|x l IH]; [apply local_ret|].
  apply local_bind; [done|]. intros a. apply local_bind; [done|]. intros l'. apply local_ret.
Qed.

(** ** Copies *)
Definition copies {X A} (read : X → reader A) (copy : X → GoM heap X) : Prop := ∀ x h a s,
  read x h = Some (a, s) →
  wp (copy x) (λ x' h', h ⊆ h' ∧ ∃ s', read x' h' = Some (a, s') ∧ s' ## dom h) h.

Lemma local_extend {A} (m : reader A) h h' a s : local m → m h = Some (a, s) → h ⊆ h' → m h' = Some (a, s).
Proof.
  intros Hm Ha Hsub. destruct (Hm h h' a s Ha) as [Hdom Hag]. apply Hag. intros l Hl.
  apply Hdom, elem_of_dom in Hl as [o Ho]. transitivity (Some o); [by eapply lookup_weaken|done].
Qed.

Lemma alloc_wp (o : O) h (Q : loc → heap → Prop) :
  (∀ l, l ∉ dom h → Q l (<[l := o]> h)) → wp (hp_alloc o) Q h.
Proof. intros HQ. apply HQ, is_fresh. Qed.

Lemma hp_load_wp (l : loc) o h (Q : O → heap → Prop) : h !! l = Some o → Q o h → wp (hp_load l) Q h.
Proof. unfold wp, hp_load. by intros ->. Qed.

Lemma extend_insert (h : heap) l o : l ∉ dom h → h ⊆ <[l := o]> h.
Proof. intros Hl. by apply insert_subseteq, not_elem_of_dom. Qed.

Lemma copies_opt {X A} (read : X → reader A) (copy : X → GoM heap X) :
  copies read copy →
  copies (rd_opt read) (if_set copy).
Proof.
  intros Hc [x|] h a s Hr; [|apply wp_ret; split; [done|exists ∅; injection Hr as <- <-; by split]].
  apply rd_bind_inv in Hr as (b & s1 & s2 & Hb & Hr & ->). injection Hr as <- <-.
  apply wp_bind. eapply wp_mono; [by apply (Hc x h b s1)|]. intros x' h' (Hsub & s' & Hread & Hdis). apply wp_ret.
  split; [done|]. exists (s' ∪ ∅). split; [by eapply rd_bind_intro|set_solver].
Qed.

(** One field after another. *)
Lemma copies_then {X A} (read : X → reader A) (copy : X → GoM heap X) x h h1 a s :
  copies read copy → local (read x) → read x h = Some (a, s) → h ⊆ h1 →
  wp (copy x) (λ x' h', h ⊆ h' ∧ h1 ⊆ h' ∧ ∃ s', read x' h' = Some (a, s') ∧ s' ## dom h ∧ s' ## dom h1) h1.
Proof.
  intros Hc Hl Hr Hsub. eapply wp_mono; [apply (Hc x h1 a s); by eapply local_extend|].
  intros x' h' (Hsub' & s' & Hread & Hdis). split; [by etrans|]. split; [done|]. exists s'.
  apply subseteq_dom in Hsub. split; [done|]. split; [set_solver|done].
Qed.

Lemma read_store_other {A} (m : reader A) h l o a s :
  local m → m h = Some (a, s) → l ∉ s → m (<[l := o]> h) = Some (a, s).
Proof.
  intros Hm Ha Hl. destruct (Hm h (<[l := o]> h) a s Ha) as [_ Hag]. apply Hag.
  intros l' Hl'. apply lookup_insert_ne. intros ->. done.
Qed.

Lemma subseteq_store (h0 h : heap) l o : h0 ⊆ h → l ∉ dom h0 → h0 ⊆ <[l := o]> h.
Proof. intros Hsub Hl. apply insert_subseteq_r; [by apply not_elem_of_dom|done]. Qed.

(** ** Reading maps *)
Lemma rd_map_spec {X A} (f : X → reader A) m h am s :
  rd_map f m h = Some (am, s) ↔
    (∀ k, match m !! k with
      | Some x => ∃ a t, f x h = Some (a, t) ∧ am !! k = Some a
      | None => am !! k = None end) ∧
    ∀ l, l ∈ s ↔ ∃ k x a t, m !! k = Some x ∧ f x h = Some (a, t) ∧ l ∈ t.
Proof.
  unfold rd_map. set (results := (λ x, f x h) <$> m).
  assert (∀ k, results !! k = (λ x, f x h) <$> (m !! k)) as Hres by (intros; apply lookup_fmap).
  assert (∀ l, l ∈ ⋃ ((λ kr, default ∅ (snd <$> kr.2)) <$> map_to_list results) ↔
    ∃ k x a t, m !! k = Some x ∧ f x h = Some (a, t) ∧ l ∈ t) as Hset.
  { intros l. rewrite elem_of_union_list. split.
    - intros (t & ([k r] & -> & Hk%elem_of_map_to_list)%list_elem_of_fmap & Hl). rewrite Hres in Hk.
      destruct (m !! k) as [x|] eqn:Hx; [|done]. injection Hk as <-. cbn in Hl.
      destruct (f x h) as [[a t]|] eqn:Hf; [|set_solver]. by exists k, x, a, t.
    - intros (k & x & a & t & Hk & Hf & Hl). exists t. split; [|done]. apply list_elem_of_fmap.
      exists (k, Some (a, t)). split; [done|]. apply elem_of_map_to_list. by rewrite Hres, Hk, <-Hf. }
  case_decide as Hall.
  - split.
    + intros [= <- <-]. split; [|done]. intros k. specialize (Hres k). rewrite lookup_omap, Hres.
      destruct (m !! k) as [x|] eqn:Hx; [|done]. cbn in *. apply Hall in Hres as [[a t] Hf].
      exists a, t. by rewrite Hf.
    + intros [Hk Hs]. f_equal. f_equal; [|apply set_eq; intros l; by rewrite Hset, Hs].
      apply map_eq. intros k. rewrite lookup_omap, Hres. specialize (Hk k).
      destruct (m !! k) as [x|]; [|done]. destruct Hk as (a & t & Hf & ->). cbn. by rewrite Hf.
  - split; [done|]. intros [Hk _]. destruct Hall. intros k r Hr. rewrite Hres in Hr. specialize (Hk k).
    destruct (m !! k) as [x|]; [|done]. destruct Hk as (a & t & Hf & _). injection Hr as <-. rewrite Hf. by eexists.
Qed.

Lemma local_map {X A} (f : X → reader A) m : (∀ x, local (f x)) → local (rd_map f m).
Proof.
  intros Hf h h' am s [Hk Hs]%rd_map_spec. split.
  - intros l (k & x & a & t & _ & Hx & Hl)%Hs. by apply (Hf x h h a t Hx).
  - intros Hag. assert (∀ k x a t, m !! k = Some x → f x h = Some (a, t) → f x h' = Some (a, t)) as Hkeep.
    { intros k x a t Hx Ha. apply (Hf x h h' a t Ha). intros l Hl. apply Hag, Hs. by exists k, x, a, t. }
    apply rd_map_spec. split.
    + intros k. specialize (Hk k). destruct (m !! k) as [x|] eqn:Hx; [|done].
      destruct Hk as (a & t & Ha & ?). exists a, t. split; [by eapply Hkeep|done].
    + intros l. rewrite Hs. split; intros (k & x & a & t & Hx & Ha & Hl); exists k, x.
      * exists a, t. split; [done|]. split; [by eapply Hkeep|done].
      * specialize (Hk k). rewrite Hx in Hk. destruct Hk as (a' & t' & Ha' & _).
        pose proof (Hkeep k x a' t' Hx Ha') as Ha''. rewrite Ha in Ha''. injection Ha'' as <- <-. by exists a, t.
Qed.

Lemma rd_map_pure {A} (m : gmap string A) h : rd_map rd_ret m h = Some (m, ∅).
Proof.
  apply rd_map_spec. split.
  - intros k. destruct (m !! k) as [x|]; [|done]. by exists x, ∅.
  - intros l. split; [set_solver|]. intros (k & x & a & t & _ & [= <- <-] & Hl). set_solver.
Qed.

Lemma rd_map_empty {X A} (f : X → reader A) h : rd_map f ∅ h = Some (∅, ∅).
Proof. done. Qed.

(** One more entry. *)
Lemma rd_map_insert {X A} (f : X → reader A) m h am s k x a t :
  rd_map f m h = Some (am, s) → m !! k = None → f x h = Some (a, t) →
  rd_map f (<[k := x]> m) h = Some (<[k := a]> am, t ∪ s).
Proof.
  intros [Hk Hs]%rd_map_spec Hnone Ha. apply rd_map_spec. split.
  - intros k'. specialize (Hk k'). destruct (decide (k = k')) as [<-|Hne].
    + rewrite !lookup_insert_eq. by exists a, t.
    + by rewrite !lookup_insert_ne.
  - intros l. rewrite elem_of_union, Hs. split.
    + intros [Hl|(k' & x' & a' & t' & Hx & Ha' & Hl)].
      * exists k, x, a, t. by rewrite lookup_insert_eq.
      * exists k', x', a', t'. rewrite lookup_insert_ne; [done|]. intros <-. by rewrite Hnone in Hx.
    + intros (k' & x' & a' & t' & [[<- <-]|[Hne Hx]]%lookup_insert_Some & Ha' & Hl).
      * rewrite Ha in Ha'. injection Ha' as <- <-. by left.
      * right. by exists k', x', a', t'.
Qed.

Lemma rd_map_lookup {X A} (f : X → reader A) m h am s k x :
  rd_map f m h = Some (am, s) → m !! k = Some x →
  ∃ a t, f x h = Some (a, t) ∧ am !! k = Some a ∧ t ⊆ s.
Proof.
  intros [Hk Hs]%rd_map_spec Hx. specialize (Hk k). rewrite Hx in Hk. destruct Hk as (a & t & Ha & Hak).
  exists a, t. split; [done|]. split; [done|]. intros l Hl. apply Hs. by exists k, x, a, t.
Qed.

(** ** Copying a map and a slice *)
Lemma copies_ret {A} : copies (rd_ret (A := A)) go_ret.
Proof. intros x h a s [= <- <-]. apply wp_ret. split; [done|]. by exists ∅. Qed.

Section containers.
Context {X A : Type} (read : X → reader A) (copy : X → GoM heap X).
Hypothesis read_local : ∀ x, local (read x).
Hypothesis copy_copies : copies read copy.

Section maps.
(** The objects that are maps of [X]s, and the order of range. *)
Context (get : O → option (gmap string X)) (put : gmap string X → O).
Hypothesis get_put : ∀ m, get (put m) = Some m.
Context (range : gmap string X → list (string * X)).
Hypothesis range_perm : ∀ m, range m ≡ₚ map_to_list m.

Definition hp_load_as {Y} (f : O → option Y) (l : loc) : GoM heap Y :=
  let! o := hp_load l in
  match f o with Some y => go_ret y | None => go_panic "an object of another type" end.

(** out := make(map[string]X, len(in)); for key, val := range in { out[key] = copy(val) } *)
Definition copy_entry (out : loc) (kv : string * X) (_ : ()) : GoM heap () :=
  let! v := copy kv.2 in
  let! m := hp_load_as get out in
  hp_store out (put (<[kv.1 := v]> m)).
Definition copy_map_at (l : loc) : GoM heap loc :=
  let! m := hp_load_as get l in
  let! out := hp_alloc (put ∅) in
  do! go_for (copy_entry out) (range m) () in
  go_ret out.

Definition rd_map_at (l : loc) : reader (gmap string A) := rd_bind (rd_at get l) (rd_map read).

Lemma load_as_wp {Y} (f : O → option Y) l o y h (Q : Y → heap → Prop) :
  h !! l = Some o → f o = Some y → Q y h → wp (hp_load_as f l) Q h.
Proof.
  intros Ho Hy HQ. apply wp_bind. eapply hp_load_wp; [done|]. rewrite Hy. by apply wp_ret.
Qed.

Lemma rd_at_inv {Y} (f : O → option Y) l h y s :
  rd_at f l h = Some (y, s) → s = {[l]} ∧ ∃ o, h !! l = Some o ∧ f o = Some y.
Proof.
  unfold rd_at. intros (o & Ho & Hf)%bind_Some. apply bind_Some in Hf as (y' & Hy & Heq).
  injection Heq as <- <-. split; [done|]. by exists o.
Qed.

Lemma rd_at_intro {Y} (f : O → option Y) l h o y : h !! l = Some o → f o = Some y → rd_at f l h = Some (y, {[l]}).
Proof. unfold rd_at. intros -> Hf. cbn. by rewrite Hf. Qed.

(** Between two turns: the entries of [rest] are still to be copied. *)
Definition map_copied (h0 : heap) (out : loc) (am : gmap string A) (rest : list (string * X)) (h : heap) : Prop :=
  h0 ⊆ h ∧ NoDup rest.*1 ∧
  (∀ k x, (k, x) ∈ rest → ∃ a t, read x h0 = Some (a, t) ∧ am !! k = Some a) ∧
  ∃ m done s, h !! out = Some (put m) ∧ rd_map read m h = Some (done, s) ∧ s ## dom h0 ∧ out ∉ s ∧
    ∀ k, done !! k = if decide (k ∈ rest.*1) then None else am !! k.

Lemma copy_entry_wp h0 out am kv rest h :
  out ∉ dom h0 → map_copied h0 out am (kv :: rest) h →
  wp (copy_entry out kv ()) (λ _ h', map_copied h0 out am rest h') h.
Proof.
  destruct kv as [k x]. intros Hout (Hsub & [Hk Hnd]%NoDup_cons & Hrest & m & done & s & Hm & Hread & Hdis & Hos & Hdone).
  destruct (Hrest k x) as (a & t & Hx & Hak); [left|]. cbn [fst snd] in *.
  apply wp_bind. eapply wp_mono; [apply (copy_copies x h a t); by eapply local_extend|].
  intros x' h1 (Hsub1 & t' & Hx' & Ht'). pose proof (lookup_weaken _ _ _ _ Hm Hsub1) as Hm1.
  assert (out ∈ dom h) as Hin by (apply elem_of_dom; by eexists).
  apply wp_bind. eapply load_as_wp; [done|apply get_put|]. unfold wp, hp_store.
  assert (m !! k = None) as Hnone.
  { destruct (m !! k) as [y|] eqn:Hy; [|done]. destruct (rd_map_lookup _ _ _ _ _ _ _ Hread Hy) as (b & ? & _ & Hb & _).
    rewrite Hdone in Hb. by rewrite decide_True in Hb by left. }
  pose proof (subseteq_dom _ _ Hsub) as Hdom.
  split; [apply subseteq_store; [by etrans|done]|]. split; [done|]. split; [intros k' y' Hy'; apply Hrest; by right|].
  exists (<[k := x']> m), (<[k := a]> done), (t' ∪ s). split; [apply lookup_insert_eq|].
  assert (out ∉ t') as Hot by set_solver.
  split.
  { apply rd_map_insert; [|done|by apply read_store_other].
    apply read_store_other; [by apply local_map| |done]. by eapply local_extend; [apply local_map|..]. }
  split; [set_solver|]. split; [set_solver|]. intros k'. destruct (decide (k = k')) as [<-|Hne].
  - by rewrite lookup_insert_eq, decide_False.
  - rewrite lookup_insert_ne, Hdone by done. destruct (decide (k' ∈ rest.*1)) as [Hin'|Hin'].
    + by rewrite decide_True by by right.
    + rewrite decide_False; [done|]. intros [->|?]%elem_of_cons; done.
Qed.

Lemma copies_map : copies rd_map_at copy_map_at.
Proof.
  intros l h am s Hr. apply rd_bind_inv in Hr as (m & s1 & s2 & (-> & o & Ho & Hget)%rd_at_inv & Hm & ->).
  apply wp_bind. eapply load_as_wp; [done..|]. apply wp_bind, alloc_wp. intros out Hout. apply wp_bind.
  pose proof (extend_insert h out (put ∅) Hout) as Hsub. eapply wp_mono.
  { apply (wp_for (copy_entry out) (λ rest _ h', map_copied h out am rest h')).
    - split; [done|]. split; [rewrite range_perm; apply NoDup_fst_map_to_list|]. split.
      + intros k x. rewrite range_perm, elem_of_map_to_list. intros Hx.
        destruct (rd_map_lookup _ _ _ _ _ _ _ Hm Hx) as (a & t & Ha & Hak & _). by exists a, t.
      + exists ∅, ∅, ∅. split; [apply lookup_insert_eq|]. split; [by apply rd_map_empty|].
        split; [set_solver|]. split; [set_solver|]. intros k. rewrite lookup_empty. apply rd_map_spec in Hm as [Hm _].
        specialize (Hm k). destruct (m !! k) as [x|] eqn:Hx.
        * rewrite decide_True; [done|]. rewrite range_perm. apply list_elem_of_fmap. exists (k, x).
          split; [done|]. by apply elem_of_map_to_list.
        * by case_decide.
    - intros kv rest [] h'. by apply copy_entry_wp. }
  intros [] h' (Hsub' & _ & _ & m' & done & s' & Hm' & Hread & Hdis & _ & Hdone). apply wp_ret.
  split; [done|]. exists ({[out]} ∪ s'). split; [|set_solver].
  eapply rd_bind_intro; [by apply rd_at_intro with (put m')|]. rewrite Hread. f_equal. f_equal.
  apply map_eq. intros k. rewrite Hdone. by rewrite decide_False by apply not_elem_of_nil.
Qed.
End maps.

Section slices.
(** The backing arrays that are slices of [X]s. *)
Context (get : O → option (list X)) (put : list X → O) (zero : X).
Hypothesis get_put : ∀ xs, get (put xs) = Some xs.

(** out := make([]X, len(in)); for i := range in { out[i] = copy(in[i]) } *)
Definition copy_item (l out : loc) (i : nat) (_ : ()) : GoM heap () :=
  let! xs := hp_load_as get l in
  match xs !! i with
  | None => go_panic "index out of range"
  | Some x =>
      let! x' := copy x in
      let! ys := hp_load_as get out in
      if decide (i < length ys) then hp_store out (put (<[i := x']> ys)) else go_panic "index out of range"
  end.
Definition copy_slice_at (l : loc) : GoM heap loc :=
  let! xs := hp_load_as get l in
  let! out := hp_alloc (put (replicate (length xs) zero)) in
  do! go_for (copy_item l out) (seq 0 (length xs)) () in
  go_ret out.

Definition rd_slice_at (l : loc) : reader (list A) := rd_bind (rd_at get l) (rd_list read).

Lemma rd_list_app xs ys h as1 s1 as2 s2 :
  rd_list read xs h = Some (as1, s1) → rd_list read ys h = Some (as2, s2) →
  rd_list read (xs ++ ys) h = Some (as1 ++ as2, s1 ∪ s2).
Proof.
  revert as1 s1. induction xs as [|x xs IH]; intros as1 s1 Hxs Hys.
  - injection Hxs as <- <-. by rewrite (left_id_L ∅ (∪)).
  - apply rd_bind_inv in Hxs as (a & t & u & Ha & Hxs & ->).
    apply rd_bind_inv in Hxs as (as' & v & z & Has & Hret & ->). injection Hret as <- <-.
    rewrite (right_id_L ∅ (∪)), <-(assoc_L (∪)). cbn [app rd_list].
    eapply rd_bind_intro; [done|]. rewrite <-(right_id_L ∅ (∪) (v ∪ s2)).
    eapply rd_bind_intro; [by apply IH|done].
Qed.

Lemma rd_list_lookup xs h ads s i x :
  rd_list read xs h = Some (ads, s) → xs !! i = Some x → ∃ a t, read x h = Some (a, t) ∧ ads !! i = Some a.
Proof.
  revert ads s i. induction xs as [|y xs IH]; intros ads s i Hxs Hi; [done|].
  apply rd_bind_inv in Hxs as (a & t & u & Ha & Hxs & ->).
  apply rd_bind_inv in Hxs as (as' & v & z & Has & Hret & ->). injection Hret as <- <-.
  destruct i as [|i]; [injection Hi as <-; by exists a, t|]. exact (IH _ _ i Has Hi).
Qed.

Lemma rd_list_length xs h ads s : rd_list read xs h = Some (ads, s) → length ads = length xs.
Proof.
  revert ads s. induction xs as [|y xs IH]; intros ads s Hxs; [by injection Hxs as <- <-|].
  apply rd_bind_inv in Hxs as (a & t & u & Ha & Hxs & ->).
  apply rd_bind_inv in Hxs as (as' & v & z & Has & Hret & ->). injection Hret as <- <-. cbn. f_equal. by eapply IH.
Qed.

(** Between two turns: the first [length ys] items are copied. *)
Definition slice_copied (h0 : heap) (l out : loc) (xs : list X) (ads : list A) (rest : list nat) (h : heap) : Prop :=
  h0 ⊆ h ∧ ∃ ys s, rest = seq (length ys) (length xs - length ys) ∧ length ys ≤ length xs ∧
    h !! out = Some (put (ys ++ replicate (length xs - length ys) zero)) ∧
    rd_list read ys h = Some (take (length ys) ads, s) ∧ s ## dom h0 ∧ out ∉ s.

Lemma copy_item_wp h0 l out xs ads s0 o i rest h :
  h0 !! l = Some o → get o = Some xs → rd_list read xs h0 = Some (ads, s0) → out ∉ dom h0 →
  slice_copied h0 l out xs ads (i :: rest) h →
  wp (copy_item l out i ()) (λ _ h', slice_copied h0 l out xs ads rest h') h.
Proof.
  intros Ho Hget Hads Hout (Hsub & ys & s & Hseq & Hle & Hy & Hread & Hdis & Hos).
  destruct (length xs - length ys) as [|n] eqn:Hn; [done|]. injection Hseq as -> ->.
  destruct (lookup_lt_is_Some_2 xs (length ys)) as [x Hx]; [lia|].
  destruct (rd_list_lookup _ _ _ _ _ _ Hads Hx) as (a & t & Ha & Hai).
  apply wp_bind. eapply load_as_wp; [by eapply lookup_weaken|done|]. rewrite Hx.
  apply wp_bind. eapply wp_mono; [apply (copy_copies x h a t); by eapply local_extend|].
  intros x' h1 (Hsub1 & t' & Hx' & Ht'). apply wp_bind. eapply load_as_wp; [by eapply lookup_weaken|apply get_put|].
  assert (out ∈ dom h) as Hin by (apply elem_of_dom; by eexists).
  rewrite decide_True by (rewrite length_app, length_replicate; lia). unfold wp, hp_store.
  pose proof (subseteq_dom _ _ Hsub) as Hdom. assert (out ∉ t') as Hot by set_solver.
  split; [apply subseteq_store; [by etrans|done]|]. exists (ys ++ [x']), (s ∪ (t' ∪ ∅)).
  rewrite length_app. cbn [length]. replace (length xs - (length ys + 1)) with n by lia.
  split; [by rewrite Nat.add_comm|]. split; [lia|]. split.
  { rewrite lookup_insert_eq, <-(Nat.add_0_r (length ys)), insert_app_r. cbn. by rewrite <-app_assoc. }
  split.
  { rewrite Nat.add_1_r. erewrite take_S_r by exact Hai. apply rd_list_app.
    - apply read_store_other; [by apply local_list| |done]. by eapply local_extend; [apply local_list|..].
    - cbn. eapply rd_bind_intro; [by apply read_store_other|done]. }
  split; set_solver.
Qed.

Lemma copies_slice : copies rd_slice_at copy_slice_at.
Proof.
  intros l h ads s Hr. apply rd_bind_inv in Hr as (xs & s1 & s2 & (-> & o & Ho & Hget)%rd_at_inv & Hxs & ->).
  apply wp_bind. eapply load_as_wp; [done..|]. apply wp_bind, alloc_wp. intros out Hout. apply wp_bind.
  eapply wp_mono.
  { apply (wp_for (copy_item l out) (λ rest _ h', slice_copied h l out xs ads rest h')).
    - split; [by apply extend_insert|]. exists [], ∅. cbn. rewrite Nat.sub_0_r.
      split; [done|]. split; [lia|]. split; [apply lookup_insert_eq|]. split; [done|]. split; set_solver.
    - intros i rest [] h'. by eapply copy_item_wp. }
  intros [] h' (Hsub' & ys & s' & Hseq & Hle & Hy & Hread & Hdis & _). apply wp_ret.
  destruct (length xs - length ys) as [|n] eqn:Hn; [|done]. rewrite app_nil_r in Hy.
  split; [done|]. exists ({[out]} ∪ s'). split; [|set_solver].
  eapply rd_bind_intro; [by apply rd_at_intro with (put ys)|]. rewrite Hread, take_ge; [done|].
  rewrite (rd_list_length _ _ _ _ Hxs). lia.
Qed.
End slices.
End containers.
End heap.
Abbreviation heap := (gmap loc).
Arguments reader : clear implicits.
#[export] Hint Resolve local_ret local_bind local_at local_opt local_list local_map : rd_local.
