(* ===== verification/DeepCopy.v ===== *)
(** * The generated deep copies: [api/apps/v1alpha1/zz_generated.deepcopy.go]

    On a heap.  A struct is a record whose pointers, maps and slices are locations, nil or
    not; DeepCopyInto gives what it writes to [*out], which it overwrites as a whole.  The
    DeepCopyInto of metav1 is a parameter.  A type that does not fit what a location holds
    is a panic here, and excluded by Go's types. *)
From S2P Require Export GoHeap ApiTypes.

(** ** Structs on the heap *)
Record hNodeTopologyTerm := mkHTerm { h_NodeTopologyKeys : option loc }.
Record hSpec := mkHSpec {
  h_TargetReference : TargetReference;
  h_PersistentPodAnnotations : option loc;
  h_RequiredPersistentTopology : option loc }.
Record hPodState := mkHPodState {
  h_NodeName : string; h_NodeTopologyLabels : option loc; h_Annotations : option loc; h_PodIP : string }.
Record hStatus := mkHStatus { h_ObservedGeneration : Z; h_PodStates : option loc }.
Record hObjectMeta := mkHObjectMeta {
  h_Name : string; h_Namespace : string; h_UID : string; h_ResourceVersion : string;
  h_Labels : option loc; h_MetaAnnotations : option loc; h_OwnerReferences : option loc; h_rest : opaque }.
Record hListMeta := mkHListMeta { h_RemainingItemCount : option loc; h_list_rest : opaque }.
Record hState := mkHState { h_TypeMeta : opaque; h_ObjectMeta : hObjectMeta; h_Spec : hSpec; h_Status : hStatus }.
Record hStateList := mkHStateList { h_ListTypeMeta : opaque; h_ListMeta : hListMeta; h_Items : option loc }.

(** What a location holds. *)
Inductive Obj :=
| OStrings (l : list string)
| OPodAnnotations (l : list PersistentPodAnnotation)
| OPodAnnotation (x : PersistentPodAnnotation)
| OTargetReference (x : TargetReference)
| OOwners (l : list OwnerReference)
| OCount (z : Z)
| OStringMap (m : gmap string string)
| OPodStateMap (m : gmap string hPodState)
| OTerm (x : hNodeTopologyTerm)
| OPodState (x : hPodState)
| OSpec (x : hSpec)
| OStatus (x : hStatus)
| OItems (l : list hState)
| OState (x : hState)
| OStateList (x : hStateList).

Definition as_strings (o : Obj) := match o with OStrings l => Some l | _ => None end.
Definition as_pod_annotations (o : Obj) := match o with OPodAnnotations l => Some l | _ => None end.
Definition as_pod_annotation (o : Obj) := match o with OPodAnnotation x => Some x | _ => None end.
Definition as_target (o : Obj) := match o with OTargetReference x => Some x | _ => None end.
Definition as_owners (o : Obj) := match o with OOwners l => Some l | _ => None end.
Definition as_count (o : Obj) := match o with OCount z => Some z | _ => None end.
Definition as_string_map (o : Obj) := match o with OStringMap m => Some m | _ => None end.
Definition as_pod_states (o : Obj) := match o with OPodStateMap m => Some m | _ => None end.
Definition as_term (o : Obj) := match o with OTerm x => Some x | _ => None end.
Definition as_pod_state (o : Obj) := match o with OPodState x => Some x | _ => None end.
Definition as_spec (o : Obj) := match o with OSpec x => Some x | _ => None end.
Definition as_status (o : Obj) := match o with OStatus x => Some x | _ => None end.
Definition as_items (o : Obj) := match o with OItems l => Some l | _ => None end.
Definition as_state (o : Obj) := match o with OState x => Some x | _ => None end.
Definition as_state_list (o : Obj) := match o with OStateList x => Some x | _ => None end.

Abbreviation mem := (heap Obj).

(** The zero values new(T) and make([]T, n) give. *)
Definition zero_meta : hObjectMeta := mkHObjectMeta "" "" "" "" None None None "".
Definition zero_spec : hSpec := mkHSpec (mkTargetReference "" "" "") None None.
Definition zero_status : hStatus := mkHStatus 0 None.
Definition zero_state : hState := mkHState "" zero_meta zero_spec zero_status.

(** func (in *T) DeepCopy() *T, of the DeepCopyInto of T. *)
Definition DeepCopy_of {X} (get : Obj → option X) (put : X → Obj) (zero : X) (DeepCopyInto : X → GoM mem X)
    (inp : option loc) : GoM mem (option loc) :=
  match inp with
  | None => go_ret None
  | Some inp =>
      let! x := hp_load_as get inp in
      let! out := hp_alloc (put zero) in
      let! x' := DeepCopyInto x in
      do! hp_store out (put x') in
      go_ret (Some out)
  end.

Section deepcopy.
Variable range : ∀ {V}, gmap string V → list (string * V).
(** DeepCopyInto of metav1.ObjectMeta and metav1.ListMeta *)
Variable ObjectMeta_DeepCopyInto : hObjectMeta → GoM mem hObjectMeta.
Variable ListMeta_DeepCopyInto : hListMeta → GoM mem hListMeta.

(** out = make([]T, len(in)); copy(out, in) *)
Definition copy_into {X} (get : Obj → option (list X)) (put : list X → Obj) (zero : X) (l : loc) : GoM mem loc :=
  let! xs := hp_load_as get l in
  let! out := hp_alloc (put (replicate (length xs) zero)) in
  let! ys := hp_load_as get out in
  do! hp_store out (put (take (length ys) xs ++ drop (length xs) ys)) in
  go_ret out.

Definition hNodeTopologyTerm_DeepCopyInto (x : hNodeTopologyTerm) : GoM mem hNodeTopologyTerm :=
  let! keys := if_set (copy_into as_strings OStrings "") (h_NodeTopologyKeys x) in
  go_ret (mkHTerm keys).
Definition hNodeTopologyTerm_DeepCopy : option loc → GoM mem (option loc) :=
  DeepCopy_of as_term OTerm (mkHTerm None) hNodeTopologyTerm_DeepCopyInto.

Definition hPersistentPodAnnotation_DeepCopyInto (x : PersistentPodAnnotation) : GoM mem PersistentPodAnnotation :=
  go_ret x.
Definition hPersistentPodAnnotation_DeepCopy : option loc → GoM mem (option loc) :=
  DeepCopy_of as_pod_annotation OPodAnnotation (mkPersistentPodAnnotation "") hPersistentPodAnnotation_DeepCopyInto.

Definition hTargetReference_DeepCopyInto (x : TargetReference) : GoM mem TargetReference := go_ret x.
Definition hTargetReference_DeepCopy : option loc → GoM mem (option loc) :=
  DeepCopy_of as_target OTargetReference (mkTargetReference "" "" "") hTargetReference_DeepCopyInto.

(** The term is behind a pointer, which is not nil: *out = new(T); ( *in).DeepCopyInto( *out) *)
Definition copy_term (l : loc) : GoM mem loc :=
  let! out := hp_alloc (OTerm (mkHTerm None)) in
  let! x := hp_load_as as_term l in
  let! x' := hNodeTopologyTerm_DeepCopyInto x in
  do! hp_store out (OTerm x') in
  go_ret out.

Definition hSpec_DeepCopyInto (x : hSpec) : GoM mem hSpec :=
  let! annotations :=
    if_set (copy_into as_pod_annotations OPodAnnotations (mkPersistentPodAnnotation "")) (h_PersistentPodAnnotations x) in
  let! topology := if_set copy_term (h_RequiredPersistentTopology x) in
  go_ret (mkHSpec (h_TargetReference x) annotations topology).
Definition hSpec_DeepCopy : option loc → GoM mem (option loc) :=
  DeepCopy_of as_spec OSpec zero_spec hSpec_DeepCopyInto.

Definition copy_string_map : loc → GoM mem loc := copy_map_at go_ret as_string_map OStringMap (@range _).

Definition hPodState_DeepCopyInto (x : hPodState) : GoM mem hPodState :=
  let! labels := if_set copy_string_map (h_NodeTopologyLabels x) in
  let! annotations := if_set copy_string_map (h_Annotations x) in
  go_ret (mkHPodState (h_NodeName x) labels annotations (h_PodIP x)).
Definition hPodState_DeepCopy : option loc → GoM mem (option loc) :=
  DeepCopy_of as_pod_state OPodState (mkHPodState "" None None "") hPodState_DeepCopyInto.

(** *val.DeepCopy(), of the loop's variable: its address is taken *)
Definition copy_pod_state (val : hPodState) : GoM mem hPodState :=
  let! addr := hp_alloc (OPodState val) in
  let! out := hPodState_DeepCopy (Some addr) in
  match out with
  | Some out => hp_load_as as_pod_state out
  | None => go_panic "invalid memory address or nil pointer dereference"
  end.

Definition hStatus_DeepCopyInto (x : hStatus) : GoM mem hStatus :=
  let! states := if_set (copy_map_at copy_pod_state as_pod_states OPodStateMap (@range _)) (h_PodStates x) in
  go_ret (mkHStatus (h_ObservedGeneration x) states).
Definition hStatus_DeepCopy : option loc → GoM mem (option loc) :=
  DeepCopy_of as_status OStatus zero_status hStatus_DeepCopyInto.

Definition hState_DeepCopyInto (x : hState) : GoM mem hState :=
  let! meta := ObjectMeta_DeepCopyInto (h_ObjectMeta x) in
  let! spec := hSpec_DeepCopyInto (h_Spec x) in
  let! status := hStatus_DeepCopyInto (h_Status x) in
  go_ret (mkHState (h_TypeMeta x) meta spec status).
Definition hState_DeepCopy : option loc → GoM mem (option loc) :=
  DeepCopy_of as_state OState zero_state hState_DeepCopyInto.

Definition hStateList_DeepCopyInto (x : hStateList) : GoM mem hStateList :=
  let! meta := ListMeta_DeepCopyInto (h_ListMeta x) in
  let! items := if_set (copy_slice_at hState_DeepCopyInto as_items OItems zero_state) (h_Items x) in
  go_ret (mkHStateList (h_ListTypeMeta x) meta items).
Definition hStateList_DeepCopy : option loc → GoM mem (option loc) :=
  DeepCopy_of as_state_list OStateList (mkHStateList "" (mkHListMeta None "") None) hStateList_DeepCopyInto.

(** func (in *T) DeepCopyObject() runtime.Object: a nil pointer gives a nil interface, not an
    interface that holds a nil pointer. *)
Inductive RuntimeObject := StatePointer (p : option loc) | StateListPointer (p : option loc).
Definition hState_DeepCopyObject (inp : option loc) : GoM mem (option RuntimeObject) :=
  let! c := hState_DeepCopy inp in
  go_ret (match c with Some c => Some (StatePointer (Some c)) | None => None end).
Definition hStateList_DeepCopyObject (inp : option loc) : GoM mem (option RuntimeObject) :=
  let! c := hStateList_DeepCopy inp in
  go_ret (match c with Some c => Some (StateListPointer (Some c)) | None => None end).
End deepcopy.

(** ** What a value on the heap reads as *)
Abbreviation rd := (reader Obj).
Definition rd_term (x : hNodeTopologyTerm) : rd NodeTopologyTerm :=
  rd_bind (rd_opt (rd_at as_strings) (h_NodeTopologyKeys x)) (λ keys, rd_ret (mkNodeTopologyTerm keys)).
Definition rd_term_at (l : loc) : rd NodeTopologyTerm := rd_bind (rd_at as_term l) rd_term.
Definition rd_spec (x : hSpec) : rd PersistentPodStateSpec :=
  rd_bind (rd_opt (rd_at as_pod_annotations) (h_PersistentPodAnnotations x)) (λ annotations,
  rd_bind (rd_opt rd_term_at (h_RequiredPersistentTopology x)) (λ topology,
  rd_ret (mkPersistentPodStateSpec (h_TargetReference x) annotations topology))).
Definition rd_string_map : loc → rd (gmap string string) := rd_map_at rd_ret as_string_map.
Definition rd_pod_state (x : hPodState) : rd PodState :=
  rd_bind (rd_opt rd_string_map (h_NodeTopologyLabels x)) (λ labels,
  rd_bind (rd_opt rd_string_map (h_Annotations x)) (λ annotations,
  rd_ret (mkPodState (h_NodeName x) labels annotations (h_PodIP x)))).
Definition rd_status (x : hStatus) : rd PersistentPodStateStatus :=
  rd_bind (rd_opt (rd_map_at rd_pod_state as_pod_states) (h_PodStates x)) (λ states,
  rd_ret (mkPersistentPodStateStatus (h_ObservedGeneration x) states)).
Definition rd_meta (x : hObjectMeta) : rd ObjectMeta :=
  rd_bind (rd_opt rd_string_map (h_Labels x)) (λ labels,
  rd_bind (rd_opt rd_string_map (h_MetaAnnotations x)) (λ annotations,
  rd_bind (rd_opt (rd_at as_owners) (h_OwnerReferences x)) (λ owners,
  rd_ret (mkObjectMeta (h_Name x) (h_Namespace x) (h_UID x) (h_ResourceVersion x) labels annotations
            (default [] owners) (h_rest x))))).
Definition rd_list_meta (x : hListMeta) : rd (option Z * opaque) :=
  rd_bind (rd_opt (rd_at as_count) (h_RemainingItemCount x)) (λ n, rd_ret (n, h_list_rest x)).
(** A PersistentPodState with its TypeMeta, and a list of them. *)
Definition rd_state (x : hState) : rd (opaque * PersistentPodState) :=
  rd_bind (rd_meta (h_ObjectMeta x)) (λ meta,
  rd_bind (rd_spec (h_Spec x)) (λ spec,
  rd_bind (rd_status (h_Status x)) (λ status,
  rd_ret (h_TypeMeta x, mkPersistentPodState meta spec status)))).
Definition rd_state_list (x : hStateList)
    : rd (opaque * (option Z * opaque) * option (list (opaque * PersistentPodState))) :=
  rd_bind (rd_list_meta (h_ListMeta x)) (λ meta,
  rd_bind (rd_opt (rd_slice_at rd_state as_items) (h_Items x)) (λ items,
  rd_ret (h_ListTypeMeta x, meta, items))).
