(* ===== verification/DeepCopyTheorems.v ===== *)
(** * The properties of the deep copies

    A copy reads the same as its original, equals the copy on values that the reconciler's
    model uses, and shares no location with it. *)
From S2P Require Export DeepCopy.

(** ** Readers look at no more than they say *)
Lemma local_term_at l : local (rd_term_at l).
Proof. unfold rd_term_at, rd_term. auto 20 with rd_local. Qed.
#[export] Hint Resolve local_term_at : rd_local.
Lemma local_spec x : local (rd_spec x).
Proof. unfold rd_spec. auto 20 with rd_local. Qed.
Lemma local_string_map l : local (rd_string_map l).
Proof. unfold rd_string_map, rd_map_at. auto 20 with rd_local. Qed.
#[export] Hint Resolve local_spec local_string_map : rd_local.
Lemma local_pod_state x : local (rd_pod_state x).
Proof. unfold rd_pod_state. auto 20 with rd_local. Qed.
#[export] Hint Resolve local_pod_state : rd_local.
Lemma local_pod_state_map l : local (rd_map_at rd_pod_state as_pod_states l).
Proof. unfold rd_map_at. auto 20 with rd_local. Qed.
#[export] Hint Resolve local_pod_state_map : rd_local.
Lemma local_status x : local (rd_status x).
Proof. unfold rd_status. auto 20 with rd_local. Qed.
Lemma local_meta x : local (rd_meta x).
Proof. unfold rd_meta. auto 20 with rd_local. Qed.
Lemma local_list_meta x : local (rd_list_meta x).
Proof. unfold rd_list_meta. auto 20 with rd_local. Qed.
#[export] Hint Resolve local_status local_meta local_list_meta : rd_local.
Lemma local_state x : local (rd_state x).
Proof. unfold rd_state. auto 20 with rd_local. Qed.
#[export] Hint Resolve local_state : rd_local.
Lemma local_items l : local (rd_slice_at rd_state as_items l).
Proof. unfold rd_slice_at. auto 20 with rd_local. Qed.
#[export] Hint Resolve local_items : rd_local.
Lemma local_state_list x : local (rd_state_list x).
Proof. unfold rd_state_list. auto 20 with rd_local. Qed.
#[export] Hint Resolve local_state_list : rd_local.

(** ** Copying through a pointer *)
Section pointers.
Context {X A : Type} (get : Obj → option X) (put : X → Obj) (zero : X).
Hypothesis get_put : ∀ x, get (put x) = Some x.

(** A new object [out], filled by a copy. *)
Lemma fill_copy {B} (read : X → rd A) (into : X → GoM mem X) (k : loc → GoM mem B) (h h1 : mem) out x a s Q :
  copies read into → (∀ x, local (read x)) → read x h = Some (a, s) →
  h ⊆ h1 → out ∈ dom h1 → out ∉ dom h →
  (∀ h' s', h ⊆ h' → rd_bind (rd_at get out) read h' = Some (a, s') → s' ## dom h → wp (k out) Q h') →
  wp (let! x' := into x in do! hp_store out (put x') in k out) Q h1.
Proof.
  intros Hinto Hloc Hread Hsub Hin Hout HQ.
  apply wp_bind. eapply wp_mono; [by eapply (copies_then read into x h)|].
  intros x' h' (Hsub' & Hsub1 & s' & Hx' & Hdis & Hdis1). apply wp_bind. unfold wp at 1, hp_store.
  assert (out ∉ s') as Hos by set_solver.
  apply (HQ _ ({[out]} ∪ s')); [by apply subseteq_store| |set_solver].
  eapply rd_bind_intro; [apply (rd_at_intro _ _ _ (put x')); [apply lookup_insert_eq|apply get_put]|].
  by apply read_store_other.
Qed.

Lemma copies_DeepCopy (read : X → rd A) (into : X → GoM mem X) :
  copies read into → (∀ x, local (read x)) →
  copies (rd_opt (λ l, rd_bind (rd_at get l) read)) (DeepCopy_of get put zero into).
Proof.
  intros Hinto Hloc [l|] h oa s Hr.
  - apply rd_bind_inv in Hr as (a & s1 & s2 & Ha & Hret & ->). injection Hret as <- <-.
    apply rd_bind_inv in Ha as (x & t & u & (-> & o & Ho & Hg)%rd_at_inv & Hx & ->).
    apply wp_bind. eapply load_as_wp; [done..|]. apply wp_bind, alloc_wp. intros out Hout.
    eapply (fill_copy read into (λ out, go_ret (Some out))); [done..| | |done|].
    + by apply extend_insert.
    + rewrite dom_insert. set_solver.
    + intros h' s' Hsub Hread Hdis. apply wp_ret. split; [done|]. exists (s' ∪ ∅).
      split; [eapply rd_bind_intro; [exact Hread|done]|set_solver].
  - injection Hr as <- <-. apply wp_ret. split; [done|]. exists ∅. by split.
Qed.
End pointers.

(** A slice of plain values. *)
Lemma copies_plain_slice {X} (get : Obj → option (list X)) (put : list X → Obj) (zero : X) :
  (∀ xs, get (put xs) = Some xs) → copies (rd_at get) (copy_into get put zero).
Proof.
  intros Hgp l h xs s (-> & o & Ho & Hg)%rd_at_inv. apply wp_bind. eapply load_as_wp; [done..|].
  apply wp_bind, alloc_wp. intros out Hout. apply wp_bind. eapply load_as_wp; [apply lookup_insert_eq|apply Hgp|].
  apply wp_bind. unfold wp at 1, hp_store. apply wp_ret. split.
  - apply subseteq_store; [by apply extend_insert|done].
  - exists {[out]}. split; [|set_solver]. eapply rd_at_intro; [apply lookup_insert_eq|].
    rewrite length_replicate, take_ge, drop_ge, app_nil_r by (rewrite ?length_replicate; lia). apply Hgp.
Qed.

(** One field of a struct: copied in a heap [h1] that has grown from [h]. *)
Ltac copy_field H :=
  apply wp_bind; eapply wp_mono;
    [eapply copies_then; [exact H|solve [auto 20 with rd_local]|eassumption|first [eassumption|reflexivity]]|];
  intros ? ? (? & ? & ? & ? & ? & _).
(** A field that was copied before still reads the same. *)
Ltac copied_field :=
  first [eassumption|eapply local_extend; [solve [auto 20 with rd_local]|eassumption|];
         first [eassumption|etrans; [eassumption|]; first [eassumption|etrans; eassumption]]].

Lemma copies_term : copies rd_term hNodeTopologyTerm_DeepCopyInto.
Proof.
  intros x h a s Hr. apply rd_bind_inv in Hr as (keys & s1 & s2 & Hk & Hret & ->). injection Hret as <- <-.
  copy_field (copies_opt _ _ (copies_plain_slice as_strings OStrings "" (λ _, eq_refl))).
  apply wp_ret. split; [done|]. eexists. split; [eapply rd_bind_intro; [eassumption|done]|set_solver].
Qed.

Lemma copies_term_at : copies rd_term_at copy_term.
Proof.
  intros l h a s Hr. apply rd_bind_inv in Hr as (x & s1 & s2 & (-> & o & Ho & Hg)%rd_at_inv & Hx & ->).
  apply wp_bind, alloc_wp. intros out Hout. pose proof (extend_insert h out (OTerm (mkHTerm None)) Hout) as Hsub.
  apply wp_bind. eapply load_as_wp; [by eapply lookup_weaken|done|].
  eapply (fill_copy as_term OTerm (λ _, eq_refl) rd_term); [apply copies_term| |done|done| |done|].
  - intros. unfold rd_term. auto 20 with rd_local.
  - rewrite dom_insert. set_solver.
  - intros h' s' Hsub' Hread Hdis. apply wp_ret. split; [done|]. by exists s'.
Qed.

Lemma copies_spec : copies rd_spec hSpec_DeepCopyInto.
Proof.
  intros x h a s Hr. apply rd_bind_inv in Hr as (annotations & s1 & s2 & Ha & Hr & ->).
  apply rd_bind_inv in Hr as (topology & s3 & s4 & Ht & Hret & ->). injection Hret as <- <-.
  copy_field (copies_opt _ _ (copies_plain_slice as_pod_annotations OPodAnnotations (mkPersistentPodAnnotation "") (λ _, eq_refl))).
  copy_field (copies_opt _ _ copies_term_at).
  apply wp_ret. split; [done|]. eexists.
  split; [eapply rd_bind_intro; [copied_field|eapply rd_bind_intro; [copied_field|done]]|set_solver].
Qed.

(** What the value behind a pointer reads as. *)
Definition at_pointer {X A} (get : Obj → option X) (read : X → rd A) (l : loc) : rd A :=
  rd_bind (rd_at get l) read.

Section deepcopy.
Context (range : ∀ V, gmap string V → list (string * V)).
Hypothesis range_perm : ∀ V (m : gmap string V), range V m ≡ₚ map_to_list m.
Context (ObjectMeta_DeepCopyInto : hObjectMeta → GoM mem hObjectMeta).
Context (ListMeta_DeepCopyInto : hListMeta → GoM mem hListMeta).
(** What metav1 documents of its own deep copies. *)
Hypothesis meta_copies : copies rd_meta ObjectMeta_DeepCopyInto.
Hypothesis list_meta_copies : copies rd_list_meta ListMeta_DeepCopyInto.

Lemma copies_string_map : copies rd_string_map (copy_string_map range).
Proof.
  exact (copies_map rd_ret go_ret local_ret copies_ret as_string_map OStringMap (λ _, eq_refl) (range string)
    (range_perm string)).
Qed.

Lemma copies_pod_state : copies rd_pod_state (hPodState_DeepCopyInto range).
Proof.
  intros x h a s Hr. apply rd_bind_inv in Hr as (labels & s1 & s2 & Ha & Hr & ->).
  apply rd_bind_inv in Hr as (annotations & s3 & s4 & Ht & Hret & ->). injection Hret as <- <-.
  copy_field (copies_opt _ _ copies_string_map). copy_field (copies_opt _ _ copies_string_map).
  apply wp_ret. split; [done|]. eexists.
  split; [eapply rd_bind_intro; [copied_field|eapply rd_bind_intro; [copied_field|done]]|set_solver].
Qed.

Lemma copies_pod_state_value : copies rd_pod_state (copy_pod_state range).
Proof.
  intros x h a s Hr. apply wp_bind, alloc_wp. intros addr Haddr.
  pose proof (extend_insert h addr (OPodState x) Haddr) as Hsub. apply wp_bind.
  eapply wp_mono.
  { eapply (copies_DeepCopy as_pod_state OPodState (mkHPodState "" None None "") (λ _, eq_refl) rd_pod_state);
      [apply copies_pod_state|apply local_pod_state|].
    cbn [rd_opt]. eapply rd_bind_intro; [|done]. eapply rd_bind_intro.
    - apply (rd_at_intro _ _ _ (OPodState x)); [apply lookup_insert_eq|done].
    - by eapply local_extend; [apply local_pod_state|..]. }
  intros out h' (Hsub' & s' & Hread & Hdis). destruct out as [out|]; [|done].
  apply rd_bind_inv in Hread as (b & t & u & Hread & Hret & ->). injection Hret as <- <-.
  apply rd_bind_inv in Hread as (x' & v & z & (-> & o & Ho & Hg)%rd_at_inv & Hx' & ->).
  eapply load_as_wp; [done..|]. split; [by etrans|]. exists z. split; [done|].
  rewrite dom_insert in Hdis. set_solver.
Qed.

Lemma copies_status : copies rd_status (hStatus_DeepCopyInto range).
Proof.
  intros x h a s Hr. apply rd_bind_inv in Hr as (states & s1 & s2 & Ha & Hret & ->). injection Hret as <- <-.
  copy_field (copies_opt _ _ (copies_map rd_pod_state _ local_pod_state copies_pod_state_value as_pod_states
    OPodStateMap (λ _, eq_refl) (range hPodState) (range_perm hPodState))).
  apply wp_ret. split; [done|]. eexists. split; [eapply rd_bind_intro; [eassumption|done]|set_solver].
Qed.

Lemma copies_state : copies rd_state (hState_DeepCopyInto range ObjectMeta_DeepCopyInto).
Proof.
  intros x h a s Hr. apply rd_bind_inv in Hr as (meta & s1 & s2 & Hm & Hr & ->).
  apply rd_bind_inv in Hr as (spec & s3 & s4 & Hsp & Hr & ->).
  apply rd_bind_inv in Hr as (status & s5 & s6 & Hst & Hret & ->). injection Hret as <- <-.
  copy_field meta_copies. copy_field copies_spec. copy_field copies_status.
  apply wp_ret. split; [done|]. eexists.
  split; [eapply rd_bind_intro; [copied_field|eapply rd_bind_intro; [copied_field|eapply rd_bind_intro;
    [copied_field|done]]]|set_solver].
Qed.

Lemma copies_state_list :
  copies rd_state_list (hStateList_DeepCopyInto range ObjectMeta_DeepCopyInto ListMeta_DeepCopyInto).
Proof.
  intros x h a s Hr. apply rd_bind_inv in Hr as (meta & s1 & s2 & Hm & Hr & ->).
  apply rd_bind_inv in Hr as (items & s3 & s4 & Hi & Hret & ->). injection Hret as <- <-.
  copy_field list_meta_copies.
  copy_field (copies_opt _ _ (copies_slice rd_state _ local_state copies_state as_items OItems zero_state (λ _, eq_refl))).
  apply wp_ret. split; [done|]. eexists.
  split; [eapply rd_bind_intro; [copied_field|eapply rd_bind_intro; [copied_field|done]]|set_solver].
Qed.

(** ** The property *)

(** [copy] gives a pointer to a value that reads as [f] of the original.  The old heap is
    untouched; whatever is then written to the copy, or to any memory that was not there
    before, the original reads the same; whatever is written to memory that was there
    before, the copy does.  A nil pointer gives nil and changes nothing. *)
Definition independent_copy {A} (read : loc → rd A) (f : A → A) (copy : option loc → GoM mem (option loc)) : Prop :=
  (∀ h, runs (copy None) h None h) ∧
  ∀ l h a s, read l h = Some (a, s) →
    wp (copy (Some l)) (λ out h', h ⊆ h' ∧ ∃ l' s', out = Some l' ∧ read l' h' = Some (f a, s') ∧
      (∀ h2 : mem, (∀ k, k ∈ dom h → h2 !! k = h' !! k) → read l h2 = Some (a, s)) ∧
      (∀ h2 : mem, (∀ k, k ∉ dom h → h2 !! k = h' !! k) → read l' h2 = Some (f a, s'))) h.

Lemma copies_independent {X A} (get : Obj → option X) (put : X → Obj) zero (read : X → rd A) f into :
  (∀ x, get (put x) = Some x) → copies read into → (∀ x, local (read x)) → (∀ a, f a = a) →
  independent_copy (at_pointer get read) f (DeepCopy_of get put zero into).
Proof.
  intros Hgp Hinto Hloc Hf. split; [done|]. intros l h a s Hr. rewrite Hf.
  assert (local (at_pointer get read l)) as Hl by (unfold at_pointer; auto with rd_local).
  eapply wp_mono.
  { apply (copies_DeepCopy get put zero Hgp read into Hinto Hloc (Some l) h (Some a) (s ∪ ∅)).
    eapply rd_bind_intro; [exact Hr|done]. }
  intros out h' (Hsub & s' & Hread & Hdis). split; [done|]. destruct out as [l'|]; [|done].
  apply rd_bind_inv in Hread as (b & t & u & Hread & Hret & ->). injection Hret as <- <-.
  exists l', t. split; [done|]. split; [done|]. destruct (Hl h h _ s Hr) as [Hdom _]. split.
  - intros h2 Hag. apply (Hl h h2 _ s Hr). intros k Hk. apply Hdom in Hk as Hin. rewrite Hag by done.
    apply elem_of_dom in Hin as [o Ho]. transitivity (Some o); [by eapply lookup_weaken|done].
  - intros h2 Hag. assert (local (at_pointer get read l')) as Hl' by (unfold at_pointer; auto with rd_local).
    apply (Hl' h' h2 _ t Hread). intros k Hk. apply Hag. set_solver.
Qed.

(** The pointer in an interface. *)
Definition pointer_of (o : option RuntimeObject) : option loc :=
  match o with Some (StatePointer p) | Some (StateListPointer p) => p | None => None end.
Definition as_pointer (copy : option loc → GoM mem (option RuntimeObject)) (inp : option loc) : GoM mem (option loc) :=
  let! o := copy inp in go_ret (pointer_of o).

Lemma independent_copy_ext {A} (read : loc → rd A) f c1 c2 :
  (∀ inp h, c1 inp h = c2 inp h) → independent_copy read f c2 → independent_copy read f c1.
Proof.
  intros He [Hn Hc]. split; [intros h; unfold runs; rewrite He; apply Hn|].
  intros l h a s Hr. unfold wp. rewrite He. by apply Hc.
Qed.

(** C15: The generated deep copies are copies.  DeepCopy of each type gives a fresh pointer to
    a value that reads as the copy on values that the reconciler's model uses, and shares
    nothing with the original: later writes through either are not seen through the other.
    So do the two DeepCopyObject, which moreover give a nil interface for a nil pointer.
    Assumed of the DeepCopyInto of metav1 is only that they are copies too. *)
Theorem deep_copies_are_independent :
  independent_copy (at_pointer as_spec rd_spec) PersistentPodStateSpec_DeepCopy hSpec_DeepCopy ∧
  independent_copy (at_pointer as_status rd_status) PersistentPodStateStatus_DeepCopy (hStatus_DeepCopy range) ∧
  independent_copy (at_pointer as_pod_state rd_pod_state) PodState_DeepCopy (hPodState_DeepCopy range) ∧
  independent_copy (at_pointer as_term rd_term) NodeTopologyTerm_DeepCopy hNodeTopologyTerm_DeepCopy ∧
  independent_copy (at_pointer as_state rd_state) id
    (as_pointer (hState_DeepCopyObject range ObjectMeta_DeepCopyInto)) ∧
  independent_copy (at_pointer as_state_list rd_state_list) id
    (as_pointer (hStateList_DeepCopyObject range ObjectMeta_DeepCopyInto ListMeta_DeepCopyInto)) ∧
  ∀ h, runs (hState_DeepCopyObject range ObjectMeta_DeepCopyInto None) h None h ∧
    runs (hStateList_DeepCopyObject range ObjectMeta_DeepCopyInto ListMeta_DeepCopyInto None) h None h.
Proof.
  split; [apply copies_independent; [done|apply copies_spec|apply local_spec|apply Spec_DeepCopy_id]|].
  split; [apply copies_independent; [done|apply copies_status|apply local_status|apply Status_DeepCopy_id]|].
  split; [apply copies_independent; [done|apply copies_pod_state|apply local_pod_state|apply PodState_DeepCopy_id]|].
  split.
  { apply copies_independent; [done|apply copies_term| |apply NodeTopologyTerm_DeepCopy_id].
    intros. unfold rd_term. auto 20 with rd_local. }
  split; [|split; [|done]].
  - eapply independent_copy_ext; [|apply (copies_independent as_state OState zero_state);
      [done|apply copies_state|apply local_state|done]].
    intros inp h. unfold as_pointer, hState_DeepCopyObject, hState_DeepCopy, go_bind.
    by destruct (DeepCopy_of _ _ _ _ inp h) as [[[c|]|why] h'].
  - eapply independent_copy_ext; [|apply (copies_independent as_state_list OStateList (mkHStateList "" (mkHListMeta None "") None));
      [done|apply copies_state_list|apply local_state_list|done]].
    intros inp h. unfold as_pointer, hStateList_DeepCopyObject, hStateList_DeepCopy, go_bind.
    by destruct (DeepCopy_of _ _ _ _ inp h) as [[[c|]|why] h'].
Qed.
End deepcopy.

(** ** Witness: metav1's copies, as controller-gen writes them *)
Definition some_order {V} (m : gmap string V) : list (string * V) := map_to_list m.
Lemma some_order_perm V (m : gmap string V) : some_order m ≡ₚ map_to_list m.
Proof. done. Qed.
Definition no_owner : OwnerReference := mkOwnerReference "" "" "" None "".
Definition demo_meta_copy (x : hObjectMeta) : GoM mem hObjectMeta :=
  let! labels := if_set (copy_string_map (@some_order)) (h_Labels x) in
  let! annotations := if_set (copy_string_map (@some_order)) (h_MetaAnnotations x) in
  let! owners := if_set (copy_into as_owners OOwners no_owner) (h_OwnerReferences x) in
  go_ret (mkHObjectMeta (h_Name x) (h_Namespace x) (h_UID x) (h_ResourceVersion x) labels annotations owners (h_rest x)).
Definition demo_list_meta_copy (x : hListMeta) : GoM mem hListMeta :=
  let! n := if_set (λ l, let! z := hp_load_as as_count l in hp_alloc (OCount z)) (h_RemainingItemCount x) in
  go_ret (mkHListMeta n (h_list_rest x)).

Lemma demo_meta_copies : copies rd_meta demo_meta_copy.
Proof.
  intros x h a s Hr. apply rd_bind_inv in Hr as (labels & s1 & s2 & Hm & Hr & ->).
  apply rd_bind_inv in Hr as (annotations & s3 & s4 & Hsp & Hr & ->).
  apply rd_bind_inv in Hr as (owners & s5 & s6 & Hst & Hret & ->). injection Hret as <- <-.
  copy_field (copies_opt _ _ (copies_string_map (@some_order) some_order_perm)).
  copy_field (copies_opt _ _ (copies_string_map (@some_order) some_order_perm)).
  copy_field (copies_opt _ _ (copies_plain_slice as_owners OOwners no_owner (λ _, eq_refl))).
  apply wp_ret. split; [done|]. eexists.
  split; [eapply rd_bind_intro; [copied_field|eapply rd_bind_intro; [copied_field|eapply rd_bind_intro;
    [copied_field|done]]]|set_solver].
Qed.

Lemma demo_count_copies : copies (rd_at as_count) (λ l, let! z := hp_load_as as_count l in hp_alloc (OCount z)).
Proof.
  intros l h z s (-> & o & Ho & Hg)%rd_at_inv. apply wp_bind. eapply load_as_wp; [done..|].
  apply alloc_wp. intros out Hout. split; [by apply extend_insert|]. exists {[out]}.
  split; [by eapply rd_at_intro; [apply lookup_insert_eq|]|set_solver].
Qed.

Lemma demo_list_meta_copies : copies rd_list_meta demo_list_meta_copy.
Proof.
  intros x h a s Hr. apply rd_bind_inv in Hr as (n & s1 & s2 & Hn & Hret & ->). injection Hret as <- <-.
  copy_field (copies_opt _ _ demo_count_copies).
  apply wp_ret. split; [done|]. eexists. split; [eapply rd_bind_intro; [eassumption|done]|set_solver].
Qed.

(** A list of one state, whose status has one pod. *)
Definition demo_mem : mem := list_to_map [
  (1%positive, OStringMap {[ "kubernetes.io/hostname" := "node-1" ]});
  (2%positive, OPodStateMap {[ "web-0" := mkHPodState "node-1" (Some 1%positive) None "10.0.0.1" ]});
  (3%positive, OStrings ["kubernetes.io/hostname"]);
  (4%positive, OTerm (mkHTerm (Some 3%positive)));
  (5%positive, OItems [mkHState "" zero_meta (mkHSpec (mkTargetReference "apps/v1" "StatefulSet" "web") None (Some 4%positive))
                         (mkHStatus 1 (Some 2%positive))]);
  (6%positive, OStateList (mkHStateList "" (mkHListMeta None "") (Some 5%positive)))].

Example demo_list_copied :
  match hStateList_DeepCopy (@some_order) demo_meta_copy demo_list_meta_copy (Some 6%positive) demo_mem with
  | (Ret (Some l'), h') =>
      fst <$> at_pointer as_state_list rd_state_list l' h' =
        fst <$> at_pointer as_state_list rd_state_list 6%positive demo_mem ∧ is_Some (h' !! l') ∧
      (* clearing the labels of the original is not seen in the copy *)
      fst <$> at_pointer as_state_list rd_state_list l' (<[1%positive := OStringMap ∅]> h') =
        fst <$> at_pointer as_state_list rd_state_list 6%positive demo_mem
  | _ => False
  end.
Proof. vm_compute. split; [done|]. by split; [eexists|]. Qed.

Lemma deep_copies_are_independent_witness :
  independent_copy (at_pointer as_state_list rd_state_list) id
    (as_pointer (hStateList_DeepCopyObject (@some_order) demo_meta_copy demo_list_meta_copy)).
Proof.
  exact (proj1 (proj2 (proj2 (proj2 (proj2 (proj2 (deep_copies_are_independent (@some_order) some_order_perm demo_meta_copy
    demo_list_meta_copy demo_meta_copies demo_list_meta_copies))))))).
Defined.
