(* ===== verification/ApiServer.v ===== *)
(** * The API server as the program's client library shows it

    [sigs.k8s.io/controller-runtime/pkg/client] is not part of the repository: the program
    is verified against the interface [Client] and its documented behaviour [ClientLaws].
    [MemServer] is one implementation, an in-memory server with a script of faults; it
    shows the laws can hold and makes the controller executable. *)
From S2P Require Export ApiTypes.

(** The error reasons the program tells apart with [errors.IsNotFound],
    [errors.IsAlreadyExists] and [retry.RetryOnConflict]. *)
Inductive ApiError :=
| NotFound | AlreadyExists | Conflict | OtherError (msg : string).
#[global] Instance ApiError_eq_dec : EqDecision ApiError.
Proof. solve_decision. Defined.

Definition IsNotFound (e : ApiError) : bool := bool_decide (e = NotFound).
Definition IsAlreadyExists (e : ApiError) : bool := bool_decide (e = AlreadyExists).
Definition IsConflict (e : ApiError) : bool := bool_decide (e = Conflict).

(** The calls the program makes: [client.Client]'s Get, List, Create, Update and
    Status().Update, one operation per object type. *)
Class Client (W : Type) := {
  GetVirtualMachineInstance : NamespacedName → GoM W (ApiError + VirtualMachineInstance);
  GetStatefulSet : NamespacedName → GoM W (ApiError + StatefulSet);
  GetPersistentPodState : NamespacedName → GoM W (ApiError + PersistentPodState);
  GetIPReservation : string → GoM W (ApiError + IPReservation);
  ListPods : string → gomap string → GoM W (ApiError + list Pod);
  CreateIPReservation : IPReservation → GoM W (option ApiError);
  UpdateIPReservation : IPReservation → GoM W (option ApiError);
  CreatePersistentPodState : PersistentPodState → GoM W (option ApiError);
  StatusUpdatePersistentPodState : PersistentPodState → GoM W (option ApiError) }.

(** ** What the server stores *)
Record Store := mkStore {
  st_vmi : gmap NamespacedName VirtualMachineInstance;
  st_sts : gmap NamespacedName StatefulSet;
  st_pod : gmap NamespacedName Pod;
  st_ipr : gmap string IPReservation;
  st_pps : gmap NamespacedName PersistentPodState }.

Definition set_ipr (m : gmap string IPReservation) (s : Store) : Store :=
  mkStore (st_vmi s) (st_sts s) (st_pod s) m (st_pps s).
Definition set_pps (m : gmap NamespacedName PersistentPodState) (s : Store) : Store :=
  mkStore (st_vmi s) (st_sts s) (st_pod s) (st_ipr s) m.

Definition meta_key (m : ObjectMeta) : NamespacedName := (om_Namespace m, om_Name m).
Definition pps_key (o : PersistentPodState) : NamespacedName := meta_key (pps_ObjectMeta o).
Definition ipr_key (o : IPReservation) : string := om_Name (ipr_ObjectMeta o).

Definition with_rv (rv : string) (m : ObjectMeta) : ObjectMeta :=
  mkObjectMeta (om_Name m) (om_Namespace m) (om_UID m) rv (om_Labels m) (om_Annotations m)
    (om_OwnerReferences m) (om_rest m).

(** A PersistentPodState has the status subresource: creating one drops its status, and a
    status update leaves everything but the status as it was. *)
Definition created_pps (rv : string) (o : PersistentPodState) : PersistentPodState :=
  mkPersistentPodState (with_rv rv (pps_ObjectMeta o)) (pps_Spec o) Status_zero.
Definition status_updated_pps (rv : string) (old o : PersistentPodState) : PersistentPodState :=
  mkPersistentPodState (with_rv rv (pps_ObjectMeta old)) (pps_Spec old)
    (Status_json (pps_Status o)).
Definition stored_ipr (rv : string) (o : IPReservation) : IPReservation :=
  mkIPReservation (with_rv rv (ipr_ObjectMeta o)) (ipr_ReservedCIDRs o) (ipr_rest o).

(** Label selection: every wanted label is there. *)
Definition labels_match (sel labels : gomap string) : Prop :=
  map_Forall (λ k v, gomap_lookup labels k = Some v) (default ∅ sel).
#[global] Instance labels_match_dec sel labels : Decision (labels_match sel labels).
Proof. unfold labels_match. apply _. Defined.

Definition selected (ns : string) (sel : gomap string) (s : Store) (p : Pod) : Prop :=
  om_Namespace (pod_ObjectMeta p) = ns ∧ labels_match sel (om_Labels (pod_ObjectMeta p)) ∧
  st_pod s !! meta_key (pod_ObjectMeta p) = Some p.

(** The effect of each successful write. *)
Definition ipr_written (o : IPReservation) (rv : string) (s : Store) : Store :=
  set_ipr (<[ipr_key o := stored_ipr rv o]> (st_ipr s)) s.
Definition pps_created (o : PersistentPodState) (rv : string) (s : Store) : Store :=
  set_pps (<[pps_key o := created_pps rv o]> (st_pps s)) s.
Definition pps_status_updated (o : PersistentPodState) (rv : string) (s : Store) : Store :=
  match st_pps s !! pps_key o with
  | None => s
  | Some old => set_pps (<[pps_key o := status_updated_pps rv old o]> (st_pps s)) s
  end.

(** The stored object exists and the caller has seen its latest version. *)
Definition rv_matches {A} (meta : A → ObjectMeta) (o : A) (stored : option A) : Prop :=
  ∃ old, stored = Some old ∧ om_ResourceVersion (meta old) = om_ResourceVersion (meta o).

(** Every object is stored under its own name. *)
Definition keyed (s : Store) : Prop :=
  map_Forall (λ k o, meta_key (vmi_ObjectMeta o) = k) (st_vmi s) ∧
  map_Forall (λ k o, meta_key (sts_ObjectMeta o) = k) (st_sts s) ∧
  map_Forall (λ k o, ipr_key o = k) (st_ipr s) ∧
  map_Forall (λ k o, pps_key o = k) (st_pps s).

(** ** The documented behaviour

    [contents w] is what the server stores in world [w].  Reads change nothing; a failed
    write changes nothing; a successful write makes exactly the documented change.  A call
    may fail for reasons of its own at any time, except in a [reliable] world. *)
Definition lookup_result {A} (o : option A) : ApiError + A :=
  match o with Some a => inr a | None => inl NotFound end.

Section specs.
Context {W : Type} (contents : W → Store) (reliable : W → Prop).

Definition get_spec {A} (op : GoM W (ApiError + A)) (sel : Store → option A) : Prop :=
  ∀ w, wp op (λ r w',
    contents w' = contents w ∧
    match r with
    | inr a => sel (contents w) = Some a
    | inl e => e = NotFound → sel (contents w) = None
    end ∧
    (reliable w → reliable w' ∧ r = lookup_result (sel (contents w)))) w.

Definition list_spec (op : GoM W (ApiError + list Pod)) (sel : Store → Pod → Prop) : Prop :=
  ∀ w, wp op (λ r w',
    contents w' = contents w ∧
    (∀ l, r = inr l → NoDup l ∧ ∀ p, p ∈ l ↔ sel (contents w) p) ∧
    (reliable w → reliable w' ∧ ∃ l, r = inr l)) w.

(** [ready]: what makes the server accept the write when nothing else is wrong;
    [taken]: what its AlreadyExists means. *)
Definition write_spec (op : GoM W (option ApiError)) (change : string → Store → Store)
    (ready taken : Store → Prop) : Prop :=
  ∀ w, wp op (λ r w',
    match r with
    | None => ready (contents w) ∧ ∃ rv, contents w' = change rv (contents w)
    | Some e => contents w' = contents w ∧ (e = AlreadyExists → taken (contents w))
    end ∧
    (reliable w → reliable w' ∧ (ready (contents w) → r = None))) w.
End specs.

Class ClientLaws (W : Type) `{!Client W} := {
  contents : W → Store;
  reliable : W → Prop;
  get_vmi_law k : get_spec contents reliable (GetVirtualMachineInstance k) (λ s, st_vmi s !! k);
  get_sts_law k : get_spec contents reliable (GetStatefulSet k) (λ s, st_sts s !! k);
  get_pps_law k : get_spec contents reliable (GetPersistentPodState k) (λ s, st_pps s !! k);
  get_ipr_law k : get_spec contents reliable (GetIPReservation k) (λ s, st_ipr s !! k);
  list_pods_law ns sel : list_spec contents reliable (ListPods ns sel) (selected ns sel);
  create_ipr_law o : write_spec contents reliable (CreateIPReservation o) (ipr_written o)
    (λ s, st_ipr s !! ipr_key o = None) (λ s, is_Some (st_ipr s !! ipr_key o));
  update_ipr_law o : write_spec contents reliable (UpdateIPReservation o) (ipr_written o)
    (λ s, rv_matches ipr_ObjectMeta o (st_ipr s !! ipr_key o)) (λ _, True);
  create_pps_law o : write_spec contents reliable (CreatePersistentPodState o) (pps_created o)
    (λ s, st_pps s !! pps_key o = None) (λ s, is_Some (st_pps s !! pps_key o));
  status_update_pps_law o :
    write_spec contents reliable (StatusUpdatePersistentPodState o) (pps_status_updated o)
    (λ s, rv_matches pps_ObjectMeta o (st_pps s !! pps_key o)) (λ _, True) }.
#[global] Hint Mode ClientLaws ! - : typeclass_instances.

(** [retry.RetryOnConflict(backoff, fn)]: run [fn], again as long as it reports a conflict
    and the backoff has steps left, and return the error of the last run. *)
Inductive retried {W} (fn : GoM W (option ApiError)) : W → option ApiError → W → Prop :=
| retried_done w e w' : runs fn w e w' → e ≠ Some Conflict → retried fn w e w'
| retried_exhausted w w' : runs fn w (Some Conflict) w' → retried fn w (Some Conflict) w'
| retried_again w w1 e w' :
    runs fn w (Some Conflict) w1 → retried fn w1 e w' → retried fn w e w'.

Definition RetryLaw {W} (retry : GoM W (option ApiError) → GoM W (option ApiError)) : Prop :=
  ∀ fn, (∀ w, wp fn (λ _ _, True) w) → ∀ w, wp (retry fn) (λ e w', retried fn w e w') w.

(** ** An in-memory server *)
Record MemServer := mkMemServer {
  ms_store : Store;
  ms_faults : list (option ApiError);
  ms_clock : N }.

(** Take the next entry of the fault script: [Some e] makes this call fail with [e]. *)
Definition mem_fault : GoM MemServer (option ApiError) := λ w,
  match ms_faults w with
  | [] => (Ret None, w)
  | f :: fs => (Ret f, mkMemServer (ms_store w) fs (ms_clock w))
  end.

Definition mem_get {A} (sel : Store → option A) : GoM MemServer (ApiError + A) :=
  let! f := mem_fault in
  match f with
  | Some e => go_ret (inl (if decide (e = NotFound) then OtherError "unavailable" else e))
  | None => λ w, (Ret (match sel (ms_store w) with Some a => inr a | None => inl NotFound end), w)
  end.

Definition mem_list (ns : string) (sel : gomap string) : GoM MemServer (ApiError + list Pod) :=
  let! f := mem_fault in
  match f with
  | Some e => go_ret (inl e)
  | None => λ w, (Ret (inr ((map_to_list (filter (λ kp, kp.1 = meta_key (pod_ObjectMeta kp.2) ∧
        om_Namespace (pod_ObjectMeta kp.2) = ns ∧ labels_match sel (om_Labels (pod_ObjectMeta kp.2)))
        (st_pod (ms_store w)))).*2)), w)
  end.

(** A write: the script may refuse it, the guard may refuse it, else it is applied with a
    fresh resource version. *)
Definition mem_write (guard : Store → option ApiError) (apply : string → Store → Store)
    : GoM MemServer (option ApiError) :=
  let! f := mem_fault in
  match f with
  | Some e => go_ret (Some (if decide (e = AlreadyExists) then OtherError "unavailable" else e))
  | None => λ w,
      match guard (ms_store w) with
      | Some e => (Ret (Some e), w)
      | None => (Ret None, mkMemServer (apply (pretty (ms_clock w)) (ms_store w)) (ms_faults w) (ms_clock w + 1))
      end
  end.

Definition refuse (b : bool) (e : ApiError) : option ApiError := if b then None else Some e.

#[global] Instance mem_client : Client MemServer := {
  GetVirtualMachineInstance k := mem_get (λ s, st_vmi s !! k);
  GetStatefulSet k := mem_get (λ s, st_sts s !! k);
  GetPersistentPodState k := mem_get (λ s, st_pps s !! k);
  GetIPReservation k := mem_get (λ s, st_ipr s !! k);
  ListPods := mem_list;
  CreateIPReservation o := mem_write
    (λ s, refuse (bool_decide (st_ipr s !! ipr_key o = None)) AlreadyExists) (ipr_written o);
  UpdateIPReservation o := mem_write
    (λ s, match st_ipr s !! ipr_key o with
          | None => Some NotFound
          | Some old => refuse (bool_decide (om_ResourceVersion (ipr_ObjectMeta old)
                                             = om_ResourceVersion (ipr_ObjectMeta o))) Conflict
          end) (ipr_written o);
  CreatePersistentPodState o := mem_write
    (λ s, refuse (bool_decide (st_pps s !! pps_key o = None)) AlreadyExists) (pps_created o);
  StatusUpdatePersistentPodState o := mem_write
    (λ s, match st_pps s !! pps_key o with
          | None => Some NotFound
          | Some old => refuse (bool_decide (om_ResourceVersion (pps_ObjectMeta old)
                                             = om_ResourceVersion (pps_ObjectMeta o))) Conflict
          end) (pps_status_updated o) }.

(** A retry loop with a fixed number of further attempts. *)
Fixpoint retry_steps {W} (steps : nat) (fn : GoM W (option ApiError)) : GoM W (option ApiError) :=
  let! e := fn in
  match steps with
  | S n => if decide (e = Some Conflict) then retry_steps n fn else go_ret e
  | O => go_ret e
  end.

(** ** Consequences of the laws *)

Section law_lemmas.
Context `{!Client W, !ClientLaws W}.

Lemma always_of_wp {A} (I : W → W → Prop) (m : GoM W A) :
  (∀ w, wp m (λ _ w', I w w') w) → always I m.
Proof. intros Hm w. specialize (Hm w). unfold wp in Hm. by destruct (m w) as [[a|why] w']. Qed.

Lemma get_always {A} (I : W → W → Prop) (op : GoM W (ApiError + A)) sel :
  get_spec contents reliable op sel →
  (∀ w w', contents w' = contents w → I w w') → always I op.
Proof.
  intros Hop HI. apply always_of_wp. intros w. eapply wp_mono; [apply Hop|]. naive_solver.
Qed.

Lemma list_always (I : W → W → Prop) op sel :
  list_spec contents reliable op sel →
  (∀ w w', contents w' = contents w → I w w') → always I op.
Proof.
  intros Hop HI. apply always_of_wp. intros w. eapply wp_mono; [apply Hop|]. naive_solver.
Qed.

Lemma write_always (I : W → W → Prop) op change ready taken :
  write_spec contents reliable op change ready taken →
  (∀ w w', contents w' = contents w → I w w') →
  (∀ w w' rv, contents w' = change rv (contents w) → I w w') → always I op.
Proof.
  intros Hop HI HI'. apply always_of_wp. intros w. eapply wp_mono; [apply Hop|].
  intros [e|] w'; naive_solver.
Qed.

Lemma retry_always (I : W → W → Prop) `{!Transitive I} retry fn :
  RetryLaw retry → (∀ w, wp fn (λ _ _, True) w) → always I fn → always I (retry fn).
Proof.
  intros Hretry Hfn HI. apply always_of_wp. intros w. eapply wp_mono; [by apply Hretry|].
  intros e w' Hr. simpl in Hr.
  assert (∀ w e w', runs fn w e w' → I w w') as Hstep.
  { intros w1 e1 w1' Hrun. specialize (HI w1). unfold runs in Hrun. by rewrite Hrun in HI. }
  induction Hr as [| |w w1 e w' Hrun Hr IH]; [by eauto|by eauto|].
  etrans; [by eapply Hstep|by apply IH].
Qed.
End law_lemmas.

Lemma retry_steps_law {W} n : RetryLaw (W:=W) (retry_steps n).
Proof.
  intros fn Hfn. induction n as [|n IH]; intros w; simpl.
  - apply wp_bind, wp_runs. pose proof (Hfn w) as (e & w' & Hrun & _)%wp_runs.
    exists e, w'. split; [done|]. apply wp_ret.
    destruct (decide (e = Some Conflict)) as [->|]; by constructor.
  - apply wp_bind, wp_runs. pose proof (Hfn w) as (e & w' & Hrun & _)%wp_runs.
    exists e, w'. split; [done|]. case_decide as He.
    + subst e. eapply wp_mono; [apply IH|]. intros e w''. by eapply retried_again.
    + apply wp_ret. by constructor.
Qed.

(** ** The in-memory server behaves as documented *)

Definition mem_reliable (w : MemServer) : Prop := ms_faults w = [].

Lemma mem_get_spec {A} (sel : Store → option A) : get_spec ms_store mem_reliable (mem_get sel) sel.
Proof.
  intros [s [|[e|] fs] c]; unfold wp, mem_get, mem_fault, go_bind, mem_reliable; simpl.
  - split; [done|]. unfold lookup_result. destruct (sel s); done.
  - split; [done|]. split; [case_decide; naive_solver|done].
  - split; [done|]. unfold lookup_result. destruct (sel s); done.
Qed.

Lemma mem_list_spec ns sel : list_spec ms_store mem_reliable (mem_list ns sel) (selected ns sel).
Proof.
  assert (∀ s l,
    l = (map_to_list (filter (λ kp, kp.1 = meta_key (pod_ObjectMeta kp.2) ∧
      om_Namespace (pod_ObjectMeta kp.2) = ns ∧ labels_match sel (om_Labels (pod_ObjectMeta kp.2)))
      (st_pod s))).*2 → NoDup l ∧ ∀ p, p ∈ l ↔ selected ns sel s p) as Hl.
  { intros s l ->. set (m := filter _ (st_pod s)).
    assert (∀ k p, (k, p) ∈ map_to_list m ↔ k = meta_key (pod_ObjectMeta p) ∧ selected ns sel s p) as Hm.
    { intros k p. rewrite elem_of_map_to_list. unfold m. rewrite map_lookup_filter_Some.
      unfold selected. simpl. naive_solver. }
    split.
    - apply NoDup_fmap_2_strong; [|apply NoDup_map_to_list].
      intros [k1 p1] [k2 p2] [-> _]%Hm [-> _]%Hm. simpl. by intros ->.
    - intros p. rewrite list_elem_of_fmap. split.
      + intros ([k p'] & -> & [_ Hp]%Hm). done.
      + intros Hp. exists (meta_key (pod_ObjectMeta p), p). split; [done|]. by apply Hm. }
  intros [s [|[e|] fs] c]; unfold wp, mem_list, mem_fault, go_bind, mem_reliable; simpl;
    (split; [done|]; split; [|by eauto]); intros l Hr; simplify_eq; by apply Hl.
Qed.

Lemma mem_write_spec guard change (ready taken : Store → Prop) :
  (∀ s, guard s = None ↔ ready s) → (∀ s, guard s = Some AlreadyExists → taken s) →
  write_spec ms_store mem_reliable (mem_write guard change) change ready taken.
Proof.
  intros Hready Htaken [s [|[e|] fs] c]; unfold wp, mem_write, mem_fault, go_bind, mem_reliable;
    simpl.
  - specialize (Hready s). specialize (Htaken s). destruct (guard s) as [e|]; naive_solver.
  - split; [|done]. split; [done|]. case_decide; naive_solver.
  - specialize (Hready s). specialize (Htaken s). destruct (guard s) as [e|]; naive_solver.
Qed.

Lemma refuse_None b e : refuse b e = None ↔ b = true.
Proof. by destruct b. Qed.

Lemma mem_rv_guard {A} (meta : A → ObjectMeta) (o : A) (stored : option A) :
  match stored with
  | None => Some NotFound
  | Some old => refuse (bool_decide (om_ResourceVersion (meta old) = om_ResourceVersion (meta o))) Conflict
  end = None ↔ rv_matches meta o stored.
Proof.
  unfold rv_matches. destruct stored as [old|]; [|naive_solver].
  rewrite refuse_None, bool_decide_eq_true. naive_solver.
Qed.

#[global] Instance mem_client_laws : ClientLaws MemServer.
Proof.
  refine {| contents := ms_store; reliable := mem_reliable |}; intros.
  1-4: apply mem_get_spec.
  - apply mem_list_spec.
  - apply mem_write_spec; intros s.
    + by rewrite refuse_None, bool_decide_eq_true.
    + case_bool_decide; [done|]. intros _. by apply not_eq_None_Some.
  - apply mem_write_spec; intros s; [apply mem_rv_guard|done].
  - apply mem_write_spec; intros s.
    + by rewrite refuse_None, bool_decide_eq_true.
    + case_bool_decide; [done|]. intros _. by apply not_eq_None_Some.
  - apply mem_write_spec; intros s; [apply mem_rv_guard|done].
Defined.
