(* ===== verification/Features.v ===== *)
(** * Feature switches: [pkg/features/features.go]

    The process keeps one [GlobalConfig], which [SetPersistenceConfig] overwrites and the
    controller and the webhook read. *)
From S2P Require Export GoStrings.

Record PersistenceConfig := mkPersistenceConfig {
  EnableVMIPersistence : bool;
  EnableStatefulSetPersistence : bool }.

(** The initial value of the variable GlobalConfig. *)
Definition GlobalConfig : PersistenceConfig := mkPersistenceConfig true true.

(** The assignment of both fields, as a change of the variable. *)
Definition SetPersistenceConfig (enableVMI enableStatefulSet : bool)
    : GoM PersistenceConfig () := λ _,
  (Ret (), mkPersistenceConfig enableVMI enableStatefulSet).
