(* ===== verification/Reconciler.v ===== *)
(** * The controller

    [internal/controller/apps]: the reconciler ([persistentpodstate_controller.go],
    [persistentpodstate_statefulset.go]).  For a VirtualMachineInstance, or for each pod of
    a StatefulSet, it keeps a Calico IPReservation of the current address and records
    address and node in the PersistentPodState of the same name. *)
From S2P Require Export ApiServer Features.

Definition KindVmi : string := "VirtualMachineInstance".
Definition KindStatefulSet : string := "StatefulSet".
Definition AutoGeneratePersistentPodStatePrefix : string := "generate".
Definition hostname_label : string := "kubernetes.io/hostname".

(** ** The objects the reconciler builds *)

(** metav1.ObjectMeta{Name: name} *)
Definition named_meta (ns name : string) (owners : list OwnerReference) : ObjectMeta :=
  mkObjectMeta name ns "" "" None None owners "".

(** fmt.Sprintf("%s/32", ip) *)
Definition cidr32 (ip : string) : string := ip +:+ "/32".

Definition vmi_reservation_name (ns name : string) : string := "vmi-" +:+ ns +:+ "-" +:+ name.
Definition pod_reservation_name (ns name : string) : string := "pod-" +:+ ns +:+ "-" +:+ name.

Definition new_reservation (name ip : string) : IPReservation :=
  mkIPReservation (named_meta "" name []) (Some [cidr32 ip]) "".

(** The recorded state: the same composite literal in both files. *)
Definition recorded_state (node ip : string) : PodState :=
  mkPodState node (Some {[ hostname_label := node ]}) None ip.

Definition new_status (m : gmap string PodState) : PersistentPodStateStatus :=
  mkPersistentPodStateStatus 0 (Some m).

Definition vmi_name (v : VirtualMachineInstance) : string := om_Name (vmi_ObjectMeta v).
Definition vmi_namespace (v : VirtualMachineInstance) : string := om_Namespace (vmi_ObjectMeta v).
Definition sts_name (s : StatefulSet) : string := om_Name (sts_ObjectMeta s).
Definition sts_namespace (s : StatefulSet) : string := om_Namespace (sts_ObjectMeta s).
Definition pod_name (p : Pod) : string := om_Name (pod_ObjectMeta p).
Definition pod_namespace (p : Pod) : string := om_Namespace (pod_ObjectMeta p).

Definition vmi_persistent_state (v : VirtualMachineInstance) (owner : OwnerReference) (ip : string)
    : PersistentPodState :=
  mkPersistentPodState
    (named_meta (vmi_namespace v) (vmi_name v)
       [mkOwnerReference (or_APIVersion owner) (or_Kind owner) (or_Name owner) (Some true) (or_UID owner)])
    (mkPersistentPodStateSpec
       (mkTargetReference "kubevirt.io/v1" "VirtualMachineInstance" (vmi_name v)) None None)
    (new_status {[ vmi_name v := recorded_state (vmi_NodeName v) ip ]}).

Definition sts_persistent_state (s : StatefulSet) (m : gmap string PodState) : PersistentPodState :=
  mkPersistentPodState
    (named_meta (sts_namespace s) (sts_name s)
       [mkOwnerReference "apps/v1" "StatefulSet" (sts_name s) (Some true) (om_UID (sts_ObjectMeta s))])
    (mkPersistentPodStateSpec (mkTargetReference "apps/v1" "StatefulSet" (sts_name s)) None None)
    (new_status m).

(** existing.Spec.ReservedCIDRs = cidrs *)
Definition with_cidrs (o : IPReservation) (cidrs : option (list string)) : IPReservation :=
  mkIPReservation (ipr_ObjectMeta o) cidrs (ipr_rest o).

(** objClone.Spec = ...; objClone.Status = ... *)
Definition with_spec_status (o : PersistentPodState) (sp : PersistentPodStateSpec)
    (st : PersistentPodStateStatus) : PersistentPodState :=
  mkPersistentPodState (pps_ObjectMeta o) sp st.

Section reconciler.
Context {W : Type} `{!Client W}.
(** [retry.RetryOnConflict(retry.DefaultBackoff, _)] of client-go, and the value of
    [features.GlobalConfig]. *)
Variable RetryOnConflict : GoM W (option ApiError) → GoM W (option ApiError).
Variable config : PersistenceConfig.

(** The Get / Create / compare / Update sequence both files write out for a reservation. *)
Definition reserve (ipReservation : IPReservation) : GoM W (option ApiError) :=
  let! r := GetIPReservation (ipr_key ipReservation) in
  match r with
  | inl err =>
      if negb (IsNotFound err) then go_ret (Some err)
      else CreateIPReservation ipReservation
  | inr existing =>
      if negb (DeepEqual (ipr_ReservedCIDRs existing) (ipr_ReservedCIDRs ipReservation))
      then UpdateIPReservation (with_cidrs existing (ipr_ReservedCIDRs ipReservation))
      else go_ret None
  end.

Definition createOrUpdateIPReservation (pod : Pod) : GoM W (option ApiError) :=
  if decide (pod_PodIP pod = "") then go_ret None
  else reserve (new_reservation (pod_reservation_name (pod_namespace pod) (pod_name pod)) (pod_PodIP pod)).

(** One attempt of the status update: the closure given to RetryOnConflict. *)
Definition update_attempt (pps : PersistentPodState) : GoM W (option ApiError) :=
  let! r := GetPersistentPodState (pps_key pps) in
  match r with
  | inl err => go_ret (Some err)
  | inr objClone =>
      StatusUpdatePersistentPodState
        (with_spec_status objClone (PersistentPodStateSpec_DeepCopy (pps_Spec pps))
           (PersistentPodStateStatus_DeepCopy (pps_Status pps)))
  end.

(** r.Create(ctx, persistentPodState), where AlreadyExists is not an error. *)
Definition create_state (pps : PersistentPodState) : GoM W (option ApiError) :=
  let! e := CreatePersistentPodState pps in
  match e with
  | Some err => if IsAlreadyExists err then go_ret None else go_ret (Some err)
  | None => go_ret None
  end.

Definition VmiAutoGeneratePersistentPodState (v : VirtualMachineInstance) : GoM W (option ApiError) :=
  match vmi_Interfaces v with
  | [] => go_ret None
  | iface :: _ =>
      let ip := vif_IP iface in
      if decide (ip = "") then go_ret None
      else
        let! e :=
          (if decide (ip = "") then go_ret None
           else reserve (new_reservation (vmi_reservation_name (vmi_namespace v) (vmi_name v)) ip)) in
        match e with
        | Some err => go_ret (Some err)
        | None =>
            match om_OwnerReferences (vmi_ObjectMeta v) with
            | [] => go_panic "index out of range [0] with length 0"
            | owner :: _ =>
                let pps := vmi_persistent_state v owner ip in
                let! r := GetPersistentPodState (vmi_namespace v, vmi_name v) in
                match r with
                | inl err => if negb (IsNotFound err) then go_ret (Some err) else create_state pps
                | inr existing =>
                    if DeepEqual (pps_Status existing) (pps_Status pps) then go_ret None
                    else RetryOnConflict (update_attempt pps)
                end
            end
        end
  end.

(** The body of the loop over the pods: [m] is persistentPodState.Status.PodStates. *)
Definition record_pod (pod : Pod) (m : gmap string PodState) : GoM W (gmap string PodState) :=
  if decide (pod_PodIP pod = "" ∨ pod_NodeName pod = "") then go_ret m
  else
    let! e := createOrUpdateIPReservation pod in
    match e with
    | Some _ => go_ret m
    | None => go_ret (<[pod_name pod := recorded_state (pod_NodeName pod) (pod_PodIP pod)]> m)
    end.

Definition StatefulSetAutoGeneratePersistentPodState (s : StatefulSet) : GoM W (option ApiError) :=
  match sts_Selector s with
  | None => go_panic "invalid memory address or nil pointer dereference"
  | Some sel =>
      let! r := ListPods (sts_namespace s) (ls_MatchLabels sel) in
      match r with
      | inl err => go_ret (Some err)
      | inr [] => go_ret None
      | inr items =>
          let! m := go_for record_pod items ∅ in
          let pps := sts_persistent_state s m in
          if decide (gomap_len (ppst_PodStates (pps_Status pps)) = 0) then go_ret None
          else
            let! r := GetPersistentPodState (sts_namespace s, sts_name s) in
            match r with
            | inl err => if negb (IsNotFound err) then go_ret (Some err) else create_state pps
            | inr existing =>
                if DeepEqual (pps_Status existing) (pps_Status pps) then go_ret None
                else if decide (gomap_len (ppst_PodStates (pps_Status pps))
                                < gomap_len (ppst_PodStates (pps_Status existing)))
                then go_ret None
                else RetryOnConflict (update_attempt pps)
            end
      end
  end.

(** A request is a (namespace, name) pair; the ctrl.Result returned is always the zero one,
    so only the error is kept. *)
Definition Reconcile (req : NamespacedName) : GoM W (option ApiError) :=
  let '(ns, name) := req in
  if contains name (AutoGeneratePersistentPodStatePrefix +:+ "#" +:+ KindVmi) then
    if negb (EnableVMIPersistence config) then go_ret None
    else
      match split name "#" with
      | [_; _; target] =>
          let! r := GetVirtualMachineInstance (ns, target) in
          match r with
          | inl _ => go_ret None
          | inr v => VmiAutoGeneratePersistentPodState v
          end
      | _ => go_ret None
      end
  else if contains name (AutoGeneratePersistentPodStatePrefix +:+ "#" +:+ KindStatefulSet) then
    if negb (EnableStatefulSetPersistence config) then go_ret None
    else
      match split name "#" with
      | [_; _; target] =>
          let! r := GetStatefulSet (ns, target) in
          match r with
          | inl _ => go_ret None
          | inr s => StatefulSetAutoGeneratePersistentPodState s
          end
      | _ => go_ret None
      end
  else
    (** by name: a VMI first, then a StatefulSet *)
    let! vmi :=
      (if EnableVMIPersistence config then
         let! r := GetVirtualMachineInstance (ns, name) in go_ret (Some r)
       else go_ret None) in
    match vmi with
    | Some (inr v) => VmiAutoGeneratePersistentPodState v
    | _ =>
        if EnableStatefulSetPersistence config then
          let! r := GetStatefulSet (ns, name) in
          match r with
          | inr s => StatefulSetAutoGeneratePersistentPodState s
          | inl _ => go_ret None
          end
        else go_ret None
    end.
End reconciler.
