(* ===== verification/ReconcilerFacts.v ===== *)
(** * What the reconciler's operations do

    The specifications of [Reconciler]'s operations against any API server that behaves as
    documented ([ClientLaws]): the frame each operation respects, the reservation and the
    state it leaves, and what it does in a reliable world. *)
From S2P Require Export Reconciler.

(** [touches names keys s s']: of [s], at most the reservations named by [names] and the
    states under [keys] differ in [s']; objects stay stored under their own names. *)
Definition touches (names : string → Prop) (keys : NamespacedName → Prop) (s s' : Store) : Prop :=
  keyed s →
  keyed s' ∧ st_vmi s' = st_vmi s ∧ st_sts s' = st_sts s ∧ st_pod s' = st_pod s ∧
  (∀ n, ¬ names n → st_ipr s' !! n = st_ipr s !! n) ∧
  (∀ k, ¬ keys k → st_pps s' !! k = st_pps s !! k).

(** The address [ip] is reserved under [name]. *)
Definition reserved (name ip : string) (s : Store) : Prop :=
  ∃ r, st_ipr s !! name = Some r ∧ ipr_ReservedCIDRs r = Some [cidr32 ip].

(** Pods the controller records, and what it records of them. *)
Definition eligible (p : Pod) : Prop := pod_PodIP p ≠ "" ∧ pod_NodeName p ≠ "".
Definition pod_entry (p : Pod) : PodState := recorded_state (pod_NodeName p) (pod_PodIP p).

(** [m] records exactly the eligible pods of the selection, under their names. *)
Definition describes (ns : string) (sel : gomap string) (s : Store) (m : gmap string PodState) : Prop :=
  ∀ n e, m !! n = Some e ↔
    ∃ p, selected ns sel s p ∧ eligible p ∧ pod_name p = n ∧ e = pod_entry p.

Definition sts_key (s : StatefulSet) : NamespacedName := (sts_namespace s, sts_name s).
Definition vmi_key (v : VirtualMachineInstance) : NamespacedName := (vmi_namespace v, vmi_name v).

(** The abstract specification: the status stored after a reconcile of a StatefulSet whose
    eligible pods are [m], given the stored one. *)
Definition sts_next_status (m : gmap string PodState) (old : option PersistentPodStateStatus)
    : option PersistentPodStateStatus :=
  if decide (m = ∅) then old
  else match old with
       | None => Some Status_zero
       | Some st =>
           if decide (size m < gomap_len (ppst_PodStates st)) then Some st else Some (new_status m)
       end.

Definition stored_status (k : NamespacedName) (s : Store) : option PersistentPodStateStatus :=
  pps_Status <$> st_pps s !! k.

(** ** Frames *)

#[export] Instance touches_refl names keys : Reflexive (touches names keys).
Proof. intros s Hk. naive_solver. Qed.

#[export] Instance touches_trans names keys : Transitive (touches names keys).
Proof.
  intros s1 s2 s3 H12 H23 Hk.
  destruct (H12 Hk) as (Hk2 & Hv & Hst & Hp & Hn & Hs).
  destruct (H23 Hk2) as (Hk3 & Hv' & Hst' & Hp' & Hn' & Hs').
  split; [done|]. repeat split; try congruence.
  - intros n Hnn. by rewrite Hn', Hn.
  - intros k Hkk. by rewrite Hs', Hs.
Qed.

Lemma touches_mono (names names' : string → Prop) (keys keys' : NamespacedName → Prop) s s' :
  touches names keys s s' → (∀ n, names n → names' n) → (∀ k, keys k → keys' k) →
  touches names' keys' s s'.
Proof. intros H Hn Hk Hkeyed. destruct (H Hkeyed) as (?&?&?&?&?&?). naive_solver. Qed.

Lemma touches_eq names keys s s' : s' = s → touches names keys s s'.
Proof. intros ->. reflexivity. Qed.

Lemma touches_ipr (names : string → Prop) keys n r s :
  names n → ipr_key r = n → touches names keys s (set_ipr (<[n := r]> (st_ipr s)) s).
Proof.
  intros Hn Hr (Hv & Hst & Hi & Hp). unfold set_ipr, keyed; simpl. split_and!; try done.
  - by apply map_Forall_insert_2.
  - intros n' Hn'. rewrite lookup_insert_ne; [done|]. by intros ->.
Qed.

Lemma touches_pps names (keys : NamespacedName → Prop) k o s :
  keys k → pps_key o = k → touches names keys s (set_pps (<[k := o]> (st_pps s)) s).
Proof.
  intros Hk Ho (Hv & Hst & Hi & Hp). unfold set_pps, keyed; simpl. split_and!; try done.
  - by apply map_Forall_insert_2.
  - intros k' Hk'. rewrite lookup_insert_ne; [done|]. by intros ->.
Qed.

Lemma touches_keyed names keys s s' : touches names keys s s' → keyed s → keyed s'.
Proof. intros H Hk. by destruct (H Hk). Qed.

Lemma pps_key_with_rv rv o sp st :
  pps_key (mkPersistentPodState (with_rv rv (pps_ObjectMeta o)) sp st) = pps_key o.
Proof. done. Qed.

Lemma keyed_ipr s n r : keyed s → st_ipr s !! n = Some r → ipr_key r = n.
Proof. intros (_ & _ & Hi & _) Hr. by apply Hi. Qed.
Lemma keyed_pps s k o : keyed s → st_pps s !! k = Some o → pps_key o = k.
Proof. intros (_ & _ & _ & Hp) Ho. by apply Hp. Qed.

Lemma describes_unique ns sel s m m' : describes ns sel s m → describes ns sel s m' → m = m'.
Proof.
  intros Hm Hm'. apply map_eq. intros n. apply option_eq. intros e.
  specialize (Hm n e). specialize (Hm' n e). tauto.
Qed.

Lemma describes_pods ns sel s s' m : st_pod s' = st_pod s → describes ns sel s m → describes ns sel s' m.
Proof. unfold describes, selected. by intros ->. Qed.

(** A recorded status survives the trip through JSON unchanged. *)
Lemma recorded_status_json (m : gmap string PodState) :
  (∀ n e, m !! n = Some e → ∃ node ip, e = recorded_state node ip) → m ≠ ∅ →
  Status_json (new_status m) = new_status m.
Proof.
  intros Hm Hne. unfold Status_json, new_status; simpl. f_equal.
  assert (PodState_json <$> m = m) as ->.
  { apply map_eq. intros n. rewrite lookup_fmap. destruct (m !! n) as [e|] eqn:He; [|done].
    by destruct (Hm n e He) as (node & ip & ->). }
  unfold omitempty_map. case_decide as Hs; [|done]. by apply map_size_empty_iff in Hs.
Qed.

Lemma pod_reservation_name_inj ns n n' :
  pod_reservation_name ns n = pod_reservation_name ns n' → n = n'.
Proof. unfold pod_reservation_name. intros H. by repeat apply str_app_inj_l in H. Qed.

(** ** The operations *)

Section facts.
Context `{!Client W, !ClientLaws W}.
(** What a reservation of [ip] under [n] may do to the store, whatever its result. *)
Definition reserve_post (n ip : string) (w : W) (e : option ApiError) (w' : W) : Prop :=
  touches (eq n) (λ _, False) (contents w) (contents w') ∧
  st_pps (contents w') = st_pps (contents w) ∧
  (e = None → reserved n ip (contents w')) ∧
  (e ≠ None → contents w' = contents w) ∧
  (reserved n ip (contents w) → contents w' = contents w) ∧
  (reliable w → reliable w' ∧ e = None).

Lemma reserve_post_same n ip w e w' :
  contents w' = contents w → (e = None → reserved n ip (contents w)) →
  (reliable w → reliable w' ∧ e = None) → reserve_post n ip w e w'.
Proof. intros Hc He Hr. unfold reserve_post. rewrite Hc. by split_and!. Qed.

Lemma reserve_post_written o ip rv w w' :
  ipr_ReservedCIDRs o = Some [cidr32 ip] → ¬ reserved (ipr_key o) ip (contents w) →
  contents w' = ipr_written o rv (contents w) → (reliable w → reliable w') →
  reserve_post (ipr_key o) ip w None w'.
Proof.
  intros Hip Hn Hc Hr. unfold reserve_post. rewrite Hc. unfold ipr_written. split_and!; try done.
  - by apply touches_ipr.
  - intros _. exists (stored_ipr rv o). split; [apply lookup_insert_eq|done].
  - intros Hw. split; [auto|done].
Qed.

Lemma reserve_wp o ip w :
  keyed (contents w) → ipr_ReservedCIDRs o = Some [cidr32 ip] →
  wp (reserve o) (λ e w', reserve_post (ipr_key o) ip w e w') w.
Proof.
  intros Hk Hip. unfold reserve. apply wp_bind.
  eapply wp_mono; [apply get_ipr_law|]. simpl. intros r w1 (Hc1 & Hr & Hrel).
  destruct r as [err|old]; simpl.
  - destruct (IsNotFound err) eqn:Herr; simpl.
    + apply bool_decide_eq_true in Herr. specialize (Hr Herr).
      eapply wp_mono; [apply create_ipr_law|]. simpl. rewrite Hc1. intros [e|] w' [He Hrel'].
      * apply reserve_post_same; [naive_solver..|]. intros Hw. destruct Hrel as [Hw1 _]; [done|].
        destruct (Hrel' Hw1) as [_ Hnone]. by specialize (Hnone Hr).
      * destruct He as [_ [rv Hc]]. eapply reserve_post_written; [done| |done|naive_solver].
        intros (x & Hx & _). congruence.
    + apply wp_ret, reserve_post_same; [done..|]. intros Hw.
      destruct Hrel as [_ Hw1]; [done|]. unfold lookup_result in Hw1.
      destruct (st_ipr (contents w) !! ipr_key o); simplify_eq.
  - destruct (DeepEqual _ _) eqn:Heq; simpl.
    + apply DeepEqual_eq in Heq. apply wp_ret, reserve_post_same; [done| |naive_solver].
      intros _. exists old. by rewrite Heq.
    + pose proof (keyed_ipr _ _ _ Hk Hr) as Hkey.
      change (ipr_key old) with (ipr_key (with_cidrs old (ipr_ReservedCIDRs o))) in Hkey.
      rewrite <-Hkey in *. eapply wp_mono; [apply update_ipr_law|]. simpl. rewrite Hc1.
      intros e w' [He Hrel'].
      assert (reliable w → reliable w' ∧ e = None) as Hrw.
      { intros Hw. destruct Hrel as [Hw1 _]; [done|]. destruct (Hrel' Hw1) as [Hw' Hnone].
        split; [done|]. apply Hnone. by exists old. }
      destruct e as [e|]; [apply reserve_post_same; naive_solver|].
      destruct He as [_ [rv Hc]]. eapply reserve_post_written; [done| |done|naive_solver].
      intros (x & Hx & Hxip). rewrite Hr in Hx. simplify_eq. rewrite Hxip, Hip in Heq.
      by rewrite DeepEqual_refl in Heq.
Qed.

Lemma createOrUpdate_wp p w :
  keyed (contents w) → pod_PodIP p ≠ "" →
  wp (createOrUpdateIPReservation p) (λ e w',
    reserve_post (pod_reservation_name (pod_namespace p) (pod_name p)) (pod_PodIP p) w e w') w.
Proof.
  intros Hk Hip. unfold createOrUpdateIPReservation. rewrite decide_False by done.
  by apply (reserve_wp (new_reservation _ _)).
Qed.

(** *** The loop over the pods

    [done] are the pods already visited from world [w0]. *)
Definition recorded (ns : string) (done : list Pod) (w0 : W) (m : gmap string PodState) (w : W) : Prop :=
  touches (λ n, ∃ x, n = pod_reservation_name ns x) (λ _, False) (contents w0) (contents w) ∧
  st_pps (contents w) = st_pps (contents w0) ∧
  (∀ n e, m !! n = Some e →
    (∃ p, p ∈ done ∧ eligible p ∧ pod_name p = n ∧ e = pod_entry p) ∧
    reserved (pod_reservation_name ns n) (ps_PodIP e) (contents w)) ∧
  (reliable w0 → reliable w ∧ ∀ p, p ∈ done → eligible p → m !! pod_name p = Some (pod_entry p)).

Lemma reserved_other n n' ip s s' :
  touches (eq n) (λ _, False) s s' → keyed s → n ≠ n' → reserved n' ip s → reserved n' ip s'.
Proof.
  intros Ht Hk Hne (r & Hr & Hip). exists r. split; [|done].
  destruct (Ht Hk) as (_ & _ & _ & _ & Hn & _). by rewrite Hn.
Qed.

Lemma recorded_reserve ns done p m w0 w e w' :
  keyed (contents w0) → pod_namespace p = ns → eligible p →
  (∀ q, q ∈ done → pod_name q ≠ pod_name p) →
  recorded ns done w0 m w →
  reserve_post (pod_reservation_name ns (pod_name p)) (pod_PodIP p) w e w' →
  recorded ns (done ++ [p]) w0
    (if e then m else <[pod_name p := pod_entry p]> m) w'.
Proof.
  intros Hk Hns Hel Hnew (Ht & Hpps & Hm & Hrel) (Ht' & Hpps' & Hres & Hsame & _ & Hrel').
  assert (keyed (contents w)) as Hkw by by eapply touches_keyed.
  assert (touches (λ n, ∃ x, n = pod_reservation_name ns x) (λ _, False) (contents w0) (contents w')).
  { etrans; [done|]. eapply touches_mono; [done| |done]. intros n <-. by eexists. }
  destruct e as [err|].
  - assert (contents w' = contents w) as Hc by (apply Hsame; done).
    split; [done|]. split; [congruence|]. rewrite Hc. split.
    + intros n e He. destruct (Hm n e He) as [(q & Hq & ?) ?]. split; [|done].
      exists q. split; [set_solver|done].
    + intros Hw. destruct (Hrel Hw) as [Hw1 _]. by destruct (Hrel' Hw1).
  - split; [done|]. split; [congruence|]. split.
    + intros n e [[<- <-]|[Hne He]]%lookup_insert_Some.
      * split; [exists p; set_solver|]. by apply Hres.
      * destruct (Hm n e He) as [(q & Hq & Hqe) Hr]. split; [exists q; set_solver|].
        eapply reserved_other; [done..| |done]. by intros ?%pod_reservation_name_inj.
    + intros Hw. destruct (Hrel Hw) as [Hw1 Hdone]. destruct (Hrel' Hw1) as [Hw' _].
      split; [done|]. intros q [Hq| ->%list_elem_of_singleton]%elem_of_app Hqe.
      * rewrite lookup_insert_ne; [by apply Hdone|]. intros Heq. by eapply Hnew.
      * by rewrite lookup_insert_eq.
Qed.

Lemma recorded_skip ns done p m w0 w :
  ¬ eligible p → recorded ns done w0 m w → recorded ns (done ++ [p]) w0 m w.
Proof.
  intros Hel (Ht & Hpps & Hm & Hrel). split; [done|]. split; [done|]. split.
  - intros n e He. destruct (Hm n e He) as [(q & Hq & ?) ?]. split; [|done].
    exists q. split; [set_solver|done].
  - intros Hw. destruct (Hrel Hw) as [Hw1 Hdone]. split; [done|].
    intros q [Hq| ->%list_elem_of_singleton]%elem_of_app Hqe; [by apply Hdone|done].
Qed.

Lemma record_pod_wp ns done p m w0 w :
  keyed (contents w0) → pod_namespace p = ns →
  (∀ q, q ∈ done → pod_name q ≠ pod_name p) →
  recorded ns done w0 m w →
  wp (record_pod p m) (λ m' w', recorded ns (done ++ [p]) w0 m' w') w.
Proof.
  intros Hk Hns Hnew Hrec. unfold record_pod. case_decide as Hel.
  - apply wp_ret, recorded_skip; [|done]. unfold eligible. tauto.
  - apply Decidable.not_or in Hel. apply wp_bind.
    assert (keyed (contents w)) by (destruct Hrec; by eapply touches_keyed).
    eapply wp_mono; [apply createOrUpdate_wp; [done|apply Hel]|]. simpl. intros e w' Hpost.
    rewrite Hns in Hpost.
    pose proof (recorded_reserve ns done p m w0 w e w' Hk Hns Hel Hnew Hrec Hpost).
    by destruct e.
Qed.

Lemma record_pods_wp ns (l : list Pod) w :
  keyed (contents w) → (∀ p, p ∈ l → pod_namespace p = ns) → NoDup (pod_name <$> l) →
  wp (go_for record_pod l ∅) (λ m w', recorded ns l w m w') w.
Proof.
  intros Hk Hns Hnd.
  eapply wp_mono; [apply (wp_for record_pod
    (λ l' m w', ∃ done, l = (done ++ l')%list ∧ recorded ns done w m w'))|].
  - exists []. split; [done|]. split; [reflexivity|]. split; [done|]. split; [done|].
    intros Hw. split; [done|]. intros p Hp. by apply elem_of_nil in Hp.
  - intros p l' m w' (done & -> & Hrec). eapply wp_mono; [apply (record_pod_wp ns done); try done|].
    + apply Hns. set_solver.
    + intros q Hq Heq. rewrite fmap_app, fmap_cons in Hnd. apply NoDup_app in Hnd as (_ & Hd & _).
      apply (Hd (pod_name q)); [by apply list_elem_of_fmap_2|]. rewrite Heq. by left.
    + intros m' w'' Hrec'. simpl in Hrec'. exists (done ++ [p])%list. by rewrite <-app_assoc.
  - intros m w' (done & -> & Hrec). by rewrite app_nil_r.
Qed.

(** When every eligible pod's address is already reserved the loop changes nothing. *)
Lemma record_pods_quiet ns (l : list Pod) w :
  keyed (contents w) → (∀ p, p ∈ l → pod_namespace p = ns) →
  (∀ p, p ∈ l → eligible p →
    reserved (pod_reservation_name ns (pod_name p)) (pod_PodIP p) (contents w)) →
  wp (go_for record_pod l ∅) (λ _ w', contents w' = contents w) w.
Proof.
  intros Hk Hns Hres.
  eapply wp_mono; [apply (wp_for record_pod
    (λ l' (_ : gmap string PodState) w', (∀ p, p ∈ l' → p ∈ l) ∧ contents w' = contents w))|].
  - done.
  - intros p l' m w' [Hl Hc]. unfold record_pod. case_decide as Hel.
    + apply wp_ret. split; [|done]. intros q Hq. apply Hl. by right.
    + apply Decidable.not_or in Hel. assert (p ∈ l) as Hp by (apply Hl; by left).
      apply wp_bind. eapply wp_mono; [apply createOrUpdate_wp; [by rewrite Hc|apply Hel]|].
      intros e w'' (_ & _ & _ & _ & Hsame & _). rewrite (Hns p Hp), Hc in Hsame.
      specialize (Hsame (Hres p Hp Hel)).
      destruct e; apply wp_ret; (split; [|done]); intros q Hq; apply Hl; by right.
  - intros m w' [_ Hc]. done.
Qed.

(** *** The selection *)

Lemma selected_names ns sel s (l : list Pod) :
  NoDup l → (∀ p, p ∈ l ↔ selected ns sel s p) →
  (∀ p, p ∈ l → pod_namespace p = ns) ∧ NoDup (pod_name <$> l).
Proof.
  intros Hnd Hl. split; [by intros p [Hns _]%Hl|].
  apply NoDup_fmap_2_strong; [|done]. intros p q Hp%Hl Hq%Hl Heq.
  destruct Hp as (Hns & _ & Hp), Hq as (Hns' & _ & Hq).
  unfold meta_key in Hp, Hq. unfold pod_name in Heq. congruence.
Qed.

Lemma recorded_describes ns sel (l : list Pod) w m w' :
  (∀ p, p ∈ l ↔ selected ns sel (contents w) p) → recorded ns l w m w' → reliable w →
  describes ns sel (contents w) m.
Proof.
  intros Hl (_ & _ & Hm & Hrel) Hw n e. split.
  - intros He. destruct (Hm n e He) as [(p & Hp & Hel & Hn & ->) _].
    exists p. split; [by apply Hl|done].
  - intros (p & Hp & Hel & <- & ->). apply Hrel; [done|by apply Hl|done].
Qed.

(** *** Storing the state *)

(** What storing the status of [pps] may do, whatever its result. *)
Definition store_post (pps : PersistentPodState) (w : W) (e : option ApiError) (w' : W) : Prop :=
  touches (λ _, False) (eq (pps_key pps)) (contents w) (contents w') ∧
  st_ipr (contents w') = st_ipr (contents w) ∧
  (contents w' = contents w ∨
   ∃ o o', st_pps (contents w) !! pps_key pps = Some o ∧ st_pps (contents w') !! pps_key pps = Some o' ∧
     pps_Spec o' = pps_Spec o ∧ pps_Status o' = Status_json (pps_Status pps)).

Lemma store_post_refl pps e w : store_post pps w e w.
Proof. split; [reflexivity|]. split; [done|by left]. Qed.

Lemma update_attempt_wp pps w :
  keyed (contents w) →
  wp (update_attempt pps) (λ e w',
    store_post pps w e w' ∧ (e ≠ None → contents w' = contents w) ∧
    (e = None → stored_status (pps_key pps) (contents w') = Some (Status_json (pps_Status pps))) ∧
    (reliable w → reliable w' ∧ (is_Some (st_pps (contents w) !! pps_key pps) → e = None))) w.
Proof.
  intros Hk. unfold update_attempt. apply wp_bind.
  eapply wp_mono; [apply get_pps_law|]. simpl. intros r w1 (Hc1 & Hr & Hrel).
  unfold store_post. destruct r as [err|old].
  - apply wp_ret. rewrite Hc1. split_and!; try done; [by left|].
    intros Hw. destruct (Hrel Hw) as [Hw1 Heq]. split; [done|]. intros [o Ho].
    rewrite Ho in Heq. done.
  - rewrite Spec_DeepCopy_id, Status_DeepCopy_id.
    pose proof (keyed_pps _ _ _ Hk Hr) as Hkey.
    set (o := with_spec_status old _ _).
    assert (pps_key o = pps_key pps) as Hko by done.
    eapply wp_mono; [apply status_update_pps_law|]. simpl. rewrite Hc1, Hko.
    intros [e|] w' [He Hrel'].
    + destruct He as [Hc _]. rewrite Hc. split_and!; try done; [by left|].
      intros Hw. destruct (Hrel Hw) as [Hw1 _]. destruct (Hrel' Hw1) as [Hw' Hnone].
      split; [done|]. intros _. apply Hnone. by exists old.
    + destruct He as [_ [rv Hc]]. unfold pps_status_updated in Hc. rewrite Hko, Hr in Hc.
      assert (stored_status (pps_key pps) (contents w') = Some (Status_json (pps_Status pps))).
      { rewrite Hc. unfold stored_status; simpl. by rewrite lookup_insert_eq. }
      split_and!; try done.
      * rewrite Hc. by apply touches_pps.
      * by rewrite Hc.
      * right. exists old. rewrite Hc. eexists. split; [done|]. simpl. by rewrite lookup_insert_eq.
      * intros Hw. destruct (Hrel Hw) as [Hw1 _]. by destruct (Hrel' Hw1).
Qed.

Lemma create_state_wp pps w :
  keyed (contents w) → st_pps (contents w) !! pps_key pps = None →
  wp (create_state pps) (λ e w',
    touches (λ _, False) (eq (pps_key pps)) (contents w) (contents w') ∧
    st_ipr (contents w') = st_ipr (contents w) ∧
    (e = None → ∃ rv, contents w' = pps_created pps rv (contents w)) ∧
    (e ≠ None → contents w' = contents w) ∧
    (reliable w → reliable w' ∧ e = None)) w.
Proof.
  intros Hk Habs. unfold create_state. apply wp_bind.
  eapply wp_mono; [apply create_pps_law|]. simpl. intros [e|] w' [He Hrel].
  - destruct He as [Hc Htaken].
    assert (IsAlreadyExists e = false) as ->.
    { apply bool_decide_eq_false. intros Hex. destruct (Htaken Hex). congruence. }
    apply wp_ret. rewrite Hc. split_and!; try done.
    intros Hw. destruct (Hrel Hw) as [_ Hnone]. by specialize (Hnone Habs).
  - apply wp_ret. destruct He as [_ [rv Hc]]. rewrite Hc. unfold pps_created.
    split_and!; try done; [by apply touches_pps|by eauto..|].
    intros Hw. by destruct (Hrel Hw).
Qed.
End facts.

Section retry_facts.
Context `{!Client W, !ClientLaws W}.
Variable RetryOnConflict : GoM W (option ApiError) → GoM W (option ApiError).
Hypothesis retry_law : RetryLaw RetryOnConflict.

Definition never_panics {A} (m : GoM W A) : Prop := ∀ w, wp m (λ _ _, True) w.

Lemma update_attempt_total pps : never_panics (update_attempt pps).
Proof.
  intros w. unfold update_attempt. apply wp_bind.
  eapply wp_mono; [apply get_pps_law|]. intros [err|old] w1 _; [done|].
  eapply wp_mono; [apply status_update_pps_law|]. done.
Qed.

Lemma retry_update_wp pps w :
  keyed (contents w) →
  wp (RetryOnConflict (update_attempt pps)) (λ e w',
    store_post pps w e w' ∧ (e ≠ None → contents w' = contents w) ∧
    (e = None → stored_status (pps_key pps) (contents w') = Some (Status_json (pps_Status pps))) ∧
    (reliable w → reliable w' ∧ (is_Some (st_pps (contents w) !! pps_key pps) → e = None))) w.
Proof.
  intros Hk. eapply wp_mono; [by apply retry_law, update_attempt_total|]. simpl.
  intros e w' Hr. induction Hr as [w e w' Hrun Hne|w w' Hrun|w w1 e w' Hrun Hr IH].
  - pose proof (update_attempt_wp pps w Hk) as (e' & w'' & Hrun' & Hpost)%wp_runs.
    unfold runs in *. rewrite Hrun in Hrun'. by simplify_eq.
  - pose proof (update_attempt_wp pps w Hk) as (e' & w'' & Hrun' & Hpost)%wp_runs.
    unfold runs in *. rewrite Hrun in Hrun'. by simplify_eq.
  - pose proof (update_attempt_wp pps w Hk) as (e' & w'' & Hrun' & Hpost)%wp_runs.
    unfold runs in *. rewrite Hrun in Hrun'. simplify_eq.
    destruct Hpost as (_ & Hsame & _ & Hrel). specialize (Hsame ltac:(done)).
    unfold store_post in *. rewrite Hsame in IH. destruct (IH Hk) as (? & ? & ? & Hrel').
    tauto.
Qed.

(** *** The two reconcilers *)

(** The last part both reconcilers share: create the state, or update it unless [skip]. *)
Definition store_tail (skip : PersistentPodState → bool) (pps : PersistentPodState)
    : GoM W (option ApiError) :=
  let! r := GetPersistentPodState (pps_key pps) in
  match r with
  | inl err => if negb (IsNotFound err) then go_ret (Some err) else create_state pps
  | inr existing => if skip existing then go_ret None else RetryOnConflict (update_attempt pps)
  end.

Definition tail_status (skip : PersistentPodState → bool) (pps : PersistentPodState)
    (old : option PersistentPodState) : PersistentPodStateStatus :=
  match old with
  | None => Status_zero
  | Some o => if skip o then pps_Status o else Status_json (pps_Status pps)
  end.

Lemma store_tail_wp skip pps w :
  keyed (contents w) →
  wp (store_tail skip pps) (λ e w',
    touches (λ _, False) (eq (pps_key pps)) (contents w) (contents w') ∧
    st_ipr (contents w') = st_ipr (contents w) ∧
    (e = None → stored_status (pps_key pps) (contents w') =
       Some (tail_status skip pps (st_pps (contents w) !! pps_key pps))) ∧
    (e ≠ None → contents w' = contents w) ∧
    (reliable w → reliable w' ∧ e = None)) w.
Proof.
  intros Hk. unfold store_tail. apply wp_bind.
  eapply wp_mono; [apply get_pps_law|]. simpl. intros r w1 (Hc1 & Hr & Hrel).
  destruct r as [err|old].
  - destruct (IsNotFound err) eqn:Herr; simpl.
    + apply bool_decide_eq_true in Herr. specialize (Hr Herr).
      eapply wp_mono; [apply create_state_wp; by rewrite Hc1|].
      simpl. rewrite Hc1, Hr. intros e w' (Ht & Hi & Hnone & Hsome & Hrel').
      split_and!; try done; [|naive_solver].
      intros He. destruct (Hnone He) as [rv ->]. unfold stored_status; simpl.
      by rewrite lookup_insert_eq.
    + apply wp_ret. rewrite Hc1. split_and!; try done.
      intros Hw. destruct (Hrel Hw) as [_ Heq]. unfold lookup_result in Heq.
      destruct (st_pps (contents w) !! pps_key pps); simplify_eq.
  - destruct (skip old) eqn:Hskip; simpl.
    + apply wp_ret. rewrite Hc1. unfold stored_status. rewrite Hr. simpl. rewrite Hskip.
      split_and!; try done; naive_solver.
    + eapply wp_mono; [apply retry_update_wp; by rewrite Hc1|].
      unfold store_post. simpl. rewrite Hc1, Hr.
      intros e w' ((Ht & Hi & Hor) & Hsome & Hnone & Hrel').
      simpl. rewrite Hskip. split_and!; try done.
      intros Hw. destruct (Hrel Hw) as [Hw1 _]. destruct (Hrel' Hw1) as [Hw' He]. eauto.
Qed.

Definition sts_skip (m : gmap string PodState) (existing : PersistentPodState) : bool :=
  DeepEqual (pps_Status existing) (new_status m) ||
  bool_decide (size m < gomap_len (ppst_PodStates (pps_Status existing))).

Definition vmi_skip (pps existing : PersistentPodState) : bool :=
  DeepEqual (pps_Status existing) (pps_Status pps).

Lemma sts_unfold s sel :
  sts_Selector s = Some sel →
  StatefulSetAutoGeneratePersistentPodState RetryOnConflict s =
  go_bind (ListPods (sts_namespace s) (ls_MatchLabels sel)) (λ r,
    match r with
    | inl err => go_ret (Some err)
    | inr [] => go_ret None
    | inr items =>
        go_bind (go_for record_pod items ∅) (λ m,
          if decide (size m = 0) then go_ret None
          else go_bind (GetPersistentPodState (sts_namespace s, sts_name s)) (λ r,
            match r with
            | inl err => if negb (IsNotFound err) then go_ret (Some err)
                         else create_state (sts_persistent_state s m)
            | inr existing =>
                if DeepEqual (pps_Status existing) (new_status m) then go_ret None
                else if decide (size m < gomap_len (ppst_PodStates (pps_Status existing)))
                then go_ret None
                else RetryOnConflict (update_attempt (sts_persistent_state s m))
            end))
    end).
Proof. intros Hsel. unfold StatefulSetAutoGeneratePersistentPodState. by rewrite Hsel. Qed.

Lemma sts_tail_eq s m w :
  go_bind (GetPersistentPodState (sts_namespace s, sts_name s)) (λ r,
    match r with
    | inl err => if negb (IsNotFound err) then go_ret (Some err)
                 else create_state (sts_persistent_state s m)
    | inr existing =>
        if DeepEqual (pps_Status existing) (new_status m) then go_ret None
        else if decide (size m < gomap_len (ppst_PodStates (pps_Status existing)))
        then go_ret None
        else RetryOnConflict (update_attempt (sts_persistent_state s m))
    end) w = store_tail (sts_skip m) (sts_persistent_state s m) w.
Proof.
  unfold store_tail, go_bind, sts_skip. destruct (GetPersistentPodState _ w) as [[[err|o]|why] w1]; try done.
  destruct (DeepEqual _ _); [done|]. simpl. case_bool_decide; by case_decide.
Qed.

Definition pod_reservations (ns : string) (n : string) : Prop := ∃ x, n = pod_reservation_name ns x.

(** What a reconcile of a StatefulSet selecting with [sel] may do, whatever its result:
    the frame; the status stays, is created empty if there is a pod to record, or becomes the record [m] of the pods
    found, all of whose addresses are reserved; and in a reliable world, exactly the
    specified next status. *)
Definition sts_post (s : StatefulSet) (sel : gomap string) (w : W) (e : option ApiError) (w' : W) : Prop :=
  let k := sts_key s in
  touches (pod_reservations (sts_namespace s)) (eq k) (contents w) (contents w') ∧
  (stored_status k (contents w') = stored_status k (contents w) ∨
   (stored_status k (contents w) = None ∧ stored_status k (contents w') = Some Status_zero ∧
    ∃ p, selected (sts_namespace s) sel (contents w) p ∧ eligible p) ∨
   ∃ st m, stored_status k (contents w) = Some st ∧
     stored_status k (contents w') = Some (new_status m) ∧
     (gomap_len (ppst_PodStates st) ≤ size m ∧ m ≠ ∅) ∧
     ∀ n en, m !! n = Some en →
       (∃ p, selected (sts_namespace s) sel (contents w) p ∧ eligible p ∧ pod_name p = n ∧
             en = pod_entry p) ∧
       reserved (pod_reservation_name (sts_namespace s) n) (ps_PodIP en) (contents w')) ∧
  (reliable w → reliable w' ∧ e = None ∧ ∃ m,
     describes (sts_namespace s) sel (contents w) m ∧
     stored_status k (contents w') = sts_next_status m (stored_status k (contents w))).

Lemma sts_post_same s sel w e w' :
  touches (pod_reservations (sts_namespace s)) (eq (sts_key s)) (contents w) (contents w') →
  stored_status (sts_key s) (contents w') = stored_status (sts_key s) (contents w) →
  (reliable w → reliable w' ∧ e = None ∧ describes (sts_namespace s) sel (contents w) ∅) →
  sts_post s sel w e w'.
Proof.
  intros Ht Hst Hrel. split; [done|]. split; [by left|]. intros Hw.
  destruct (Hrel Hw) as (Hw' & He & Hd). split_and!; try done. exists ∅. split; [done|].
  rewrite Hst. unfold sts_next_status. by rewrite decide_True.
Qed.

Lemma sts_tail_status m (old : option PersistentPodState) pps :
  m ≠ ∅ → pps_Status pps = new_status m → Status_json (new_status m) = new_status m →
  Some (tail_status (sts_skip m) pps old) = sts_next_status m (pps_Status <$> old).
Proof.
  intros Hm Hpps Hj. unfold sts_next_status. rewrite decide_False by done.
  destruct old as [o|]; simpl; [|done]. unfold sts_skip. rewrite Hpps, Hj.
  destruct (DeepEqual _ _) eqn:Heq; simpl; [|by repeat case_decide || case_bool_decide].
  apply DeepEqual_eq in Heq. rewrite Heq. by case_decide.
Qed.

Lemma sts_tail_change m st :
  m ≠ ∅ → sts_next_status m (Some st) ≠ Some st →
  sts_next_status m (Some st) = Some (new_status m) ∧ gomap_len (ppst_PodStates st) ≤ size m.
Proof.
  intros Hm. unfold sts_next_status. rewrite decide_False by done. case_decide; [done|].
  intros _. split; [done|lia].
Qed.

Lemma sts_stored s sel l m w w1 e w' :
  keyed (contents w) → m ≠ ∅ →
  (∀ p, p ∈ l ↔ selected (sts_namespace s) sel (contents w) p) →
  recorded (sts_namespace s) l w m w1 →
  touches (λ _, False) (eq (sts_key s)) (contents w1) (contents w') →
  st_ipr (contents w') = st_ipr (contents w1) →
  (e = None → stored_status (sts_key s) (contents w') =
     sts_next_status m (stored_status (sts_key s) (contents w))) →
  (e ≠ None → contents w' = contents w1) →
  (reliable w1 → reliable w' ∧ e = None) →
  sts_post s sel w e w'.
Proof.
  intros Hk Hm Hl Hrec Ht' Hi Hnone Hsome Hrel. pose proof Hrec as (Ht & Hpps & Hrecm & Hrelw).
  assert (stored_status (sts_key s) (contents w1) = stored_status (sts_key s) (contents w)) as Hsame.
  { unfold stored_status. by rewrite Hpps. }
  assert (stored_status (sts_key s) (contents w') = stored_status (sts_key s) (contents w) ∨
    stored_status (sts_key s) (contents w') =
      sts_next_status m (stored_status (sts_key s) (contents w))) as Hst.
  { destruct e as [err|]; [left; by rewrite Hsome|right; by apply Hnone]. }
  split; [|split].
  - etrans; [eapply touches_mono; [exact Ht|done|done]|].
    eapply touches_mono; [exact Ht'|done|done].
  - destruct (decide (sts_next_status m (stored_status (sts_key s) (contents w))
      = stored_status (sts_key s) (contents w))) as [Heq|Hne]; [left; destruct Hst; congruence|].
    destruct Hst as [Hst|Hst]; [by left|]. right. rewrite Hst.
    destruct (stored_status (sts_key s) (contents w)) as [st|] eqn:Hold; [right|left].
    + destruct (sts_tail_change m st Hm Hne) as [-> Hlen]. exists st, m. split_and!; try done.
      intros n en Hn. destruct (Hrecm n en Hn) as [(p & Hp & ?) (r & Hr & ?)].
      split; [exists p; split; [by apply Hl|done]|]. exists r. by rewrite Hi.
    + split; [done|]. split; [unfold sts_next_status; by rewrite decide_False|].
      destruct (map_choose m Hm) as (n & en & Hn). destruct (Hrecm n en Hn) as [(p & Hp & Hel & _) _].
      exists p. split; [by apply Hl|done].
  - intros Hw. destruct (Hrelw Hw) as [Hw1 _]. destruct (Hrel Hw1) as (? & ?).
    split_and!; try done. exists m. split; [by eapply recorded_describes|auto].
Qed.

Lemma sts_wp s sel w :
  sts_Selector s = Some sel → keyed (contents w) →
  wp (StatefulSetAutoGeneratePersistentPodState RetryOnConflict s)
     (λ e w', sts_post s (ls_MatchLabels sel) w e w') w.
Proof.
  intros Hsel Hk. rewrite (sts_unfold s sel Hsel). apply wp_bind.
  eapply wp_mono; [apply list_pods_law|]. simpl. intros r w0 (Hc0 & Hr & Hrel).
  assert (∀ e, (reliable w → e = None ∧ describes (sts_namespace s) (ls_MatchLabels sel) (contents w) ∅) →
    sts_post s (ls_MatchLabels sel) w e w0) as Hquit.
  { intros e He. apply sts_post_same; rewrite ?Hc0; [done..|]. intros Hw.
    destruct (Hrel Hw). naive_solver. }
  destruct r as [err|l]; [apply wp_ret, Hquit; intros Hw; destruct (Hrel Hw) as [_ [? ?]]; done|].
  destruct (Hr l eq_refl) as [Hnd Hl]. clear Hr.
  destruct (selected_names _ _ _ l Hnd Hl) as [Hns Hnames].
  assert (wp (go_for record_pod l ∅) (λ m w', recorded (sts_namespace s) l w m w') w0) as Hloop.
  { eapply wp_mono; [apply record_pods_wp; [by rewrite Hc0|done..]|]. simpl.
    intros m w1 (Ht & Hp & Hm & Hrel1). unfold recorded. rewrite Hc0 in *. split_and!; try done.
    intros Hw. destruct (Hrel Hw) as [Hw0 _]. by apply Hrel1. }
  destruct l as [|p0 l0].
  { apply wp_ret, Hquit. intros Hw. split; [done|]. intros n en. split; [done|].
    intros (p & Hp & _). apply Hl in Hp. by apply elem_of_nil in Hp. }
  apply wp_bind. eapply wp_mono; [exact Hloop|]. intros m w1 Hrec. clear Hloop Hquit.
  assert (keyed (contents w1)) as Hk1 by (destruct Hrec; by eapply touches_keyed).
  case_decide as Hsz.
  { apply map_size_empty_iff in Hsz as ->. pose proof Hrec as (Ht & Hp & _ & Hrel1).
    apply wp_ret, sts_post_same; [by eapply touches_mono| |].
    - unfold stored_status. by rewrite Hp.
    - intros Hw. destruct (Hrel1 Hw). split_and!; try done. by eapply recorded_describes. }
  assert (m ≠ ∅) as Hm by (intros ->; by rewrite map_size_empty in Hsz).
  assert (Status_json (new_status m) = new_status m) as Hj.
  { apply recorded_status_json; [|done]. intros n en Hn. destruct Hrec as (_ & _ & Hrm & _).
    destruct (Hrm n en Hn) as [(p & _ & _ & _ & ->) _]. by eexists _, _. }
  assert (st_pps (contents w1) = st_pps (contents w)) as Hpps1 by by destruct Hrec as (_ & ? & _).
  unfold wp. rewrite sts_tail_eq.
  pose proof (store_tail_wp (sts_skip m) (sts_persistent_state s m) w1 Hk1) as Htail.
  eapply wp_mono; [exact Htail|]. simpl. intros e w' (Ht & Hi & Hst & Hsome & Hrel').
  rewrite (sts_tail_status m) in Hst by done. rewrite Hpps1 in Hst. by eapply sts_stored.
Qed.

(** A reconcile that finds everything as recorded and reserved changes nothing. *)
Lemma sts_quiet s sel m w :
  sts_Selector s = Some sel → keyed (contents w) → reliable w →
  describes (sts_namespace s) (ls_MatchLabels sel) (contents w) m →
  stored_status (sts_key s) (contents w) = Some (new_status m) →
  (∀ n e, m !! n = Some e →
    reserved (pod_reservation_name (sts_namespace s) n) (ps_PodIP e) (contents w)) →
  wp (StatefulSetAutoGeneratePersistentPodState RetryOnConflict s)
     (λ e w', e = None ∧ contents w' = contents w) w.
Proof.
  intros Hsel Hk Hw Hm Hst Hres. rewrite (sts_unfold s sel Hsel). apply wp_bind.
  eapply wp_mono; [apply list_pods_law|]. simpl. intros r w0 (Hc0 & Hr & Hrel).
  destruct (Hrel Hw) as [Hw0 [l ->]]. destruct (Hr l eq_refl) as [Hnd Hl].
  destruct (selected_names _ _ _ l Hnd Hl) as [Hns Hnames].
  destruct l as [|p0 l0]; [by apply wp_ret|]. apply wp_bind.
  assert (keyed (contents w0)) as Hk0 by by rewrite Hc0.
  assert (wp (go_for record_pod (p0 :: l0) ∅) (λ m' w1,
    recorded (sts_namespace s) (p0 :: l0) w0 m' w1 ∧ contents w1 = contents w0) w0) as Hloop.
  { apply wp_and; [by apply record_pods_wp|]. eapply record_pods_quiet; [done|exact Hns|].
    intros p Hp Hel. rewrite Hc0. change (pod_PodIP p) with (ps_PodIP (pod_entry p)).
    apply Hres, Hm. exists p. split; [by apply Hl|done]. }
  eapply wp_mono; [exact Hloop|]. intros m' w1 [Hrec Hc1].
  assert (m' = m) as ->.
  { eapply describes_unique; [|exact Hm]. rewrite <-Hc0. eapply recorded_describes; [|done..].
    intros p. by rewrite Hc0. }
  case_decide as Hsz; [apply wp_ret; split; [done|congruence]|].
  apply wp_bind. eapply wp_mono; [apply get_pps_law|]. simpl. intros r w2 (Hc2 & _ & Hrel2).
  destruct Hrel2 as [_ ->]; [by apply Hrec|]. unfold stored_status, sts_key in Hst.
  rewrite Hc1, Hc0. destruct (st_pps (contents w) !! _) as [o|]; simpl in *; [|done].
  injection Hst as Hst. rewrite Hst, DeepEqual_refl. apply wp_ret. split; [done|congruence].
Qed.

(** The state recorded for a running instance with address [ip]. *)
Definition vmi_status (v : VirtualMachineInstance) (ip : string) : PersistentPodStateStatus :=
  new_status {[ vmi_name v := recorded_state (vmi_NodeName v) ip ]}.

Definition vmi_next_status (v : VirtualMachineInstance) (ip : string)
    (old : option PersistentPodStateStatus) : PersistentPodStateStatus :=
  match old with None => Status_zero | Some _ => vmi_status v ip end.

(** What a reconcile of an instance with address [ip] may do: the frame; success means the
    address is reserved and the specified status stored; a reliable server gives success. *)
Definition vmi_post (v : VirtualMachineInstance) (ip : string) (w : W) (e : option ApiError) (w' : W)
    : Prop :=
  let k := vmi_key v in
  let n := vmi_reservation_name (vmi_namespace v) (vmi_name v) in
  touches (eq n) (eq k) (contents w) (contents w') ∧
  (e = None → reserved n ip (contents w') ∧
     stored_status k (contents w') = Some (vmi_next_status v ip (stored_status k (contents w)))) ∧
  (e ≠ None → stored_status k (contents w') = stored_status k (contents w)) ∧
  (reliable w → reliable w' ∧ e = None).

Lemma vmi_tail_status v owner ip (old : option PersistentPodState) :
  tail_status (λ o, DeepEqual (pps_Status o) (vmi_status v ip)) (vmi_persistent_state v owner ip) old
  = vmi_next_status v ip (pps_Status <$> old).
Proof.
  destruct old as [o|]; simpl; [|done]. destruct (DeepEqual _ _) eqn:Heq; [by apply DeepEqual_eq|].
  unfold vmi_status. apply recorded_status_json; [|by apply map_non_empty_singleton].
  intros n e [<- <-]%lookup_singleton_Some. by eexists _, _.
Qed.

Lemma vmi_wp v iface ifaces owner owners w :
  vmi_Interfaces v = iface :: ifaces → vif_IP iface ≠ "" →
  om_OwnerReferences (vmi_ObjectMeta v) = owner :: owners → keyed (contents w) →
  wp (VmiAutoGeneratePersistentPodState RetryOnConflict v)
     (λ e w', vmi_post v (vif_IP iface) w e w') w.
Proof.
  intros Hif Hip Hown Hk. unfold VmiAutoGeneratePersistentPodState.
  rewrite Hif, Hown, !decide_False by done. apply wp_bind.
  eapply wp_mono; [by apply (reserve_wp (new_reservation _ _))|]. simpl.
  intros e w1 (Ht1 & Hp1 & Hnone1 & Hsome1 & _ & Hrel1). unfold vmi_post. simpl in *.
  destruct e as [err|].
  { apply wp_ret. rewrite Hsome1 by done. split_and!; [by apply touches_eq|done|done|naive_solver]. }
  assert (keyed (contents w1)) as Hk1 by by eapply touches_keyed.
  set (pps := vmi_persistent_state v owner (vif_IP iface)).
  pose proof (store_tail_wp (λ o, DeepEqual (pps_Status o) (vmi_status v (vif_IP iface))) pps w1 Hk1)
    as Htail.
  eapply wp_mono; [exact Htail|]. intros e w' (Ht & Hi & Hnone & Hsome & Hrel).
  unfold pps in Hnone. rewrite vmi_tail_status, Hp1 in Hnone. split_and!.
  - etrans; [by eapply touches_mono|]. by eapply touches_mono.
  - intros He. split; [|by apply Hnone]. destruct (Hnone1 eq_refl) as (r & Hr & ?).
    exists r. by rewrite Hi.
  - intros He. unfold stored_status. by rewrite Hsome, Hp1.
  - intros Hw. destruct (Hrel1 Hw). auto.
Qed.

(** Without an owner reference the instance's reservation is made and then the index
    expression panics. *)
Lemma vmi_no_owner v iface ifaces w :
  vmi_Interfaces v = iface :: ifaces → vif_IP iface ≠ "" →
  om_OwnerReferences (vmi_ObjectMeta v) = [] → keyed (contents w) → reliable w →
  ∃ w', VmiAutoGeneratePersistentPodState RetryOnConflict v w =
    (Panic "index out of range [0] with length 0", w') ∧
    reserved (vmi_reservation_name (vmi_namespace v) (vmi_name v)) (vif_IP iface) (contents w').
Proof.
  intros Hif Hip Hown Hk Hw. unfold VmiAutoGeneratePersistentPodState.
  rewrite Hif, Hown, !decide_False by done.
  pose proof (reserve_wp (new_reservation (vmi_reservation_name (vmi_namespace v) (vmi_name v))
    (vif_IP iface)) (vif_IP iface) w Hk eq_refl) as (e & w' & Hrun & Hpost)%wp_runs.
  destruct Hpost as (_ & _ & Hnone & _ & _ & Hrel). destruct (Hrel Hw) as [_ ->].
  exists w'. split; [|by apply Hnone]. by rewrite (go_bind_runs _ _ _ _ _ Hrun).
Qed.

(** *** The frame of a reconcile, panics included *)

Definition reservations_of (ns : string) (n : string) : Prop :=
  ∃ x, n = pod_reservation_name ns x ∨ n = vmi_reservation_name ns x.

Definition frame (ns : string) (w w' : W) : Prop :=
  touches (reservations_of ns) (λ k, k.1 = ns) (contents w) (contents w').

#[local] Instance frame_refl ns : Reflexive (frame ns).
Proof. intros w. unfold frame. reflexivity. Qed.
#[local] Instance frame_trans ns : Transitive (frame ns).
Proof. intros w1 w2 w3. unfold frame. apply transitivity. Qed.

Lemma frame_same ns w w' : contents w' = contents w → frame ns w w'.
Proof. intros Hc. by apply touches_eq. Qed.

(** To prove the frame of a computation, the store may be assumed well formed. *)
Lemma frame_of_wp {A} ns (m : GoM W A) :
  (∀ w, keyed (contents w) → wp m (λ _ w', frame ns w w') w) → always (frame ns) m.
Proof.
  intros Hm w Hk. specialize (Hm w Hk). unfold wp in Hm.
  destruct (m w) as [[a|why] w']; [by apply Hm|done].
Qed.

Lemma reserve_frame ns name ip :
  reservations_of ns name → always (frame ns) (reserve (new_reservation name ip)).
Proof.
  intros Hn. apply frame_of_wp. intros w Hk.
  eapply wp_mono; [by apply (reserve_wp (new_reservation name ip))|].
  intros e w' [Ht _]. eapply touches_mono; [exact Ht|by intros n <-|done].
Qed.

Lemma store_tail_frame ns skip pps :
  (pps_key pps).1 = ns → always (frame ns) (store_tail skip pps).
Proof.
  intros Hns. apply frame_of_wp. intros w Hk. eapply wp_mono; [by apply store_tail_wp|].
  intros e w' [Ht _]. eapply touches_mono; [exact Ht|done|by intros k <-].
Qed.

Lemma vmi_frame v : always (frame (vmi_namespace v)) (VmiAutoGeneratePersistentPodState RetryOnConflict v).
Proof.
  unfold VmiAutoGeneratePersistentPodState. destruct (vmi_Interfaces v) as [|iface ifaces]; [by always_solve|].
  case_decide; [by always_solve|]. apply always_bind; [apply _| |].
  - apply reserve_frame. eexists. by right.
  - intros [err|]; [by always_solve|]. destruct (om_OwnerReferences _) as [|owner owners]; [by always_solve|].
    apply (store_tail_frame _ (λ o, DeepEqual (pps_Status o) (vmi_status v (vif_IP iface)))
      (vmi_persistent_state v owner (vif_IP iface))). done.
Qed.

Lemma sts_frame s : always (frame (sts_namespace s)) (StatefulSetAutoGeneratePersistentPodState RetryOnConflict s).
Proof.
  destruct (sts_Selector s) as [sel|] eqn:Hsel.
  - apply frame_of_wp. intros w Hk. eapply wp_mono; [by eapply sts_wp|].
    intros e w' [Ht _]. eapply touches_mono; [exact Ht| |by intros k <-].
    intros n [x ->]. exists x. by left.
  - unfold StatefulSetAutoGeneratePersistentPodState. rewrite Hsel. by always_solve.
Qed.

Lemma always_ext {A} (I : W → W → Prop) (m m' : GoM W A) :
  (∀ w, m w = m' w) → always I m' → always I m.
Proof. intros Heq Hm w. by rewrite Heq. Qed.

Lemma keyed_vmi k s v : keyed s → st_vmi s !! k = Some v → meta_key (vmi_ObjectMeta v) = k.
Proof. intros (Hv & _) Hl. by apply Hv. Qed.
Lemma keyed_sts k s o : keyed s → st_sts s !! k = Some o → meta_key (sts_ObjectMeta o) = k.
Proof. intros (_ & Hv & _) Hl. by apply Hv. Qed.

(** *** What holds of every reconcile, panics included

    [I] holds of what changes nothing, and may assume the store well formed. *)
Section reconciles.
Context (I : W → W → Prop) `{!Reflexive I, !Transitive I}.
Hypothesis same_contents : ∀ w w', contents w' = contents w → I w w'.
Hypothesis keyed_first : ∀ w w', (keyed (contents w) → I w w') → I w w'.

(** A lookup by key, then a computation that respects the namespace of what was found. *)
Lemma get_keyed_always {A B} ns name (op : GoM W (ApiError + A)) (sel : Store → option A)
    (meta : A → ObjectMeta) (k : ApiError + A → GoM W B) :
  get_spec contents reliable op sel →
  (∀ s a, keyed s → sel s = Some a → meta_key (meta a) = (ns, name)) →
  (∀ e, always I (k (inl e))) →
  (∀ a, om_Namespace (meta a) = ns → always I (k (inr a))) →
  always I (go_bind op k).
Proof.
  intros Hop Hkey Herr Hok w. apply keyed_first. intros Hk.
  pose proof (Hop w) as (r & w1 & Hrun & Hc & Hr & _)%wp_runs.
  rewrite (go_bind_runs _ _ _ _ _ Hrun). transitivity w1; [by apply same_contents|].
  destruct r as [e|a]; [apply Herr|]. apply Hok. specialize (Hkey _ a Hk Hr).
  revert Hkey. unfold meta_key. by intros [= ->].
Qed.

Lemma get_vmi_always {B} ns name (k : ApiError + VirtualMachineInstance → GoM W B) :
  (∀ e, always I (k (inl e))) → (∀ v, vmi_namespace v = ns → always I (k (inr v))) →
  always I (go_bind (GetVirtualMachineInstance (ns, name)) k).
Proof. apply (get_keyed_always ns name _ (λ s, st_vmi s !! (ns, name)) vmi_ObjectMeta); [apply get_vmi_law|apply keyed_vmi]. Qed.

Lemma get_sts_always {B} ns name (k : ApiError + StatefulSet → GoM W B) :
  (∀ e, always I (k (inl e))) → (∀ v, sts_namespace v = ns → always I (k (inr v))) →
  always I (go_bind (GetStatefulSet (ns, name)) k).
Proof. apply (get_keyed_always ns name _ (λ s, st_sts s !! (ns, name)) sts_ObjectMeta); [apply get_sts_law|apply keyed_sts]. Qed.

Lemma Reconcile_always config ns name :
  (∀ v, vmi_namespace v = ns → always I (VmiAutoGeneratePersistentPodState RetryOnConflict v)) →
  (∀ s, sts_namespace s = ns → always I (StatefulSetAutoGeneratePersistentPodState RetryOnConflict s)) →
  always I (Reconcile RetryOnConflict config (ns, name)).
Proof.
  intros Hvmi Hsts.
  assert (∀ n, always I (go_bind (GetStatefulSet (ns, n)) (λ r,
    match r with
    | inr s => StatefulSetAutoGeneratePersistentPodState RetryOnConflict s
    | inl _ => go_ret None
    end))) as Hget by (intros n; apply get_sts_always; [by always_solve|done]).
  unfold Reconcile. destruct config as [[] []]; simpl;
    repeat match goal with
    | |- always _ (if ?b then _ else _) => destruct b
    | |- always _ (match split ?a ?b with _ => _ end) => repeat case_match
    | |- always _ (go_ret _) => by always_solve
    | |- always _ (go_bind (GetStatefulSet _) _) => apply get_sts_always; [by always_solve|done]
    | |- always _ (go_bind (GetVirtualMachineInstance _) _) =>
        apply get_vmi_always; [by always_solve|done]
    | |- always _ (go_bind (go_bind _ _) _) => eapply always_ext; [intros; apply go_bind_assoc|]
    | |- always _ (go_bind (go_ret _) _) => eapply always_ext; [intros; apply go_bind_ret|]
    | |- always _ (λ w, go_bind (GetVirtualMachineInstance _) _ w) =>
        apply get_vmi_always; intros v; simpl; [|by apply Hvmi]
    | _ => done
    end.
Qed.
End reconciles.

Lemma Reconcile_frame config ns name :
  always (frame ns) (Reconcile RetryOnConflict config (ns, name)).
Proof.
  apply Reconcile_always; [apply _|apply _|intros; by apply frame_same|intros w w' H Hk; by apply H| |].
  - intros v <-. apply vmi_frame.
  - intros v <-. apply sts_frame.
Qed.
End retry_facts.
