(* ===== verification/EventHandlers.v ===== *)
(** * The event handlers that feed the controller's queue

    [persistentpodstate_event_handler.go] (VirtualMachineInstances) and
    [persistentpodstate_statefulset_handler.go] (StatefulSets).  The work queue is client-go's
    and [IsRunning] is KubeVirt's: both are parameters. *)
From S2P Require Export Reconciler.

(** m[k] of an object's annotations. *)
Definition annotation (m : ObjectMeta) (k : string) : string := gomap_str (om_Annotations m) k.

(** The test both handlers make on the annotations. *)
Definition wants_persistence (m : ObjectMeta) : bool :=
  bool_decide (annotation m AnnotationAutoGeneratePersistentPodState = "true") &&
  bool_decide (annotation m AnnotationRequiredPersistentTopology ≠ "").

(** fmt.Sprintf("%s#%s#%s", prefix, kind, name) *)
Definition request_name (kind name : string) : string :=
  AutoGeneratePersistentPodStatePrefix +:+ "#" +:+ kind +:+ "#" +:+ name.

Section handlers.
Context {Q : Type}.
Variable q_Add : NamespacedName → GoM Q ().
Variable IsRunning : VirtualMachineInstance → bool.

Definition enqueuePersistentPodStateRequest (v : VirtualMachineInstance) : GoM Q () :=
  q_Add (vmi_namespace v, request_name KindVmi (vmi_name v)).

Definition VMI_Create (v : VirtualMachineInstance) : GoM Q () :=
  if wants_persistence (vmi_ObjectMeta v) && IsRunning v
  then enqueuePersistentPodStateRequest v else go_ret ().
Definition VMI_Delete (v : VirtualMachineInstance) : GoM Q () := go_ret ().
Definition VMI_Generic (v : VirtualMachineInstance) : GoM Q () := go_ret ().
Definition VMI_Update (old new : VirtualMachineInstance) : GoM Q () :=
  if wants_persistence (vmi_ObjectMeta new) && IsRunning new
  then enqueuePersistentPodStateRequest new else go_ret ().

Definition enqueueStatefulSetPersistentPodStateRequest (s : StatefulSet) : GoM Q () :=
  q_Add (sts_namespace s, request_name KindStatefulSet (sts_name s)).

Definition StatefulSet_Create (s : StatefulSet) : GoM Q () :=
  if wants_persistence (sts_ObjectMeta s)
  then enqueueStatefulSetPersistentPodStateRequest s else go_ret ().
Definition StatefulSet_Delete (s : StatefulSet) : GoM Q () := go_ret ().
Definition StatefulSet_Generic (s : StatefulSet) : GoM Q () := go_ret ().
Definition StatefulSet_Update (old new : StatefulSet) : GoM Q () :=
  if wants_persistence (sts_ObjectMeta new)
  then enqueueStatefulSetPersistentPodStateRequest new else go_ret ().
End handlers.

(** ** What the controller watches *)
Inductive WatchedKind := WatchPersistentPodState | WatchVirtualMachineInstance | WatchStatefulSet.
#[global] Instance WatchedKind_eq_dec : EqDecision WatchedKind.
Proof. solve_decision. Defined.

(** ctrl.NewControllerManagedBy(mgr).For(…).Watches(…)…: what it watches. *)
Abbreviation ControllerBuilder := (list WatchedKind).

(** The watches that SetupWithManager of persistentpodstate_controller.go asks for. *)
Definition reconciler_watches (cfg : PersistenceConfig) : ControllerBuilder :=
  let builder := [WatchPersistentPodState] in
  let builder := if EnableVMIPersistence cfg then builder ++ [WatchVirtualMachineInstance] else builder in
  if EnableStatefulSetPersistence cfg then builder ++ [WatchStatefulSet] else builder.

(** ** Request names *)

Lemma contains_cons c s sub :
  contains (String c s) sub = has_prefix (String c s) sub || contains s sub.
Proof. done. Qed.

Lemma contains_has_char s sub c : has_char c sub = true → has_char c s = false → contains s sub = false.
Proof.
  intros Hsub Hs. destruct (contains s sub) eqn:Hc; [|done].
  apply contains_spec in Hc as (a & b & ->). rewrite !has_char_app, Hsub in Hs.
  by rewrite orb_true_r in Hs.
Qed.

Lemma split_request_name kind name :
  has_char "#" kind = false → has_char "#" name = false →
  split (request_name kind name) "#" = [AutoGeneratePersistentPodStatePrefix; kind; name].
Proof.
  intros Hk Hn. unfold request_name.
  change ("#" +:+ kind +:+ "#" +:+ name) with (String "#" (kind +:+ String "#" name)).
  rewrite split_app_sep by done. f_equal. rewrite split_app_sep by done. f_equal.
  by apply split_no_sep.
Qed.

Lemma request_name_kind kind name :
  contains (request_name kind name) (AutoGeneratePersistentPodStatePrefix +:+ "#" +:+ kind) = true.
Proof.
  apply contains_spec. exists "", ("#" +:+ name). unfold request_name.
  by rewrite !str_app_assoc.
Qed.

Lemma request_name_sts_not_vmi name :
  has_char "#" name = false →
  contains (request_name KindStatefulSet name)
    (AutoGeneratePersistentPodStatePrefix +:+ "#" +:+ KindVmi) = false.
Proof.
  intros Hn. unfold request_name, AutoGeneratePersistentPodStatePrefix, KindStatefulSet.
  rewrite ?str_app_cons, ?str_app_nil_l, ?str_app_cons, ?str_app_nil_l.
  repeat (rewrite contains_cons; apply orb_false_iff; split; [done|]).
  by apply (contains_has_char _ _ "#").
Qed.
