(* ===== verification/NextStatus.v ===== *)
(** * What a reconcile stores, as a function

    An executable abstract specification of [Reconcile]: the state of a key after a request
    for it, computed from the stored objects and the state before ([next_status]).  Three
    reconciles settle a key; [rank] counts how many are still to come.  Against a reliable
    server [Reconcile] is this function, and writes nothing when it is at its fixed point.
    Before that: the reservations that a reconcile changes, only those of the Pods and
    instances it looks at, each to their own address; and against a reliable server all of
    these. *)
From S2P Require Export ReconcilerFacts EventHandlers.

(** ** The reservations that a reconcile changes *)

(** From [s] to [s'] only the reservations of eligible Pods of [P] change, to their addresses. *)
Definition reserves_only (P : Pod → Prop) (s s' : Store) : Prop :=
  ∀ n, st_ipr s' !! n = st_ipr s !! n ∨
    ∃ p, P p ∧ eligible p ∧ n = pod_reservation_name (pod_namespace p) (pod_name p) ∧ reserved n (pod_PodIP p) s'.

Lemma reserves_only_same (P : Pod → Prop) s s' : st_ipr s' = st_ipr s → reserves_only P s s'.
Proof. intros H n. left. by rewrite H. Qed.

Lemma reserves_only_then (P : Pod → Prop) s s1 s2 :
  reserves_only P s s1 → st_ipr s2 = st_ipr s1 → reserves_only P s s2.
Proof. intros H Hi n. unfold reserved. rewrite Hi. apply H. Qed.

Lemma reserved_same n ip s s' : st_ipr s' !! n = st_ipr s !! n → reserved n ip s → reserved n ip s'.
Proof. intros H (r & Hr & Hc). exists r. by rewrite H. Qed.

Section facts.
Context {W : Type} `{!Client W, !ClientLaws W}.

Lemma record_pod_reserves (P : Pod → Prop) p m s w :
  P p → keyed (contents w) → reserves_only P s (contents w) →
  wp (record_pod p m) (λ _ w', keyed (contents w') ∧ reserves_only P s (contents w')) w.
Proof.
  intros Hp Hk Hs. unfold record_pod. case_decide as Hel; [by apply wp_ret|].
  apply Decidable.not_or in Hel. apply wp_bind.
  eapply wp_mono; [apply createOrUpdate_wp; [done|apply Hel]|]. intros e w' (Ht & _ & Hnone & Hsome & _).
  assert (keyed (contents w') ∧ reserves_only P s (contents w')) as H; [|by destruct e; apply wp_ret].
  destruct (Ht Hk) as (Hk' & _ & _ & _ & Hother & _). split; [done|].
  destruct e as [e|]; [by rewrite Hsome|]. specialize (Hnone eq_refl). intros n.
  destruct (decide (n = pod_reservation_name (pod_namespace p) (pod_name p))) as [->|Hne].
  - right. by exists p.
  - specialize (Hother n ltac:(congruence)). destruct (Hs n) as [Hsame|(q & ? & ? & ? & ?)].
    + left. congruence.
    + right. exists q. split_and!; try done. by eapply reserved_same.
Qed.

Lemma record_pods_reserve (P : Pod → Prop) (l : list Pod) w :
  (∀ p, p ∈ l → P p) → keyed (contents w) →
  wp (go_for record_pod l ∅) (λ _ w', keyed (contents w') ∧ reserves_only P (contents w) (contents w')) w.
Proof.
  intros Hl Hk. eapply wp_mono; [apply (wp_for record_pod (λ l' (_ : gmap string PodState) w',
    (∀ p, p ∈ l' → P p) ∧ keyed (contents w') ∧ reserves_only P (contents w) (contents w')))|].
  - split; [done|]. split; [done|by apply reserves_only_same].
  - intros p l' m w' (Hl' & Hk' & Hr). eapply wp_mono; [apply (record_pod_reserves P); [apply Hl'; by left|done..]|].
    intros m' w'' [? ?]. split; [|done]. intros q Hq. apply Hl'. by right.
  - by intros m w' [_ H].
Qed.
End facts.

Section reconciles.
Context {W : Type} `{!Client W, !ClientLaws W}.
Variable RetryOnConflict : GoM W (option ApiError) → GoM W (option ApiError).
Hypothesis retry_law : RetryLaw RetryOnConflict.

Lemma sts_reserves s sel w :
  sts_Selector s = Some sel → keyed (contents w) →
  wp (StatefulSetAutoGeneratePersistentPodState RetryOnConflict s) (λ _ w',
    reserves_only (selected (sts_namespace s) (ls_MatchLabels sel) (contents w)) (contents w) (contents w')) w.
Proof.
  intros Hsel Hk. rewrite (sts_unfold _ s sel Hsel). apply wp_bind.
  eapply wp_mono; [apply list_pods_law|]. simpl. intros r w0 (Hc0 & Hr & _).
  assert (∀ P, reserves_only P (contents w) (contents w0)) as H0 by (intros P; by apply reserves_only_same; rewrite Hc0).
  destruct r as [err|l]; [by apply wp_ret|]. destruct (Hr l eq_refl) as [_ Hl].
  destruct l as [|p0 l0]; [by apply wp_ret|]. rewrite <-Hc0 in Hk, Hl |- *.
  apply wp_bind. eapply wp_mono; [apply record_pods_reserve; [intros p; apply Hl|done]|].
  intros m w1 [Hk1 H1]. case_decide; [by apply wp_ret|].
  unfold wp. rewrite sts_tail_eq. fold (wp (store_tail RetryOnConflict (sts_skip m) (sts_persistent_state s m))
    (λ _ w', reserves_only (selected (sts_namespace s) (ls_MatchLabels sel) (contents w0)) (contents w0) (contents w')) w1).
  eapply wp_mono; [by apply store_tail_wp|]. intros e w' (_ & Hi & _). by eapply reserves_only_then.
Qed.
End reconciles.

(** ** The state that a reconcile stores *)
(** The record of the eligible Pods of a selection. *)
Definition described (ns : string) (sel : gomap string) (s : Store) : gmap string PodState :=
  list_to_map ((λ kp, (kp.1.2, pod_entry kp.2)) <$> map_to_list (filter (λ kp : NamespacedName * Pod,
    kp.1 = meta_key (pod_ObjectMeta kp.2) ∧ kp.1.1 = ns ∧ labels_match sel (om_Labels (pod_ObjectMeta kp.2)) ∧
    pod_PodIP kp.2 ≠ "" ∧ pod_NodeName kp.2 ≠ "") (st_pod s))).

(** The address of an instance's first interface. *)
Definition vmi_ip (v : VirtualMachineInstance) : string :=
  match vmi_Interfaces v with iface :: _ => vif_IP iface | [] => "" end.

Section next.
Variable config : PersistenceConfig.

(** The object a request for [k] is about: an instance, or else a StatefulSet. *)
Definition target_vmi (s : Store) (k : NamespacedName) : option VirtualMachineInstance :=
  if EnableVMIPersistence config then st_vmi s !! k else None.
Definition target_sts (s : Store) (k : NamespacedName) : option StatefulSet :=
  if EnableStatefulSetPersistence config then st_sts s !! k else None.

Definition next_status (s : Store) (k : NamespacedName) (old : option PersistentPodStateStatus)
    : option PersistentPodStateStatus :=
  match target_vmi s k with
  | Some v => if decide (vmi_ip v = "") then old else Some (vmi_next_status v (vmi_ip v) old)
  | None =>
      match target_sts s k ≫= sts_Selector with
      | Some sel => sts_next_status (described k.1 (ls_MatchLabels sel) s) old
      | None => old
      end
  end.

(** The reservations, and their addresses, that a reconcile of [k] makes. *)
Definition due (s : Store) (k : NamespacedName) (n ip : string) : Prop :=
  match target_vmi s k with
  | Some v => vmi_ip v ≠ "" ∧ n = vmi_reservation_name k.1 k.2 ∧ ip = vmi_ip v
  | None =>
      match target_sts s k ≫= sts_Selector with
      | Some sel => ∃ x e, described k.1 (ls_MatchLabels sel) s !! x = Some e ∧
          n = pod_reservation_name k.1 x ∧ ip = ps_PodIP e
      | None => False
      end
  end.

(** How many reconciles of [k] change what is stored. *)
Definition rank (s : Store) (k : NamespacedName) (old : option PersistentPodStateStatus) : nat :=
  if decide (next_status s k old = old) then 0
  else if decide (next_status s k (next_status s k old) = next_status s k old) then 1 else 2.

Lemma next_status_thrice s k old :
  next_status s k (next_status s k (next_status s k old)) = next_status s k (next_status s k old).
Proof.
  unfold next_status. destruct (target_vmi s k) as [v|].
  - case_decide; [done|]. by destruct old.
  - destruct (target_sts s k ≫= sts_Selector) as [sel|]; [|done]. unfold sts_next_status.
    case_decide as Hm; [done|]. set (m := described _ _ _) in *.
    destruct old as [st|]; simpl; repeat (case_decide; simpl in *; try done); lia.
Qed.

Lemma rank_le s k old : rank s k old ≤ 2.
Proof. unfold rank. repeat case_decide; lia. Qed.

Lemma rank_next s k old : next_status s k old ≠ old → rank s k (next_status s k old) < rank s k old.
Proof.
  intros Hne. unfold rank. rewrite next_status_thrice. rewrite (decide_False (P := _ = old)) by done.
  repeat case_decide; (lia || congruence).
Qed.

Lemma rank_settled s k old : rank s k old = 0 → next_status s k old = old.
Proof. unfold rank. by repeat case_decide. Qed.
End next.

(** ** The record is what it is said to be *)
Lemma described_lookup ns sel s n e :
  described ns sel s !! n = Some e ↔
  ∃ p, st_pod s !! (ns, n) = Some p ∧ meta_key (pod_ObjectMeta p) = (ns, n) ∧
    labels_match sel (om_Labels (pod_ObjectMeta p)) ∧ eligible p ∧ e = pod_entry p.
Proof.
  unfold described. set (m := filter _ _).
  assert (∀ k p, (k, p) ∈ map_to_list m ↔ st_pod s !! k = Some p ∧ k = meta_key (pod_ObjectMeta p) ∧ k.1 = ns ∧
    labels_match sel (om_Labels (pod_ObjectMeta p)) ∧ eligible p) as Hm.
  { intros k p. rewrite elem_of_map_to_list. unfold m. rewrite map_lookup_filter_Some. unfold eligible. naive_solver. }
  rewrite <-elem_of_list_to_map.
  - rewrite list_elem_of_fmap. split.
    + intros ([[ns' n'] p] & [= -> ->] & (Hp & Hk & [= ->] & Hl & He)%Hm). by exists p.
    + intros (p & Hp & Hk & Hl & He & ->). exists ((ns, n), p). split; [done|]. by apply Hm.
  - rewrite <-list_fmap_compose. apply NoDup_fmap_2_strong; [|apply NoDup_map_to_list].
    intros [[ns1 n1] p1] [[ns2 n2] p2] (H1 & _ & [= ->] & _)%Hm (H2 & _ & [= ->] & _)%Hm [= ->]. congruence.
Qed.

Lemma described_describes ns sel s : describes ns sel s (described ns sel s).
Proof.
  intros n e. rewrite described_lookup. unfold selected. split.
  - intros (p & Hp & Hk & Hl & He & ->). exists p. rewrite Hk. injection Hk as Hns Hn. done.
  - intros (p & (Hns & Hl & Hp) & He & <- & ->). exists p. unfold meta_key in Hp. rewrite Hns in Hp.
    split_and!; try done. unfold meta_key. by rewrite Hns.
Qed.

Lemma described_pods ns sel s s' : st_pod s' = st_pod s → described ns sel s' = described ns sel s.
Proof. unfold described. by intros ->. Qed.

Lemma next_status_same config s s' k old :
  st_vmi s' = st_vmi s → st_sts s' = st_sts s → st_pod s' = st_pod s → next_status config s' k old = next_status config s k old.
Proof. unfold next_status, target_vmi, target_sts, described. by intros -> -> ->. Qed.
Lemma due_same config s s' k n ip :
  st_vmi s' = st_vmi s → st_sts s' = st_sts s → st_pod s' = st_pod s → due config s' k n ip ↔ due config s k n ip.
Proof. unfold due, target_vmi, target_sts, described. by intros -> -> ->. Qed.

(** ** Reconcile is this function *)

(** What the theorems ask of a cluster: names of objects are Kubernetes names, an instance with
    an address has an owner (without, the reconciler panics), a StatefulSet has a selector (the
    server requires it), no StatefulSet has the name of an instance of its namespace, and no
    two addresses are to be reserved under one name. *)
Record orderly (config : PersistenceConfig) (s : Store) : Prop := {
  vmi_named : ∀ k, is_Some (st_vmi s !! k) → has_char "#" k.2 = false;
  sts_named : ∀ k, is_Some (st_sts s !! k) → has_char "#" k.2 = false;
  vmi_owned : ∀ k v, target_vmi config s k = Some v → vmi_ip v ≠ "" → om_OwnerReferences (vmi_ObjectMeta v) ≠ [];
  sts_selects : ∀ k st, target_sts config s k = Some st → sts_Selector st ≠ None;
  kinds_apart : ∀ k, target_vmi config s k = None ∨ target_sts config s k = None;
  reservations_apart : ∀ k k' n ip ip', due config s k n ip → due config s k' n ip' → ip = ip' }.

(** The requests that name the object [k]. *)
Inductive request_for (config : PersistenceConfig) (s : Store) : NamespacedName → NamespacedName → Prop :=
| by_name k : has_char "#" k.2 = false → request_for config s k k
| by_vmi k : is_Some (target_vmi config s k) → request_for config s (k.1, request_name KindVmi k.2) k
| by_sts k : is_Some (target_sts config s k) → request_for config s (k.1, request_name KindStatefulSet k.2) k.

Section reconciles.
Context `{!Client W, !ClientLaws W}.
Variable RetryOnConflict : GoM W (option ApiError) → GoM W (option ApiError).
Hypothesis retry_law : RetryLaw RetryOnConflict.

(** A reconcile of [k] that follows [next] and reserves what is [owed]: nothing else changes,
    and at the fixed point no state is written at all. *)
Definition follows (k : NamespacedName) (next : option PersistentPodStateStatus → option PersistentPodStateStatus)
    (owed : string → string → Prop) (w : W) (e : option ApiError) (w' : W) : Prop :=
  e = None ∧ reliable w' ∧ keyed (contents w') ∧
  st_vmi (contents w') = st_vmi (contents w) ∧ st_sts (contents w') = st_sts (contents w) ∧
  st_pod (contents w') = st_pod (contents w) ∧
  (∀ k', k' ≠ k → st_pps (contents w') !! k' = st_pps (contents w) !! k') ∧
  stored_status k (contents w') = next (stored_status k (contents w)) ∧
  (next (stored_status k (contents w)) = stored_status k (contents w) →
   st_pps (contents w') = st_pps (contents w)) ∧
  (∀ n ip, owed n ip → reserved n ip (contents w')) ∧
  (∀ n, st_ipr (contents w') !! n = st_ipr (contents w) !! n ∨ ∃ ip, owed n ip ∧ reserved n ip (contents w')).

Lemma follows_same k next (owed : string → string → Prop) w w' :
  contents w' = contents w → reliable w' → keyed (contents w) →
  next (stored_status k (contents w)) = stored_status k (contents w) → (∀ n ip, ¬ owed n ip) →
  follows k next owed w None w'.
Proof. intros Hc Hw Hk Hn Ho. unfold follows. rewrite Hc, Hn. split_and!; try done; [by intros ? ? ?%Ho|by left]. Qed.

Lemma follows_contents k next owed w0 w e w' :
  contents w0 = contents w → follows k next owed w0 e w' → follows k next owed w e w'.
Proof. unfold follows. by intros ->. Qed.

Lemma follows_ext k (next next' : option PersistentPodStateStatus → _) (owed owed' : string → string → Prop) w e w' :
  (∀ old, next' old = next old) → (∀ n ip, owed n ip ↔ owed' n ip) → follows k next owed w e w' → follows k next' owed' w e w'.
Proof.
  intros Hn Ho (He & Hw & Hk & Hv & Hs & Hp & Hother & Hst & Hfix & Hres & Honly). unfold follows. rewrite !Hn.
  split_and!; try done; [intros n ip Hd; by apply Hres, Ho|]. intros n. destruct (Honly n) as [H|(ip & Hd & H)]; [by left|right].
  exists ip. split; [by apply Ho|done].
Qed.

Lemma store_tail_skips skip pps o w :
  st_pps (contents w) !! pps_key pps = Some o → skip o = true →
  wp (store_tail RetryOnConflict skip pps) (λ _ w', contents w' = contents w) w.
Proof.
  intros Ho Hskip. unfold store_tail. apply wp_bind. eapply wp_mono; [apply get_pps_law|]. simpl.
  intros r w1 (Hc1 & Hr & _). destruct r as [err|o'].
  - destruct (IsNotFound err) eqn:Herr; [|by apply wp_ret]. apply bool_decide_eq_true in Herr.
    rewrite (Hr Herr) in Ho. done.
  - rewrite Ho in Hr. injection Hr as <-. rewrite Hskip. by apply wp_ret.
Qed.

(** At the fixed point the end of a StatefulSet's reconcile writes nothing. *)
Lemma sts_tail_keeps s m w :
  keyed (contents w) → m ≠ ∅ →
  wp (store_tail RetryOnConflict (sts_skip m) (sts_persistent_state s m)) (λ _ w',
    st_ipr (contents w') = st_ipr (contents w) ∧
    (sts_next_status m (stored_status (sts_key s) (contents w)) = stored_status (sts_key s) (contents w) →
     st_pps (contents w') = st_pps (contents w))) w.
Proof.
  intros Hk Hm. pose proof (store_tail_wp RetryOnConflict retry_law (sts_skip m) (sts_persistent_state s m) w Hk) as Htail.
  unfold sts_next_status, stored_status. rewrite decide_False by done.
  destruct (st_pps (contents w) !! sts_key s) as [o|] eqn:Ho; cbn;
    [destruct (sts_skip m o) eqn:Hso|]; (eapply wp_mono; [|by intros ? ? H; exact H]).
  - eapply wp_mono; [by apply (store_tail_skips (sts_skip m) (sts_persistent_state s m) o)|]. by intros _ w' ->.
  - eapply wp_mono; [exact Htail|]. intros _ w' (_ & Hi & _). split; [done|]. intros Hfix. exfalso. unfold sts_skip in Hso.
    apply orb_false_iff in Hso as [Hd Hlt]. case_decide; [by rewrite bool_decide_eq_true_2 in Hlt|].
    injection Hfix as Hfix. by rewrite <-Hfix, DeepEqual_refl in Hd.
  - eapply wp_mono; [exact Htail|]. by intros _ w' (_ & Hi & _).
Qed.

(** What a reconcile of a StatefulSet reserves, and that it keeps the states at the fixed
    point. *)
Lemma sts_run s sel w :
  sts_Selector s = Some sel → keyed (contents w) → reliable w →
  let m := described (sts_namespace s) (ls_MatchLabels sel) (contents w) in
  wp (StatefulSetAutoGeneratePersistentPodState RetryOnConflict s) (λ _ w',
    (∀ x e, m !! x = Some e → reserved (pod_reservation_name (sts_namespace s) x) (ps_PodIP e) (contents w')) ∧
    (sts_next_status m (stored_status (sts_key s) (contents w)) = stored_status (sts_key s) (contents w) →
     st_pps (contents w') = st_pps (contents w))) w.
Proof.
  intros Hsel Hk Hw m. rewrite (sts_unfold _ s sel Hsel). apply wp_bind.
  eapply wp_mono; [apply list_pods_law|]. simpl. intros r w0 (Hc0 & Hr & Hrel).
  destruct (Hrel Hw) as [Hw0 [l ->]]. destruct (Hr l eq_refl) as [Hnd Hl]. clear Hr Hrel.
  destruct (selected_names _ _ _ l Hnd Hl) as [Hns Hnames]. rewrite <-Hc0 in Hk, Hl |- *.
  assert (∀ m' w1, recorded (sts_namespace s) l w0 m' w1 → m' = m) as Hdesc.
  { intros m' w1 Hrec. eapply describes_unique; [|apply described_describes]. rewrite <-Hc0. by eapply recorded_describes. }
  destruct l as [|p0 l0].
  { apply wp_ret. split; [|done]. rewrite <-(Hdesc ∅ w0); [done|]. split_and!; try done. intros _. split; [done|].
    by intros p ?%elem_of_nil. }
  apply wp_bind. eapply wp_mono; [by apply record_pods_wp|]. intros m' w1 Hrec. pose proof (Hdesc m' w1 Hrec) as ->.
  destruct Hrec as (Ht & Hpps & Hres & _). case_decide as Hsz.
  { apply wp_ret. split; [|by rewrite Hpps]. intros x e He. by destruct (Hres x e He). }
  unfold wp. rewrite sts_tail_eq. eapply wp_mono; [apply sts_tail_keeps|].
  - by eapply touches_keyed.
  - intros H. by rewrite H in Hsz.
  - intros e w' (Hi & Hpps'). unfold stored_status in *. rewrite Hpps in Hpps'. split; [|done].
    intros x en Hx. destruct (Hres x en Hx) as [_ (rv & Hrv & ?)]. exists rv. by rewrite Hi.
Qed.

Lemma sts_follows s sel w :
  sts_Selector s = Some sel → keyed (contents w) → reliable w →
  let m := described (sts_namespace s) (ls_MatchLabels sel) (contents w) in
  wp (StatefulSetAutoGeneratePersistentPodState RetryOnConflict s)
    (follows (sts_key s) (sts_next_status m)
      (λ n ip, ∃ x e, m !! x = Some e ∧ n = pod_reservation_name (sts_namespace s) x ∧ ip = ps_PodIP e) w) w.
Proof.
  intros Hsel Hk Hw m. eapply wp_mono; [apply wp_and; [by eapply sts_wp|apply wp_and; [by eapply sts_run|by eapply sts_reserves]]|].
  intros e w' ((Ht & _ & Hrel) & (Hres & Hkeep) & Honly). destruct (Hrel Hw) as (Hw' & -> & m' & Hm & Hst).
  destruct (Ht Hk) as (Hk' & Hv & Hs & Hp & _ & Ho).
  rewrite (describes_unique _ _ _ _ _ Hm (described_describes _ _ _)) in Hst.
  split_and!; try done.
  - intros k' Hne. apply Ho. congruence.
  - intros n ip (x & en & Hx & -> & ->). by apply Hres.
  - intros n. destruct (Honly n) as [Hsame|(p & Hsel' & Hel & -> & Hr)]; [by left|right].
    exists (pod_PodIP p). split; [|done]. exists (pod_name p), (pod_entry p). split_and!; [|by destruct Hsel' as [<- _]|done].
    apply described_describes. by exists p.
Qed.

Lemma vmi_keeps v iface ifaces owner owners w :
  vmi_Interfaces v = iface :: ifaces → vif_IP iface ≠ "" →
  om_OwnerReferences (vmi_ObjectMeta v) = owner :: owners → keyed (contents w) →
  stored_status (vmi_key v) (contents w) = Some (vmi_status v (vif_IP iface)) →
  wp (VmiAutoGeneratePersistentPodState RetryOnConflict v) (λ _ w', st_pps (contents w') = st_pps (contents w)) w.
Proof.
  intros Hif Hip Hown Hk Hst. unfold VmiAutoGeneratePersistentPodState. rewrite Hif, Hown, !decide_False by done.
  apply wp_bind. eapply wp_mono; [by apply (reserve_wp (new_reservation _ _))|]. simpl. intros e w1 (_ & Hp1 & _).
  destruct e as [err|]; [by apply wp_ret|]. unfold stored_status in Hst. rewrite <-Hp1 in Hst.
  destruct (st_pps (contents w1) !! vmi_key v) as [o|] eqn:Ho; [|done]. injection Hst as Hst.
  pose proof (store_tail_skips (λ o, DeepEqual (pps_Status o) (vmi_status v (vif_IP iface)))
    (vmi_persistent_state v owner (vif_IP iface)) o w1 Ho) as Htail.
  eapply wp_mono; [apply Htail; cbn; by rewrite Hst, DeepEqual_refl|]. by intros _ w' ->.
Qed.

Lemma vmi_follows v w :
  vmi_ip v ≠ "" → om_OwnerReferences (vmi_ObjectMeta v) ≠ [] → keyed (contents w) → reliable w →
  wp (VmiAutoGeneratePersistentPodState RetryOnConflict v)
    (follows (vmi_key v) (λ old, Some (vmi_next_status v (vmi_ip v) old))
      (λ n ip, n = vmi_reservation_name (vmi_namespace v) (vmi_name v) ∧ ip = vmi_ip v) w) w.
Proof.
  unfold vmi_ip. destruct (vmi_Interfaces v) as [|iface ifaces] eqn:Hif; [done|].
  destruct (om_OwnerReferences (vmi_ObjectMeta v)) as [|owner owners] eqn:Hown; [done|].
  intros Hip _ Hk Hw. pose proof (vmi_wp _ retry_law v iface ifaces owner owners w Hif Hip Hown Hk) as Hwp.
  assert (wp (VmiAutoGeneratePersistentPodState RetryOnConflict v) (λ e w', vmi_post v (vif_IP iface) w e w' ∧
    (stored_status (vmi_key v) (contents w) = Some (vmi_status v (vif_IP iface)) →
     st_pps (contents w') = st_pps (contents w))) w) as Hboth.
  { destruct (decide (stored_status (vmi_key v) (contents w) = Some (vmi_status v (vif_IP iface)))) as [Hst|Hst].
    - eapply wp_mono; [apply wp_and; [exact Hwp|by eapply vmi_keeps]|]. by intros e w' [? ?].
    - eapply wp_mono; [exact Hwp|]. done. }
  eapply wp_mono; [exact Hboth|]. intros e w' ((Ht & Hnone & _ & Hrel) & Hkeep). destruct (Hrel Hw) as (Hw' & ->).
  destruct (Hnone eq_refl) as [Hres Hn]. destruct (Ht Hk) as (Hk' & Hv & Hs & Hp & Hi & Ho).
  split_and!; try done.
  - intros k' Hne. apply Ho. congruence.
  - intros Hfix. apply Hkeep. destruct (stored_status (vmi_key v) (contents w)) as [st|]; [by rewrite <-Hfix|done].
  - by intros n ip [-> ->].
  - intros n. destruct (decide (n = vmi_reservation_name (vmi_namespace v) (vmi_name v))) as [->|Hne].
    + right. by exists (vif_IP iface).
    + left. apply Hi. congruence.
Qed.

Context (config : PersistenceConfig).
Abbreviation serves k w := (follows k (next_status config (contents w) k) (due config (contents w) k) w).

(** The reconcile of a key, once the object is read. *)
Lemma target_vmi_follows k v w :
  orderly config (contents w) → target_vmi config (contents w) k = Some v → keyed (contents w) → reliable w →
  wp (VmiAutoGeneratePersistentPodState RetryOnConflict v) (serves k w) w.
Proof.
  intros Ho Hv Hk Hw. assert (vmi_key v = k) as Hkey.
  { unfold target_vmi in Hv. destruct (EnableVMIPersistence config); [|done]. by eapply keyed_vmi. }
  assert (∀ old, next_status config (contents w) k old =
    if decide (vmi_ip v = "") then old else Some (vmi_next_status v (vmi_ip v) old)) as Hnext.
  { intros old. unfold next_status. by rewrite Hv. }
  assert (∀ n ip, due config (contents w) k n ip ↔
    vmi_ip v ≠ "" ∧ n = vmi_reservation_name k.1 k.2 ∧ ip = vmi_ip v) as Hdue by (intros n ip; unfold due; by rewrite Hv).
  destruct (decide (vmi_ip v = "")) as [Hip|Hip].
  - assert (wp (VmiAutoGeneratePersistentPodState RetryOnConflict v) (λ e w', e = None ∧ w' = w) w) as Hwp.
    { unfold VmiAutoGeneratePersistentPodState, vmi_ip in *.
      destruct (vmi_Interfaces v) as [|iface ifaces]; [|rewrite decide_True by done]; by apply wp_ret. }
    eapply wp_mono; [exact Hwp|]. intros e w' [-> ->]. apply follows_same; [done..| |].
    + by rewrite Hnext.
    + intros n ip [? _]%Hdue. done.
  - eapply wp_mono; [apply vmi_follows; [done|by eapply vmi_owned|done..]|]. rewrite Hkey. intros e w'.
    apply follows_ext; [done|]. intros n ip. rewrite Hdue, <-Hkey. naive_solver.
Qed.

Lemma target_sts_follows k s w :
  orderly config (contents w) → target_sts config (contents w) k = Some s → keyed (contents w) → reliable w →
  wp (StatefulSetAutoGeneratePersistentPodState RetryOnConflict s) (serves k w) w.
Proof.
  intros Ho Hs Hk Hw. assert (sts_key s = k) as Hkey.
  { unfold target_sts in Hs. destruct (EnableStatefulSetPersistence config); [|done]. by eapply keyed_sts. }
  destruct (sts_Selector s) as [sel|] eqn:Hsel; [|by destruct (sts_selects _ _ Ho k s)].
  eapply wp_mono; [by eapply sts_follows|]. rewrite Hkey. intros e w'.
  apply follows_ext; unfold next_status, due; (destruct (kinds_apart _ _ Ho k) as [->|Hn]; [|congruence]);
    rewrite Hs; cbn; rewrite Hsel, <-Hkey; done.
Qed.

(** What [Reconcile] does once it has read the instance, or the StatefulSet. *)
Definition on_vmi (r : ApiError + VirtualMachineInstance) : GoM W (option ApiError) :=
  match r with inl _ => go_ret None | inr v => VmiAutoGeneratePersistentPodState RetryOnConflict v end.
Definition on_sts (r : ApiError + StatefulSet) : GoM W (option ApiError) :=
  match r with inl _ => go_ret None | inr s => StatefulSetAutoGeneratePersistentPodState RetryOnConflict s end.

(** Without a target a reconcile of the plain name does nothing. *)
Lemma no_target_follows k w w' :
  contents w' = contents w → reliable w' → keyed (contents w) →
  target_vmi config (contents w) k = None → target_sts config (contents w) k = None →
  serves k w None w'.
Proof.
  intros Hc Hw' Hk Hv Hs. apply follows_same; [done..| |].
  - unfold next_status. by rewrite Hv, Hs.
  - intros n ip Hd. unfold due in Hd. by rewrite Hv, Hs in Hd.
Qed.

Lemma get_vmi_follows k w :
  orderly config (contents w) → EnableVMIPersistence config = true → is_Some (st_vmi (contents w) !! k) →
  keyed (contents w) → reliable w →
  wp (go_bind (GetVirtualMachineInstance k) on_vmi) (serves k w) w.
Proof.
  intros Ho Hen [v Hv] Hk Hw. apply wp_bind. eapply wp_mono; [apply get_vmi_law|]. simpl. intros r w1 (Hc1 & _ & Hrel).
  destruct (Hrel Hw) as [Hw1 ->]. rewrite Hv. cbn.
  eapply wp_mono; [apply (target_vmi_follows k v w1)|].
  - by rewrite Hc1.
  - unfold target_vmi. by rewrite Hen, Hc1.
  - by rewrite Hc1.
  - done.
  - intros e w'. rewrite Hc1. by apply follows_contents.
Qed.

Lemma get_sts_follows k w :
  orderly config (contents w) → EnableStatefulSetPersistence config = true →
  target_vmi config (contents w) k = None → keyed (contents w) → reliable w →
  wp (go_bind (GetStatefulSet k) on_sts) (serves k w) w.
Proof.
  intros Ho Hen Hv Hk Hw. apply wp_bind. eapply wp_mono; [apply get_sts_law|]. simpl. intros r w1 (Hc1 & _ & Hrel).
  destruct (Hrel Hw) as [Hw1 ->]. destruct (st_sts (contents w) !! k) as [s|] eqn:Hs; cbn.
  - eapply wp_mono; [apply (target_sts_follows k s w1)|].
    + by rewrite Hc1.
    + unfold target_sts. by rewrite Hen, Hc1.
    + by rewrite Hc1.
    + done.
    + intros e w'. rewrite Hc1. by apply follows_contents.
  - apply wp_ret, no_target_follows; [done..|]. unfold target_sts. by rewrite Hen.
Qed.

Lemma plain_name_routes n kind :
  has_char "#" n = false → contains n (AutoGeneratePersistentPodStatePrefix +:+ "#" +:+ kind) = false.
Proof. intros Hn. by apply (contains_has_char _ _ "#"). Qed.

Lemma named_request_follows k w :
  orderly config (contents w) → has_char "#" k.2 = false → keyed (contents w) → reliable w →
  wp (Reconcile RetryOnConflict config k) (serves k w) w.
Proof.
  intros Ho Hn Hk Hw. destruct k as [ns n]. cbn in Hn. unfold Reconcile. rewrite !plain_name_routes by done.
  assert (∀ w0, contents w0 = contents w → reliable w0 → target_vmi config (contents w) (ns, n) = None →
    wp (if EnableStatefulSetPersistence config then go_bind (GetStatefulSet (ns, n)) on_sts else go_ret None)
      (serves (ns, n) w) w0) as Hsts.
  { intros w0 Hc0 Hw0 Hv. destruct (EnableStatefulSetPersistence config) eqn:Hen.
    - eapply wp_mono; [apply get_sts_follows; by rewrite ?Hc0|]. intros e w'. rewrite Hc0. by apply follows_contents.
    - apply wp_ret, no_target_follows; try done. unfold target_sts. by rewrite Hen. }
  apply wp_bind. destruct (EnableVMIPersistence config) eqn:Hen.
  - apply wp_bind. eapply wp_mono; [apply get_vmi_law|]. simpl. intros r w1 (Hc1 & _ & Hrel).
    destruct (Hrel Hw) as [Hw1 ->]. apply wp_ret. destruct (st_vmi (contents w) !! (ns, n)) as [v|] eqn:Hv; cbn.
    + eapply wp_mono; [apply (target_vmi_follows (ns, n) v w1)|].
      * by rewrite Hc1.
      * unfold target_vmi. by rewrite Hen, Hc1.
      * by rewrite Hc1.
      * done.
      * intros e w'. rewrite Hc1. by apply follows_contents.
    + pose proof (Hsts w1 Hc1 Hw1) as H. unfold target_vmi in H. rewrite Hen in H. specialize (H Hv).
      by destruct (EnableStatefulSetPersistence config).
  - apply wp_ret. pose proof (Hsts w eq_refl Hw) as H. unfold target_vmi in H. rewrite Hen in H. specialize (H eq_refl).
    by destruct (EnableStatefulSetPersistence config).
Qed.

(** Against a reliable server a request for an object brings the state of its key to the
    next status, and does nothing else but reserve addresses. *)
Lemma Reconcile_follows req k w :
  orderly config (contents w) → request_for config (contents w) req k → keyed (contents w) → reliable w →
  wp (Reconcile RetryOnConflict config req) (serves k w) w.
Proof.
  intros Ho Hreq Hk Hw. destruct Hreq as [k Hn|k [v Hv]|k [s Hs]].
  - by apply named_request_follows.
  - pose proof Hv as Hv'. unfold target_vmi in Hv'. destruct (EnableVMIPersistence config) eqn:Hen; [|done].
    assert (has_char "#" k.2 = false) as Hn by by eapply vmi_named; [exact Ho|eexists].
    unfold Reconcile. rewrite request_name_kind, split_request_name, Hen by done. cbn [negb]. rewrite <-surjective_pairing.
    apply get_vmi_follows; [done..|by eexists|done|done].
  - pose proof Hs as Hs'. unfold target_sts in Hs'. destruct (EnableStatefulSetPersistence config) eqn:Hen; [|done].
    assert (has_char "#" k.2 = false) as Hn by by eapply sts_named; [exact Ho|eexists].
    unfold Reconcile. rewrite request_name_sts_not_vmi, request_name_kind, split_request_name, Hen by done. cbn [negb].
    rewrite <-surjective_pairing. apply get_sts_follows; [done..| |done|done].
    destruct (kinds_apart _ _ Ho k) as [H|H]; [done|congruence].
Qed.
(** *** Every reconcile, whatever the server does

    The server may refuse any call and the reconciler may panic: the world a request leaves is
    one in which the store is as it was, or the one that the reconcile of an object that the
    server holds has left. *)
Inductive reconcile_leaves (w : W) : W → Prop :=
| leaves_nothing w' : contents w' = contents w → reconcile_leaves w w'
| leaves_vmi k v w1 :
    target_vmi config (contents w) k = Some v → contents w1 = contents w →
    reconcile_leaves w (VmiAutoGeneratePersistentPodState RetryOnConflict v w1).2
| leaves_sts k s w1 :
    target_sts config (contents w) k = Some s → contents w1 = contents w →
    reconcile_leaves w (StatefulSetAutoGeneratePersistentPodState RetryOnConflict s w1).2.

Lemma on_vmi_leaves k w w0 :
  EnableVMIPersistence config = true → contents w0 = contents w →
  reconcile_leaves w (go_bind (GetVirtualMachineInstance k) on_vmi w0).2.
Proof.
  intros Hen Hc0. pose proof (get_vmi_law k w0) as (r & w1 & Hrun & Hc & Hr & _)%wp_runs.
  rewrite (go_bind_runs _ _ _ _ _ Hrun). rewrite Hc0 in *. destruct r as [e|v]; [by apply leaves_nothing|].
  apply (leaves_vmi w k v w1); [|done]. unfold target_vmi. by rewrite Hen.
Qed.
Lemma on_sts_leaves k w w0 :
  EnableStatefulSetPersistence config = true → contents w0 = contents w →
  reconcile_leaves w (go_bind (GetStatefulSet k) on_sts w0).2.
Proof.
  intros Hen Hc0. pose proof (get_sts_law k w0) as (r & w1 & Hrun & Hc & Hr & _)%wp_runs.
  rewrite (go_bind_runs _ _ _ _ _ Hrun). rewrite Hc0 in *. destruct r as [e|s]; [by apply leaves_nothing|].
  apply (leaves_sts w k s w1); [|done]. unfold target_sts. by rewrite Hen.
Qed.

Lemma Reconcile_leaves req w : reconcile_leaves w (Reconcile RetryOnConflict config req w).2.
Proof.
  destruct req as [ns name]. unfold Reconcile.
  destruct (contains _ _) eqn:Hvmi; [|clear Hvmi; destruct (contains _ _)].
  - destruct (EnableVMIPersistence config) eqn:Hen; cbn [negb]; [|by apply leaves_nothing].
    destruct (split name "#") as [|a [|b [|c [|]]]]; try by apply leaves_nothing. by apply on_vmi_leaves.
  - destruct (EnableStatefulSetPersistence config) eqn:Hen; cbn [negb]; [|by apply leaves_nothing].
    destruct (split name "#") as [|a [|b [|c [|]]]]; try by apply leaves_nothing. by apply on_sts_leaves.
  - assert (∀ w0, contents w0 = contents w → reconcile_leaves w
      ((if EnableStatefulSetPersistence config then go_bind (GetStatefulSet (ns, name)) on_sts else go_ret None) w0).2) as Hsts.
    { intros w0 Hc0. destruct (EnableStatefulSetPersistence config) eqn:Hen; [by apply on_sts_leaves|by apply leaves_nothing]. }
    assert (∀ w0, contents w0 = contents w → reconcile_leaves w
      ((if EnableStatefulSetPersistence config then
          go_bind (GetStatefulSet (ns, name)) (λ r,
            match r with inr s => StatefulSetAutoGeneratePersistentPodState RetryOnConflict s | inl _ => go_ret None end)
        else go_ret None) w0).2) as Hsts' by exact Hsts. clear Hsts.
    destruct (EnableVMIPersistence config) eqn:Hen; [|rewrite (go_bind_runs _ _ w None w) by done; by apply Hsts'].
    pose proof (get_vmi_law (ns, name) w) as (r & w1 & Hrun & Hc & Hr & _)%wp_runs.
    rewrite (go_bind_runs _ _ w (Some r) w1) by (unfold runs; by rewrite (go_bind_runs _ _ _ _ _ Hrun)).
    destruct r as [e|v]; [by apply Hsts'|]. apply (leaves_vmi w (ns, name) v w1); [|done]. unfold target_vmi. by rewrite Hen.
Qed.
End reconciles.
