(* ===== verification/ControllerLoop.v ===== *)
(** * The controller at work: events, queue, reconciles

    SetupWithManager hands the reconciler to controller-runtime, which delivers events of the
    watched kinds to the event handlers, whose requests wait in client-go's queue, and runs
    [Reconcile] on one request after the other.  What a reconcile writes is an event again:
    the controller watches the states it makes.  So it could keep itself busy for ever, or
    stop with work undone; the theorem at the end says that it does neither. *)
From S2P Require Export NextStatus.

(** client-go's work queue, filled by the handlers and emptied by controller-runtime, in an
    order of its own; a request that waits is not added again. *)
Class RequestQueue (Q : Type) := {
  q_Add : NamespacedName → GoM Q ();
  q_Get : Q → NamespacedName → Q → Prop }.
Class RequestQueueLaws (Q : Type) `{!RequestQueue Q} := {
  waiting : Q → gset NamespacedName;
  q_Add_law r q : wp (q_Add r) (λ _ q', waiting q' = {[r]} ∪ waiting q) q;
  q_Get_law q r q' : q_Get q r q' → r ∈ waiting q ∧ waiting q' = waiting q ∖ {[r]};
  q_Get_some q : waiting q ≠ ∅ → ∃ r q', q_Get q r q' }.

Section loop.
Context {W Q : Type} `{!Client W, !ClientLaws W, !RequestQueue Q}.
Variable RetryOnConflict : GoM W (option ApiError) → GoM W (option ApiError).
Variable config : PersistenceConfig.
Variable IsRunning : VirtualMachineInstance → bool.

(** For(): EnqueueRequestForObject, a request with the name of the state. *)
Definition enqueue_objects (keys : list NamespacedName) : GoM Q () := go_for (λ k _, q_Add k) keys ().

(** What a watch delivers when it starts: each object there is was created. *)
Definition initial_events (states : list NamespacedName) (vmis : list VirtualMachineInstance) (stss : list StatefulSet)
    (watched : WatchedKind) : GoM Q () :=
  match watched with
  | WatchPersistentPodState => enqueue_objects states
  | WatchVirtualMachineInstance => go_for (λ v _, VMI_Create q_Add IsRunning v) vmis ()
  | WatchStatefulSet => go_for (λ s _, StatefulSet_Create q_Add s) stss ()
  end.

(** The controller starts, in a cluster that holds these objects. *)
Definition controller_starts states vmis stss : GoM Q () :=
  go_for (λ watched _, initial_events states vmis stss watched) (reconciler_watches config) ().

(** A reconcile of a request that waits; the states it has changed are events, and a request
    whose reconcile returned an error is added again. *)
Inductive loop_step : W * Q → W * Q → Prop :=
| loop_reconciled w q req q1 e w1 l q2 :
    q_Get q req q1 → runs (Reconcile RetryOnConflict config req) w e w1 →
    (∀ k, k ∈ l ↔ st_pps (contents w1) !! k ≠ st_pps (contents w) !! k ∨ (e ≠ None ∧ k = req)) →
    runs (enqueue_objects l) q1 () q2 → loop_step (w, q) (w1, q2).
End loop.

(** ** What the handlers add to the queue *)
Section queue_facts.
Context {Q : Type} `{!RequestQueue Q, !RequestQueueLaws Q}.
Variable config : PersistenceConfig.
Variable IsRunning : VirtualMachineInstance → bool.

(** [m] adds the requests [R] to those that wait, and nothing else. *)
Definition adds (R : NamespacedName → Prop) (m : GoM Q ()) : Prop :=
  ∀ q, wp m (λ _ q', ∀ r, r ∈ waiting q' ↔ R r ∨ r ∈ waiting q) q.

Lemma adds_Add r : adds (eq r) (q_Add r).
Proof. intros q. eapply wp_mono; [apply q_Add_law|]. intros [] q' -> r'. set_solver. Qed.
Lemma adds_if (b : bool) R m : adds R m → adds (λ r, b = true ∧ R r) (if b then m else go_ret ()).
Proof.
  intros Hm q. destruct b.
  - eapply wp_mono; [apply Hm|]. intros [] q' Hq r. rewrite Hq. naive_solver.
  - apply wp_ret. naive_solver.
Qed.
Lemma adds_for {A} (f : A → GoM Q ()) (R : A → NamespacedName → Prop) (l : list A) :
  (∀ a, adds (R a) (f a)) → adds (λ r, ∃ a, a ∈ l ∧ R a r) (go_for (λ a _, f a) l ()).
Proof.
  intros Hf q. eapply wp_mono; [apply (wp_for _ (λ l' _ q', ∃ l0, l = l0 ++ l' ∧
    ∀ r, r ∈ waiting q' ↔ (∃ a, a ∈ l0 ∧ R a r) ∨ r ∈ waiting q))|].
  - exists []. split; [done|]. intros r. set_solver.
  - intros a l' [] q' (l0 & -> & Hq). eapply wp_mono; [apply Hf|]. intros [] q'' Hq''.
    exists (l0 ++ [a]). split; [by rewrite <-app_assoc|]. intros r. rewrite Hq'', Hq. set_solver.
  - intros [] q' (l0 & Hl & Hq). rewrite app_nil_r in Hl. by subst.
Qed.

Lemma enqueue_objects_wp keys q :
  wp (enqueue_objects keys) (λ _ q', waiting q' = list_to_set keys ∪ waiting q) q.
Proof.
  eapply wp_mono; [apply (adds_for q_Add eq); intros; apply adds_Add|]. intros [] q' Hq.
  apply set_eq. intros r. rewrite Hq. set_solver.
Qed.

(** The requests of a start. *)
Definition start_requests (states : list NamespacedName) (vmis : list VirtualMachineInstance)
    (stss : list StatefulSet) (watched : WatchedKind) (r : NamespacedName) : Prop :=
  match watched with
  | WatchPersistentPodState => r ∈ states
  | WatchVirtualMachineInstance => ∃ v, v ∈ vmis ∧ wants_persistence (vmi_ObjectMeta v) && IsRunning v = true ∧
      (vmi_namespace v, request_name KindVmi (vmi_name v)) = r
  | WatchStatefulSet => ∃ s, s ∈ stss ∧ wants_persistence (sts_ObjectMeta s) = true ∧
      (sts_namespace s, request_name KindStatefulSet (sts_name s)) = r
  end.

Lemma controller_starts_adds states vmis stss :
  adds (λ r, ∃ watched, watched ∈ reconciler_watches config ∧ start_requests states vmis stss watched r)
    (controller_starts config IsRunning states vmis stss).
Proof.
  apply adds_for. intros [| |]; cbn.
  - intros q. eapply wp_mono; [apply enqueue_objects_wp|]. intros [] q' -> r. set_solver.
  - apply (adds_for (λ v, VMI_Create q_Add IsRunning v)). intros v. apply adds_if, adds_Add.
  - apply (adds_for (λ s, StatefulSet_Create q_Add s)). intros s. apply adds_if, adds_Add.
Qed.

Lemma watches_spec watched : watched ∈ reconciler_watches config ↔
  match watched with
  | WatchPersistentPodState => True
  | WatchVirtualMachineInstance => EnableVMIPersistence config = true
  | WatchStatefulSet => EnableStatefulSetPersistence config = true
  end.
Proof.
  unfold reconciler_watches. destruct (EnableVMIPersistence config), (EnableStatefulSetPersistence config), watched; set_solver.
Qed.

End queue_facts.

Section loop_facts.
Context {W Q : Type} `{!Client W, !ClientLaws W, !RequestQueue Q, !RequestQueueLaws Q}.
Variable RetryOnConflict : GoM W (option ApiError) → GoM W (option ApiError).
Hypothesis retry_law : RetryLaw RetryOnConflict.
Variable config : PersistenceConfig.
Variable IsRunning : VirtualMachineInstance → bool.
Abbreviation step := (loop_step (Q := Q) RetryOnConflict config).

(** The work that is left: the requests that wait, and the changes still to come. *)
Abbreviation names s := (elements (dom (st_vmi s) ∪ dom (st_sts s))).
Definition to_come (s0 s : Store) : nat := sum_list_with (λ k, rank config s0 k (stored_status k s)) (names s0).
Definition work_left (s0 : Store) (c : W * Q) : nat := size (waiting c.2) + to_come s0 (contents c.1).

Lemma sum_le {A} (f g : A → nat) (l : list A) : (∀ x, g x ≤ f x) → sum_list_with g l ≤ sum_list_with f l.
Proof. intros Hle. induction l as [|x l IH]; cbn; [done|]. specialize (Hle x). lia. Qed.
Lemma sum_lt {A} (f g : A → nat) (l : list A) a :
  (∀ x, g x ≤ f x) → a ∈ l → g a < f a → sum_list_with g l < sum_list_with f l.
Proof.
  intros Hle Ha Hlt. induction l as [|x l IH]; [by apply elem_of_nil in Ha|]. cbn.
  pose proof (sum_le f g l Hle). specialize (Hle x). apply elem_of_cons in Ha as [->|Ha]; [lia|].
  specialize (IH Ha). lia.
Qed.

Lemma to_come_le s0 s : to_come s0 s ≤ 2 * (size (st_vmi s0) + size (st_sts s0)).
Proof.
  assert (∀ l, sum_list_with (λ k, rank config s0 k (stored_status k s)) l ≤ 2 * length l) as Hl.
  { induction l as [|k l IH]; cbn; [done|]. pose proof (rank_le config s0 k (stored_status k s)). lia. }
  etrans; [apply Hl|]. change (length (elements ?X)) with (size X).
  pose proof (size_union_alt (dom (st_vmi s0)) (dom (st_sts s0))) as Hu.
  assert (size (dom (st_sts s0) ∖ dom (st_vmi s0)) ≤ size (dom (st_sts s0))) by (apply subseteq_size; set_solver).
  rewrite !size_dom in *. lia.
Qed.

(** ** The invariant of the loop *)
Definition same_objects (s0 s : Store) : Prop :=
  st_vmi s = st_vmi s0 ∧ st_sts s = st_sts s0 ∧ st_pod s = st_pod s0.

Lemma orderly_same s0 s : same_objects s0 s → orderly config s0 → orderly config s.
Proof.
  intros (Hv & Hs & Hp) Ho. destruct Ho. split; unfold due, target_vmi, target_sts, described in *;
    rewrite ?Hv, ?Hs, ?Hp; done.
Qed.
Lemma request_for_same s0 s r k : same_objects s0 s → request_for config s0 r k → request_for config s r k.
Proof.
  intros (Hv & Hs & _) []; [by apply by_name|apply by_vmi|apply by_sts]; unfold target_vmi, target_sts in *;
    by rewrite ?Hv, ?Hs.
Qed.

(** A change is of a key that has an object. *)
Lemma changed_target s k old :
  next_status config s k old ≠ old → is_Some (target_vmi config s k) ∨ is_Some (target_sts config s k).
Proof.
  unfold next_status. destruct (target_vmi config s k) as [v|]; [by left; eexists|].
  destruct (target_sts config s k) as [x|]; [by right; eexists|done].
Qed.
Lemma target_named s k :
  orderly config s → is_Some (target_vmi config s k) ∨ is_Some (target_sts config s k) →
  has_char "#" k.2 = false ∧ k ∈ names s.
Proof.
  intros Ho [[v Hv]|[x Hx]].
  - unfold target_vmi in Hv. destruct (EnableVMIPersistence config); [|done].
    split; [eapply vmi_named; [done|by eexists]|]. apply elem_of_elements, elem_of_union_l, elem_of_dom. by eexists.
  - unfold target_sts in Hx. destruct (EnableStatefulSetPersistence config); [|done].
    split; [eapply sts_named; [done|by eexists]|]. apply elem_of_elements, elem_of_union_r, elem_of_dom. by eexists.
Qed.

Section invariant.
Context (w0 : W) (wanted : NamespacedName → Prop).
Hypothesis order : orderly config (contents w0).
Abbreviation s0 := (contents w0).
Abbreviation next k := (next_status config s0 k).

Record settling (c : W * Q) : Prop := {
  inv_reliable : reliable c.1;
  inv_keyed : keyed (contents c.1);
  inv_same : same_objects s0 (contents c.1);
  inv_status : ∀ k, next k (next k (stored_status k (contents c.1))) = next k (next k (stored_status k s0));
  inv_requests : ∀ r, r ∈ waiting c.2 → ∃ k, request_for config s0 r k;
  inv_pending : ∀ k, wanted k →
    (next k (stored_status k (contents c.1)) = stored_status k (contents c.1) ∧
     ∀ n ip, due config s0 k n ip → reserved n ip (contents c.1)) ∨
    ∃ r, r ∈ waiting c.2 ∧ request_for config s0 r k }.

(** One reconcile of the loop, for each object that the request names. *)
Lemma step_follows w q q' req q1 e w1 :
  settling (w, q) → q_Get q req q1 → runs (Reconcile RetryOnConflict config req) w e w1 → q' = q1 →
  ∀ k, request_for config s0 req k → follows k (next k) (due config s0 k) w e w1.
Proof.
  intros Hinv Hget Hrun -> k Hreq. destruct Hinv as [Hw Hk Hs _ _ _]; cbn in *.
  pose proof (Reconcile_follows _ retry_law config req k w (orderly_same _ _ Hs order) (request_for_same _ _ _ _ Hs Hreq) Hk Hw)
    as (e' & w' & Hrun' & Hf)%wp_runs.
  unfold runs in Hrun, Hrun'. rewrite Hrun in Hrun'. injection Hrun' as <- <-.
  destruct Hs as (Hv & Hst & Hp). eapply follows_ext; [| |exact Hf].
  - intros old. by rewrite (next_status_same config s0 (contents w)).
  - intros n ip. by apply due_same.
Qed.

(** A reconcile takes its request from the queue, and adds at most one when it has changed
    something. *)
Lemma work_shrinks w w1 q q1 q2 req k :
  req ∈ waiting q → waiting q1 = waiting q ∖ {[req]} →
  (∀ r, r ∈ waiting q2 → (r = k ∧ next k (stored_status k (contents w)) ≠ stored_status k (contents w)) ∨ r ∈ waiting q1) →
  (next k (stored_status k (contents w)) ≠ stored_status k (contents w) → k ∈ names s0) →
  (∀ k', k' ≠ k → stored_status k' (contents w1) = stored_status k' (contents w)) →
  stored_status k (contents w1) = next k (stored_status k (contents w)) →
  work_left s0 (w1, q2) < work_left s0 (w, q).
Proof.
  intros Hin Hq1 Hq2 Hk Hother Hnext. unfold work_left, to_come; cbn.
  assert (size (waiting q1) + 1 = size (waiting q)) as Hsize.
  { rewrite Hq1, size_difference, size_singleton by set_solver. assert (size (waiting q) ≠ 0); [|lia].
    intros H0%size_empty_inv. set_solver. }
  assert (∀ k', rank config s0 k' (stored_status k' (contents w1)) ≤ rank config s0 k' (stored_status k' (contents w))) as Hle.
  { intros k'. destruct (decide (k' = k)) as [->|Hne]; [|by rewrite Hother]. rewrite Hnext.
    destruct (decide (next k (stored_status k (contents w)) = stored_status k (contents w))) as [->|Hne]; [done|].
    by apply Nat.lt_le_incl, rank_next. }
  destruct (decide (next k (stored_status k (contents w)) = stored_status k (contents w))) as [Hfix|Hne].
  - assert (size (waiting q2) ≤ size (waiting q1)) by (apply subseteq_size; intros r Hr; naive_solver).
    pose proof (sum_le _ _ (names s0) Hle). cbn in *. lia.
  - assert (size (waiting q2) ≤ size ({[k]} ∪ waiting q1)) by (apply subseteq_size; intros r Hr; set_solver).
    pose proof (size_union_alt {[k]} (waiting q1)) as Hu. rewrite size_singleton in Hu.
    assert (size (waiting q1 ∖ {[k]}) ≤ size (waiting q1)) by (apply subseteq_size; set_solver).
    pose proof (sum_lt _ _ (names s0) k Hle (Hk Hne)) as Hlt. cbn in Hlt.
    rewrite Hnext in Hlt at 1. specialize (Hlt (rank_next _ _ _ _ Hne)). lia.
Qed.

(** The events of a reconcile of [k]: none, or its own state. *)
Lemma loop_events k owed w w1 req (l : list NamespacedName) :
  follows k (next k) owed w None w1 →
  (∀ k', k' ∈ l ↔ st_pps (contents w1) !! k' ≠ st_pps (contents w) !! k' ∨ ((None : option ApiError) ≠ None ∧ k' = req)) →
  (∀ k', stored_status k' (contents w1) ≠ stored_status k' (contents w) → k' ∈ l) ∧
  (∀ k', k' ∈ l → k' = k ∧ next k (stored_status k (contents w)) ≠ stored_status k (contents w)).
Proof.
  intros (_ & _ & _ & _ & _ & _ & Hother & _ & Hfix & _) Hl. split.
  - intros k' Hne. apply Hl. left. intros Heq. apply Hne. unfold stored_status. by rewrite Heq.
  - intros k' [Hne|[? _]]%Hl; [|done]. split.
    + destruct (decide (k' = k)); [done|]. by rewrite Hother in Hne.
    + intros Heq. by rewrite Hfix in Hne.
Qed.

Lemma step_settling c c' : settling c → step c c' → settling c' ∧ work_left s0 c' < work_left s0 c.
Proof.
  intros Hinv Hstep. destruct Hstep as [w q req q1 e w1 l q2 Hget Hrun Hl Hadd].
  pose proof (λ k, step_follows w q q1 req q1 e w1 Hinv Hget Hrun eq_refl k) as Hfollows.
  destruct (q_Get_law _ _ _ Hget) as [Hin Hq1]. destruct (inv_requests _ Hinv req Hin) as [k Hreq].
  pose proof (Hfollows k Hreq) as Hf. assert (e = None) as -> by apply Hf.
  destruct (loop_events k _ w w1 req l Hf Hl) as [Hchanged Hl'].
  destruct Hf as (_ & Hw1 & Hk1 & Hv & Hst & Hp & Hother & Hnext & _ & _ & Honly).
  pose proof (enqueue_objects_wp l q1) as ([] & q2' & Hadd' & Hq2)%wp_runs.
  unfold runs in Hadd, Hadd'. rewrite Hadd in Hadd'. injection Hadd' as <-. rewrite Hq1 in Hq2.
  pose proof Hinv as [Hw Hk Hs Hstat Hreqs Hpend]; cbn in *.
  assert (∀ k', stored_status k' (contents w1) = stored_status k' (contents w) ∨
    k' = k ∧ stored_status k (contents w1) = next k (stored_status k (contents w))) as Hstored.
  { intros k'. destruct (decide (k' = k)) as [->|Hne]; [by right|left]. unfold stored_status. by rewrite Hother. }
  assert (next k (stored_status k (contents w)) ≠ stored_status k (contents w) →
    has_char "#" k.2 = false ∧ k ∈ names s0) as Hnamed.
  { intros Hne%changed_target. by apply target_named. }
  split; [split; cbn|].
  - done.
  - done.
  - destruct Hs as (? & ? & ?). by split_and!; etrans.
  - intros k'. rewrite <-Hstat. destruct (Hstored k') as [->|[-> ->]]; [done|]. by rewrite next_status_thrice.
  - intros r. rewrite Hq2, elem_of_union, elem_of_list_to_set. intros [[-> Hne]%Hl'|Hr]; [|apply Hreqs; set_solver].
    exists k. by apply by_name, Hnamed.
  - intros k' Hk'. destruct (decide (stored_status k' (contents w1) = stored_status k' (contents w))) as [Heq|Hc].
    2:{ apply Hchanged in Hc. right. exists k'. split; [rewrite Hq2; set_solver|].
        destruct (Hl' k' Hc) as [-> H]. by apply by_name, Hnamed. }
    rewrite Heq. destruct (Hpend k' Hk') as [[? Hd]|(r & Hr & Hrk)].
    + left. split; [done|]. intros n ip Hn. destruct (Honly n) as [Hsame|(ip' & Hdue & Hip')].
      * by eapply reserved_same; [|apply Hd].
      * by rewrite (reservations_apart _ _ order _ _ _ _ _ Hn Hdue).
    + destruct (decide (r = req)) as [->|Hne]; [left|right; exists r; set_solver].
      destruct (Hfollows k' Hrk) as (_ & _ & _ & _ & _ & _ & _ & Hn & _ & Hall & _). split; [congruence|done].
  - apply (work_shrinks w w1 q q1 q2 req k); try done.
    + intros r. rewrite Hq2, <-Hq1, elem_of_union, elem_of_list_to_set. intros [Hr%Hl'|Hr]; [by left|by right].
    + intros Hn. by apply Hnamed.
    + intros k' Hne. unfold stored_status. by rewrite Hother.
Qed.
End invariant.

(** ** The start *)

(** The lists of the objects there are, as the informers deliver them. *)
Record lists_all (s : Store) (states : list NamespacedName) (vmis : list VirtualMachineInstance)
    (stss : list StatefulSet) : Prop := {
  lists_states : ∀ k, k ∈ states ↔ is_Some (st_pps s !! k);
  lists_vmis : ∀ v, v ∈ vmis ↔ ∃ k, st_vmi s !! k = Some v;
  lists_stss : ∀ x, x ∈ stss ↔ ∃ k, st_sts s !! k = Some x;
  states_named : ∀ k, is_Some (st_pps s !! k) → has_char "#" k.2 = false }.

(** The objects that ask for persistence. *)
Definition wanted (s : Store) (k : NamespacedName) : Prop :=
  (∃ v, target_vmi config s k = Some v ∧ wants_persistence (vmi_ObjectMeta v) && IsRunning v = true) ∨
  (∃ x, target_sts config s k = Some x ∧ wants_persistence (sts_ObjectMeta x) = true).

(** What is stored for a StatefulSet in the end, and for an instance. *)
Definition sts_final (m : gmap string PodState) (old : option PersistentPodStateStatus)
    : option PersistentPodStateStatus :=
  if decide (m = ∅) then old
  else match old with
       | Some st => if decide (size m < gomap_len (ppst_PodStates st)) then old else Some (new_status m)
       | None => Some (new_status m)
       end.

Lemma sts_next_twice m old : sts_next_status m (sts_next_status m old) = sts_final m old.
Proof.
  unfold sts_next_status, sts_final. case_decide as Hm; [done|]. destruct old as [st|]; cbn.
  - case_decide as Hlt; cbn; [by rewrite decide_True|]. by rewrite decide_False by lia.
  - by rewrite decide_False by lia.
Qed.

Lemma start_settling w states vmis stss q q0 :
  orderly config (contents w) → keyed (contents w) → reliable w → lists_all (contents w) states vmis stss →
  waiting q = ∅ → runs (controller_starts config IsRunning states vmis stss) q () q0 →
  settling w (wanted (contents w)) (w, q0).
Proof.
  intros Ho Hk Hw Hl Hq Hrun. pose proof (controller_starts_adds config IsRunning states vmis stss q) as Hq0.
  apply wp_runs in Hq0 as ([] & q0' & Hrun' & Hq0). unfold runs in Hrun, Hrun'. rewrite Hrun in Hrun'.
  injection Hrun' as <-. assert (∀ r, r ∈ waiting q0 ↔
    ∃ watched, watched ∈ reconciler_watches config ∧ start_requests IsRunning states vmis stss watched r) as Hr.
  { intros r. rewrite Hq0, Hq. set_solver. }
  destruct Hl as [Hpps Hvmi Hsts Hnamed]. split; cbn; [done..| |].
  - intros r ([| |] & Hwatch%watches_spec & Hreq)%Hr; cbn in Hreq.
    + exists r. apply by_name, Hnamed. by apply Hpps.
    + destruct Hreq as (v & [k Hv]%Hvmi & _ & <-). exists k. pose proof (keyed_vmi _ _ _ Hk Hv) as Hkey.
      rewrite <-Hkey. apply (by_vmi _ _ (meta_key (vmi_ObjectMeta v))). unfold target_vmi. rewrite Hwatch, Hkey. by eexists.
    + destruct Hreq as (x & [k Hx]%Hsts & _ & <-). exists k. pose proof (keyed_sts _ _ _ Hk Hx) as Hkey.
      rewrite <-Hkey. apply (by_sts _ _ (meta_key (sts_ObjectMeta x))). unfold target_sts. rewrite Hwatch, Hkey. by eexists.
  - intros k [(v & Hv & Hwant)|(x & Hx & Hwant)]; right.
    + exists (k.1, request_name KindVmi k.2). split; [|apply by_vmi; by eexists].
      unfold target_vmi in Hv. destruct (EnableVMIPersistence config) eqn:Hen; [|done].
      apply Hr. exists WatchVirtualMachineInstance. split; [by apply watches_spec|]. exists v.
      split_and!; [apply Hvmi; by exists k|done|]. by rewrite <-(keyed_vmi _ _ _ Hk Hv).
    + exists (k.1, request_name KindStatefulSet k.2). split; [|apply by_sts; by eexists].
      unfold target_sts in Hx. destruct (EnableStatefulSetPersistence config) eqn:Hen; [|done].
      apply Hr. exists WatchStatefulSet. split; [by apply watches_spec|]. exists x.
      split_and!; [apply Hsts; by exists k|done|]. by rewrite <-(keyed_sts _ _ _ Hk Hx).
Qed.

Lemma settling_steps w wants n c c' :
  orderly config (contents w) → settling w wants c → nsteps step n c c' →
  settling w wants c' ∧ n + work_left (contents w) c' ≤ work_left (contents w) c.
Proof.
  intros Ho Hc Hsteps. induction Hsteps as [c|n c c1 c' Hstep _ IH]; [done|].
  destruct (step_settling w wants Ho c c1 Hc Hstep) as [Hc1 Hlt]. destruct (IH Hc1) as [Hc' Hle]. split; [done|lia].
Qed.

(** Where the loop ends: each object that asks for it has the status of two reconciles without
    failures, and what is due is reserved. *)
Lemma settled_final w n q0 w' q' :
  orderly config (contents w) → settling w (wanted (contents w)) (w, q0) → nsteps step n (w, q0) (w', q') →
  waiting q' = ∅ → ∀ k, wanted (contents w) k →
  stored_status k (contents w') =
    next_status config (contents w) k (next_status config (contents w) k (stored_status k (contents w))) ∧
  ∀ n ip, due config (contents w) k n ip → reserved n ip (contents w').
Proof.
  intros Ho Hinv0 Hsteps Hempty k Hk. destruct (settling_steps w _ n _ _ Ho Hinv0 Hsteps) as [Hinv _].
  destruct (inv_pending _ _ _ Hinv k Hk) as [[Hfix Hres]|(r & Hr & _)]; [|cbn in Hr; set_solver].
  split; [|done]. rewrite <-(inv_status _ _ _ Hinv k). cbn in *. by rewrite !Hfix.
Qed.

(** While a request waits the loop goes on. *)
Lemma loop_progress w wants w' q' :
  orderly config (contents w) → settling w wants (w', q') → waiting q' ≠ ∅ → ∃ c, step (w', q') c.
Proof.
  intros Ho Hinv (req & q1 & Hget)%q_Get_some. destruct (q_Get_law _ _ _ Hget) as [Hin _].
  destruct (inv_requests _ _ _ Hinv req Hin) as [k Hreq]. pose proof Hinv as [Hw Hk Hs _ _ _]; cbn in *.
  pose proof (Reconcile_follows _ retry_law config req k w' (orderly_same _ _ Hs Ho)
    (request_for_same _ _ _ _ Hs Hreq) Hk Hw) as (e & w1 & Hrun & -> & _ & _ & _ & _ & _ & Hother & _)%wp_runs.
  set (l := if decide (st_pps (contents w1) !! k = st_pps (contents w') !! k) then [] else [k]).
  pose proof (enqueue_objects_wp l q1) as ([] & q2 & Hadd & _)%wp_runs. exists (w1, q2). econstructor; [done|exact Hrun| |exact Hadd].
  intros k'. subst l. destruct (decide (k' = k)) as [->|Hne].
  - case_decide; rewrite ?elem_of_nil, ?list_elem_of_singleton; naive_solver.
  - rewrite (Hother k') by done. case_decide; rewrite ?elem_of_nil, ?list_elem_of_singleton; naive_solver.
Qed.

(** C2: The controller settles.  Start it in an orderly cluster whose server is reliable and
    whose objects no one else changes, with the switches of the flags, and let it reconcile
    the requests in any order; the states it writes are events for it again.  Then it makes
    no more reconciles than there are requests at the start and twice the objects there are;
    it goes on as long as a request waits; and when none waits any more, every running
    instance that asks for it and has an address is recorded with it, and for every
    StatefulSet that asks for it exactly its eligible Pods are recorded, unless there are none
    or the state that was there has more of them; and the addresses of all of these are
    reserved. *)
Theorem controller_settles w states vmis stss q q0 n w' q' :
  orderly config (contents w) → keyed (contents w) → reliable w → lists_all (contents w) states vmis stss →
  waiting q = ∅ → runs (controller_starts config IsRunning states vmis stss) q () q0 →
  nsteps step n (w, q0) (w', q') →
  n ≤ size (waiting q0) + 2 * (size (st_vmi (contents w)) + size (st_sts (contents w))) ∧
  (waiting q' ≠ ∅ → ∃ c, step (w', q') c) ∧
  (waiting q' = ∅ →
    (∀ k v, target_vmi config (contents w) k = Some v →
      wants_persistence (vmi_ObjectMeta v) && IsRunning v = true → vmi_ip v ≠ "" →
      stored_status k (contents w') = Some (vmi_status v (vmi_ip v)) ∧
      reserved (vmi_reservation_name k.1 k.2) (vmi_ip v) (contents w')) ∧
    (∀ k x sel, target_sts config (contents w) k = Some x → wants_persistence (sts_ObjectMeta x) = true →
      sts_Selector x = Some sel →
      stored_status k (contents w') =
        sts_final (described k.1 (ls_MatchLabels sel) (contents w)) (stored_status k (contents w)) ∧
      ∀ x' e, described k.1 (ls_MatchLabels sel) (contents w) !! x' = Some e →
        reserved (pod_reservation_name k.1 x') (ps_PodIP e) (contents w'))).
Proof.
  intros Ho Hk Hw Hl Hq Hstart Hsteps.
  pose proof (start_settling w _ _ _ _ _ Ho Hk Hw Hl Hq Hstart) as Hinv0.
  destruct (settling_steps w _ n _ _ Ho Hinv0 Hsteps) as [Hinv Hle].
  split_and!.
  - unfold work_left in Hle; cbn in Hle. pose proof (to_come_le (contents w) (contents w)). lia.
  - by eapply loop_progress.
  - intros Hempty. pose proof (settled_final w n q0 w' q' Ho Hinv0 Hsteps Hempty) as Hfin.
    split.
    + intros k v Hv Hwant Hip. destruct (Hfin k) as [-> Hres]; [left; by exists v|]. unfold next_status, due in *.
      rewrite Hv in *. rewrite !decide_False by done. split; [done|by apply Hres].
    + intros k x sel Hx Hwant Hsel. destruct (Hfin k) as [-> Hres]; [right; by exists x|]. rewrite <-sts_next_twice.
      unfold next_status, due in *. destruct (kinds_apart _ _ Ho k) as [Hn|H]; [|congruence]. rewrite Hn, Hx in *. cbn in *.
      rewrite Hsel in *. split; [done|]. intros x' e He. apply Hres. by exists x', e.
Qed.
End loop_facts.
