(* ===== verification/Failures.v ===== *)
(** * Failures only delay the controller

    A call that the server refuses makes a reconcile stop early or record fewer Pods than there
    are; a request whose reconcile reports no error is not retried.  So a failure
    can leave the record behind the cluster.  What it cannot do is lead it astray: the theorem
    at the end says that from whatever failing reconciles have left, a start of the controller
    reaches the record that it reaches without them. *)
From S2P Require Export ControllerLoop.

Section failures.
Context {W Q : Type} `{!Client W, !ClientLaws W, !RequestQueue Q, !RequestQueueLaws Q}.
Variable RetryOnConflict : GoM W (option ApiError) → GoM W (option ApiError).
Hypothesis retry_law : RetryLaw RetryOnConflict.
Variable config : PersistenceConfig.
Variable IsRunning : VirtualMachineInstance → bool.

(** What happens while the server may fail: reconciles of whatever requests, to whatever end,
    and changes of the server that are not changes of what it stores. *)
Inductive failing_step : W → W → Prop :=
| failing_reconcile req w : failing_step w (Reconcile RetryOnConflict config req w).2
| failing_server w w' : contents w' = contents w → failing_step w w'.

(** The controller starts and reconciles until no request waits. *)
Definition settles_to (w w' : W) : Prop :=
  ∃ states vmis stss (q q0 q' : Q) n,
    lists_all (contents w) states vmis stss ∧ waiting q = ∅ ∧
    runs (controller_starts config IsRunning states vmis stss) q () q0 ∧
    nsteps (loop_step RetryOnConflict config) n (w, q0) (w', q') ∧ waiting q' = ∅.

(** The status of a key after two reconciles without failures. *)
Definition final (s : Store) (k : NamespacedName) (old : option PersistentPodStateStatus) :=
  next_status config s k (next_status config s k old).

Lemma final_same s s' k old : same_objects s s' → final s' k old = final s k old.
Proof. intros (Hv & Hs & Hp). unfold final. by rewrite !(next_status_same config s s'). Qed.
Lemma final_vmi s k v old :
  target_vmi config s k = Some v → vmi_ip v ≠ "" → final s k old = Some (vmi_status v (vmi_ip v)).
Proof. intros Hv Hip. unfold final, next_status. by rewrite Hv, !decide_False. Qed.
Lemma final_sts s k x sel old :
  target_vmi config s k = None → target_sts config s k = Some x → sts_Selector x = Some sel →
  final s k old = sts_final (described k.1 (ls_MatchLabels sel) s) old.
Proof.
  intros Hv Hx Hsel. unfold final, next_status. rewrite Hv, Hx. cbn. by rewrite Hsel, sts_next_twice.
Qed.

(** A record of some of the Pods is overwritten in the end, as the one before it would be. *)
Lemma sts_final_part m m' st :
  m' ⊆ m → gomap_len (ppst_PodStates st) ≤ size m' → m ≠ ∅ →
  sts_final m (Some (new_status m')) = sts_final m (Some st).
Proof.
  intros Hsub Hle Hm. unfold sts_final. rewrite !(decide_False (P := m = ∅)) by done. cbn.
  assert (size m' ≤ size m) by (rewrite <-!size_dom; by apply subseteq_size, subseteq_dom).
  by rewrite !decide_False by lia.
Qed.
Lemma sts_final_created m : m ≠ ∅ → sts_final m (Some Status_zero) = sts_final m None.
Proof. intros Hm. unfold sts_final. rewrite !(decide_False (P := m = ∅)) by done. by rewrite decide_False by (cbn; lia). Qed.

(** ** The invariant: what the cluster will be in the end *)
Definition on_course (s s' : Store) : Prop :=
  keyed s' ∧ same_objects s s' ∧ ∀ k, final s k (stored_status k s') = final s k (stored_status k s).

#[local] Instance same_objects_refl : Reflexive same_objects.
Proof. done. Qed.
#[local] Instance same_objects_trans : Transitive same_objects.
Proof. intros s1 s2 s3 (? & ? & ?) (? & ? & ?). by split_and!; etrans. Qed.

Lemma on_course_trans s1 s2 s3 : on_course s1 s2 → on_course s2 s3 → on_course s1 s3.
Proof.
  intros (Hk2 & Ho2 & Hf2) (Hk3 & Ho3 & Hf3). split_and!; [done|by etrans|]. intros k.
  specialize (Hf3 k). rewrite !(final_same s1 s2) in Hf3 by done. congruence.
Qed.
Lemma on_course_same s : keyed s → on_course s s.
Proof. done. Qed.

(** A reconcile of [k] stays on course when what it stores for [k] does. *)
Lemma on_course_touches names k s s' :
  keyed s → touches names (eq k) s s' → final s k (stored_status k s') = final s k (stored_status k s) → on_course s s'.
Proof.
  intros Hk Ht Hf. destruct (Ht Hk) as (Hk' & Hv & Hs & Hp & _ & Ho). split_and!; [done..|]. intros k'.
  destruct (decide (k' = k)) as [->|Hne]; [done|]. unfold stored_status. by rewrite Ho by congruence.
Qed.

Lemma wp_left {A} (m : GoM W A) (Φ : A → W → Prop) (P : W → Prop) w :
  wp m Φ w → (∀ a w', Φ a w' → P w') → P (m w).2.
Proof. unfold wp. destruct (m w) as [[a|why] w']; [by eauto|done]. Qed.

Lemma vmi_on_course k v w :
  orderly config (contents w) → keyed (contents w) → target_vmi config (contents w) k = Some v →
  on_course (contents w) (contents (VmiAutoGeneratePersistentPodState RetryOnConflict v w).2).
Proof.
  intros Ho Hk Hv. assert (vmi_key v = k) as Hkey.
  { unfold target_vmi in Hv. destruct (EnableVMIPersistence config); [|done]. by eapply keyed_vmi. }
  destruct (vmi_Interfaces v) as [|iface ifaces] eqn:Hif.
  { unfold VmiAutoGeneratePersistentPodState. by rewrite Hif. }
  assert (vmi_ip v = vif_IP iface) as Hipv by (unfold vmi_ip; by rewrite Hif).
  destruct (decide (vif_IP iface = "")) as [Hip|Hip].
  { unfold VmiAutoGeneratePersistentPodState. by rewrite Hif, decide_True. }
  destruct (om_OwnerReferences (vmi_ObjectMeta v)) as [|owner owners] eqn:Hown.
  { destruct (vmi_owned _ _ Ho k v Hv); [by rewrite Hipv|done]. }
  eapply wp_left; [by eapply vmi_wp|]. intros e w' (Ht & _). rewrite Hkey in Ht.
  eapply on_course_touches; [done..|]. by rewrite !(final_vmi _ _ v) by (done || by rewrite Hipv).
Qed.

Lemma sts_on_course k x w :
  orderly config (contents w) → keyed (contents w) → target_sts config (contents w) k = Some x →
  on_course (contents w) (contents (StatefulSetAutoGeneratePersistentPodState RetryOnConflict x w).2).
Proof.
  intros Ho Hk Hx. assert (sts_key x = k) as Hkey.
  { unfold target_sts in Hx. destruct (EnableStatefulSetPersistence config); [|done]. by eapply keyed_sts. }
  destruct (sts_Selector x) as [sel|] eqn:Hsel; [|by destruct (sts_selects _ _ Ho k x)].
  eapply wp_left; [by eapply sts_wp|]. intros e w' (Ht & Hst & _). rewrite Hkey in Ht.
  eapply on_course_touches; [done..|]. subst k. destruct (kinds_apart _ _ Ho (sts_key x)) as [Hv|?]; [|congruence].
  rewrite !(final_sts _ _ x sel) by done. set (m := described _ _ _).
  assert (∀ p, selected (sts_namespace x) (ls_MatchLabels sel) (contents w) p → eligible p →
    m !! pod_name p = Some (pod_entry p)) as Hm.
  { intros p Hp Hel. apply described_describes. by exists p. }
  destruct Hst as [->|[(-> & -> & p & Hp & Hel)|(st & m' & -> & -> & Hle & Hm')]]; [done| |].
  - apply sts_final_created. intros Hm0. specialize (Hm p Hp Hel). by rewrite Hm0 in Hm.
  - assert (m' ⊆ m) as Hsub.
    { apply map_subseteq_spec. intros n en Hn. destruct (Hm' n en Hn) as [(p' & Hp & Hel & <- & ->) _]. by apply Hm. }
    apply sts_final_part; [done|apply Hle|]. intros Hm0. rewrite Hm0 in Hsub. destruct Hle as [_ []].
    apply map_empty. intros n. eapply lookup_weaken_None; [|exact Hsub]. done.
Qed.

Lemma step_on_course s w w' :
  orderly config s → on_course s (contents w) → failing_step w w' → on_course s (contents w').
Proof.
  intros Ho Hc Hstep. pose proof Hc as (Hk & Hs & _). pose proof (orderly_same config _ _ Hs Ho) as Ho'.
  eapply on_course_trans; [exact Hc|]. destruct Hstep as [req w|w w' ->]; [|done].
  destruct (Reconcile_leaves RetryOnConflict config req w) as [w' ->|k v w1 Hv Hc1|k x w1 Hx Hc1]; [done| |];
    rewrite <-Hc1 in *; [by eapply vmi_on_course|by eapply sts_on_course].
Qed.

Lemma failures_on_course w w' :
  orderly config (contents w) → keyed (contents w) → rtc failing_step w w' → on_course (contents w) (contents w').
Proof.
  intros Ho Hk. revert w'. apply rtc_ind_r; [done|].
  intros w1 w2 _ Hstep Hc. by eapply step_on_course.
Qed.

(** A run of the controller, started from where failing reconciles have left the cluster. *)
Lemma settles_final w w1 v :
  orderly config (contents w) → on_course (contents w) (contents w1) → reliable w1 → settles_to w1 v →
  ∀ k, wanted config IsRunning (contents w) k →
  stored_status k (contents v) = final (contents w) k (stored_status k (contents w)) ∧
  ∀ n ip, due config (contents w) k n ip → reserved n ip (contents v).
Proof.
  intros Ho (Hk & Hs & Hf) Hrel (states & vmis & stss & q & q0 & q' & n & Hl & Hq & Hstart & Hsteps & Hq') k Hwant.
  pose proof (orderly_same config _ _ Hs Ho) as Ho1. pose proof Hs as (Hv & Hst & Hp).
  assert (wanted config IsRunning (contents w1) k) as Hwant1.
  { unfold wanted, target_vmi, target_sts in *. by rewrite Hv, Hst. }
  destruct (settled_final RetryOnConflict retry_law config IsRunning w1 n q0 v q' Ho1
    (start_settling RetryOnConflict retry_law config IsRunning w1 _ _ _ q q0 Ho1 Hk Hrel Hl Hq Hstart) Hsteps Hq' k Hwant1) as [Hend Hres].
  split.
  - rewrite Hend, <-Hf. apply final_same. done.
  - intros n' ip Hd. by apply Hres, (due_same config (contents w) (contents w1)).
Qed.

End failures.
