(* ===== verification/ReconcilerTheorems.v ===== *)
(** * The properties of the controller

    Proved for every API server that behaves as documented and every retry policy that
    behaves as documented; each theorem with hypotheses is applied to the in-memory server. *)
From S2P Require Export ReconcilerFacts EventHandlers.

(** ** A concrete cluster for the witnesses *)
Definition demo_meta (ns name : string) : ObjectMeta :=
  mkObjectMeta name ns "uid-1" "1" (Some {[ "app" := "web" ]}) None [] "".
Definition demo_pod (name node ip : string) : Pod := mkPod (demo_meta "prod" name) None node ip "".
Definition demo_selector : LabelSelector := mkLabelSelector (Some {[ "app" := "web" ]}) "".
Definition demo_sts : StatefulSet := mkStatefulSet (demo_meta "prod" "web") (Some demo_selector) "".
Definition demo_owner : OwnerReference := mkOwnerReference "kubevirt.io/v1" "VirtualMachine" "vm" None "uid-2".
Definition demo_iface : VirtualMachineInstanceNetworkInterface := mkVMIInterface "10.0.0.7" "".
Definition demo_vmi (owners : list OwnerReference) : VirtualMachineInstance :=
  mkVMI (mkObjectMeta "vm" "prod" "uid-3" "1" None None owners "") None
    [demo_iface] "node-1" "".
Definition demo_store : Store :=
  mkStore {[ ("prod", "vm") := demo_vmi [demo_owner] ]} {[ ("prod", "web") := demo_sts ]}
    (list_to_map [(("prod", "web-0"), demo_pod "web-0" "node-1" "10.0.0.1");
                  (("prod", "web-1"), demo_pod "web-1" "" "")]) ∅ ∅.
Definition demo_world : MemServer := mkMemServer demo_store [] 0.
Definition demo_states : gmap string PodState := {[ "web-0" := recorded_state "node-1" "10.0.0.1" ]}.
Definition demo_retry : GoM MemServer (option ApiError) → GoM MemServer (option ApiError) :=
  retry_steps 3.

Lemma demo_keyed : keyed demo_store.
Proof.
  unfold keyed, demo_store; simpl. split_and!; try apply map_Forall_empty;
    intros k o [<- <-]%lookup_singleton_Some; done.
Qed.

Lemma demo_describes : describes "prod" (Some {[ "app" := "web" ]}) demo_store demo_states.
Proof.
  intros n e. unfold demo_states. rewrite lookup_singleton_Some. split.
  - intros [<- <-]. exists (demo_pod "web-0" "node-1" "10.0.0.1"). split_and!; try done.
    split_and!; try done. unfold labels_match; simpl.
    by apply map_Forall_singleton.
  - intros (p & (_ & _ & Hp) & [Hip _] & <- & ->). unfold demo_store in Hp; simpl in Hp.
    apply lookup_insert_Some in Hp as [[_ <-]|[_ Hp]]; [done|].
    by apply lookup_insert_Some in Hp as [[_ <-]|[_ Hp]].
Qed.

Section theorems.
Context `{!Client W, !ClientLaws W}.
Variable RetryOnConflict : GoM W (option ApiError) → GoM W (option ApiError).
Hypothesis retry_law : RetryLaw RetryOnConflict.

(** Two reconciles from no recorded state. *)
Lemma sts_settles s sel m w :
  sts_Selector s = Some sel → keyed (contents w) → reliable w →
  describes (sts_namespace s) (ls_MatchLabels sel) (contents w) m → m ≠ ∅ →
  stored_status (sts_key s) (contents w) = None →
  let reconcile := StatefulSetAutoGeneratePersistentPodState RetryOnConflict s in
  wp reconcile (λ e1 w1, e1 = None ∧ stored_status (sts_key s) (contents w1) = Some Status_zero ∧
    wp reconcile (λ e2 w2, e2 = None ∧ reliable w2 ∧ keyed (contents w2) ∧
      st_pod (contents w2) = st_pod (contents w) ∧
      stored_status (sts_key s) (contents w2) = Some (new_status m) ∧
      ∀ n e, m !! n = Some e →
        reserved (pod_reservation_name (sts_namespace s) n) (ps_PodIP e) (contents w2)) w1) w.
Proof.
  intros Hsel Hk Hw Hm Hne Hst reconcile.
  eapply wp_mono; [by eapply sts_wp|]. intros e1 w1 (Ht1 & _ & Hrel1).
  destruct (Hrel1 Hw) as (Hw1 & -> & m1 & Hm1 & Hst1).
  rewrite (describes_unique _ _ _ _ _ Hm1 Hm) in Hst1. rewrite Hst in Hst1.
  unfold sts_next_status in Hst1. rewrite decide_False in Hst1 by done.
  destruct (Ht1 Hk) as (Hk1 & _ & _ & Hp1 & _ & _).
  split_and!; [done|done|].
  eapply wp_mono; [by eapply sts_wp|]. intros e2 w2 (Ht2 & Hor2 & Hrel2).
  destruct (Hrel2 Hw1) as (Hw2 & -> & m2 & Hm2 & Hst2).
  apply (describes_pods _ _ _ (contents w)) in Hm2; [|by rewrite Hp1].
  rewrite (describes_unique _ _ _ _ _ Hm2 Hm), Hst1 in Hst2.
  unfold sts_next_status in Hst2. rewrite decide_False in Hst2 by done. simpl in Hst2.
  destruct (Ht2 Hk1) as (Hk2 & _ & _ & Hp2 & _ & _).
  split_and!; [done..|by rewrite Hp2|done|].
  destruct Hor2 as [Heq|[[Heq _]|(st & m' & _ & Heq & _ & Hres)]];
    [by rewrite Hst2, Hst1 in Heq|congruence|].
  rewrite Hst2 in Heq. injection Heq as <-. intros n e Hn. by apply Hres.
Qed.

(** From no recorded state, against a reliable server, two reconciles of a StatefulSet
    bring the stored status to exactly the record of its pods that have an address and a
    node (the first creates the object, whose status the server drops), and the third
    returns without changing anything. *)
Theorem sts_converges s sel m w :
  sts_Selector s = Some sel → keyed (contents w) → reliable w →
  describes (sts_namespace s) (ls_MatchLabels sel) (contents w) m → m ≠ ∅ →
  stored_status (sts_key s) (contents w) = None →
  let reconcile := StatefulSetAutoGeneratePersistentPodState RetryOnConflict s in
  wp reconcile (λ e1 w1, e1 = None ∧ stored_status (sts_key s) (contents w1) = Some Status_zero ∧
    wp reconcile (λ e2 w2, e2 = None ∧ stored_status (sts_key s) (contents w2) = Some (new_status m) ∧
      wp reconcile (λ e3 w3, e3 = None ∧ contents w3 = contents w2) w2) w1) w.
Proof.
  intros Hsel Hk Hw Hm Hne Hst reconcile.
  eapply wp_mono; [by eapply sts_settles|]. intros e1 w1 (-> & Hst1 & Hrun).
  split_and!; [done|done|]. eapply wp_mono; [exact Hrun|].
  intros e2 w2 (-> & Hw2 & Hk2 & Hp2 & Hst2 & Hres). split_and!; [done|done|].
  eapply sts_quiet; [done..| |exact Hst2|done].
  eapply describes_pods; [|exact Hm]. by rewrite Hp2.
Qed.

(** C9: against a reliable server a reconcile of a StatefulSet succeeds and stores exactly
    the status the abstract specification [sts_next_status] gives: nothing while no pod has
    an address, an empty status on creation, the old one when fewer pods than recorded are
    up, and otherwise the record of the pods that are up. *)
Theorem sts_refines_spec s sel w :
  sts_Selector s = Some sel → keyed (contents w) → reliable w →
  wp (StatefulSetAutoGeneratePersistentPodState RetryOnConflict s) (λ e w',
    e = None ∧ ∃ m, describes (sts_namespace s) (ls_MatchLabels sel) (contents w) m ∧
      stored_status (sts_key s) (contents w') =
        sts_next_status m (stored_status (sts_key s) (contents w))) w.
Proof.
  intros Hsel Hk Hw. eapply wp_mono; [by eapply sts_wp|].
  intros e w' (_ & _ & Hrel). by destruct (Hrel Hw).
Qed.

(** whatever calls fail, a reconcile of a StatefulSet never makes the recorded status
    hold fewer pods than before, and never removes the object. *)
Theorem sts_never_shrinks s sel w st :
  sts_Selector s = Some sel → keyed (contents w) →
  stored_status (sts_key s) (contents w) = Some st →
  wp (StatefulSetAutoGeneratePersistentPodState RetryOnConflict s) (λ _ w', ∃ st',
    stored_status (sts_key s) (contents w') = Some st' ∧
    gomap_len (ppst_PodStates st) ≤ gomap_len (ppst_PodStates st')) w.
Proof.
  intros Hsel Hk Hst. eapply wp_mono; [by eapply sts_wp|].
  intros e w' (_ & [Heq|[[Hnone _]|(st0 & m & Hst0 & Hst' & [Hlen _] & _)]] & _).
  - exists st. split; [congruence|done].
  - congruence.
  - rewrite Hst in Hst0. injection Hst0 as <-. by exists (new_status m).
Qed.

(** C10: whatever calls fail, every pod in a status a StatefulSet reconcile writes is a live
    pod of the selection recorded with its own node and address, and that address is
    reserved under the pod's name when the reconcile returns. *)
Theorem sts_recorded_is_reserved s sel w :
  sts_Selector s = Some sel → keyed (contents w) →
  wp (StatefulSetAutoGeneratePersistentPodState RetryOnConflict s) (λ _ w', ∀ st n e,
    stored_status (sts_key s) (contents w') = Some st →
    stored_status (sts_key s) (contents w) ≠ Some st →
    gomap_lookup (ppst_PodStates st) n = Some e →
    (∃ p, selected (sts_namespace s) (ls_MatchLabels sel) (contents w) p ∧ eligible p ∧
      pod_name p = n ∧ e = pod_entry p) ∧
    reserved (pod_reservation_name (sts_namespace s) n) (ps_PodIP e) (contents w')) w.
Proof.
  intros Hsel Hk. eapply wp_mono; [by eapply sts_wp|].
  intros e w' (_ & Hor & _) st n en Hst Hne Hn.
  destruct Hor as [Heq|[(_ & Hz & _)|(st0 & m & _ & Hst' & _ & Hm)]].
  - congruence.
  - rewrite Hst in Hz. injection Hz as ->. done.
  - rewrite Hst in Hst'. injection Hst' as ->. by apply Hm.
Qed.

(** C17: a reconcile of a running VirtualMachineInstance that has an owner and an address
    never panics.  If it reports success the address is reserved; if there was a state object,
    it now records the instance's node and address, and nothing else, and if there was none
    there is one now, which records nothing yet (the next reconcile does that).  If it reports
    an error the status is unchanged; and against a reliable server it succeeds. *)
Theorem vmi_reconcile_correct v iface ifaces owner owners w :
  vmi_Interfaces v = iface :: ifaces → vif_IP iface ≠ "" →
  om_OwnerReferences (vmi_ObjectMeta v) = owner :: owners → keyed (contents w) →
  wp (VmiAutoGeneratePersistentPodState RetryOnConflict v) (λ e w',
    (e = None →
      reserved (vmi_reservation_name (vmi_namespace v) (vmi_name v)) (vif_IP iface) (contents w') ∧
      stored_status (vmi_key v) (contents w') =
        Some (vmi_next_status v (vif_IP iface) (stored_status (vmi_key v) (contents w))) ∧
      (is_Some (stored_status (vmi_key v) (contents w)) →
        stored_status (vmi_key v) (contents w') = Some (vmi_status v (vif_IP iface)))) ∧
    (e ≠ None →
      stored_status (vmi_key v) (contents w') = stored_status (vmi_key v) (contents w)) ∧
    (reliable w → e = None)) w.
Proof.
  intros Hif Hip Hown Hk. eapply wp_mono; [by eapply vmi_wp|].
  intros e w' (_ & Hnone & Hsome & Hrel). split_and!; [|done|intros Hw; by apply Hrel].
  intros He. destruct (Hnone He) as [Hr Hst]. split_and!; [done|done|]. intros [st Hs].
  by rewrite Hst, Hs.
Qed.

(** A VirtualMachineInstance with an address and no owner reference makes the
    reconciler panic, after its reservation has been made. *)
Theorem vmi_without_owner_panics v iface ifaces w :
  vmi_Interfaces v = iface :: ifaces → vif_IP iface ≠ "" →
  om_OwnerReferences (vmi_ObjectMeta v) = [] → keyed (contents w) → reliable w →
  ∃ w', VmiAutoGeneratePersistentPodState RetryOnConflict v w =
      (Panic "index out of range [0] with length 0", w') ∧
    reserved (vmi_reservation_name (vmi_namespace v) (vmi_name v)) (vif_IP iface) (contents w').
Proof. apply vmi_no_owner. Qed.

(** C37: two pods of different namespaces whose "namespace-name" strings coincide share one
    reservation: reserving the second releases the address of the first. *)
Theorem colliding_reservations_overwrite p q w :
  pod_reservation_name (pod_namespace p) (pod_name p) =
    pod_reservation_name (pod_namespace q) (pod_name q) →
  pod_PodIP p ≠ "" → pod_PodIP q ≠ "" → pod_PodIP p ≠ pod_PodIP q →
  keyed (contents w) → reliable w →
  wp (do! createOrUpdateIPReservation p in createOrUpdateIPReservation q) (λ e w',
    e = None ∧
    ¬ reserved (pod_reservation_name (pod_namespace p) (pod_name p)) (pod_PodIP p) (contents w')) w.
Proof.
  intros Hname Hp Hq Hne Hk Hw. apply wp_bind.
  eapply wp_mono; [by apply createOrUpdate_wp|]. intros e1 w1 (Ht & _ & _ & _ & _ & Hrel).
  destruct (Hrel Hw) as [Hw1 _].
  eapply wp_mono; [apply createOrUpdate_wp; [by eapply touches_keyed|done]|].
  intros e2 w2 (_ & _ & Hres & _ & _ & Hrel2). destruct (Hrel2 Hw1) as [_ ->]. split; [done|].
  rewrite Hname. intros (r & Hr & Hip). destruct (Hres eq_refl) as (r' & Hr' & Hip').
  rewrite Hr in Hr'. injection Hr' as <-. rewrite Hip in Hip'. injection Hip' as Hc.
  unfold cidr32 in Hc. by apply str_app_inj_r in Hc.
Qed.

(** An instance with an owner and an address, reconciled twice against a reliable server
    from no recorded state, is recorded with its node and address. *)
Theorem vmi_converges v iface ifaces owner owners w :
  vmi_Interfaces v = iface :: ifaces → vif_IP iface ≠ "" →
  om_OwnerReferences (vmi_ObjectMeta v) = owner :: owners → keyed (contents w) → reliable w →
  stored_status (vmi_key v) (contents w) = None →
  let reconcile := VmiAutoGeneratePersistentPodState RetryOnConflict v in
  wp reconcile (λ e1 w1, e1 = None ∧
    wp reconcile (λ e2 w2, e2 = None ∧
      stored_status (vmi_key v) (contents w2) = Some (vmi_status v (vif_IP iface)) ∧
      reserved (vmi_reservation_name (vmi_namespace v) (vmi_name v)) (vif_IP iface) (contents w2)) w1) w.
Proof.
  intros Hif Hip Hown Hk Hw Hst reconcile.
  eapply wp_mono; [by eapply vmi_wp|]. intros e1 w1 (Ht1 & Hnone1 & _ & Hrel1).
  destruct (Hrel1 Hw) as [Hw1 ->]. split; [done|]. destruct (Hnone1 eq_refl) as [_ Hst1].
  eapply wp_mono; [eapply vmi_wp; [done..|by eapply touches_keyed]|].
  intros e2 w2 (_ & Hnone2 & _ & Hrel2). destruct (Hrel2 Hw1) as [_ ->]. split; [done|].
  destruct (Hnone2 eq_refl) as [Hres Hst2]. rewrite Hst2, Hst1. by destruct (stored_status _ _).
Qed.

(** C16: whatever happens (errors and panics included), a reconcile of a request in a
    namespace changes no VirtualMachineInstance, StatefulSet or Pod, no PersistentPodState
    of another namespace, and no reservation but those named after that namespace. *)
Theorem reconcile_frame config ns name :
  always (λ w w', touches (reservations_of ns) (λ k, k.1 = ns) (contents w) (contents w'))
    (Reconcile RetryOnConflict config (ns, name)).
Proof. by apply Reconcile_frame. Qed.

(** The request a handler enqueues for an object comes back as that object: with the
    feature on, reconciling the encoded name fetches exactly the (namespace, name) that was
    encoded, as a VirtualMachineInstance or as a StatefulSet, and runs that kind's
    reconciliation on it. *)
Theorem requests_route_back config ns name w :
  has_char "#" name = false → EnableVMIPersistence config = true →
  EnableStatefulSetPersistence config = true →
  Reconcile RetryOnConflict config (ns, request_name KindVmi name) w =
    (let! r := GetVirtualMachineInstance (ns, name) in
     match r with
     | inl _ => go_ret None
     | inr v => VmiAutoGeneratePersistentPodState RetryOnConflict v
     end) w ∧
  Reconcile RetryOnConflict config (ns, request_name KindStatefulSet name) w =
    (let! r := GetStatefulSet (ns, name) in
     match r with
     | inl _ => go_ret None
     | inr s => StatefulSetAutoGeneratePersistentPodState RetryOnConflict s
     end) w.
Proof.
  intros Hn Hv Hs. unfold Reconcile.
  rewrite !request_name_kind, request_name_sts_not_vmi, !split_request_name by done.
  by rewrite Hv, Hs.
Qed.
End theorems.

(** With both kinds of persistence switched off a reconcile makes no call at all: it
    returns nil and leaves the world as it was. *)
Theorem disabled_reconciles_nothing `{!Client W} (RetryOnConflict : GoM W (option ApiError) → _)
    req w :
  Reconcile RetryOnConflict (mkPersistenceConfig false false) req w = (Ret None, w).
Proof. destruct req as [ns name]. unfold Reconcile. by repeat case_match. Qed.

(** ** Witnesses *)

Lemma sts_converges_witness :
  wp (StatefulSetAutoGeneratePersistentPodState demo_retry demo_sts) (λ e1 w1, e1 = None ∧
    stored_status (sts_key demo_sts) (contents w1) = Some Status_zero ∧
    wp (StatefulSetAutoGeneratePersistentPodState demo_retry demo_sts) (λ e2 w2, e2 = None ∧
      stored_status (sts_key demo_sts) (contents w2) = Some (new_status demo_states) ∧
      wp (StatefulSetAutoGeneratePersistentPodState demo_retry demo_sts)
        (λ e3 w3, e3 = None ∧ contents w3 = contents w2) w2) w1) demo_world.
Proof.
  apply (sts_converges demo_retry (retry_steps_law 3) demo_sts
    demo_selector demo_states demo_world);
    [done|apply demo_keyed|done|apply demo_describes|done|done].
Defined.

Lemma sts_refines_spec_witness :
  wp (StatefulSetAutoGeneratePersistentPodState demo_retry demo_sts) (λ e w',
    e = None ∧ ∃ m, describes (sts_namespace demo_sts) (ls_MatchLabels demo_selector) (contents demo_world) m ∧
      stored_status (sts_key demo_sts) (contents w') =
        sts_next_status m (stored_status (sts_key demo_sts) (contents demo_world))) demo_world.
Proof.
  apply (sts_refines_spec demo_retry (retry_steps_law 3) demo_sts
    demo_selector demo_world); [done|apply demo_keyed|done].
Defined.

(** A server that already records two pods and refuses the second call it gets. *)
Definition demo_state_object (m : gmap string PodState) : PersistentPodState :=
  with_spec_status (sts_persistent_state demo_sts ∅)
    (pps_Spec (sts_persistent_state demo_sts ∅)) (new_status m).
Definition demo_two_states : gmap string PodState :=
  <[ "web-1" := recorded_state "node-2" "10.0.0.2" ]> demo_states.
Definition demo_faulty : MemServer :=
  mkMemServer (set_pps {[ ("prod", "web") := demo_state_object demo_two_states ]} demo_store)
    [None; Some (OtherError "timeout")] 0.

Lemma demo_faulty_keyed : keyed (ms_store demo_faulty).
Proof.
  unfold keyed, demo_faulty; simpl. split_and!; try apply map_Forall_empty;
    intros k o [<- <-]%lookup_singleton_Some; done.
Qed.

Lemma sts_never_shrinks_witness :
  wp (StatefulSetAutoGeneratePersistentPodState demo_retry demo_sts) (λ _ w', ∃ st',
    stored_status (sts_key demo_sts) (contents w') = Some st' ∧
    gomap_len (ppst_PodStates (new_status demo_two_states)) ≤ gomap_len (ppst_PodStates st')) demo_faulty.
Proof.
  apply (sts_never_shrinks demo_retry (retry_steps_law 3) demo_sts
    demo_selector demo_faulty (new_status demo_two_states));
    [done|apply demo_faulty_keyed|done].
Defined.

(** Two Pods are up and nothing is recorded; the server refuses the second call it gets, which
    is for the reservation of one of the Pods. *)
Definition demo_partial : MemServer :=
  mkMemServer (mkStore ∅ {[ ("prod", "web") := demo_sts ]}
    (list_to_map [(("prod", "web-0"), demo_pod "web-0" "node-1" "10.0.0.1");
                  (("prod", "web-1"), demo_pod "web-1" "node-2" "10.0.0.2")])
    ∅ {[ ("prod", "web") := demo_state_object ∅ ]})
    [None; Some (OtherError "timeout")] 0.

Lemma demo_partial_keyed : keyed (ms_store demo_partial).
Proof.
  unfold keyed, demo_partial; simpl. split_and!; try apply map_Forall_empty;
    intros k o [<- <-]%lookup_singleton_Some; done.
Qed.

(** The other Pod is recorded, in a status that is new. *)
Lemma sts_recorded_is_reserved_witness :
  let w' := (StatefulSetAutoGeneratePersistentPodState demo_retry demo_sts demo_partial).2 in
  let st := new_status {[ "web-0" := recorded_state "node-1" "10.0.0.1" ]} in
  (stored_status (sts_key demo_sts) (contents w') = Some st ∧
   stored_status (sts_key demo_sts) (contents demo_partial) ≠ Some st) ∧
  wp (StatefulSetAutoGeneratePersistentPodState demo_retry demo_sts) (λ _ w', ∀ st n e,
    stored_status (sts_key demo_sts) (contents w') = Some st →
    stored_status (sts_key demo_sts) (contents demo_partial) ≠ Some st →
    gomap_lookup (ppst_PodStates st) n = Some e →
    (∃ p, selected (sts_namespace demo_sts) (ls_MatchLabels demo_selector) (contents demo_partial) p ∧ eligible p ∧
      pod_name p = n ∧ e = pod_entry p) ∧
    reserved (pod_reservation_name (sts_namespace demo_sts) n) (ps_PodIP e) (contents w')) demo_partial.
Proof.
  split; [by split; vm_compute|].
  apply (sts_recorded_is_reserved demo_retry (retry_steps_law 3) demo_sts
    demo_selector demo_partial); [done|apply demo_partial_keyed].
Defined.

(** An instance whose state object records the address it had before. *)
Definition demo_vmi_known : MemServer :=
  mkMemServer (set_pps {[ ("prod", "vm") :=
    vmi_persistent_state (demo_vmi [demo_owner]) demo_owner "10.0.0.6" ]} demo_store) [] 0.

Lemma demo_vmi_known_keyed : keyed (ms_store demo_vmi_known).
Proof.
  unfold keyed, demo_vmi_known; simpl. split_and!; try apply map_Forall_empty;
    intros k o [<- <-]%lookup_singleton_Some; done.
Qed.

Lemma vmi_reconcile_correct_witness :
  let v := demo_vmi [demo_owner] in
  is_Some (stored_status (vmi_key v) (contents demo_vmi_known)) ∧
  wp (VmiAutoGeneratePersistentPodState demo_retry v) (λ e w',
    (e = None → reserved (vmi_reservation_name (vmi_namespace v) (vmi_name v)) (vif_IP demo_iface) (contents w') ∧
      stored_status (vmi_key v) (contents w') =
        Some (vmi_next_status v (vif_IP demo_iface) (stored_status (vmi_key v) (contents demo_vmi_known))) ∧
      (is_Some (stored_status (vmi_key v) (contents demo_vmi_known)) →
        stored_status (vmi_key v) (contents w') = Some (vmi_status v (vif_IP demo_iface)))) ∧
    (e ≠ None → stored_status (vmi_key v) (contents w') = stored_status (vmi_key v) (contents demo_vmi_known)) ∧
    (reliable demo_vmi_known → e = None)) demo_vmi_known.
Proof.
  split; [by eexists|].
  apply (vmi_reconcile_correct demo_retry (retry_steps_law 3) (demo_vmi [demo_owner])
    demo_iface [] demo_owner [] demo_vmi_known); [done..|apply demo_vmi_known_keyed].
Defined.

Lemma vmi_without_owner_panics_witness :
  ∃ w', VmiAutoGeneratePersistentPodState demo_retry (demo_vmi []) demo_world =
      (Panic "index out of range [0] with length 0", w') ∧
    reserved (vmi_reservation_name (vmi_namespace (demo_vmi [])) (vmi_name (demo_vmi []))) (vif_IP demo_iface) (contents w').
Proof.
  apply (vmi_without_owner_panics demo_retry (demo_vmi []) demo_iface []
    demo_world); [done..|apply demo_keyed|done].
Defined.

(** A pod "c" of namespace "a-b" and a pod "b-c" of namespace "a". *)
Definition demo_p : Pod := mkPod (mkObjectMeta "c" "a-b" "uid-4" "1" None None [] "") None "node-1" "10.0.0.8" "".
Definition demo_q : Pod := mkPod (mkObjectMeta "b-c" "a" "uid-5" "1" None None [] "") None "node-1" "10.0.0.9" "".

Lemma colliding_reservations_overwrite_witness :
  wp (do! createOrUpdateIPReservation demo_p in createOrUpdateIPReservation demo_q) (λ e w',
    e = None ∧
    ¬ reserved (pod_reservation_name (pod_namespace demo_p) (pod_name demo_p))
        (pod_PodIP demo_p) (contents w')) demo_world.
Proof. apply (colliding_reservations_overwrite demo_p demo_q demo_world); [done..|apply demo_keyed|done]. Defined.

Lemma vmi_converges_witness :
  wp (VmiAutoGeneratePersistentPodState demo_retry (demo_vmi [demo_owner])) (λ e1 w1, e1 = None ∧
    wp (VmiAutoGeneratePersistentPodState demo_retry (demo_vmi [demo_owner])) (λ e2 w2, e2 = None ∧
      stored_status (vmi_key (demo_vmi [demo_owner])) (contents w2) =
        Some (vmi_status (demo_vmi [demo_owner]) (vif_IP demo_iface)) ∧
      reserved (vmi_reservation_name (vmi_namespace (demo_vmi [demo_owner])) (vmi_name (demo_vmi [demo_owner])))
        (vif_IP demo_iface) (contents w2)) w1) demo_world.
Proof.
  apply (vmi_converges demo_retry (retry_steps_law 3) (demo_vmi [demo_owner]) demo_iface []
    demo_owner [] demo_world); [done..|apply demo_keyed|done|done].
Defined.

Lemma reconcile_frame_witness :
  always (λ w w', touches (reservations_of "prod") (λ k, k.1 = "prod") (contents w) (contents w'))
    (Reconcile demo_retry (mkPersistenceConfig true true) ("prod", "web")).
Proof. apply (reconcile_frame demo_retry (retry_steps_law 3) (mkPersistenceConfig true true) "prod" "web"). Defined.

Lemma requests_route_back_witness :
  Reconcile demo_retry (mkPersistenceConfig true true) ("prod", request_name KindVmi "vm") demo_world =
    (let! r := GetVirtualMachineInstance ("prod", "vm") in
     match r with
     | inl _ => go_ret None
     | inr v => VmiAutoGeneratePersistentPodState demo_retry v
     end) demo_world ∧
  Reconcile demo_retry (mkPersistenceConfig true true) ("prod", request_name KindStatefulSet "vm") demo_world =
    (let! r := GetStatefulSet ("prod", "vm") in
     match r with
     | inr s => StatefulSetAutoGeneratePersistentPodState demo_retry s
     | inl _ => go_ret None
     end) demo_world.
Proof.
  apply (requests_route_back demo_retry (mkPersistenceConfig true true) "prod" "vm" demo_world); done.
Defined.
