(* ===== verification/MemLoop.v ===== *)
(** * The controller at work in memory

    The queue as a set, and a run of the loop: the controller starts beside an instance and a
    StatefulSet that ask for persistence and records both. *)
From S2P Require Export ReconcilerTheorems ControllerLoop Failures.

#[export] Instance mem_queue : RequestQueue (gset NamespacedName) := {|
  q_Add r := λ q, (Ret (), {[r]} ∪ q);
  q_Get q r q' := r ∈ q ∧ q' = q ∖ {[r]} |}.
#[export] Instance mem_queue_laws : RequestQueueLaws (gset NamespacedName).
Proof.
  refine {| waiting q := q |}; [done|done|]. intros q (r & Hr)%set_choose_L. by exists r, (q ∖ {[r]}).
Defined.

Lemma enqueue_objects_runs (l : list NamespacedName) (q : gset NamespacedName) :
  ∃ q', runs (enqueue_objects l) q () q' ∧ q' = list_to_set l ∪ q.
Proof. pose proof (enqueue_objects_wp l q) as ([] & q' & Hrun & Hq)%wp_runs. by exists q'. Qed.

Section run.
Variable config : PersistenceConfig.

(** The states that are not the same in two worlds, and one turn of the loop. *)
Definition changed_states (w w1 : MemServer) : list NamespacedName :=
  filter (λ k, st_pps (ms_store w1) !! k ≠ st_pps (ms_store w) !! k)
    (elements (dom (st_pps (ms_store w)) ∪ dom (st_pps (ms_store w1)))).
Definition loop_turn (req : NamespacedName) (c : MemServer * gset NamespacedName) : MemServer * gset NamespacedName :=
  let w1 := (Reconcile demo_retry config req c.1).2 in
  (w1, list_to_set (changed_states c.1 w1) ∪ (c.2 ∖ {[req]})).

Lemma changed_states_spec w w1 k :
  k ∈ changed_states w w1 ↔ st_pps (ms_store w1) !! k ≠ st_pps (ms_store w) !! k.
Proof.
  unfold changed_states. rewrite list_elem_of_filter, elem_of_elements, elem_of_union, !elem_of_dom.
  destruct (st_pps (ms_store w) !! k), (st_pps (ms_store w1) !! k); naive_solver.
Qed.

Lemma loop_turn_step req c :
  req ∈ c.2 → (Reconcile demo_retry config req c.1).1 = Ret None → loop_step demo_retry config c (loop_turn req c).
Proof.
  intros Hin He. destruct c as [w q]. unfold loop_turn. cbn [fst snd] in *.
  destruct (Reconcile demo_retry config req w) as [o w1] eqn:Hrun. cbn [fst snd] in *. subst o.
  destruct (enqueue_objects_runs (changed_states w w1) (q ∖ {[req]})) as (q2 & Hadd & ->).
  econstructor; [split; [exact Hin|done]|exact Hrun| |exact Hadd].
  intros k. rewrite changed_states_spec. naive_solver.
Qed.

(** The turns of a list of requests, while each waits and succeeds. *)
Fixpoint loop_turns (reqs : list NamespacedName) (c : MemServer * gset NamespacedName)
    : option (MemServer * gset NamespacedName) :=
  match reqs with
  | [] => Some c
  | req :: reqs' =>
      if decide (req ∈ c.2) then
        match (Reconcile demo_retry config req c.1).1 with
        | Ret None => loop_turns reqs' (loop_turn req c)
        | _ => None
        end
      else None
  end.

Lemma loop_turns_steps reqs c c' :
  loop_turns reqs c = Some c' → nsteps (loop_step demo_retry config) (length reqs) c c'.
Proof.
  revert c. induction reqs as [|req reqs IH]; intros c; cbn [loop_turns length]; [intros [= <-]; constructor|].
  case_decide as Hin; [|done]. destruct ((Reconcile demo_retry config req c.1).1) as [[e|]|why] eqn:He; [done| |done].
  intros Hrun. econstructor; [by apply loop_turn_step|by apply IH].
Qed.
End run.

(** ** An instance and a StatefulSet that ask for persistence *)
Definition asking (name : string) (owners : list OwnerReference) : ObjectMeta :=
  mkObjectMeta name "prod" "uid-1" "1" (Some {[ "app" := "web" ]})
    (Some (<[AnnotationAutoGeneratePersistentPodState := "true"]>
      {[ AnnotationRequiredPersistentTopology := "kubernetes.io/hostname" ]})) owners "".
Definition asking_vmi : VirtualMachineInstance := mkVMI (asking "vm" [demo_owner]) None [demo_iface] "node-1" "".
Definition asking_sts : StatefulSet := mkStatefulSet (asking "web" []) (Some demo_selector) "".
Definition asking_world : MemServer :=
  mkMemServer (mkStore {[ ("prod", "vm") := asking_vmi ]} {[ ("prod", "web") := asking_sts ]}
    (st_pod demo_store) ∅ ∅) [] 0.
Definition both_kinds : PersistenceConfig := mkPersistenceConfig true true.
Abbreviation always_running := (λ _ : VirtualMachineInstance, true).

Lemma asking_vmis k v : st_vmi (contents asking_world) !! k = Some v → k = ("prod", "vm") ∧ v = asking_vmi.
Proof.
  change (st_vmi (contents asking_world)) with ({[ ("prod", "vm") := asking_vmi ]} : gmap NamespacedName VirtualMachineInstance).
  by intros [<- <-]%lookup_singleton_Some.
Qed.
Lemma asking_stss k x : st_sts (contents asking_world) !! k = Some x → k = ("prod", "web") ∧ x = asking_sts.
Proof.
  change (st_sts (contents asking_world)) with ({[ ("prod", "web") := asking_sts ]} : gmap NamespacedName StatefulSet).
  by intros [<- <-]%lookup_singleton_Some.
Qed.

Lemma asking_due k n ip :
  due both_kinds (contents asking_world) k n ip →
  (n = vmi_reservation_name "prod" "vm" ∧ ip = "10.0.0.7") ∨ (n = pod_reservation_name "prod" "web-0" ∧ ip = "10.0.0.1").
Proof.
  unfold due. destruct (target_vmi _ _ k) as [v|] eqn:Hv.
  - apply asking_vmis in Hv as [-> ->]. intros (_ & -> & ->). by left.
  - destruct (target_sts _ _ k) as [x|] eqn:Hx; [|by intros []]. apply asking_stss in Hx as [-> ->].
    intros (x & e & (p & Hp & _ & _ & [Hip _] & ->)%described_lookup & -> & ->). right. cbn in Hp.
    apply lookup_insert_Some in Hp as [[[= <-] <-]|[_ Hp]]; [done|].
    by apply lookup_insert_Some in Hp as [[[= <-] <-]|[_ Hp]].
Qed.

Lemma asking_orderly : orderly both_kinds (contents asking_world).
Proof.
  split.
  - by intros k [v [-> _]%asking_vmis].
  - by intros k [x [-> _]%asking_stss].
  - by intros k v [-> ->]%asking_vmis.
  - by intros k x [-> ->]%asking_stss.
  - intros k. destruct (target_vmi _ _ k) as [v|] eqn:Hv; [right|by left]. apply asking_vmis in Hv as [-> _]. done.
  - intros k k' n ip ip' [[-> ->]|[-> ->]]%asking_due [[Hn ->]|[Hn ->]]%asking_due; done.
Qed.

Lemma asking_keyed : keyed (contents asking_world).
Proof.
  split_and!; try apply map_Forall_empty; [by intros k v [-> ->]%asking_vmis|by intros k x [-> ->]%asking_stss].
Qed.

Lemma asking_lists : lists_all (contents asking_world) [] [asking_vmi] [asking_sts].
Proof.
  split.
  - intros k. split; [by intros ?%elem_of_nil|by intros []].
  - intros v. rewrite list_elem_of_singleton. split; [intros ->; by exists ("prod", "vm")|by intros [k [_ ->]%asking_vmis]].
  - intros x. rewrite list_elem_of_singleton. split; [intros ->; by exists ("prod", "web")|by intros [k [_ ->]%asking_stss]].
  - by intros k [].
Qed.

Definition asking_queue : gset NamespacedName :=
  {[ ("prod", request_name KindStatefulSet "web") ]} ∪ ({[ ("prod", request_name KindVmi "vm") ]} ∪ ∅).

(** The StatefulSet and the instance take turns. *)
Definition asking_turns : list NamespacedName :=
  [("prod", request_name KindStatefulSet "web"); ("prod", request_name KindVmi "vm"); ("prod", "web"); ("prod", "vm");
   ("prod", "vm"); ("prod", "web")].
Definition asking_end : MemServer * gset NamespacedName :=
  default (asking_world, ∅) (loop_turns both_kinds asking_turns (asking_world, asking_queue)).

(** A run is what it is by default when it does not stop. *)
Lemma default_run {A} (d : A) o : from_option (λ _, true) false o = true → o = Some (default d o).
Proof. by destruct o. Qed.
Lemma asking_runs : loop_turns both_kinds asking_turns (asking_world, asking_queue) = Some asking_end.
Proof. apply default_run. by vm_compute. Qed.

Lemma controller_settles_witness :
  6 ≤ size asking_queue + 2 * 2 ∧ asking_end.2 = ∅ ∧
  stored_status ("prod", "vm") (contents asking_end.1) = Some (vmi_status asking_vmi "10.0.0.7") ∧
  reserved (vmi_reservation_name "prod" "vm") "10.0.0.7" (contents asking_end.1) ∧
  stored_status ("prod", "web") (contents asking_end.1) = Some (new_status demo_states).
Proof.
  assert (asking_end.2 = ∅) as Hempty by by vm_compute.
  destruct (controller_settles (Q := gset NamespacedName) demo_retry (retry_steps_law 3) both_kinds always_running asking_world [] [asking_vmi] [asking_sts]
    ∅ asking_queue (length asking_turns) asking_end.1 asking_end.2 asking_orderly asking_keyed eq_refl asking_lists)
    as (Hn & _ & Hfin).
  - done.
  - reflexivity.
  - rewrite <-surjective_pairing. apply loop_turns_steps, asking_runs.
  - destruct (Hfin Hempty) as [Hv Hs]. destruct (Hv ("prod", "vm") asking_vmi) as [Hst Hres]; [done..|].
    split_and!; [exact Hn|exact Hempty|exact Hst|exact Hres|].
    by destruct (Hs ("prod", "web") asking_sts demo_selector) as [-> _].
Defined.

(** ** Failures that are not retried

    The third call of the reconcile, the read of the reservation, is refused.  The reconcile
    returns nil all the same, has recorded nothing, and no request waits any more. *)
Definition asking_refused (faults : list (option ApiError)) : MemServer := mkMemServer (ms_store asking_world) faults 0.
Abbreviation web_request := ("prod", request_name KindStatefulSet "web").

Lemma refused_reservation_is_not_retried :
  let c := (asking_refused [None; None; Some (OtherError "timeout")], {[ web_request ]} : gset NamespacedName) in
  (Reconcile demo_retry both_kinds web_request c.1).1 = Ret None ∧
  size (loop_turn both_kinds web_request c).2 = 0 ∧
  stored_status ("prod", "web") (contents (loop_turn both_kinds web_request c).1) = None.
Proof. vm_compute. done. Qed.

(** Nor is a read of the object that is refused. *)
Lemma refused_read_is_not_retried :
  let c := (asking_refused [Some (OtherError "timeout")], {[ web_request ]} : gset NamespacedName) in
  (Reconcile demo_retry both_kinds web_request c.1).1 = Ret None ∧
  size (loop_turn both_kinds web_request c).2 = 0 ∧
  stored_status ("prod", "web") (contents (loop_turn both_kinds web_request c).1) = None.
Proof. vm_compute. done. Qed.

(** ** Failures before a start

    The reservation's read is refused, then the state is created, then its update is refused:
    what is left is an empty record, and a start of the controller completes it. *)
Definition refused_reconcile (faults : list (option ApiError)) (s : Store) : Store :=
  ms_store (Reconcile demo_retry both_kinds web_request (mkMemServer s faults 0)).2.
Definition after_failures : Store :=
  refused_reconcile [None; None; None; None; None; Some (OtherError "timeout")]
    (refused_reconcile [] (refused_reconcile [None; None; Some (OtherError "timeout")] (ms_store asking_world))).
Definition late_world : MemServer := mkMemServer after_failures [] 0.
Definition left_behind : PersistentPodState := default (sts_persistent_state asking_sts ∅) (st_pps after_failures !! ("prod", "web")).

Lemma late_states : st_pps after_failures = {[ ("prod", "web") := left_behind ]}.
Proof. reflexivity. Qed.

Lemma late_failures : rtc (failing_step demo_retry both_kinds) asking_world late_world.
Proof.
  assert (∀ faults w s, ms_store w = s → rtc (failing_step demo_retry both_kinds) w
    (Reconcile demo_retry both_kinds web_request (mkMemServer s faults 0)).2) as Hstep.
  { intros faults w s Hs. apply (rtc_l _ _ (mkMemServer s faults 0)); [by apply failing_server|]. apply rtc_once.
    exact (failing_reconcile _ _ web_request (mkMemServer s faults 0)). }
  etrans; [by eapply Hstep|]. etrans; [by eapply Hstep|].
  etrans; [by eapply Hstep|]. by apply rtc_once, failing_server.
Qed.

Lemma late_lists : lists_all (contents late_world) [("prod", "web")] [asking_vmi] [asking_sts].
Proof.
  change (contents late_world) with after_failures. split; rewrite ?late_states.
  - intros k. rewrite list_elem_of_singleton, lookup_singleton_is_Some. naive_solver.
  - exact (lists_vmis _ _ _ _ asking_lists).
  - exact (lists_stss _ _ _ _ asking_lists).
  - by intros k <-%lookup_singleton_is_Some.
Qed.

Definition late_queue : gset NamespacedName := asking_queue ∪ {[ ("prod", "web") ]}.
Definition late_turns : list NamespacedName :=
  [web_request; ("prod", request_name KindVmi "vm"); ("prod", "web"); ("prod", "vm"); ("prod", "vm")].
Definition late_end : MemServer * gset NamespacedName :=
  default (late_world, ∅) (loop_turns both_kinds late_turns (late_world, late_queue)).

Lemma late_runs : loop_turns both_kinds late_turns (late_world, late_queue) = Some late_end.
Proof. apply default_run. by vm_compute. Qed.

Lemma settles_by_turns w stss q0 turns c :
  lists_all (contents w) stss [asking_vmi] [asking_sts] →
  runs (controller_starts both_kinds always_running stss [asking_vmi] [asking_sts]) (∅ : gset NamespacedName) () q0 →
  loop_turns both_kinds turns (w, q0) = Some c → bool_decide (c.2 = ∅) = true →
  settles_to (Q := gset NamespacedName) demo_retry both_kinds always_running w c.1.
Proof.
  intros Hl Hstart Hrun Hq%bool_decide_eq_true. eexists stss, _, _, ∅, q0, c.2, (length turns). split_and!; try done.
  rewrite <-surjective_pairing. by apply loop_turns_steps.
Qed.

