(* ===== verification/RecordedTypes.v ===== *)
(** * The type of what the controller stores

    A well-formedness condition on the recorded states and the reservations, which is what
    the webhook relies on when it reads them; every reconcile keeps it, whatever fails. *)
From S2P Require Export ReconcilerTheorems.

(** A recorded pod: an address, the node's hostname label, no annotations. *)
Definition well_typed_entry (e : PodState) : Prop :=
  ps_PodIP e ≠ "" ∧ ps_NodeTopologyLabels e = Some {[ hostname_label := ps_NodeName e ]} ∧ ps_Annotations e = None.

Definition well_typed_status (st : PersistentPodStateStatus) : Prop :=
  ppst_ObservedGeneration st = 0%Z ∧
  match ppst_PodStates st with
  | None => True
  | Some m => m ≠ ∅ ∧ map_Forall (λ _ e, well_typed_entry e) m
  end.

(** The target is an instance or a StatefulSet, of the name of the state. *)
Definition well_typed_spec (name : string) (sp : PersistentPodStateSpec) : Prop :=
  ppss_PersistentPodAnnotations sp = None ∧ ppss_RequiredPersistentTopology sp = None ∧
  (ppss_TargetReference sp = mkTargetReference "kubevirt.io/v1" KindVmi name ∨
   ppss_TargetReference sp = mkTargetReference "apps/v1" KindStatefulSet name).

Definition well_typed_state (o : PersistentPodState) : Prop :=
  well_typed_spec (om_Name (pps_ObjectMeta o)) (pps_Spec o) ∧ well_typed_status (pps_Status o).

(** A reservation under a name the controller uses reserves one address. *)
Definition well_typed_reservation (n : string) (r : IPReservation) : Prop :=
  (∃ ns, reservations_of ns n) → ∃ ip, ip ≠ "" ∧ ipr_ReservedCIDRs r = Some [cidr32 ip].

Definition well_typed (s : Store) : Prop :=
  map_Forall (λ _ o, well_typed_state o) (st_pps s) ∧ map_Forall well_typed_reservation (st_ipr s).

Lemma well_typed_zero : well_typed_status Status_zero.
Proof. by split. Qed.

(** What is recorded of entries, as it is stored. *)
Lemma well_typed_recorded (m : gmap string PodState) :
  m ≠ ∅ → (∀ n e, m !! n = Some e → ∃ node ip, e = recorded_state node ip ∧ ip ≠ "") →
  well_typed_status (Status_json (new_status m)).
Proof.
  intros Hm He. rewrite recorded_status_json; [|intros n e Hn; destruct (He n e Hn) as (? & ? & -> & _); by eexists _, _|done].
  split; [done|]. split; [done|]. intros n e Hn. by destruct (He n e Hn) as (? & ? & -> & Hip).
Qed.

Section typing.
Context {W : Type} `{!Client W, !ClientLaws W}.
Variable RetryOnConflict : GoM W (option ApiError) → GoM W (option ApiError).
Hypothesis retry_law : RetryLaw RetryOnConflict.

Definition typed (w w' : W) : Prop :=
  keyed (contents w) → keyed (contents w') ∧ (well_typed (contents w) → well_typed (contents w')).

#[local] Instance typed_refl : Reflexive typed.
Proof. by intros w. Qed.
#[local] Instance typed_trans : Transitive typed.
Proof. intros w1 w2 w3 H12 H23 Hk. destruct (H12 Hk) as [Hk2 ?]. destruct (H23 Hk2). by auto. Qed.

Lemma typed_same w w' : contents w' = contents w → typed w w'.
Proof. intros Hc. unfold typed. by rewrite Hc. Qed.

Lemma typed_of_wp {A} (m : GoM W A) :
  (∀ w, keyed (contents w) → wp m (λ _ w', typed w w') w) → always typed m.
Proof.
  intros Hm w Hk. specialize (Hm w Hk). unfold wp in Hm.
  destruct (m w) as [[a|why] w']; [by apply Hm|done].
Qed.

Lemma reserve_typed name ip : ip ≠ "" → always typed (reserve (new_reservation name ip)).
Proof.
  intros Hip. apply typed_of_wp. intros w Hk.
  eapply wp_mono; [by apply (reserve_wp (new_reservation name ip) ip)|].
  intros e w' (Ht & Hp & Hnone & Hsome & _) _. destruct (Ht Hk) as (Hk' & _ & _ & _ & Hother & _).
  split; [done|]. intros [Hst Hres]. split; [by rewrite Hp|]. intros n r Hr.
  destruct (decide (n = ipr_key (new_reservation name ip))) as [->|Hne].
  - destruct e as [e|]; [rewrite Hsome in Hr by done; by eapply Hres|].
    destruct (Hnone eq_refl) as (r' & Hr' & Hc). rewrite Hr in Hr'. injection Hr' as <-. intros _. by exists ip.
  - rewrite Hother in Hr by congruence. by eapply Hres.
Qed.

Lemma record_pod_typed p m : always typed (record_pod p m).
Proof.
  unfold record_pod. case_decide as H; [by apply always_ret|]. apply (always_bind _).
  - unfold createOrUpdateIPReservation. case_decide; [by apply always_ret|]. by apply reserve_typed.
  - intros [e|]; by apply always_ret.
Qed.

(** What is stored under the one key that the tail of a reconcile touches. *)
Lemma store_typed pps w w' (o' : PersistentPodState) :
  keyed (contents w) → touches (λ _, False) (eq (pps_key pps)) (contents w) (contents w') →
  st_ipr (contents w') = st_ipr (contents w) → st_pps (contents w') !! pps_key pps = Some o' →
  (well_typed (contents w) → well_typed_state o') → typed w w'.
Proof.
  intros Hk Ht Hi Ho' Hty _. destruct (Ht Hk) as (Hk' & _ & _ & _ & _ & Hother). split; [done|].
  intros Hwt. split; [|rewrite Hi; apply Hwt]. intros k o Ho. destruct (decide (k = pps_key pps)) as [->|Hne].
  - rewrite Ho' in Ho. injection Ho as <-. by apply Hty.
  - rewrite Hother in Ho by congruence. by eapply (proj1 Hwt).
Qed.

Lemma store_tail_typed skip pps :
  well_typed_spec (om_Name (pps_ObjectMeta pps)) (pps_Spec pps) →
  well_typed_status (Status_json (pps_Status pps)) →
  always typed (store_tail RetryOnConflict skip pps).
Proof.
  intros Hsp Hst. apply typed_of_wp. intros w Hk. unfold store_tail. apply wp_bind.
  eapply wp_mono; [apply get_pps_law|]. simpl. intros r w1 (Hc1 & Hr & _).
  assert (∀ w', typed w1 w' → typed w w') as Hvia by (intros w' H; etrans; [by apply typed_same|done]).
  destruct r as [err|old].
  - destruct (IsNotFound err) eqn:Herr; simpl; [|by apply wp_ret, Hvia].
    apply bool_decide_eq_true in Herr. specialize (Hr Herr). rewrite <-Hc1 in Hk, Hr.
    eapply wp_mono; [by apply create_state_wp|]. intros e w' (Ht & Hi & Hnone & Hsome & _). apply Hvia.
    destruct e as [e|]; [by apply typed_same, Hsome|]. destruct (Hnone eq_refl) as [rv Hc].
    eapply store_typed; [done|done|done|rewrite Hc; apply lookup_insert_eq|].
    intros _. split; [done|apply well_typed_zero].
  - destruct (skip old) eqn:Hskip; simpl; [by apply wp_ret, Hvia|]. rewrite <-Hc1 in Hk.
    eapply wp_mono; [by apply retry_update_wp|]. intros e w' ((Ht & Hi & Hor) & _). apply Hvia.
    destruct Hor as [Hsame|(o & o' & Ho & Ho' & Hspec & Hstat)]; [by apply typed_same|].
    eapply store_typed; [done|done|done|exact Ho'|]. intros Hwt. destruct (proj1 Hwt _ _ Ho) as [Hty _].
    destruct (Ht Hk) as (Hk' & _). pose proof (keyed_pps _ _ _ Hk Ho) as Hkey. pose proof (keyed_pps _ _ _ Hk' Ho') as Hkey'.
    rewrite <-Hkey in Hkey'. injection Hkey' as _ Hname. split; [by rewrite Hname, Hspec|by rewrite Hstat].
Qed.

Lemma vmi_typed v : always typed (VmiAutoGeneratePersistentPodState RetryOnConflict v).
Proof.
  unfold VmiAutoGeneratePersistentPodState. destruct (vmi_Interfaces v) as [|iface ifaces]; [by apply always_ret|].
  case_decide as Hip; [by apply always_ret|]. apply (always_bind _); [by apply reserve_typed|].
  intros [err|]; [by apply always_ret|]. destruct (om_OwnerReferences _) as [|owner owners]; [by apply always_panic|].
  apply (store_tail_typed (λ o, DeepEqual (pps_Status o) (vmi_status v (vif_IP iface)))
    (vmi_persistent_state v owner (vif_IP iface))).
  - split; [done|]. split; [done|]. by left.
  - apply well_typed_recorded; [apply map_non_empty_singleton|].
    intros n e [<- <-]%lookup_singleton_Some. by eexists _, _.
Qed.

Lemma sts_typed s : always typed (StatefulSetAutoGeneratePersistentPodState RetryOnConflict s).
Proof.
  destruct (sts_Selector s) as [sel|] eqn:Hsel;
    [|unfold StatefulSetAutoGeneratePersistentPodState; rewrite Hsel; by apply always_panic].
  apply typed_of_wp. intros w Hk. rewrite (sts_unfold _ s sel Hsel). apply wp_bind.
  eapply wp_mono; [apply list_pods_law|]. simpl. intros r w0 (Hc0 & Hr & _).
  assert (∀ w', typed w0 w' → typed w w') as Hvia by (intros w' H; etrans; [by apply typed_same|done]).
  destruct r as [err|l]; [by apply wp_ret, Hvia|]. destruct (Hr l eq_refl) as [Hnd Hl]. clear Hr.
  destruct (selected_names _ _ _ l Hnd Hl) as [Hns Hnames]. destruct l as [|p0 l0]; [by apply wp_ret, Hvia|].
  rewrite <-Hc0 in Hk. apply wp_bind. eapply wp_mono.
  { apply (wp_always typed).
    - apply always_for; [apply _|apply _|]. intros; apply record_pod_typed.
    - by apply record_pods_wp. }
  intros m w1 [Hrec Hty]. pose proof (Hty Hk) as [Hk1 _]. case_decide as Hsz; [by apply wp_ret, Hvia|].
  unfold wp. rewrite sts_tail_eq. 
  assert (always typed (store_tail RetryOnConflict (sts_skip m) (sts_persistent_state s m))) as Htail.
  { apply store_tail_typed; [split; [done|]; split; [done|]; by right|]. apply well_typed_recorded.
    - intros ->. by rewrite map_size_empty in Hsz.
    - intros n e Hn. destruct Hrec as (_ & _ & Hm & _). destruct (Hm n e Hn) as [(p & _ & [Hip _] & _ & ->) _].
      by eexists _, _. }
  pose proof (store_tail_wp RetryOnConflict retry_law (sts_skip m) (sts_persistent_state s m) w1 Hk1) as Hwp.
  apply (wp_always typed _ _ _ Htail) in Hwp. eapply wp_mono; [exact Hwp|]. intros e w' [_ Htt].
  apply Hvia. by etrans.
Qed.

(** C12: Reconciling keeps the type of the store.  Let every recorded state have the form the
    webhook reads (a target of its own name and of one of the two kinds; a status that is
    empty or a non-empty map of entries, each with an address, the hostname label of its
    node and nothing else), and every reservation under a name of the controller exactly one
    address.  Whatever the request and the switches, whatever calls fail, even if the
    reconcile panics: it is so afterwards, and every object is still stored under its own
    name. *)
Theorem reconcile_keeps_types config ns name w :
  keyed (contents w) → well_typed (contents w) →
  let w' := (Reconcile RetryOnConflict config (ns, name) w).2 in
  keyed (contents w') ∧ well_typed (contents w').
Proof.
  intros Hk Hwt. assert (always typed (Reconcile RetryOnConflict config (ns, name))) as Hall.
  { apply Reconcile_always; [apply _|apply _|apply typed_same|intros w1 w2 H Hk1; by apply H| |].
    - intros v _. apply vmi_typed.
    - intros s _. apply sts_typed. }
  destruct (Hall w Hk) as [Hk' Hwt']. split; [done|by apply Hwt'].
Qed.
End typing.

(** ** Witness: two pods recorded, and a call that fails *)
Lemma demo_entries_typed : map_Forall (λ _ e, well_typed_entry e) demo_two_states.
Proof.
  unfold demo_two_states, demo_states. intros n e [[<- <-]|[_ Hn]]%lookup_insert_Some; [by split_and!|].
  apply lookup_singleton_Some in Hn as [<- <-]. by split_and!.
Qed.

Lemma demo_faulty_typed : well_typed (contents demo_faulty).
Proof.
  split; [|apply map_Forall_empty]. intros k o Ho. change (({[ ("prod", "web") := demo_state_object demo_two_states ]} : gmap NamespacedName _) !! k = Some o) in Ho.
  apply lookup_singleton_Some in Ho as [<- <-].
  split; [split; [done|]; split; [done|by right]|]. split; [done|]. split; [apply insert_non_empty|].
  apply demo_entries_typed.
Qed.

Lemma reconcile_keeps_types_witness :
  let w' := (Reconcile demo_retry (mkPersistenceConfig true true) ("prod", "web") demo_faulty).2 in
  keyed (contents w') ∧ well_typed (contents w').
Proof.
  exact (reconcile_keeps_types demo_retry (retry_steps_law 3) (mkPersistenceConfig true true) "prod" "web"
    demo_faulty demo_faulty_keyed demo_faulty_typed).
Defined.
