(* ===== verification/MutatingHandler.v ===== *)
(** * The admission webhook: [internal/webhook/pod/mutating]

    [mutating_handler.go] and [webhooks.go].  On the creation of a Pod or of a
    VirtualMachineInstance the handler looks up the PersistentPodState and pins the address
    (a Calico annotation) and the node (a required node affinity) recorded for it.

    The admission library is a parameter: the decoder, the JSON encoder and the response
    constructors of controller-runtime.  The object a handler mutates through a pointer is
    threaded as a value; [clone] is a deep copy, so no alias is lost. *)
From S2P Require Export ApiServer Features.

(** admission.Request: the fields the handler reads; [rq_Object] is the raw object. *)
Record AdmissionRequest := mkAdmissionRequest {
  rq_SubResource : string; rq_Resource : string; rq_Operation : string;
  rq_Name : string; rq_Namespace : string; rq_Object : string }.

Definition OperationCreate : string := "CREATE".
Definition OperationUpdate : string := "UPDATE".
Definition StatusBadRequest : Z := 400.
Definition StatusInternalServerError : Z := 500.

Definition ip_annotation : string := "cni.projectcalico.org/ipAddrs".

Definition shouldIgnoreIfNotVMIOrPod (req : AdmissionRequest) : bool :=
  if negb (go_len (rq_SubResource req) =? 0)%Z then true
  else
    let resource := rq_Resource req in
    negb (bool_decide (resource = "virtualmachineinstances")) && negb (bool_decide (resource = "pods")).

(** ** Assignments to the fields of an object *)
Definition with_namespace (ns : string) (m : ObjectMeta) : ObjectMeta :=
  mkObjectMeta (om_Name m) ns (om_UID m) (om_ResourceVersion m) (om_Labels m) (om_Annotations m)
    (om_OwnerReferences m) (om_rest m).
Definition with_annotations (a : gomap string) (m : ObjectMeta) : ObjectMeta :=
  mkObjectMeta (om_Name m) (om_Namespace m) (om_UID m) (om_ResourceVersion m) (om_Labels m) a
    (om_OwnerReferences m) (om_rest m).
Definition pod_with (p : Pod) (m : ObjectMeta) (a : option Affinity) : Pod :=
  mkPod m a (pod_NodeName p) (pod_PodIP p) (pod_rest p).
Definition vmi_with (v : VirtualMachineInstance) (m : ObjectMeta) (a : option Affinity)
    : VirtualMachineInstance :=
  mkVMI m a (vmi_Interfaces v) (vmi_NodeName v) (vmi_rest v).

(** if obj.Annotations == nil { obj.Annotations = make(map[string]string) } *)
Definition init_annotations (m : ObjectMeta) : ObjectMeta :=
  match om_Annotations m with None => with_annotations (Some ∅) m | Some _ => m end.

(** obj.Annotations[k] = v, which panics on a nil map. *)
Definition set_annotation {W} (k v : string) (m : ObjectMeta) : GoM W ObjectMeta :=
  match om_Annotations m with
  | None => go_panic "assignment to entry in nil map"
  | Some a => go_ret (with_annotations (Some (<[k := v]> a)) m)
  end.

(** ** The two mutations, written out in both handlers *)

(** PodStates[name]: the zero PodState when the map is nil or has no such key. *)
Definition PodState_zero : PodState := mkPodState "" None None "".
Definition recorded_for (pps : PersistentPodState) (name : string) : PodState :=
  default PodState_zero (gomap_lookup (ppst_PodStates (pps_Status pps)) name).

(** The address: fmt.Sprintf of a one-element JSON array holding it. *)
Definition dquote : ascii := Ascii.ascii_of_nat 34.
Definition ip_annotation_value (ip : string) : string :=
  "[" +:+ String dquote (ip +:+ String dquote "]").

Definition pin_ip {W} (ip : string) (m : ObjectMeta) : GoM W ObjectMeta :=
  if decide (ip = "") then go_ret m else set_annotation ip_annotation (ip_annotation_value ip) m.

(** The node: the nil levels of the affinity are allocated one after the other, then the
    required terms are assigned. *)
Definition node_term (node : string) : NodeSelectorTerm :=
  mkNodeSelectorTerm [mkNodeSelectorRequirement "kubernetes.io/hostname" "In" [node]] [].

(** required.NodeSelectorTerms = terms *)
Definition with_terms (terms : list NodeSelectorTerm) (required : NodeSelector) : NodeSelector :=
  let '(mkNodeSelector _) := required in mkNodeSelector terms.

Definition pin_node (node : string) (a : option Affinity) : option Affinity :=
  if decide (node = "") then a
  else
    let aff := default (mkAffinity None None None) a in
    let na := default (mkNodeAffinity None "") (aff_NodeAffinity aff) in
    let required := default (mkNodeSelector []) (na_Required na) in
    Some (mkAffinity
      (Some (mkNodeAffinity (Some (with_terms [node_term node] required)) (na_Preferred na)))
      (aff_PodAffinity aff) (aff_PodAntiAffinity aff)).

(** ** The name of the owning StatefulSet *)
Fixpoint owner_statefulset (l : list OwnerReference) : option string :=
  match l with
  | [] => None
  | o :: l' => if decide (or_Kind o = "StatefulSet") then Some (or_Name o) else owner_statefulset l'
  end.

Definition getStatefulSetNameFromPod (pod : Pod) : string :=
  match owner_statefulset (om_OwnerReferences (pod_ObjectMeta pod)) with
  | Some name => name
  | None =>
      let name := om_Name (pod_ObjectMeta pod) in
      if decide (name = "") then ""
      else
        let lastDashIndex := last_index_byte name "-" in
        if (lastDashIndex >? 0)%Z then
          let suffix := slice_from name (lastDashIndex + 1) in
          if all_chars is_digit suffix then slice_to name lastDashIndex else ""
        else ""
  end.

(** ** The handlers *)
Section handler.
Context {W : Type} `{!Client W}.

(** An [error] of a handler is the message it carries. *)
Abbreviation error := string.

Definition handleVMICreate (obj : VirtualMachineInstance)
    : GoM W (VirtualMachineInstance * option error) :=
  let m := init_annotations (vmi_ObjectMeta obj) in
  let obj := vmi_with obj m (vmi_Affinity obj) in
  let! r := GetPersistentPodState (om_Namespace m, om_Name m) in
  match r with
  | inl _ => go_ret (obj, None)
  | inr pps =>
      let st := recorded_for pps (om_Name m) in
      let! m' := pin_ip (ps_PodIP st) m in
      go_ret (vmi_with obj m' (pin_node (ps_NodeName st) (vmi_Affinity obj)), None)
  end.

Definition handleVMIUpdate (obj : VirtualMachineInstance)
    : GoM W (VirtualMachineInstance * option error) := go_ret (obj, None).

Definition handlePodCreate (obj : Pod) : GoM W (Pod * option error) :=
  let m := init_annotations (pod_ObjectMeta obj) in
  let obj := pod_with obj m (pod_Affinity obj) in
  let stsName := getStatefulSetNameFromPod obj in
  if decide (stsName = "") then go_ret (obj, None)
  else
    let! r := GetPersistentPodState (om_Namespace m, stsName) in
    match r with
    | inl _ => go_ret (obj, None)
    | inr pps =>
        let st := recorded_for pps (om_Name m) in
        let! m' := pin_ip (ps_PodIP st) m in
        go_ret (pod_with obj m' (pin_node (ps_NodeName st) (pod_Affinity obj)), None)
    end.

Definition handlePodUpdate (obj : Pod) : GoM W (Pod * option error) := go_ret (obj, None).

(** controller-runtime's admission package and encoding/json. *)
Context {Response : Type}.
Variable Allowed : string → Response.
Variable Errored : Z → error → Response.
Variable PatchResponseFromRaw : string → string → Response.
Variable DecodePod : AdmissionRequest → error + Pod.
Variable DecodeVMI : AdmissionRequest → error + VirtualMachineInstance.
Variable MarshalPod : Pod → error + string.
Variable MarshalVMI : VirtualMachineInstance → error + string.
Variable config : PersistenceConfig.

Definition handleVMI (req : AdmissionRequest) : GoM W Response :=
  match DecodeVMI req with
  | inl err => go_ret (Errored StatusBadRequest err)
  | inr obj =>
      let clone := obj in
      let isNamespaceEmpty := bool_decide (om_Namespace (vmi_ObjectMeta obj) = "") in
      let obj := if isNamespaceEmpty
        then vmi_with obj (with_namespace (rq_Namespace req) (vmi_ObjectMeta obj)) (vmi_Affinity obj)
        else obj in
      let finish (r : VirtualMachineInstance * option error) : GoM W Response :=
        let '(obj, err) := r in
        match err with
        | Some e => go_ret (Errored StatusInternalServerError e)
        | None =>
            let obj := if isNamespaceEmpty
              then vmi_with obj (with_namespace "" (vmi_ObjectMeta obj)) (vmi_Affinity obj)
              else obj in
            if DeepEqual obj clone then go_ret (Allowed "")
            else
              match MarshalVMI obj with
              | inl e => go_ret (Errored StatusInternalServerError e)
              | inr marshaled =>
                  match MarshalVMI clone with
                  | inl e => go_ret (Errored StatusInternalServerError e)
                  | inr original => go_ret (PatchResponseFromRaw original marshaled)
                  end
              end
        end in
      if decide (rq_Operation req = OperationCreate) then
        let! r := handleVMICreate obj in finish r
      else if decide (rq_Operation req = OperationUpdate) then
        let! r := handleVMIUpdate obj in finish r
      else go_ret (Allowed "")
  end.

Definition handlePod (req : AdmissionRequest) : GoM W Response :=
  match DecodePod req with
  | inl err => go_ret (Errored StatusBadRequest err)
  | inr obj =>
      let clone := obj in
      let isNamespaceEmpty := bool_decide (om_Namespace (pod_ObjectMeta obj) = "") in
      let obj := if isNamespaceEmpty
        then pod_with obj (with_namespace (rq_Namespace req) (pod_ObjectMeta obj)) (pod_Affinity obj)
        else obj in
      let finish (r : Pod * option error) : GoM W Response :=
        let '(obj, err) := r in
        match err with
        | Some e => go_ret (Errored StatusInternalServerError e)
        | None =>
            let obj := if isNamespaceEmpty
              then pod_with obj (with_namespace "" (pod_ObjectMeta obj)) (pod_Affinity obj)
              else obj in
            if DeepEqual obj clone then go_ret (Allowed "")
            else
              match MarshalPod obj with
              | inl e => go_ret (Errored StatusInternalServerError e)
              | inr marshaled =>
                  match MarshalPod clone with
                  | inl e => go_ret (Errored StatusInternalServerError e)
                  | inr original => go_ret (PatchResponseFromRaw original marshaled)
                  end
              end
        end in
      if decide (rq_Operation req = OperationCreate) then
        let! r := handlePodCreate obj in finish r
      else if decide (rq_Operation req = OperationUpdate) then
        let! r := handlePodUpdate obj in finish r
      else go_ret (Allowed "")
  end.

Definition Handle (req : AdmissionRequest) : GoM W Response :=
  if shouldIgnoreIfNotVMIOrPod req then go_ret (Allowed "")
  else if decide (rq_Resource req = "virtualmachineinstances") then
    if negb (EnableVMIPersistence config) then go_ret (Allowed "") else handleVMI req
  else if decide (rq_Resource req = "pods") then
    if negb (EnableStatefulSetPersistence config) then go_ret (Allowed "") else handlePod req
  else go_ret (Allowed "").
End handler.
