(* ===== verification/MutatingFacts.v ===== *)
(** * What the admission handlers compute

    The lemmas behind the webhook's theorems: the mutation as a pure function of the
    recorded state ([pinned_pod], [pinned_vmi]) and the record a handler finds. *)
From S2P Require Export MutatingHandler.
From S2P Require Import ApiServer.

(** ** The mutation as a function *)
Definition pinned_meta (st : PodState) (m : ObjectMeta) : ObjectMeta :=
  let a := default ∅ (om_Annotations m) in
  with_annotations
    (Some (if decide (ps_PodIP st = "") then a
           else <[ip_annotation := ip_annotation_value (ps_PodIP st)]> a)) m.

Definition pinned_pod (st : PodState) (p : Pod) : Pod :=
  pod_with p (pinned_meta st (pod_ObjectMeta p)) (pin_node (ps_NodeName st) (pod_Affinity p)).
Definition pinned_vmi (st : PodState) (v : VirtualMachineInstance) : VirtualMachineInstance :=
  vmi_with v (pinned_meta st (vmi_ObjectMeta v)) (pin_node (ps_NodeName st) (vmi_Affinity v)).

(** What the server holds for [name] in the state object [owner] of namespace [ns]. *)
Definition record_in (s : Store) (ns owner name : string) : PodState :=
  match st_pps s !! (ns, owner) with
  | Some pps => recorded_for pps name
  | None => PodState_zero
  end.

(** The record of a pod to be admitted to [ns]; a pod of no StatefulSet has none. *)
Definition pod_record (s : Store) (ns : string) (p : Pod) : PodState :=
  let owner := getStatefulSetNameFromPod p in
  if decide (owner = "") then PodState_zero
  else record_in s ns owner (om_Name (pod_ObjectMeta p)).
Definition vmi_record (s : Store) (ns : string) (v : VirtualMachineInstance) : PodState :=
  record_in s ns (om_Name (vmi_ObjectMeta v)) (om_Name (vmi_ObjectMeta v)).

(** The namespace an object is admitted to. *)
Definition target_namespace (req : AdmissionRequest) (m : ObjectMeta) : string :=
  if decide (om_Namespace m = "") then rq_Namespace req else om_Namespace m.

(** [q] is [p] up to what the handler may pin. *)
Definition only_meta_pinned (m m' : ObjectMeta) : Prop :=
  (∀ k, k ≠ ip_annotation →
    gomap_lookup (om_Annotations m') k = gomap_lookup (om_Annotations m) k) ∧
  om_Name m' = om_Name m ∧ om_Namespace m' = om_Namespace m ∧ om_UID m' = om_UID m ∧
  om_ResourceVersion m' = om_ResourceVersion m ∧ om_Labels m' = om_Labels m ∧
  om_OwnerReferences m' = om_OwnerReferences m ∧ om_rest m' = om_rest m.

Definition only_affinity_pinned (a a' : option Affinity) : Prop :=
  a' = a ∨
  ∃ aff na, a' = Some aff ∧ aff_NodeAffinity aff = Some na ∧
    aff_PodAffinity aff = a ≫= aff_PodAffinity ∧
    aff_PodAntiAffinity aff = a ≫= aff_PodAntiAffinity ∧
    na_Preferred na = default ("" : opaque) (na_Preferred <$> (a ≫= aff_NodeAffinity)).

(** ** Lemmas *)

Lemma init_annotations_eq m :
  init_annotations m = with_annotations (Some (default ∅ (om_Annotations m))) m.
Proof. unfold init_annotations. by destruct m as [? ? ? ? ? [a|]]. Qed.

Lemma pin_ip_run {W} st m (w : W) :
  pin_ip (ps_PodIP st) (init_annotations m) w = (Ret (pinned_meta st m), w).
Proof.
  rewrite init_annotations_eq. unfold pin_ip, pinned_meta, set_annotation.
  by case_decide.
Qed.

Lemma pinned_meta_zero m : pinned_meta PodState_zero m = init_annotations m.
Proof. by rewrite init_annotations_eq. Qed.

Lemma pinned_pod_zero p : pod_with p (init_annotations (pod_ObjectMeta p)) (pod_Affinity p) =
  pinned_pod PodState_zero p.
Proof. unfold pinned_pod. by rewrite pinned_meta_zero. Qed.

Lemma pinned_vmi_zero v : vmi_with v (init_annotations (vmi_ObjectMeta v)) (vmi_Affinity v) =
  pinned_vmi PodState_zero v.
Proof. unfold pinned_vmi. by rewrite pinned_meta_zero. Qed.

Lemma pinned_meta_fields st m : only_meta_pinned m (pinned_meta st m).
Proof.
  unfold only_meta_pinned, pinned_meta. split_and!; try done. intros k Hk. simpl.
  case_decide; [|rewrite lookup_insert_ne by done]; by destruct (om_Annotations m); simpl; simplify_map_eq.
Qed.

Lemma pinned_meta_ip st m :
  ps_PodIP st ≠ "" →
  gomap_lookup (om_Annotations (pinned_meta st m)) ip_annotation =
    Some (ip_annotation_value (ps_PodIP st)).
Proof. intros Hip. unfold pinned_meta. simpl. rewrite decide_False by done. by simplify_map_eq. Qed.

Lemma pin_node_fields node a : only_affinity_pinned a (pin_node node a).
Proof.
  unfold pin_node, only_affinity_pinned. case_decide; [by left|right].
  eexists _, _. split_and!; [done|done|..]; destruct a as [[[na|] ? ?]|]; done.
Qed.

Lemma pin_node_required node a :
  node ≠ "" →
  (pin_node node a ≫= aff_NodeAffinity) ≫= na_Required = Some (mkNodeSelector [node_term node]).
Proof.
  intros Hn. unfold pin_node. rewrite decide_False by done. simpl.
  by destruct (default _ _) as [l].
Qed.

Lemma pin_node_idem node a : pin_node node (pin_node node a) = pin_node node a.
Proof.
  unfold pin_node. case_decide; [done|]. simpl. by destruct (default _ (na_Required _)).
Qed.

Lemma pinned_meta_idem st m : pinned_meta st (pinned_meta st m) = pinned_meta st m.
Proof.
  unfold pinned_meta, with_annotations. simpl. case_decide; [done|]. by rewrite insert_insert_eq.
Qed.

Lemma pinned_pod_idem st p : pinned_pod st (pinned_pod st p) = pinned_pod st p.
Proof. unfold pinned_pod; simpl. by rewrite pinned_meta_idem, pin_node_idem. Qed.

(** Filling in the namespace and emptying it again commutes with the mutation. *)
Lemma pinned_meta_namespace st ns m :
  om_Namespace m = "" →
  with_namespace "" (pinned_meta st (with_namespace ns m)) = pinned_meta st m.
Proof.
  destruct m as [n ns' u rv l a o r]. unfold with_namespace, pinned_meta, with_annotations.
  simpl. by intros ->.
Qed.

Lemma getStatefulSetNameFromPod_meta p m a :
  om_Name m = om_Name (pod_ObjectMeta p) →
  om_OwnerReferences m = om_OwnerReferences (pod_ObjectMeta p) →
  getStatefulSetNameFromPod (pod_with p m a) = getStatefulSetNameFromPod p.
Proof. intros Hn Ho. unfold getStatefulSetNameFromPod; simpl. by rewrite Hn, Ho. Qed.

(** ** Pod names *)

Lemma slice_from_app_sep a c b : slice_from (a +:+ String c b) (go_len a + 1) = b.
Proof.
  rewrite <-(slice_from_app (a +:+ String c "") b) at 2. rewrite str_app_assoc. f_equal.
  unfold go_len. rewrite str_length_app. simpl. lia.
Qed.

Lemma all_digits_no_dash s : all_chars is_digit s = true → has_char "-" s = false.
Proof.
  induction s as [|c s IH]; simpl; [done|]. intros [Hc Hs]%andb_true_iff.
  rewrite (IH Hs), bool_decide_false; [done|]. by intros <-.
Qed.

(** ** The handlers against an API server *)
Section handlers.
Context {W : Type} `{!Client W, !ClientLaws W}.

(** What a run that used the record [st] guarantees, when [stored] is the one the server
    holds. *)
Definition record_found (stored : PodState) (w : W) (st : PodState) (w' : W) : Prop :=
  contents w' = contents w ∧ (st = PodState_zero ∨ st = stored) ∧
  (reliable w → reliable w' ∧ st = stored).

(** The lookup both handlers make, followed by anything that uses its record. *)
Lemma lookup_record {B} ns owner name (k : ApiError + PersistentPodState → GoM W B)
    (r : PodState → B) w :
  (∀ e w, k (inl e) w = (Ret (r PodState_zero), w)) →
  (∀ pps w, k (inr pps) w = (Ret (r (recorded_for pps name)), w)) →
  ∃ st w', go_bind (GetPersistentPodState (ns, owner)) k w = (Ret (r st), w') ∧
    record_found (record_in (contents w) ns owner name) w st w'.
Proof.
  intros Herr Hok.
  pose proof (get_pps_law (ns, owner) w) as (g & w1 & Hrun & Hc & Hg & Hrel)%wp_runs.
  rewrite (go_bind_runs _ _ _ _ _ Hrun). unfold record_found, record_in. destruct g as [e|pps].
  - rewrite Herr. exists PodState_zero, w1. split_and!; [done|done|by left|].
    intros [Hw1 Heq]%Hrel. split; [done|]. unfold lookup_result in Heq.
    by destruct (st_pps _ !! _).
  - rewrite Hok, Hg. exists (recorded_for pps name), w1. split_and!; [done|done|by right|].
    intros [Hw1 _]%Hrel. done.
Qed.

Lemma handlePodCreate_run p w :
  ∃ st w', handlePodCreate p w = (Ret (pinned_pod st p, None), w') ∧
    record_found (pod_record (contents w) (om_Namespace (pod_ObjectMeta p)) p) w st w'.
Proof.
  destruct (pinned_meta_fields PodState_zero (pod_ObjectMeta p)) as (_ & Hn & Hns & _ & _ & _ & Ho & _).
  rewrite (pinned_meta_zero (pod_ObjectMeta p)) in Hn, Hns, Ho.
  unfold handlePodCreate, pod_record. rewrite getStatefulSetNameFromPod_meta, Hn, Hns by done.
  case_decide as Hs.
  - exists PodState_zero, w. rewrite pinned_pod_zero.
    unfold record_found. naive_solver.
  - apply (lookup_record _ _ _ _ (λ st, (pinned_pod st p, None)) w).
    + intros e w'. by rewrite pinned_pod_zero.
    + intros pps w'. unfold go_bind. by rewrite pin_ip_run.
Qed.

Lemma handleVMICreate_run v w :
  ∃ st w', handleVMICreate v w = (Ret (pinned_vmi st v, None), w') ∧
    record_found (vmi_record (contents w) (om_Namespace (vmi_ObjectMeta v)) v) w st w'.
Proof.
  destruct (pinned_meta_fields PodState_zero (vmi_ObjectMeta v)) as (_ & Hn & Hns & _).
  rewrite (pinned_meta_zero (vmi_ObjectMeta v)) in Hn, Hns.
  unfold handleVMICreate, vmi_record. rewrite Hn, Hns.
  apply (lookup_record _ _ _ _ (λ st, (pinned_vmi st v, None)) w).
  - intros e w'. by rewrite pinned_vmi_zero.
  - intros pps w'. unfold go_bind. by rewrite pin_ip_run.
Qed.

(** *** The response *)
Context {Response : Type}.
Variable Allowed : string → Response.
Variable Errored : Z → string → Response.
Variable PatchResponseFromRaw : string → string → Response.

(** The answer for an object that came as [old] and is now [new]. *)
Definition answer {A} `{EqDecision A} (marshal : A → string + string) (old new : A) : Response :=
  if DeepEqual new old then Allowed ""
  else match marshal new, marshal old with
       | inl e, _ | inr _, inl e => Errored StatusInternalServerError e
       | inr marshaled, inr original => PatchResponseFromRaw original marshaled
       end.

Lemma answer_refl {A} `{EqDecision A} (marshal : A → string + string) (x : A) :
  answer marshal x x = Allowed "".
Proof. unfold answer. by rewrite DeepEqual_refl. Qed.

Variable DecodePod : AdmissionRequest → string + Pod.
Variable DecodeVMI : AdmissionRequest → string + VirtualMachineInstance.
Variable MarshalPod : Pod → string + string.
Variable MarshalVMI : VirtualMachineInstance → string + string.

Lemma handlePod_create req p w :
  DecodePod req = inr p → rq_Operation req = OperationCreate →
  ∃ st w', handlePod Allowed Errored PatchResponseFromRaw DecodePod MarshalPod req w =
      (Ret (answer MarshalPod p (pinned_pod st p)), w') ∧
    record_found (pod_record (contents w) (target_namespace req (pod_ObjectMeta p)) p) w st w'.
Proof.
  intros Hdec Hop. unfold handlePod. rewrite Hdec, decide_True by done.
  set (q := if bool_decide _ then _ else p).
  destruct (handlePodCreate_run q w) as (st & w' & Hrun & Hfound).
  exists st, w'. split.
  - unfold go_bind. rewrite Hrun. subst q. unfold answer. case_bool_decide as Hns.
    + assert (∀ x, pod_with (pinned_pod st (pod_with p (with_namespace x (pod_ObjectMeta p)) (pod_Affinity p)))
        (with_namespace "" (pod_ObjectMeta (pinned_pod st (pod_with p (with_namespace x (pod_ObjectMeta p)) (pod_Affinity p)))))
        (pod_Affinity (pinned_pod st (pod_with p (with_namespace x (pod_ObjectMeta p)) (pod_Affinity p)))) =
        pinned_pod st p) as ->.
      { intros x. unfold pinned_pod; simpl. by rewrite pinned_meta_namespace. }
      by repeat case_match.
    + by repeat case_match.
  - clear Hrun. revert Hfound. unfold target_namespace. subst q.
    case_bool_decide as Hns; [rewrite decide_True by done|by rewrite decide_False by done]. done.
Qed.

Lemma handleVMI_create req v w :
  DecodeVMI req = inr v → rq_Operation req = OperationCreate →
  ∃ st w', handleVMI Allowed Errored PatchResponseFromRaw DecodeVMI MarshalVMI req w =
      (Ret (answer MarshalVMI v (pinned_vmi st v)), w') ∧
    record_found (vmi_record (contents w) (target_namespace req (vmi_ObjectMeta v)) v) w st w'.
Proof.
  intros Hdec Hop. unfold handleVMI. rewrite Hdec, decide_True by done.
  set (q := if bool_decide _ then _ else v).
  destruct (handleVMICreate_run q w) as (st & w' & Hrun & Hfound).
  exists st, w'. split.
  - unfold go_bind. rewrite Hrun. subst q. unfold answer. case_bool_decide as Hns.
    + assert (∀ x, vmi_with (pinned_vmi st (vmi_with v (with_namespace x (vmi_ObjectMeta v)) (vmi_Affinity v)))
        (with_namespace "" (vmi_ObjectMeta (pinned_vmi st (vmi_with v (with_namespace x (vmi_ObjectMeta v)) (vmi_Affinity v)))))
        (vmi_Affinity (pinned_vmi st (vmi_with v (with_namespace x (vmi_ObjectMeta v)) (vmi_Affinity v)))) =
        pinned_vmi st v) as ->.
      { intros x. unfold pinned_vmi; simpl. by rewrite pinned_meta_namespace. }
      by repeat case_match.
    + by repeat case_match.
  - clear Hrun. revert Hfound. unfold target_namespace. subst q.
    case_bool_decide as Hns; [rewrite decide_True by done|by rewrite decide_False by done]. done.
Qed.
End handlers.
