(* ===== verification/Persistence.v ===== *)
(** * The controller and the webhook together

    What the operator is for: what the controller records of a running Pod (or
    VirtualMachineInstance) is what the webhook pins on the object that replaces it. *)
From S2P Require Export ReconcilerTheorems MutatingFacts.

Section persistence.
Context {W : Type} `{!Client W, !ClientLaws W}.
Variable RetryOnConflict : GoM W (option ApiError) → GoM W (option ApiError).
Hypothesis retry_law : RetryLaw RetryOnConflict.

Context {Response : Type}.
Variable Allowed : string → Response.
Variable Errored : Z → string → Response.
Variable PatchResponseFromRaw : string → string → Response.
Variable DecodePod : AdmissionRequest → string + Pod.
Variable DecodeVMI : AdmissionRequest → string + VirtualMachineInstance.
Variable MarshalPod : Pod → string + string.
Variable MarshalVMI : VirtualMachineInstance → string + string.

Abbreviation handle := (Handle Allowed Errored PatchResponseFromRaw DecodePod DecodeVMI
  MarshalPod MarshalVMI (mkPersistenceConfig true true)).
Abbreviation respond := (answer Allowed Errored PatchResponseFromRaw).

(** The annotation and the affinity ask for this address and this node. *)
Definition asks_for (ip node : string) (m : ObjectMeta) (a : option Affinity) : Prop :=
  gomap_lookup (om_Annotations m) ip_annotation = Some (ip_annotation_value ip) ∧
  (a ≫= aff_NodeAffinity) ≫= na_Required = Some (mkNodeSelector [node_term node]).

Lemma record_in_stored s ns owner name st :
  stored_status (ns, owner) s = Some st →
  record_in s ns owner name = default PodState_zero (gomap_lookup (ppst_PodStates st) name).
Proof.
  unfold stored_status, record_in. destruct (st_pps s !! _); simpl; [|done]. by intros [= <-].
Qed.

Lemma pinned_asks st m a :
  ps_PodIP st ≠ "" → ps_NodeName st ≠ "" →
  asks_for (ps_PodIP st) (ps_NodeName st) (pinned_meta st m) (pin_node (ps_NodeName st) a).
Proof. intros Hip Hn. split; [by apply pinned_meta_ip|by apply pin_node_required]. Qed.

(** C4: a StatefulSet's pod keeps its address and node: once the controller has settled
    (two reconciles from no recorded state, reliable server), whatever happens to the pods
    meanwhile, the Pod later created in place of an eligible pod is answered with a patch
    that asks Calico for the address and the scheduler for the node the first one had, and
    the address is reserved all the while. *)
Theorem recreated_pod_keeps_address s sel m w p req p' :
  sts_Selector s = Some sel → keyed (contents w) → reliable w →
  describes (sts_namespace s) (ls_MatchLabels sel) (contents w) m → m ≠ ∅ →
  stored_status (sts_key s) (contents w) = None → sts_name s ≠ "" →
  selected (sts_namespace s) (ls_MatchLabels sel) (contents w) p → eligible p →
  rq_SubResource req = "" → rq_Resource req = "pods" → rq_Operation req = OperationCreate →
  DecodePod req = inr p' → om_Name (pod_ObjectMeta p') = pod_name p →
  getStatefulSetNameFromPod p' = sts_name s →
  target_namespace req (pod_ObjectMeta p') = sts_namespace s →
  wp (StatefulSetAutoGeneratePersistentPodState RetryOnConflict s) (λ _ w1,
    wp (StatefulSetAutoGeneratePersistentPodState RetryOnConflict s) (λ _ w2,
      reserved (pod_reservation_name (sts_namespace s) (pod_name p)) (pod_PodIP p) (contents w2) ∧
      ∀ w3, reliable w3 → st_pps (contents w3) = st_pps (contents w2) →
        wp (handle req) (λ resp _, ∃ q, resp = respond MarshalPod p' q ∧
          asks_for (pod_PodIP p) (pod_NodeName p) (pod_ObjectMeta q) (pod_Affinity q)) w3) w1) w.
Proof.
  intros Hsel Hk Hw Hm Hne Hst Hname Hp Hel Hsub Hres Hop Hdec Hn Howner Hns.
  assert (m !! pod_name p = Some (pod_entry p)) as Hmp by (apply Hm; eauto).
  eapply wp_mono; [by eapply sts_settles|]. intros e1 w1 (_ & _ & Hrun).
  eapply wp_mono; [exact Hrun|]. intros e2 w2 (_ & _ & _ & _ & Hst2 & Hreserved).
  split; [by apply (Hreserved _ _ Hmp)|]. intros w3 Hw3 Hpps.
  destruct (handlePod_create Allowed Errored PatchResponseFromRaw DecodePod MarshalPod req p' w3 Hdec Hop)
    as (st & w' & Hrun' & _ & _ & Hrel).
  unfold wp, Handle, shouldIgnoreIfNotVMIOrPod. rewrite Hsub, Hres. simpl. rewrite Hrun'.
  exists (pinned_pod st p'). split; [done|]. destruct (Hrel Hw3) as [_ ->].
  unfold pod_record. rewrite Howner, decide_False, Hns, Hn by done.
  rewrite (record_in_stored _ _ _ _ (new_status m)).
  - change (gomap_lookup _ _) with (m !! pod_name p). rewrite Hmp.
    by apply (pinned_asks (pod_entry p)); apply Hel.
  - unfold stored_status in *. by rewrite Hpps.
Qed.

(** C5: the same for a VirtualMachineInstance with an owner and an address that is running
    on a node: the instance created in its place is asked to keep both. *)
Theorem recreated_vmi_keeps_address v iface ifaces owner owners w req v' :
  vmi_Interfaces v = iface :: ifaces → vif_IP iface ≠ "" → vmi_NodeName v ≠ "" →
  om_OwnerReferences (vmi_ObjectMeta v) = owner :: owners → keyed (contents w) → reliable w →
  stored_status (vmi_key v) (contents w) = None →
  rq_SubResource req = "" → rq_Resource req = "virtualmachineinstances" →
  rq_Operation req = OperationCreate → DecodeVMI req = inr v' →
  om_Name (vmi_ObjectMeta v') = vmi_name v →
  target_namespace req (vmi_ObjectMeta v') = vmi_namespace v →
  wp (VmiAutoGeneratePersistentPodState RetryOnConflict v) (λ _ w1,
    wp (VmiAutoGeneratePersistentPodState RetryOnConflict v) (λ _ w2,
      reserved (vmi_reservation_name (vmi_namespace v) (vmi_name v)) (vif_IP iface) (contents w2) ∧
      ∀ w3, reliable w3 → st_pps (contents w3) = st_pps (contents w2) →
        wp (handle req) (λ resp _, ∃ q, resp = respond MarshalVMI v' q ∧
          asks_for (vif_IP iface) (vmi_NodeName v) (vmi_ObjectMeta q) (vmi_Affinity q)) w3) w1) w.
Proof.
  intros Hif Hip Hnode Hown Hk Hw Hst Hsub Hres Hop Hdec Hn Hns.
  eapply wp_mono; [by eapply vmi_wp|]. intros e1 w1 (Ht1 & Hnone1 & _ & Hrel1).
  destruct (Hrel1 Hw) as [Hw1 ->]. destruct (Hnone1 eq_refl) as [_ Hst1].
  eapply wp_mono; [eapply vmi_wp; [done..|by eapply touches_keyed]|].
  intros e2 w2 (_ & Hnone2 & _ & Hrel2). destruct (Hrel2 Hw1) as [_ ->].
  destruct (Hnone2 eq_refl) as [Hreserved Hst2]. split; [done|]. intros w3 Hw3 Hpps.
  destruct (handleVMI_create Allowed Errored PatchResponseFromRaw DecodeVMI MarshalVMI req v' w3 Hdec Hop)
    as (st & w' & Hrun' & _ & _ & Hrel).
  unfold wp, Handle, shouldIgnoreIfNotVMIOrPod. rewrite Hsub, Hres. simpl. rewrite Hrun'.
  exists (pinned_vmi st v'). split; [done|]. destruct (Hrel Hw3) as [_ ->].
  unfold vmi_record. rewrite Hns, Hn.
  rewrite (record_in_stored _ _ _ _ (vmi_status v (vif_IP iface))).
  - change (gomap_lookup _ _) with
      (({[ vmi_name v := recorded_state (vmi_NodeName v) (vif_IP iface) ]} : gmap string PodState)
         !! vmi_name v).
    rewrite lookup_singleton_eq. by apply (pinned_asks (recorded_state (vmi_NodeName v) (vif_IP iface))).
  - unfold stored_status at 1. rewrite Hpps. change (stored_status (vmi_key v) (contents w2) =
      Some (vmi_status v (vif_IP iface))). by rewrite Hst2, Hst1, Hst.
Qed.
End persistence.

(** ** Witnesses: the cluster of [ReconcilerTheorems] and codecs that carry one object *)
Definition demo_request (resource : string) : AdmissionRequest :=
  mkAdmissionRequest "" resource OperationCreate "" "prod" "".
Definition demo_new_pod : Pod :=
  mkPod (mkObjectMeta "web-0" "" "" "" (Some {[ "app" := "web" ]}) None
           [mkOwnerReference "apps/v1" "StatefulSet" "web" (Some true) "uid-1"] "") None "" "" "".
Definition demo_new_vmi : VirtualMachineInstance :=
  mkVMI (mkObjectMeta "vm" "prod" "" "" None None [] "") None [] "" "".
Definition demo_decode_pod (_ : AdmissionRequest) : string + Pod := inr demo_new_pod.
Definition demo_decode_vmi (_ : AdmissionRequest) : string + VirtualMachineInstance := inr demo_new_vmi.
Definition demo_marshal_pod (_ : Pod) : string + string := inr "pod".
Definition demo_marshal_vmi (_ : VirtualMachineInstance) : string + string := inr "vmi".
Inductive demo_response := DAllowed (m : string) | DErrored (c : Z) (e : string) | DPatch (a b : string).
Definition demo_web_0 : Pod := demo_pod "web-0" "node-1" "10.0.0.1".

Lemma demo_web_0_selected :
  selected (sts_namespace demo_sts) (ls_MatchLabels demo_selector) (contents demo_world) demo_web_0.
Proof. split_and!; [done| |done]. unfold labels_match; simpl. by apply map_Forall_singleton. Qed.

Lemma recreated_pod_keeps_address_witness :
  wp (StatefulSetAutoGeneratePersistentPodState demo_retry demo_sts) (λ _ w1,
    wp (StatefulSetAutoGeneratePersistentPodState demo_retry demo_sts) (λ _ w2,
      reserved (pod_reservation_name (sts_namespace demo_sts) (pod_name demo_web_0))
        (pod_PodIP demo_web_0) (contents w2) ∧
      ∀ w3, reliable w3 → st_pps (contents w3) = st_pps (contents w2) →
        wp (Handle DAllowed DErrored DPatch demo_decode_pod demo_decode_vmi demo_marshal_pod
              demo_marshal_vmi (mkPersistenceConfig true true) (demo_request "pods"))
          (λ resp _, ∃ q, resp = answer DAllowed DErrored DPatch demo_marshal_pod demo_new_pod q ∧
            asks_for (pod_PodIP demo_web_0) (pod_NodeName demo_web_0) (pod_ObjectMeta q)
              (pod_Affinity q)) w3) w1) demo_world.
Proof.
  apply (recreated_pod_keeps_address demo_retry (retry_steps_law 3) DAllowed DErrored DPatch
    demo_decode_pod demo_decode_vmi demo_marshal_pod demo_marshal_vmi demo_sts demo_selector
    demo_states demo_world demo_web_0 (demo_request "pods") demo_new_pod);
    [done|apply demo_keyed|done|apply demo_describes|done|done|done|apply demo_web_0_selected|
     done|done|done|done|done|done|done|done].
Defined.

Lemma recreated_vmi_keeps_address_witness :
  wp (VmiAutoGeneratePersistentPodState demo_retry (demo_vmi [demo_owner])) (λ _ w1,
    wp (VmiAutoGeneratePersistentPodState demo_retry (demo_vmi [demo_owner])) (λ _ w2,
      reserved (vmi_reservation_name (vmi_namespace (demo_vmi [demo_owner])) (vmi_name (demo_vmi [demo_owner])))
        (vif_IP demo_iface) (contents w2) ∧
      ∀ w3, reliable w3 → st_pps (contents w3) = st_pps (contents w2) →
        wp (Handle DAllowed DErrored DPatch demo_decode_pod demo_decode_vmi demo_marshal_pod
              demo_marshal_vmi (mkPersistenceConfig true true) (demo_request "virtualmachineinstances"))
          (λ resp _, ∃ q, resp = answer DAllowed DErrored DPatch demo_marshal_vmi demo_new_vmi q ∧
            asks_for (vif_IP demo_iface) (vmi_NodeName (demo_vmi [demo_owner])) (vmi_ObjectMeta q)
              (vmi_Affinity q)) w3) w1) demo_world.
Proof.
  apply (recreated_vmi_keeps_address demo_retry (retry_steps_law 3) DAllowed DErrored DPatch
    demo_decode_pod demo_decode_vmi demo_marshal_pod demo_marshal_vmi (demo_vmi [demo_owner])
    demo_iface [] demo_owner [] demo_world (demo_request "virtualmachineinstances") demo_new_vmi);
    [done|done|done|done|apply demo_keyed|done|done|done|done|done|done|done|done].
Defined.
