(* ===== verification/Cluster.v ===== *)
(** * The operator in its cluster

    A labelled step relation in which the reconciler, the admission webhook and the rest of
    the cluster act on one API server: Kubernetes creates Pods through the webhook, schedules
    them and deletes them, Calico gives them addresses, users change their StatefulSets.  The
    scheduler and Calico are not in the repository: a [Platform] says which choices they may
    make, [PlatformLaws] what their documentation promises of these choices.  The flags
    of the operator are any that make it look after StatefulSets; if they make it look after
    instances too (the default), the cluster has none: an instance with the name of a
    StatefulSet would overwrite its record ([instance_overwrites_statefulset]). *)
From S2P Require Export Persistence.

(** The addresses and nodes a Pod asks for by the two things the webhook pins. *)
Definition asks_ip (p : Pod) (ip : string) : Prop :=
  gomap_lookup (om_Annotations (pod_ObjectMeta p)) ip_annotation = Some (ip_annotation_value ip).
Definition asks_node (p : Pod) (node : string) : Prop :=
  (pod_Affinity p ≫= aff_NodeAffinity) ≫= na_Required = Some (mkNodeSelector [node_term node]).

(** [e] is recorded for the Pod [n] in the state [o] of the namespace [ns]. *)
Definition entry (s : Store) (ns o n : string) (e : PodState) : Prop :=
  ∃ st, stored_status (ns, o) s = Some st ∧ gomap_lookup (ppst_PodStates st) n = Some e.

Definition set_pod (m : gmap NamespacedName Pod) (s : Store) : Store :=
  mkStore (st_vmi s) (st_sts s) m (st_ipr s) (st_pps s).
Definition with_NodeName (p : Pod) (node : string) : Pod :=
  mkPod (pod_ObjectMeta p) (pod_Affinity p) node (pod_PodIP p) (pod_rest p).
Definition with_PodIP (p : Pod) (ip : string) : Pod :=
  mkPod (pod_ObjectMeta p) (pod_Affinity p) (pod_NodeName p) ip (pod_rest p).

(** The flags of the operator; and what may happen: which Pods there are, to which StatefulSet a Pod of a name belongs (the
    empty string for none), and what the scheduler and Calico choose. *)
Class Platform := {
  flags : PersistenceConfig;
  may_exist : NamespacedName → Prop;
  owner_of : NamespacedName → string;
  schedules : Store → Pod → string → Prop;
  addresses : Store → Pod → string → Prop }.

(** The scheduler keeps to a required node (a node's hostname label is its name).  Calico
    gives an address that no Pod has: the one the annotation asks for, and without one, one
    that no IPReservation holds.  Names of Pods are such that those of their reservations
    differ.  StatefulSets are looked after. *)
Class PlatformLaws `{!Platform} := {
  flag_law : EnableStatefulSetPersistence flags = true;
  schedules_law s p node : schedules s p node →
    node ≠ "" ∧ ∀ n, asks_node p n → node = n;
  addresses_law s p ip : addresses s p ip →
    ip ≠ "" ∧ (∀ k q, st_pod s !! k = Some q → pod_PodIP q ≠ ip) ∧
    (∀ ip', asks_ip p ip' → ip = ip') ∧
    (gomap_lookup (om_Annotations (pod_ObjectMeta p)) ip_annotation = None → ∀ n, ¬ reserved n ip s);
  names_apart k k' : may_exist k → may_exist k' →
    pod_reservation_name k.1 k.2 = pod_reservation_name k'.1 k'.2 → k = k' }.

(** A StatefulSet has a name and selects Pods of its own only; and there is no instance, if
    instances are looked after (their records would be among those of StatefulSets:
    [instance_overwrites_statefulset]). *)
Definition owned `{!Platform} (s : Store) : Prop :=
  (∀ k st, st_sts s !! k = Some st → sts_name st ≠ "" ∧
    ∀ sel p, sts_Selector st = Some sel → selected (sts_namespace st) (ls_MatchLabels sel) s p →
      owner_of (meta_key (pod_ObjectMeta p)) = sts_name st) ∧
  (EnableVMIPersistence flags = true → st_vmi s = ∅).

(** The command line --enable-statefulset-persistence without that of instances. *)
Definition statefulsets_only : PersistenceConfig := mkPersistenceConfig false true.

(** The encodings of the admission library: a patch made of two encodings takes the object
    of the first to the object of the second. *)
Class AdmissionLaws {Response : Type} (Allowed : string → Response) (Errored : Z → string → Response)
    (PatchResponseFromRaw : string → string → Response) (MarshalPod : Pod → string + string) := {
  marshal_inj x y b : MarshalPod x = inr b → MarshalPod y = inr b → x = y;
  patch_inj a b a' b' : PatchResponseFromRaw a b = PatchResponseFromRaw a' b' → a = a' → b = b';
  allowed_no_patch m a b : Allowed m ≠ PatchResponseFromRaw a b;
  errored_no_patch c e a b : Errored c e ≠ PatchResponseFromRaw a b;
  errored_not_allowed c e m : Errored c e ≠ Allowed m }.

Section cluster.
Context {W : Type} `{!Client W, !ClientLaws W, !Platform}.
Variable RetryOnConflict : GoM W (option ApiError) → GoM W (option ApiError).
Context {Response : Type}.
Variable Allowed : string → Response.
Variable Errored : Z → string → Response.
Variable PatchResponseFromRaw : string → string → Response.
Variable DecodePod : AdmissionRequest → string + Pod.
Variable DecodeVMI : AdmissionRequest → string + VirtualMachineInstance.
Variable MarshalPod : Pod → string + string.
Variable MarshalVMI : VirtualMachineInstance → string + string.

Abbreviation handle := (Handle Allowed Errored PatchResponseFromRaw DecodePod DecodeVMI
  MarshalPod MarshalVMI flags).

(** The API server applies the response [resp] to the submitted [p], which gives [q]; a
    response that is an error gives nothing. *)
Definition admitted (resp : Response) (p q : Pod) : Prop :=
  (resp = Allowed "" ∧ q = p) ∨
  ∃ a b, resp = PatchResponseFromRaw a b ∧ MarshalPod p = inr a ∧ MarshalPod q = inr b.

(** It stores the Pod in the namespace of the request. *)
Definition in_namespace (ns : string) (p : Pod) : Pod :=
  pod_with p (with_namespace ns (pod_ObjectMeta p)) (pod_Affinity p).

Inductive ClusterLabel :=
| Reconciled (req : NamespacedName) | PodCreated (k : NamespacedName) | PodScheduled (k : NamespacedName)
| PodAddressed (k : NamespacedName) | PodDeleted (k : NamespacedName) | UsersActed.

Inductive cluster_step : W → ClusterLabel → W → Prop :=
(** A reconcile, whatever the request and whatever fails, even if it panics. *)
| step_reconciled req w :
    cluster_step w (Reconciled req) (Reconcile RetryOnConflict flags req w).2
(** A Pod that does not ask for an address itself is created through the webhook. *)
| step_created w req p resp w1 q w2 :
    let ns := target_namespace req (pod_ObjectMeta p) in
    let k := (ns, om_Name (pod_ObjectMeta p)) in
    reliable w → rq_SubResource req = "" → rq_Resource req = "pods" → rq_Operation req = OperationCreate →
    DecodePod req = inr p → gomap_lookup (om_Annotations (pod_ObjectMeta p)) ip_annotation = None →
    pod_PodIP p = "" → pod_NodeName p = "" →
    may_exist k → getStatefulSetNameFromPod p = owner_of k →
    runs (handle req) w resp w1 → admitted resp p q → st_pod (contents w1) !! k = None →
    contents w2 = set_pod (<[k := in_namespace ns q]> (st_pod (contents w1))) (contents w1) →
    owned (contents w2) →
    cluster_step w (PodCreated k) w2
| step_scheduled w k p node w' :
    st_pod (contents w) !! k = Some p → pod_NodeName p = "" → schedules (contents w) p node →
    contents w' = set_pod (<[k := with_NodeName p node]> (st_pod (contents w))) (contents w) →
    cluster_step w (PodScheduled k) w'
| step_addressed w k p ip w' :
    st_pod (contents w) !! k = Some p → pod_PodIP p = "" → addresses (contents w) p ip →
    contents w' = set_pod (<[k := with_PodIP p ip]> (st_pod (contents w))) (contents w) →
    cluster_step w (PodAddressed k) w'
| step_deleted w k w' :
    contents w' = set_pod (delete k (st_pod (contents w))) (contents w) →
    cluster_step w (PodDeleted k) w'
(** Users change their StatefulSets and instances; the server may become (un)reliable. *)
| step_users w w' :
    st_pod (contents w') = st_pod (contents w) → st_ipr (contents w') = st_ipr (contents w) →
    st_pps (contents w') = st_pps (contents w) → keyed (contents w') → owned (contents w') →
    cluster_step w UsersActed w'.

(** The worlds of a run. *)
Definition cluster_run : W → W → Prop := rtc (λ w w', ∃ l, cluster_step w l w').

(** A cluster into which the operator is installed: no states are recorded; the Pods there
    are have addresses of their own, if any, and do not ask for one. *)
Definition installed (s : Store) : Prop :=
  keyed s ∧ owned s ∧ st_pps s = ∅ ∧
  (∀ k p, st_pod s !! k = Some p → meta_key (pod_ObjectMeta p) = k ∧ may_exist k ∧
    gomap_lookup (om_Annotations (pod_ObjectMeta p)) ip_annotation = None) ∧
  (∀ k p k' p', st_pod s !! k = Some p → st_pod s !! k' = Some p' →
    pod_PodIP p = pod_PodIP p' → pod_PodIP p ≠ "" → k = k').
End cluster.
