(* ===== verification/ClusterFacts.v ===== *)
(** * What the steps of the cluster do to records, reservations and Pods

    The facts behind the theorems of [ClusterTheorems]: which reservations a reconcile
    changes, what a run of the reconciler is where it looks after StatefulSets, and what
    Pod the webhook makes of one that is submitted. *)
From S2P Require Export NextStatus Cluster.

(** ** What a run of the reconciler is *)
Section reconciles.
Context {W : Type} `{!Client W, !ClientLaws W} {P : Platform}.
Variable RetryOnConflict : GoM W (option ApiError) → GoM W (option ApiError).
Hypothesis retry_law : RetryLaw RetryOnConflict.

(** A reconcile where there are StatefulSets to look after: nothing changes, or it is the reconcile
    of a StatefulSet that the server holds. *)
Lemma Reconcile_statefulsets req w :
  keyed (contents w) → owned (contents w) →
  let w' := (Reconcile RetryOnConflict flags req w).2 in
  contents w' = contents w ∨
  ∃ s sel w1, st_sts (contents w) !! sts_key s = Some s ∧ sts_Selector s = Some sel ∧ contents w1 = contents w ∧
    w' = (StatefulSetAutoGeneratePersistentPodState RetryOnConflict s w1).2.
Proof.
  intros Hk [_ Hno]. destruct (Reconcile_leaves RetryOnConflict flags req w) as [w' Hc|k v w1 Hv _|k s w1 Hs Hc].
  - by left.
  - unfold target_vmi in Hv. destruct (EnableVMIPersistence flags); [|done].
    by rewrite (Hno eq_refl), lookup_empty in Hv.
  - unfold target_sts in Hs. destruct (EnableStatefulSetPersistence flags); [|done].
    pose proof (keyed_sts _ _ _ Hk Hs) as Hkey. destruct (sts_Selector s) as [sel|] eqn:Hsel; [right|left].
    + exists s, sel, w1. split; [|done]. change (sts_key s) with (meta_key (sts_ObjectMeta s)). by rewrite Hkey.
    + unfold StatefulSetAutoGeneratePersistentPodState. by rewrite Hsel.
Qed.
End reconciles.

(** ** The Pod the webhook makes *)

Lemma ip_annotation_value_inj ip ip' : ip_annotation_value ip = ip_annotation_value ip' → ip = ip'.
Proof.
  unfold ip_annotation_value. intros H%str_app_inj_l. injection H as H. by apply str_app_inj_r in H.
Qed.

Lemma asks_ip_unique p ip ip' : asks_ip p ip → asks_ip p ip' → ip = ip'.
Proof. unfold asks_ip. intros H1 H2. apply ip_annotation_value_inj. congruence. Qed.

Section admission.
Context {W : Type} `{!Client W, !ClientLaws W} {P : Platform} {PL : PlatformLaws}.
Context {Response : Type}.
Context (Allowed : string → Response) (Errored : Z → string → Response).
Context (PatchResponseFromRaw : string → string → Response).
Context (DecodePod : AdmissionRequest → string + Pod) (DecodeVMI : AdmissionRequest → string + VirtualMachineInstance).
Context (MarshalPod : Pod → string + string) (MarshalVMI : VirtualMachineInstance → string + string).
Context `{!AdmissionLaws Allowed Errored PatchResponseFromRaw MarshalPod}.

Lemma admitted_answer p q st :
  admitted Allowed PatchResponseFromRaw MarshalPod
    (answer Allowed Errored PatchResponseFromRaw MarshalPod p (pinned_pod st p)) p q → q = pinned_pod st p.
Proof.
  unfold answer. destruct (DeepEqual _ _) eqn:Heq.
  - apply DeepEqual_eq in Heq. intros [[_ ->]|(a & b & H & _)]; [done|]. by apply allowed_no_patch in H.
  - destruct (MarshalPod (pinned_pod st p)) as [e|b'] eqn:Hq, (MarshalPod p) as [e'|a'] eqn:Hp;
      (intros [[H _]|(a & b & H & Ha & Hb)]; [|try by apply errored_no_patch in H]);
      try by apply errored_not_allowed in H.
    + symmetry in H. by apply allowed_no_patch in H.
    + rewrite Hp in Ha. injection Ha as <-. apply patch_inj in H; [|done]. subst b'. by eapply marshal_inj.
Qed.

(** Against a reliable server: the Pod pinned to its record. *)
Lemma created_pod req p w resp w1 q :
  reliable w → rq_SubResource req = "" → rq_Resource req = "pods" → rq_Operation req = OperationCreate →
  DecodePod req = inr p →
  runs (Handle Allowed Errored PatchResponseFromRaw DecodePod DecodeVMI MarshalPod MarshalVMI flags req)
    w resp w1 →
  admitted Allowed PatchResponseFromRaw MarshalPod resp p q →
  contents w1 = contents w ∧
  q = pinned_pod (pod_record (contents w) (target_namespace req (pod_ObjectMeta p)) p) p.
Proof.
  intros Hrel Hsub Hres Hop Hdec Hrun Hadm.
  destruct (handlePod_create Allowed Errored PatchResponseFromRaw DecodePod MarshalPod req p w Hdec Hop)
    as (st & w' & Hrun' & Hc & _ & Hst).
  unfold runs, Handle, shouldIgnoreIfNotVMIOrPod in Hrun. rewrite Hsub, Hres in Hrun. simpl in Hrun.
  rewrite flag_law in Hrun. simpl in Hrun.
  rewrite Hrun' in Hrun. injection Hrun as <- <-. split; [done|]. destruct (Hst Hrel) as [_ <-].
  by apply admitted_answer.
Qed.
End admission.

Lemma record_in_entry s ns o n : record_in s ns o n = PodState_zero ∨ entry s ns o n (record_in s ns o n).
Proof.
  unfold record_in, entry, stored_status. destruct (st_pps s !! (ns, o)) as [pps|]; [|by left].
  unfold recorded_for. destruct (gomap_lookup (ppst_PodStates (pps_Status pps)) n) as [e|] eqn:He; [right|by left].
  by exists (pps_Status pps).
Qed.

Lemma entry_unique s ns o n e e' : entry s ns o n e → entry s ns o n e' → e = e'.
Proof. intros (st & Hst & He) (st' & Hst' & He'). congruence. Qed.

Lemma entry_record_in s ns o n e : entry s ns o n e → record_in s ns o n = e.
Proof.
  intros (st & Hst & He). rewrite (record_in_stored _ _ _ _ st) by done. by rewrite He.
Qed.
