(* ===== verification/ClusterTheorems.v ===== *)
(** * The closed loop

    In every run of the operator in its cluster: what is recorded is reserved, is what the
    Pod of that name has or will get, and is nobody else's; and it does not change while it
    is recorded.  And where the loop is open: a recorded Pod can be forgotten. *)
From S2P Require Export ClusterFacts.

(** [p] has the address, or waits for it; is on the node, or will be. *)
Definition promised (p : Pod) (ip : string) : Prop :=
  pod_PodIP p = ip ∨ (pod_PodIP p = "" ∧ asks_ip p ip).
Definition placed (p : Pod) (node : string) : Prop :=
  pod_NodeName p = node ∨ (pod_NodeName p = "" ∧ asks_node p node).

(** The address is recorded for the Pod [k], or promised to it. *)
Definition claims (s : Store) (k : NamespacedName) (ip : string) : Prop :=
  (∃ o e, entry s k.1 o k.2 e ∧ ps_PodIP e = ip) ∨
  (∃ p, st_pod s !! k = Some p ∧ ip ≠ "" ∧ promised p ip).

Record loop_inv `{!Platform} (s : Store) : Prop := {
  inv_keyed : keyed s;
  inv_owned : owned s;
  inv_pods k p : st_pod s !! k = Some p → meta_key (pod_ObjectMeta p) = k ∧ may_exist k;
  inv_entries ns o n e : entry s ns o n e →
    ps_PodIP e ≠ "" ∧ ps_NodeName e ≠ "" ∧ may_exist (ns, n) ∧ owner_of (ns, n) = o ∧ o ≠ "" ∧
    e = recorded_state (ps_NodeName e) (ps_PodIP e);
  inv_reserved ns o n e : entry s ns o n e → reserved (pod_reservation_name ns n) (ps_PodIP e) s;
  inv_kept ns o n e p : entry s ns o n e → st_pod s !! (ns, n) = Some p →
    promised p (ps_PodIP e) ∧ placed p (ps_NodeName e);
  inv_pending k p : st_pod s !! k = Some p → pod_PodIP p = "" →
    gomap_lookup (om_Annotations (pod_ObjectMeta p)) ip_annotation = None ∨
    ∃ ip, asks_ip p ip ∧ reserved (pod_reservation_name k.1 k.2) ip s;
  inv_claims ip k k' : claims s k ip → claims s k' ip → k = k' }.

Section invariant.
Context {P : Platform} {PL : PlatformLaws}.

Lemma entry_same s s' ns o n e : st_pps s' = st_pps s → entry s' ns o n e ↔ entry s ns o n e.
Proof. unfold entry, stored_status. by intros ->. Qed.

Lemma installed_inv s : installed s → loop_inv s.
Proof.
  intros (Hk & Ho & Hpps & Hpods & Hip).
  assert (∀ ns o n e, ¬ entry s ns o n e) as Hno.
  { intros ns o n e (st & Hst & _). unfold stored_status in Hst. rewrite Hpps in Hst.
    by rewrite lookup_empty in Hst. }
  assert (∀ k ip, claims s k ip → ∃ p, st_pod s !! k = Some p ∧ pod_PodIP p = ip ∧ ip ≠ "") as Hcl.
  { intros k ip [(o & e & He & _)|(p & Hp & Hne & [Hx|[_ Hx]])]; [by destruct (Hno _ _ _ _ He)|by exists p|].
    unfold asks_ip in Hx. destruct (Hpods k p Hp) as (_ & _ & Ha). congruence. }
  split; try done; try (by intros ns o n e; intros; destruct (Hno ns o n e)).
  - intros k p Hp. by destruct (Hpods k p Hp) as (? & ? & _).
  - intros k p Hp _. left. by apply (Hpods k p).
  - intros ip k k' (p & Hp & <- & Hne)%Hcl (p' & Hp' & Heq & _)%Hcl. by eapply (Hip k p k' p').
Qed.

(** Steps that change Pods at most: those of [k]. *)
Lemma owned_pods s s' :
  st_sts s' = st_sts s → st_vmi s' = st_vmi s →
  (∀ ns sel p', selected ns sel s' p' → ∃ p, selected ns sel s p ∧
    meta_key (pod_ObjectMeta p) = meta_key (pod_ObjectMeta p')) →
  owned s → owned s'.
Proof.
  intros Hs Hv Hsel [Ho Hno]. split; [|by rewrite Hv]. intros k st Hst. rewrite Hs in Hst.
  destruct (Ho k st Hst) as [Hn Hown]. split; [done|]. intros sel p' Hs' (p & Hp & <-)%Hsel. by eapply Hown.
Qed.

(** The Pod [k] becomes [p'], which is [p] but for its node or its address. *)
Lemma pod_changed s k p p' :
  let s' := set_pod (<[k := p']> (st_pod s)) s in
  loop_inv s → st_pod s !! k = Some p → pod_ObjectMeta p' = pod_ObjectMeta p →
  (∀ e o, entry s k.1 o k.2 e → promised p' (ps_PodIP e) ∧ placed p' (ps_NodeName e)) →
  (pod_PodIP p' = "" → pod_PodIP p = "") →
  (∀ ip k', claims s' k ip → claims s k' ip → k' = k) →
  loop_inv s'.
Proof.
  intros s' [] Hp Hm Hkept Hpend Hcl.
  assert (∀ q k', st_pod s' !! k' = Some q → (k' = k ∧ q = p') ∨ (k' ≠ k ∧ st_pod s !! k' = Some q)) as Hst.
  { intros q k'. cbn. rewrite lookup_insert_Some. naive_solver. }
  assert (∀ k' ip, claims s' k' ip → k' = k ∨ claims s k' ip) as Hcl'.
  { intros k' ip [H|(q & Hq & H)]; [right; by left|].
    destruct (Hst _ _ Hq) as [[-> _]|[_ Hq']]; [by left|right; right; by exists q]. }
  split; try done.
  - apply (owned_pods s); [done|done| |done]. intros ns sel q (Hns & Hsel & Hq).
    destruct (Hst _ _ Hq) as [[Hk ->]|[_ Hq']]; [|by exists q]. exists p. unfold selected.
    rewrite Hm in *. split; [|done]. split; [done|]. split; [done|]. by rewrite Hk.
  - intros k' q Hq. destruct (Hst _ _ Hq) as [[-> ->]|[_ ?]]; [rewrite Hm|]; by apply inv_pods0.
  - intros ns o n e q He Hq. destruct (Hst _ _ Hq) as [[<- ->]|[_ ?]]; [by eapply Hkept|by eapply inv_kept0].
  - intros k' q Hq Hq0. destruct (Hst _ _ Hq) as [[-> ->]|[_ ?]]; [|by apply inv_pending0].
    unfold asks_ip. rewrite Hm. apply (inv_pending0 k p Hp). auto.
  - intros ip k1 k2 H1 H2. destruct (Hcl' _ _ H1) as [->|H1'], (Hcl' _ _ H2) as [->|H2']; [done|..|by eapply inv_claims0].
    + symmetry. by eapply Hcl.
    + by eapply Hcl.
Qed.

Lemma scheduled_inv s k p node :
  loop_inv s → st_pod s !! k = Some p → pod_NodeName p = "" → schedules s p node →
  loop_inv (set_pod (<[k := with_NodeName p node]> (st_pod s)) s).
Proof.
  intros Hinv Hp Hn (Hne & Hnode)%schedules_law. destruct k as [ns n].
  eapply pod_changed; [done|done|done|..]; cbn.
  - intros e o He. destruct (inv_kept _ Hinv _ _ _ _ _ He Hp) as [Hip [Hpl|[_ Ha]]].
    + destruct (inv_entries _ Hinv _ _ _ _ He) as (_ & ? & _). congruence.
    + split; [exact Hip|]. left. by apply Hnode.
  - done.
  - intros ip k' H1 H2. eapply (inv_claims _ Hinv ip); [done|].
    destruct H1 as [H1|(q & Hq & Hip & H1)]; [by left|]. right. cbn in Hq. rewrite lookup_insert_eq in Hq.
    injection Hq as <-. by exists p.
Qed.

Lemma addressed_inv s k p ip :
  loop_inv s → st_pod s !! k = Some p → pod_PodIP p = "" → addresses s p ip →
  loop_inv (set_pod (<[k := with_PodIP p ip]> (st_pod s)) s).
Proof.
  intros Hinv Hp Hip (Hne & Hunused & Hasked & Hfree)%addresses_law. destruct k as [ns n].
  eapply pod_changed; [done|done|done|..]; cbn.
  - intros e o He. destruct (inv_kept _ Hinv _ _ _ _ _ He Hp) as [[Hh|[_ Ha]] Hpl].
    + destruct (inv_entries _ Hinv _ _ _ _ He) as (? & _). congruence.
    + split; [|exact Hpl]. left. by apply Hasked.
  - done.
  - intros ip' k' H1 H2. assert (claims s (ns, n) ip' ∨ ip' = ip) as [H1'| ->].
    { destruct H1 as [H1|(q & Hq & Hip' & [H1|[H1 _]])]; [by left; left|..];
        cbn in Hq; rewrite lookup_insert_eq in Hq; injection Hq as <-; cbn in H1; [by right|done]. }
    { by eapply (inv_claims _ Hinv ip'). }
    destruct (inv_pending _ Hinv _ _ Hp Hip) as [Hnone|(ip' & Ha & _)].
    + exfalso. specialize (Hfree Hnone). destruct H2 as [(o & e & He & <-)|(q & Hq & _ & [Hq'|[Hq' Ha]])].
      * by eapply Hfree, (inv_reserved _ Hinv).
      * by eapply Hunused.
      * destruct (inv_pending _ Hinv _ _ Hq Hq') as [Hno|(ip2 & Ha2 & Hr)]; [unfold asks_ip in Ha; congruence|].
        pose proof (asks_ip_unique _ _ _ Ha Ha2) as <-. by eapply Hfree.
    + pose proof (Hasked _ Ha) as <-. eapply (inv_claims _ Hinv ip); [done|]. right. exists p.
      split; [done|]. split; [done|by right].
Qed.

Lemma deleted_inv s k : loop_inv s → loop_inv (set_pod (delete k (st_pod s)) s).
Proof.
  intros [].
  assert (∀ k' q, delete k (st_pod s) !! k' = Some q → st_pod s !! k' = Some q) as Hst.
  { intros k' q. rewrite lookup_delete_Some. naive_solver. }
  assert (∀ k' ip, claims (set_pod (delete k (st_pod s)) s) k' ip → claims s k' ip) as Hcl.
  { intros k' ip [H|(q & Hq%Hst & H)]; [by left|right; by exists q]. }
  split; try done; cbn.
  - apply (owned_pods s); [done|done| |done]. intros ns sel q (? & ? & Hq%Hst). by exists q.
  - intros k' q Hq%Hst. by apply inv_pods0.
  - intros ns o n e q He Hq%Hst. by eapply inv_kept0.
  - intros k' q Hq%Hst. by apply inv_pending0.
  - intros ip k1 k2 H1%Hcl H2%Hcl. by eapply inv_claims0.
Qed.

Lemma users_inv s s' :
  st_pod s' = st_pod s → st_ipr s' = st_ipr s → st_pps s' = st_pps s → keyed s' → owned s' →
  loop_inv s → loop_inv s'.
Proof.
  intros Hp Hi Hs Hk Ho []. assert (∀ ns o n e, entry s' ns o n e ↔ entry s ns o n e) as He by (intros; by apply entry_same).
  assert (∀ n ip, reserved n ip s' ↔ reserved n ip s) as Hr by (intros; unfold reserved; by rewrite Hi).
  assert (∀ k ip, claims s' k ip → claims s k ip) as Hcl.
  { intros k ip. unfold claims. rewrite Hp. setoid_rewrite He. done. }
  split; try done; rewrite ?Hp; try setoid_rewrite He; try setoid_rewrite Hr; try done.
  intros ip k k' H1%Hcl H2%Hcl. by eapply inv_claims0.
Qed.

(** What a reconcile of a StatefulSet leaves: every entry was there or is that of a live Pod. *)
Lemma entries_after {W} `{!Client W, !ClientLaws W} st sel (w : W) e w' ns o n en :
  sts_post st sel w e w' → keyed (contents w) → entry (contents w') ns o n en →
  entry (contents w) ns o n en ∨
  (ns = sts_namespace st ∧ o = sts_name st ∧ ∃ p, selected ns sel (contents w) p ∧ eligible p ∧ pod_name p = n ∧
    en = pod_entry p ∧ reserved (pod_reservation_name ns n) (pod_PodIP p) (contents w')).
Proof.
  intros (Ht & Hst & _) Hk (s' & Hs' & Hen). destruct (Ht Hk) as (_ & _ & _ & _ & _ & Hother).
  destruct (decide (sts_key st = (ns, o))) as [Hkey|Hne]; [|left; exists s'; split; [|done]].
  2:{ unfold stored_status. by rewrite <-Hother. }
  rewrite Hkey in Hst. injection Hkey as Hns Ho. rewrite Hns in Hst.
  destruct Hst as [Hst|[(_ & Hst & _)|(old & m & _ & Hst & _ & Hm)]]; rewrite Hst in Hs'.
  - left. by exists s'.
  - by injection Hs' as <-.
  - right. injection Hs' as <-. destruct (Hm n en Hen) as [(p & Hp & Hel & Hn & ->) Hr].
    split; [done|]. split; [done|]. by exists p.
Qed.

Lemma live_entry s p ns n e :
  loop_inv s → selected ns n s p → eligible p → entry s ns (owner_of (meta_key (pod_ObjectMeta p))) (pod_name p) e →
  e = pod_entry p.
Proof.
  intros Hinv (Hns & _ & Hp) [Hip Hnode] He.
  assert (meta_key (pod_ObjectMeta p) = (ns, pod_name p)) as Hkey by (unfold meta_key; by rewrite Hns).
  rewrite Hkey in Hp. destruct (inv_kept _ Hinv _ _ _ _ _ He Hp) as [[Hpr|[? _]] [Hpl|[? _]]]; try done.
  destruct (inv_entries _ Hinv _ _ _ _ He) as (_ & _ & _ & _ & _ & ->). unfold pod_entry. by rewrite Hpr, Hpl.
Qed.

(** Reservations of what Pods have stay, whatever live Pods are reserved for anew. *)
Lemma reserved_after s s' (live : Pod → Prop) k ip :
  loop_inv s → (∀ p, live p → st_pod s !! meta_key (pod_ObjectMeta p) = Some p) → reserves_only live s s' →
  may_exist k → (∀ p, st_pod s !! k = Some p → pod_PodIP p ≠ "" → pod_PodIP p = ip) →
  reserved (pod_reservation_name k.1 k.2) ip s → reserved (pod_reservation_name k.1 k.2) ip s'.
Proof.
  intros Hinv Hlive Hres Hk Hip Hr. destruct (Hres (pod_reservation_name k.1 k.2)) as [Hsame|(p & Hp & [Hel _] & Hn & Hr')];
    [by eapply reserved_same|].
  pose proof (Hlive p Hp) as Hp'. destruct (inv_pods _ Hinv _ _ Hp') as [_ Hex].
  rewrite (names_apart k (meta_key (pod_ObjectMeta p))) in Hip by done. by rewrite <-(Hip p).
Qed.

Lemma reconciled_inv {W} `{!Client W, !ClientLaws W} st sel (w : W) e w' :
  loop_inv (contents w) → st_sts (contents w) !! sts_key st = Some st → sts_Selector st = Some sel →
  sts_post st (ls_MatchLabels sel) w e w' →
  reserves_only (selected (sts_namespace st) (ls_MatchLabels sel) (contents w)) (contents w) (contents w') →
  loop_inv (contents w').
Proof.
  intros Hinv Hst Hsel Hpost Hres. pose proof (inv_keyed _ Hinv) as Hk.
  pose proof Hpost as (Ht & _). destruct (Ht Hk) as (Hk' & Hvmi & Hsts & Hpod & _).
  pose proof (λ ns o n en, entries_after _ _ _ _ _ ns o n en Hpost Hk) as Hent.
  destruct (proj1 (inv_owned _ Hinv) _ _ Hst) as [Hname Hown].
  assert (∀ ns p, selected ns (ls_MatchLabels sel) (contents w) p → st_pod (contents w) !! (ns, pod_name p) = Some p) as Hat.
  { intros ns p (<- & _ & Hp). exact Hp. }
  assert (∀ k ip, may_exist k → (∀ p, st_pod (contents w) !! k = Some p → pod_PodIP p ≠ "" → pod_PodIP p = ip) →
    reserved (pod_reservation_name k.1 k.2) ip (contents w) →
    reserved (pod_reservation_name k.1 k.2) ip (contents w')) as Hstay.
  { intros k ip. eapply reserved_after; [done| |done]. by intros p (_ & _ & ?). }
  split; try done.
  - apply (owned_pods (contents w)); [done|done| |apply Hinv]. intros ns sel' p (? & ? & Hp). rewrite Hpod in Hp. by exists p.
  - intros k p. rewrite Hpod. apply (inv_pods _ Hinv).
  - intros ns o n en [Hen|(-> & -> & p & Hp & [? ?] & <- & -> & _)]%Hent; [by apply (inv_entries _ Hinv)|].
    pose proof (Hat _ _ Hp) as Hp'. destruct (inv_pods _ Hinv _ _ Hp') as [Hkey Hex].
    rewrite <-Hkey at 2. by rewrite (Hown sel p Hsel Hp).
  - intros ns o n en [Hen|(-> & -> & p & Hp & [? ?] & <- & -> & Hr)]%Hent; [|done].
    apply (Hstay (ns, n)); [by apply (inv_entries _ Hinv) in Hen as (_ & _ & ? & _)| |by eapply inv_reserved].
    intros p Hp Hip. by destruct (inv_kept _ Hinv _ _ _ _ _ Hen Hp) as [[?|[? _]] _].
  - intros ns o n en q Hen Hq. rewrite Hpod in Hq.
    apply Hent in Hen as [Hen|(-> & -> & p & Hp & [? ?] & <- & -> & _)]; [by eapply inv_kept|].
    rewrite (Hat _ _ Hp) in Hq. injection Hq as <-. split; by left.
  - intros k p Hp Hip. rewrite Hpod in Hp. destruct (inv_pending _ Hinv _ _ Hp Hip) as [?|(ip & Ha & Hr)]; [by left|].
    right. exists ip. split; [done|]. apply Hstay; [by apply (inv_pods _ Hinv _ _ Hp)|congruence|done].
  - assert (∀ k ip, claims (contents w') k ip → claims (contents w) k ip) as Hcl.
    { intros [ns n] ip [(o & en & Hen & Hip)|(p & Hp & H)]; [|right; exists p; by rewrite <-Hpod].
      cbn in Hen. apply Hent in Hen as [Hen|(-> & -> & p & Hp & [? ?] & <- & -> & _)]; [left; by exists o, en|].
      right. exists p. split; [by apply Hat|]. subst ip. split; [done|by left]. }
    intros ip k k' H1%Hcl H2%Hcl. by eapply (inv_claims _ Hinv).
Qed.

(** The record of a Pod that is created: its entry, or the zero one. *)
Lemma created_record s ns p :
  let k := (ns, om_Name (pod_ObjectMeta p)) in
  loop_inv s → getStatefulSetNameFromPod p = owner_of k →
  (∀ o e, entry s ns o k.2 e → pod_record s ns p = e ∧ ps_PodIP e ≠ "" ∧ ps_NodeName e ≠ "") ∧
  (pod_record s ns p = PodState_zero ∨ entry s ns (owner_of k) k.2 (pod_record s ns p)).
Proof.
  intros k Hinv Hown. unfold pod_record. rewrite Hown. split.
  - intros o e He. destruct (inv_entries _ Hinv _ _ _ _ He) as (? & ? & _ & Ho & Hne & _).
    change (ns, k.2) with k in Ho. rewrite decide_False by congruence. split; [|done].
    apply entry_record_in. by rewrite Ho.
  - case_decide; [by left|apply record_in_entry].
Qed.

(** The Pod pinned to its record joins the others. *)
Lemma created_inv s ns p :
  let k := (ns, om_Name (pod_ObjectMeta p)) in
  let s' := set_pod (<[k := in_namespace ns (pinned_pod (pod_record s ns p) p)]> (st_pod s)) s in
  loop_inv s → gomap_lookup (om_Annotations (pod_ObjectMeta p)) ip_annotation = None →
  pod_PodIP p = "" → pod_NodeName p = "" → may_exist k → getStatefulSetNameFromPod p = owner_of k →
  st_pod s !! k = None → owned s' → loop_inv s'.
Proof.
  intros k s' Hinv Hnone Hip Hnode Hex Hown Hfree Ho.
  destruct (created_record s ns p Hinv Hown) as [Hentry Hr]. fold k in Hentry, Hr. revert s' Ho.
  generalize dependent (pod_record s ns p). intros r Hentry Hr s' Ho. set (q := in_namespace ns (pinned_pod r p)).
  assert (∀ k' q', st_pod s' !! k' = Some q' → (k' = k ∧ q' = q) ∨ (k' ≠ k ∧ st_pod s !! k' = Some q')) as Hst.
  { intros k' q'. cbn. rewrite lookup_insert_Some. naive_solver. }
  assert (gomap_lookup (om_Annotations (pod_ObjectMeta q)) ip_annotation = None ∨
    (asks_ip q (ps_PodIP r) ∧ entry s ns (owner_of k) k.2 r)) as Hq.
  { destruct Hr as [->|Hr]; [left|right; split; [|done]].
    - cbn. destruct (om_Annotations (pod_ObjectMeta p)); [exact Hnone|done].
    - apply pinned_meta_ip. by destruct (Hentry _ _ Hr) as (_ & ? & _). }
  assert (∀ k' ip, claims s' k' ip → claims s k' ip) as Hcl.
  { intros k' ip [H|(q' & Hq' & Hne & H)]; [by left|].
    destruct (Hst _ _ Hq') as [[-> ->]|[_ ?]]; [|right; by exists q'].
    destruct H as [H|[_ H]]; [cbn in H; congruence|]. left. destruct Hq as [Hq|[Ha He]].
    - unfold asks_ip in H. congruence.
    - exists (owner_of k), r. split; [done|]. by eapply asks_ip_unique. }
  pose proof Hinv as []. split; try done.
  - intros k' q' Hq'. destruct (Hst _ _ Hq') as [[-> ->]|[_ ?]]; [done|by apply inv_pods0].
  - intros ns' o n e q' He Hq'. destruct (Hst _ _ Hq') as [[Hk ->]|[_ ?]]; [|by eapply inv_kept0].
    injection Hk as -> ->. destruct (Hentry _ _ He) as (-> & Hi & Hn). split; right.
    + split; [exact Hip|]. by apply pinned_meta_ip.
    + split; [exact Hnode|]. by apply pin_node_required.
  - intros k' q' Hq' Hq0. destruct (Hst _ _ Hq') as [[-> ->]|[_ ?]]; [|by apply inv_pending0].
    destruct Hq as [?|[Ha He]]; [by left|]. right. exists (ps_PodIP r). split; [done|]. by eapply (inv_reserved0 ns).
  - intros ip k1 k2 H1%Hcl H2%Hcl. by eapply inv_claims0.
Qed.
End invariant.

Section runs.
Context {W : Type} `{!Client W, !ClientLaws W} {P : Platform} {PL : PlatformLaws}.
Context (RetryOnConflict : GoM W (option ApiError) → GoM W (option ApiError)).
Hypothesis retry_law : RetryLaw RetryOnConflict.
Context {Response : Type} (Allowed : string → Response) (Errored : Z → string → Response).
Context (PatchResponseFromRaw : string → string → Response).
Context (DecodePod : AdmissionRequest → string + Pod) (DecodeVMI : AdmissionRequest → string + VirtualMachineInstance).
Context (MarshalPod : Pod → string + string) (MarshalVMI : VirtualMachineInstance → string + string).
Context `{!AdmissionLaws Allowed Errored PatchResponseFromRaw MarshalPod}.

Abbreviation step := (cluster_step RetryOnConflict Allowed Errored PatchResponseFromRaw DecodePod DecodeVMI
  MarshalPod MarshalVMI).
Abbreviation run := (cluster_run RetryOnConflict Allowed Errored PatchResponseFromRaw DecodePod DecodeVMI
  MarshalPod MarshalVMI).

(** A reconcile either changes nothing or is one that [reconciled_inv] speaks of. *)
Lemma reconcile_run req w :
  keyed (contents w) → owned (contents w) →
  let w' := (Reconcile RetryOnConflict flags req w).2 in
  contents w' = contents w ∨
  ∃ st sel w1 e, contents w1 = contents w ∧ st_sts (contents w) !! sts_key st = Some st ∧ sts_Selector st = Some sel ∧
    sts_post st (ls_MatchLabels sel) w1 e w' ∧
    reserves_only (selected (sts_namespace st) (ls_MatchLabels sel) (contents w1)) (contents w1) (contents w').
Proof.
  intros Hk Ho. destruct (Reconcile_statefulsets RetryOnConflict req w Hk Ho) as [Hsame|(s & sel & w1 & Hs & Hsel & Hc & Hrun)];
    [by left|right]. rewrite Hrun. rewrite <-Hc in Hk.
  pose proof (sts_wp _ retry_law s sel w1 Hsel Hk) as H1. pose proof (sts_reserves _ retry_law s sel w1 Hsel Hk) as H2.
  unfold wp in H1, H2. destruct (StatefulSetAutoGeneratePersistentPodState RetryOnConflict s w1) as [[e|why] w2]; [|done].
  by exists s, sel, w1, e.
Qed.

Lemma step_inv w l w' : loop_inv (contents w) → step w l w' → loop_inv (contents w').
Proof.
  intros Hinv Hstep. inversion Hstep as [req|? req p resp w1 q ? ns k Hrel Hsub Hres Hop Hdec Hnone Hip Hnode Hex Hown Hrun Hadm Hfree Hc Ho
    |? k p node ? Hp Hn Hsch Hc|? k p ip ? Hp Hn Had Hc|? k ? Hc|]; subst.
  - destruct (reconcile_run req w (inv_keyed _ Hinv) (inv_owned _ Hinv)) as [->|(st & sel & w1 & e & Hc & Hst & Hsel & Hpost & Hres)]; [done|].
    rewrite <-Hc in Hinv, Hst. by eapply (reconciled_inv st sel w1 e).
  - destruct (created_pod Allowed Errored PatchResponseFromRaw DecodePod DecodeVMI MarshalPod MarshalVMI
      req p w resp w1 q Hrel Hsub Hres Hop Hdec Hrun Hadm) as [Hc1 ->].
    rewrite Hc, Hc1 in Ho |- *. rewrite Hc1 in Hfree. by apply created_inv.
  - rewrite Hc. by apply scheduled_inv.
  - rewrite Hc. by apply addressed_inv.
  - rewrite Hc. by apply deleted_inv.
  - by eapply users_inv.
Qed.

Lemma run_inv w0 w : installed (contents w0) → run w0 w → loop_inv (contents w).
Proof.
  intros H0 Hrun. pose proof (installed_inv _ H0) as Hinv. clear H0.
  induction Hrun as [|w1 w2 w3 [l Hstep] _ IH]; [done|]. by eapply IH, step_inv.
Qed.

Lemma step_entries w l w' ns o n e e' :
  loop_inv (contents w) → step w l w' → entry (contents w) ns o n e → entry (contents w') ns o n e' → e' = e.
Proof.
  intros Hinv Hstep He He'.
  assert (st_pps (contents w') = st_pps (contents w) → e' = e) as Hsame.
  { intros Heq. apply (entry_same _ (contents w)) in He'; [|done]. by eapply entry_unique. }
  inversion Hstep as [req|? req p resp w1 q ? ns' k Hrel Hsub Hres Hop Hdec Hnone Hip Hnode Hex Hown Hrun Hadm Hfree Hc Ho
    |? k p node ? Hp Hn Hsch Hc|? k p ip ? Hp Hn Had Hc|? k ? Hc|]; subst; try (apply Hsame; by rewrite ?Hc).
  - destruct (reconcile_run req w (inv_keyed _ Hinv) (inv_owned _ Hinv)) as [Heq|(st & sel & w1 & r & Hc & Hst & Hsel & Hpost & _)];
      [apply Hsame; by rewrite Heq|]. rewrite <-Hc in Hinv, Hst, He.
    destruct (entries_after _ _ _ _ _ _ _ _ _ Hpost (inv_keyed _ Hinv) He') as [He''|(-> & -> & p & Hp & Hel & <- & -> & _)];
      [by eapply entry_unique|]. symmetry. eapply live_entry; [done..|].
    destruct (proj1 (inv_owned _ Hinv) _ _ Hst) as [_ Hown]. by rewrite (Hown sel p).
  - apply Hsame. rewrite Hc. cbn. f_equal.
    by destruct (created_pod Allowed Errored PatchResponseFromRaw DecodePod DecodeVMI MarshalPod MarshalVMI
      req p w resp w1 q Hrel Hsub Hres Hop Hdec Hrun Hadm).
Qed.


(** C11: Where the loop is open: a recorded Pod can be forgotten.  The reconciler keeps the old
    record only when it has more entries than Pods are up.  So when a recorded Pod is down
    while at least as many others are up as are recorded (the StatefulSet was scaled up), a
    reconcile in which nothing fails drops its entry, and the Pod that is created in its
    place is left unpinned; its old address stays reserved, so that Calico will not give it
    to this Pod by itself either. *)
Theorem recorded_pod_is_forgotten s sel w m st n e req p :
  sts_Selector s = Some sel → keyed (contents w) → reliable w →
  describes (sts_namespace s) (ls_MatchLabels sel) (contents w) m →
  stored_status (sts_key s) (contents w) = Some st → gomap_lookup (ppst_PodStates st) n = Some e →
  gomap_len (ppst_PodStates st) ≤ size m → m !! n = None →
  reserved (pod_reservation_name (sts_namespace s) n) (ps_PodIP e) (contents w) →
  rq_SubResource req = "" → rq_Resource req = "pods" → rq_Operation req = OperationCreate →
  DecodePod req = inr p → om_Name (pod_ObjectMeta p) = n →
  getStatefulSetNameFromPod p = sts_name s → target_namespace req (pod_ObjectMeta p) = sts_namespace s →
  wp (StatefulSetAutoGeneratePersistentPodState RetryOnConflict s) (λ r w', r = None ∧
    (∀ e', ¬ entry (contents w') (sts_namespace s) (sts_name s) n e') ∧
    reserved (pod_reservation_name (sts_namespace s) n) (ps_PodIP e) (contents w') ∧
    ∀ w2, reliable w2 → st_pps (contents w2) = st_pps (contents w') →
      wp (Handle Allowed Errored PatchResponseFromRaw DecodePod DecodeVMI MarshalPod MarshalVMI statefulsets_only req)
        (λ resp _, resp = answer Allowed Errored PatchResponseFromRaw MarshalPod p (pinned_pod PodState_zero p)) w2) w.
Proof.
  intros Hsel Hk Hrel Hm Hst Hn Hlen Hnone Hres Hsub Hreq Hop Hdec Hname Hown Hns.
  assert (m ≠ ∅) as Hne.
  { intros ->. rewrite map_size_empty in Hlen. destruct (ppst_PodStates st) as [x|]; [|done]. cbn in Hlen, Hn.
    apply Nat.le_0_r, map_size_empty_iff in Hlen as ->. by rewrite lookup_empty in Hn. }
  pose proof (wp_and _ _ _ _ (sts_wp _ retry_law s sel w Hsel Hk) (sts_reserves _ retry_law s sel w Hsel Hk)) as Hwp.
  eapply wp_mono; [exact Hwp|]. intros r w' [(_ & _ & Hpost) Honly].
  destruct (Hpost Hrel) as (_ & -> & m' & Hm' & Hst'). rewrite <-(describes_unique _ _ _ _ _ Hm Hm') in Hst'.
  unfold sts_next_status in Hst'. rewrite Hst, decide_False in Hst' by done. rewrite decide_False in Hst' by lia.
  split; [done|]. assert (∀ w2 e', st_pps (contents w2) = st_pps (contents w') →
    ¬ entry (contents w2) (sts_namespace s) (sts_name s) n e') as Hno.
  { intros w2 e' Heq (st' & Hst2 & He'). unfold sts_key, stored_status in *. rewrite Heq in Hst2. rewrite Hst' in Hst2.
    injection Hst2 as <-. cbn in He'. congruence. }
  split; [intros e'; by apply Hno|]. split.
  - destruct (Honly (pod_reservation_name (sts_namespace s) n)) as [Hsame|(q & Hq & Hel & Hnq & _)];
      [by eapply reserved_same|]. pose proof Hq as (Hnsq & _). unfold pod_namespace in Hnq. rewrite Hnsq in Hnq.
    apply pod_reservation_name_inj in Hnq. assert (m !! n = Some (pod_entry q)) as Hmn by (apply Hm; by exists q).
    congruence.
  - intros w2 Hw2 Heq. destruct (handlePod_create Allowed Errored PatchResponseFromRaw DecodePod MarshalPod req p w2 Hdec Hop)
      as (st2 & w3 & Hrun & _ & _ & Hrel2). unfold wp, Handle, shouldIgnoreIfNotVMIOrPod. rewrite Hsub, Hreq. simpl.
    rewrite Hrun. destruct (Hrel2 Hw2) as [_ ->]. do 2 f_equal. unfold pod_record. rewrite Hown, Hns, Hname.
    case_decide; [done|]. destruct (record_in_entry (contents w2) (sts_namespace s) (sts_name s) n) as [?|He]; [done|].
    by destruct (Hno w2 _ Heq He).
Qed.

(** The recorded state of an instance has the key of that of a StatefulSet with its namespace
    and name: a reconcile of the instance that reports success drops every entry of the
    StatefulSet but one of its own name. *)
Lemma instance_overwrites_statefulset v iface ifaces owner owners s w st :
  vmi_Interfaces v = iface :: ifaces → vif_IP iface ≠ "" →
  om_OwnerReferences (vmi_ObjectMeta v) = owner :: owners → keyed (contents w) →
  sts_key s = vmi_key v → stored_status (sts_key s) (contents w) = Some st →
  wp (VmiAutoGeneratePersistentPodState RetryOnConflict v) (λ r w', r = None →
    ∀ n e, entry (contents w') (sts_namespace s) (sts_name s) n e → n = vmi_name v) w.
Proof.
  intros Hif Hip Hown Hk Hkey Hst. eapply wp_mono; [by eapply vmi_wp|]. intros r w' (_ & Hnone & _) Hr n e (st' & Hst' & He).
  destruct (Hnone Hr) as [_ Hst2]. rewrite <-Hkey, Hst in Hst2. unfold sts_key in Hst2. rewrite Hst' in Hst2.
  injection Hst2 as ->. cbn in He. by apply lookup_singleton_Some in He as [<- _].
Qed.
End runs.
