(* ===== verification/MemOperator.v ===== *)
(** * The cluster in memory, and the witnesses of the closed loop

    On the in-memory server: a StatefulSet whose Pod is recorded, deleted, created anew
    through the webhook, and gets its node and its address back; and one whose recorded Pod
    is down while others are up. *)
From S2P Require Export ClusterTheorems.

(** A scheduler and a Calico that choose freely within their documentation; all Pods are
    those of the StatefulSet web in prod. *)
#[export] Instance mem_platform : Platform := {|
  flags := mkPersistenceConfig true true;
  may_exist k := k.1 = "prod";
  owner_of _ := "web";
  schedules s p node := node ≠ "" ∧ ∀ n, asks_node p n → node = n;
  addresses s p ip := ip ≠ "" ∧ (∀ k q, st_pod s !! k = Some q → pod_PodIP q ≠ ip) ∧
    (∀ ip', asks_ip p ip' → ip = ip') ∧
    (gomap_lookup (om_Annotations (pod_ObjectMeta p)) ip_annotation = None → ∀ n, ¬ reserved n ip s) |}.
#[export] Instance mem_platform_laws : PlatformLaws.
Proof.
  split; [done|done|done|]. intros [ns n] [ns' n']. cbn. intros -> -> H%pod_reservation_name_inj. by subst.
Qed.

(** JSON of the two Pods that the webhook sees: as it came, and pinned. *)
Definition mem_marshal_pod (p : Pod) : string + string :=
  if decide (p = demo_new_pod) then inr "web-0"
  else if decide (p = pinned_pod (recorded_state "node-1" "10.0.0.1") demo_new_pod) then inr "web-0 pinned"
  else inl "unknown".
#[export] Instance mem_admission_laws : AdmissionLaws DAllowed DErrored DPatch mem_marshal_pod.
Proof.
  split; [|by intros ???? [= -> ->]|done..]. unfold mem_marshal_pod. intros x y b. repeat case_decide; congruence.
Qed.

Abbreviation demo_step := (cluster_step (W := MemServer) demo_retry DAllowed DErrored DPatch demo_decode_pod
  demo_decode_vmi mem_marshal_pod demo_marshal_vmi).
Abbreviation demo_run := (cluster_run (W := MemServer) demo_retry DAllowed DErrored DPatch demo_decode_pod
  demo_decode_vmi mem_marshal_pod demo_marshal_vmi).

(** The StatefulSet web with its Pods, and no instances. *)
Definition web_store : Store := mkStore ∅ (st_sts demo_store) (st_pod demo_store) ∅ ∅.
Definition web_world : MemServer := mkMemServer web_store [] 0.
Lemma web_keyed : keyed (contents web_world).
Proof. pose proof demo_keyed as (_ & ? & ? & _). by split_and!; [apply map_Forall_empty|..]. Qed.

Lemma demo_owned s : st_sts s = st_sts web_store → st_vmi s = ∅ → owned s.
Proof. intros Hs Hv. split; [|done]. intros k st. rewrite Hs. change (st_sts web_store) with ({[ ("prod", "web") := demo_sts ]} : gmap NamespacedName StatefulSet).
  intros [<- <-]%lookup_singleton_Some. by split. Qed.

Lemma demo_pods k p :
  st_pod web_store !! k = Some p →
  (k = ("prod", "web-0") ∧ p = demo_pod "web-0" "node-1" "10.0.0.1") ∨ (k = ("prod", "web-1") ∧ p = demo_pod "web-1" "" "").
Proof.
  intros Hp. cbn in Hp. apply lookup_insert_Some in Hp as [[<- <-]|[_ Hp]]; [by left|].
  apply lookup_insert_Some in Hp as [[<- <-]|[_ Hp]]; [by right|done].
Qed.

Lemma demo_installed : installed (contents web_world).
Proof.
  split; [apply web_keyed|]. split; [by apply demo_owned|]. split; [done|]. split.
  - by intros k p [[-> ->]|[-> ->]]%demo_pods.
  - intros k p k' p' [[-> ->]|[-> ->]]%demo_pods [[-> ->]|[-> ->]]%demo_pods; done.
Qed.

(** ** The life of web-0 *)
Definition reconciled (w : MemServer) : MemServer := (Reconcile demo_retry flags ("prod", "web") w).2.
Definition with_pods (f : gmap NamespacedName Pod → gmap NamespacedName Pod) (w : MemServer) : MemServer :=
  mkMemServer (set_pod (f (st_pod (ms_store w))) (ms_store w)) (ms_faults w) (ms_clock w).

Definition web_0 : NamespacedName := ("prod", "web-0").
Definition pinned_web_0 : Pod := in_namespace "prod" (pinned_pod (recorded_state "node-1" "10.0.0.1") demo_new_pod).
Definition recorded_world : MemServer := reconciled (reconciled web_world).
Definition deleted_world : MemServer := with_pods (delete web_0) recorded_world.
Definition created_world : MemServer := with_pods (insert web_0 pinned_web_0) deleted_world.
Definition scheduled_world : MemServer := with_pods (insert web_0 (with_NodeName pinned_web_0 "node-1")) created_world.
Definition addressed_world : MemServer :=
  with_pods (insert web_0 (with_PodIP (with_NodeName pinned_web_0 "node-1") "10.0.0.1")) scheduled_world.

Lemma web_0_created : demo_step deleted_world (PodCreated web_0) created_world.
Proof.
  apply (step_created demo_retry DAllowed DErrored DPatch demo_decode_pod demo_decode_vmi mem_marshal_pod demo_marshal_vmi
    deleted_world (demo_request "pods") demo_new_pod (DPatch "web-0" "web-0 pinned") deleted_world
    (pinned_pod (recorded_state "node-1" "10.0.0.1") demo_new_pod) created_world); try reflexivity.
  - right. exists "web-0", "web-0 pinned". split; [reflexivity|]. split; reflexivity.
  - by apply demo_owned.
Qed.

Lemma pinned_asks_ip ip : asks_ip pinned_web_0 ip → ip = "10.0.0.1".
Proof. intros H. by apply (asks_ip_unique pinned_web_0). Qed.
Lemma pinned_asks_node node : asks_node pinned_web_0 node → node = "node-1".
Proof. unfold asks_node. vm_compute. by intros [= ->]. Qed.

Lemma demo_life : demo_run web_world addressed_world.
Proof.
  eapply rtc_l; [eexists; apply step_reconciled|]. eapply rtc_l; [eexists; apply step_reconciled|].
  eapply (rtc_l _ _ deleted_world); [eexists; by apply step_deleted|].
  eapply rtc_l; [eexists; apply web_0_created|].
  eapply (rtc_l _ _ scheduled_world).
  { eexists. apply (step_scheduled _ _ _ _ _ _ _ _ _ web_0 pinned_web_0 "node-1"); [reflexivity..| |reflexivity].
    split; [done|]. intros n Hn. symmetry. by apply pinned_asks_node. }
  eapply (rtc_l _ _ addressed_world); [|apply rtc_refl].
  eexists. apply (step_addressed _ _ _ _ _ _ _ _ _ web_0 (with_NodeName pinned_web_0 "node-1") "10.0.0.1");
    [reflexivity..| |reflexivity].
  split; [done|]. split.
  - intros k q Hq. change (st_pod (contents scheduled_world)) with
      (<[web_0 := with_NodeName pinned_web_0 "node-1"]> (<[web_0 := pinned_web_0]> (delete web_0 (st_pod web_store)))) in Hq.
    rewrite insert_insert_eq in Hq. apply lookup_insert_Some in Hq as [[_ <-]|[_ Hq]]; [done|].
    apply lookup_delete_Some in Hq as [Hne Hq]. by apply demo_pods in Hq as [[-> ->]|[-> ->]].
  - split; [|done]. intros ip H. symmetry. by apply pinned_asks_ip.
Qed.

Lemma addressed_entry : entry (contents addressed_world) "prod" "web" "web-0" (recorded_state "node-1" "10.0.0.1").
Proof. exists (new_status demo_states). split; vm_compute; reflexivity. Qed.


(** ** Scaled up while a recorded Pod is down *)
Definition scaled_pods : gmap NamespacedName Pod :=
  list_to_map [(("prod", "web-1"), demo_pod "web-1" "node-2" "10.0.0.2");
               (("prod", "web-2"), demo_pod "web-2" "node-3" "10.0.0.3")].
Definition scaled_store : Store :=
  mkStore ∅ {[ ("prod", "web") := demo_sts ]} scaled_pods
    {[ "pod-prod-web-0" := new_reservation "pod-prod-web-0" "10.0.0.1" ]}
    {[ ("prod", "web") := demo_state_object demo_two_states ]}.
Definition scaled_world : MemServer := mkMemServer scaled_store [] 0.
Definition scaled_states : gmap string PodState :=
  list_to_map [("web-1", recorded_state "node-2" "10.0.0.2"); ("web-2", recorded_state "node-3" "10.0.0.3")].

Lemma scaled_keyed : keyed scaled_store.
Proof. split_and!; cbn; try apply map_Forall_empty; by apply map_Forall_singleton. Qed.

Lemma scaled_describes : describes "prod" (Some {[ "app" := "web" ]}) scaled_store scaled_states.
Proof.
  assert (∀ k p, scaled_pods !! k = Some p ↔
    (k = ("prod", "web-1") ∧ p = demo_pod "web-1" "node-2" "10.0.0.2") ∨
    (k = ("prod", "web-2") ∧ p = demo_pod "web-2" "node-3" "10.0.0.3")) as Hpods.
  { intros k p. unfold scaled_pods. cbn. rewrite lookup_insert_Some, lookup_insert_Some, lookup_empty. naive_solver. }
  intros n e. assert (scaled_states !! n = Some e ↔
    (n = "web-1" ∧ e = recorded_state "node-2" "10.0.0.2") ∨ (n = "web-2" ∧ e = recorded_state "node-3" "10.0.0.3")) as ->.
  { unfold scaled_states. cbn. rewrite lookup_insert_Some, lookup_insert_Some, lookup_empty. naive_solver. }
  unfold selected. cbn. setoid_rewrite Hpods. split.
  - assert (labels_match (Some {[ "app" := "web" ]}) (Some {[ "app" := "web" ]})) as Hl by by apply map_Forall_singleton.
    intros [[-> ->]|[-> ->]];
      [exists (demo_pod "web-1" "node-2" "10.0.0.2")|exists (demo_pod "web-2" "node-3" "10.0.0.3")];
      (split; [split; [done|split; [exact Hl|eauto]]|done]).
  - intros (p & (_ & _ & [[_ ->]|[_ ->]]) & _ & <- & ->); eauto.
Qed.

Lemma recorded_pod_is_forgotten_witness :
  wp (StatefulSetAutoGeneratePersistentPodState demo_retry demo_sts) (λ r w', r = None ∧
    (∀ e', ¬ entry (contents w') (sts_namespace demo_sts) (sts_name demo_sts) "web-0" e') ∧
    reserved (pod_reservation_name (sts_namespace demo_sts) "web-0") (ps_PodIP (recorded_state "node-1" "10.0.0.1")) (contents w') ∧
    ∀ w2, reliable w2 → st_pps (contents w2) = st_pps (contents w') →
      wp (Handle DAllowed DErrored DPatch demo_decode_pod demo_decode_vmi demo_marshal_pod demo_marshal_vmi
            statefulsets_only (demo_request "pods"))
        (λ resp _, resp = answer DAllowed DErrored DPatch demo_marshal_pod demo_new_pod
          (pinned_pod PodState_zero demo_new_pod)) w2) scaled_world.
Proof.
  apply (recorded_pod_is_forgotten demo_retry (retry_steps_law 3) DAllowed DErrored DPatch demo_decode_pod
    demo_decode_vmi demo_marshal_pod demo_marshal_vmi demo_sts demo_selector scaled_world scaled_states
    (new_status demo_two_states) "web-0" (recorded_state "node-1" "10.0.0.1") (demo_request "pods") demo_new_pod);
    try reflexivity; [apply scaled_keyed|apply scaled_describes|by eexists].
Defined.
