(* ===== verification/MutatingTheorems.v ===== *)
(** * The properties of the admission webhook

    For every API server that behaves as documented and every decoder and encoder; each
    theorem with hypotheses is applied to the in-memory server. *)
From S2P Require Export MutatingFacts.
From S2P Require Import Persistence.

Section theorems.
Context {W : Type} `{!Client W, !ClientLaws W}.
Context {Response : Type}.
Variable Allowed : string → Response.
Variable Errored : Z → string → Response.
Variable PatchResponseFromRaw : string → string → Response.
Variable DecodePod : AdmissionRequest → string + Pod.
Variable DecodeVMI : AdmissionRequest → string + VirtualMachineInstance.
Variable MarshalPod : Pod → string + string.
Variable MarshalVMI : VirtualMachineInstance → string + string.
Variable config : PersistenceConfig.

Abbreviation handle := (Handle Allowed Errored PatchResponseFromRaw DecodePod DecodeVMI
  MarshalPod MarshalVMI config).
Abbreviation respond := (answer Allowed Errored PatchResponseFromRaw).

Lemma handle_pods req w :
  rq_SubResource req = "" → rq_Resource req = "pods" → EnableStatefulSetPersistence config = true →
  handle req w = handlePod Allowed Errored PatchResponseFromRaw DecodePod MarshalPod req w.
Proof.
  intros Hsub Hres Hen. unfold Handle, shouldIgnoreIfNotVMIOrPod. by rewrite Hsub, Hres, Hen.
Qed.

Lemma handle_vmis req w :
  rq_SubResource req = "" → rq_Resource req = "virtualmachineinstances" →
  EnableVMIPersistence config = true →
  handle req w = handleVMI Allowed Errored PatchResponseFromRaw DecodeVMI MarshalVMI req w.
Proof.
  intros Hsub Hres Hen. unfold Handle, shouldIgnoreIfNotVMIOrPod. by rewrite Hsub, Hres, Hen.
Qed.

(** An operation other than Create changes nothing and allows the object. *)
Lemma handlePod_other req p w :
  DecodePod req = inr p → rq_Operation req ≠ OperationCreate →
  handlePod Allowed Errored PatchResponseFromRaw DecodePod MarshalPod req w = (Ret (Allowed ""), w).
Proof.
  intros Hdec Hop. unfold handlePod. rewrite Hdec, decide_False by done. case_decide; [|done].
  unfold go_bind, handlePodUpdate, go_ret. destruct p as [m a n i r], m as [? ns ? ? ? ? ? ?]. simpl.
  case_bool_decide as Hns; simpl in *; [subst ns|]; unfold pod_with, with_namespace; simpl;
    by rewrite DeepEqual_refl.
Qed.

Lemma handleVMI_other req v w :
  DecodeVMI req = inr v → rq_Operation req ≠ OperationCreate →
  handleVMI Allowed Errored PatchResponseFromRaw DecodeVMI MarshalVMI req w = (Ret (Allowed ""), w).
Proof.
  intros Hdec Hop. unfold handleVMI. rewrite Hdec, decide_False by done. case_decide; [|done].
  unfold go_bind, handleVMIUpdate, go_ret. destruct v as [m a i n r], m as [? ns ? ? ? ? ? ?]. simpl.
  case_bool_decide as Hns; simpl in *; [subst ns|]; unfold vmi_with, with_namespace; simpl;
    by rewrite DeepEqual_refl.
Qed.

(** Against a reliable server the admission of a new Pod answers with the patch from
    the Pod as it came to the Pod pinned to the address and node recorded for its name in
    its StatefulSet's state (with its namespace as it came), and changes nothing stored. *)
Theorem pod_creation_is_pinned req p w :
  rq_SubResource req = "" → rq_Resource req = "pods" → rq_Operation req = OperationCreate →
  EnableStatefulSetPersistence config = true → DecodePod req = inr p → reliable w →
  wp (handle req) (λ resp w', contents w' = contents w ∧
    resp = respond MarshalPod p
      (pinned_pod (pod_record (contents w) (target_namespace req (pod_ObjectMeta p)) p) p)) w.
Proof.
  intros Hsub Hres Hop Hen Hdec Hw.
  destruct (handlePod_create Allowed Errored PatchResponseFromRaw DecodePod MarshalPod req p w Hdec Hop)
    as (st & w' & Hrun & Hc & _ & Hrel).
  unfold wp. rewrite handle_pods, Hrun by done. destruct (Hrel Hw) as [_ ->]. done.
Qed.

(** The same for the admission of a new VirtualMachineInstance, whose state object has
    its own name. *)
Theorem vmi_creation_is_pinned req v w :
  rq_SubResource req = "" → rq_Resource req = "virtualmachineinstances" →
  rq_Operation req = OperationCreate → EnableVMIPersistence config = true →
  DecodeVMI req = inr v → reliable w →
  wp (handle req) (λ resp w', contents w' = contents w ∧
    resp = respond MarshalVMI v
      (pinned_vmi (vmi_record (contents w) (target_namespace req (vmi_ObjectMeta v)) v) v)) w.
Proof.
  intros Hsub Hres Hop Hen Hdec Hw.
  destruct (handleVMI_create Allowed Errored PatchResponseFromRaw DecodeVMI MarshalVMI req v w Hdec Hop)
    as (st & w' & Hrun & Hc & _ & Hrel).
  unfold wp. rewrite handle_vmis, Hrun by done. destruct (Hrel Hw) as [_ ->]. done.
Qed.

Lemma respond_ok {A} `{EqDecision A} (marshal : A → string + string) (old new : A) :
  (∀ x, ∃ s, marshal x = inr s) →
  respond marshal old new = Allowed "" ∨
  ∃ a b, respond marshal old new = PatchResponseFromRaw a b.
Proof.
  intros Hm. unfold answer. case_match; [by left|right].
  destruct (Hm new) as [a ->], (Hm old) as [b ->]. by exists b, a.
Qed.

(** C18: the webhook fails open: whatever the API server answers, a request whose object
    decodes is allowed, with or without a patch, as long as objects encode; and no request
    changes what the server stores. *)
Theorem webhook_fails_open req w :
  (∀ x, ∃ s, MarshalPod x = inr s) → (∀ x, ∃ s, MarshalVMI x = inr s) →
  (rq_Resource req = "pods" → ∃ p, DecodePod req = inr p) →
  (rq_Resource req = "virtualmachineinstances" → ∃ v, DecodeVMI req = inr v) →
  wp (handle req) (λ resp w', contents w' = contents w ∧
    (resp = Allowed "" ∨ ∃ a b, resp = PatchResponseFromRaw a b)) w.
Proof.
  intros Hmp Hmv Hp Hv. unfold Handle.
  repeat (case_decide || case_match); try (by split; [|left]).
  - destruct Hv as [v Hv]; [done|]. destruct (decide (rq_Operation req = OperationCreate)).
    + edestruct (handleVMI_create Allowed Errored PatchResponseFromRaw) as (st & w' & Hrun & Hc & _); [done..|].
      unfold wp. rewrite Hrun. split; [done|by apply respond_ok].
    + unfold wp. erewrite handleVMI_other by done. split; [done|by left].
  - destruct Hp as [p Hp]; [done|]. destruct (decide (rq_Operation req = OperationCreate)).
    + edestruct (handlePod_create Allowed Errored PatchResponseFromRaw) as (st & w' & Hrun & Hc & _); [done..|].
      unfold wp. rewrite Hrun. split; [done|by apply respond_ok].
    + unfold wp. erewrite handlePod_other by done. split; [done|by left].
Qed.

(** Requests for a subresource or another resource, for a kind whose feature is off, and
    operations other than Create on a decodable object are allowed as they are, with no
    call to the API server. *)
Theorem webhook_ignores req w :
  rq_SubResource req ≠ "" ∨
  (rq_Resource req ≠ "pods" ∧ rq_Resource req ≠ "virtualmachineinstances") ∨
  (EnableVMIPersistence config = false ∧ EnableStatefulSetPersistence config = false) ∨
  (rq_Operation req ≠ OperationCreate ∧
    (rq_Resource req = "pods" → ∃ p, DecodePod req = inr p) ∧
    (rq_Resource req = "virtualmachineinstances" → ∃ v, DecodeVMI req = inr v)) →
  handle req w = (Ret (Allowed ""), w).
Proof.
  intros Hcase. unfold Handle. destruct (shouldIgnoreIfNotVMIOrPod req) eqn:Hig; [done|].
  unfold shouldIgnoreIfNotVMIOrPod in Hig. destruct (negb (go_len _ =? 0)%Z) eqn:Hlen; [done|].
  apply negb_false_iff, Z.eqb_eq in Hlen.
  destruct Hcase as [Hsub|[[H1 H2]|[[H1 H2]|(Hop & Hp & Hv)]]].
  - by apply go_len_zero in Hlen.
  - by rewrite !bool_decide_false in Hig.
  - rewrite H1, H2. by repeat case_decide.
  - repeat case_decide; repeat case_match; try done;
      try (destruct Hv as [v Hv]; [done|]; by eapply handleVMI_other).
    destruct Hp as [p Hp]; [done|]. by eapply handlePod_other.
Qed.

(** Whatever the API server answers, handlePodCreate reports no error and leaves a Pod
    that differs from the one it was given in nothing but the address annotation and the
    required node affinity. *)
Theorem pod_create_only_pins p w :
  wp (handlePodCreate p) (λ '(q, e) _, e = None ∧
    only_meta_pinned (pod_ObjectMeta p) (pod_ObjectMeta q) ∧
    only_affinity_pinned (pod_Affinity p) (pod_Affinity q) ∧
    pod_NodeName q = pod_NodeName p ∧ pod_PodIP q = pod_PodIP p ∧ pod_rest q = pod_rest p) w.
Proof.
  destruct (handlePodCreate_run p w) as (st & w' & Hrun & _). unfold wp. rewrite Hrun.
  split_and!; [done|apply pinned_meta_fields|apply pin_node_fields|done..].
Qed.

(** against a reliable server the mutation of a new Pod is idempotent: given the Pod it
    has made (as a reinvoked webhook is), it makes the same Pod again. *)
Theorem pod_create_idempotent p w :
  reliable w →
  wp (let! r1 := handlePodCreate p in
      let! r2 := handlePodCreate r1.1 in
      go_ret (r1, r2)) (λ '(r1, r2) _, r1 = r2) w.
Proof.
  intros Hw. destruct (handlePodCreate_run p w) as (st & w1 & Hrun & Hc & _ & Hrel).
  destruct (Hrel Hw) as [Hw1 Hst].
  destruct (handlePodCreate_run (pinned_pod st p) w1) as (st' & w2 & Hrun' & _ & _ & Hrel').
  destruct (Hrel' Hw1) as [_ Hst'].
  unfold wp, go_bind. rewrite Hrun. simpl. rewrite Hrun'. simpl.
  assert (st' = st) as ->; [|by rewrite pinned_pod_idem].
  rewrite Hst', Hst, Hc. unfold pod_record, pinned_pod. by rewrite getStatefulSetNameFromPod_meta.
Qed.
End theorems.

(** ** The owner of a pod *)

(** getStatefulSetNameFromPod names the first owner of kind StatefulSet; a pod without
    one is attributed by its name, and to [name] exactly when it is called
    [name]-[ordinal] with a non-empty [name] and only digits (none at all, too) after the
    last dash. *)
Theorem statefulset_name_spec p name :
  (∀ o, owner_statefulset (om_OwnerReferences (pod_ObjectMeta p)) = Some o →
    getStatefulSetNameFromPod p = o) ∧
  (owner_statefulset (om_OwnerReferences (pod_ObjectMeta p)) = None →
    (name ≠ "" ∧ getStatefulSetNameFromPod p = name ↔
     name ≠ "" ∧ ∃ ordinal, om_Name (pod_ObjectMeta p) = name +:+ String "-" ordinal ∧
       all_chars is_digit ordinal = true)).
Proof.
  unfold getStatefulSetNameFromPod. split; [by intros o ->|intros ->].
  set (s := om_Name (pod_ObjectMeta p)). split; intros [Hne Hs]; (split; [done|]).
  - case_decide; [by subst|]. destruct (_ >? 0)%Z eqn:Hi; [|by subst].
    destruct (all_chars _ _) eqn:Hd; [|by subst].
    apply Z.gtb_lt in Hi.
    destruct (last_index_byte_inv s "-" _ eq_refl) as (a & b & Hab & Hb & Ha); [lia|].
    rewrite <-Ha in Hs, Hd. rewrite Hab in Hs, Hd. rewrite slice_to_app in Hs. subst a.
    exists b. split; [done|]. by rewrite slice_from_app_sep in Hd.
  - destruct Hs as (ord & Hs & Hd). rewrite Hs.
    assert (has_char "-" ord = false) as Hdash by by apply all_digits_no_dash.
    rewrite last_index_byte_app by done. rewrite decide_False by by destruct name.
    rewrite (proj2 (Z.gtb_lt _ _)).
    + by rewrite slice_from_app_sep, Hd, slice_to_app.
    + unfold go_len. destruct name; [done|]. simpl. lia.
Qed.

(** ** Witnesses *)

(** A server that has recorded web-0. *)
Definition demo_recorded : MemServer :=
  mkMemServer (set_pps {[ ("prod", "web") := demo_state_object demo_states ]} demo_store) [] 0.

Abbreviation demo_handle := (Handle DAllowed DErrored DPatch demo_decode_pod demo_decode_vmi
  demo_marshal_pod demo_marshal_vmi (mkPersistenceConfig true true)).

Lemma pod_creation_is_pinned_witness :
  wp (demo_handle (demo_request "pods")) (λ resp w',
    contents w' = contents demo_recorded ∧
    resp = answer DAllowed DErrored DPatch demo_marshal_pod demo_new_pod
      (pinned_pod (pod_record (contents demo_recorded)
        (target_namespace (demo_request "pods") (pod_ObjectMeta demo_new_pod)) demo_new_pod)
        demo_new_pod)) demo_recorded.
Proof.
  apply (pod_creation_is_pinned DAllowed DErrored DPatch demo_decode_pod demo_decode_vmi
    demo_marshal_pod demo_marshal_vmi (mkPersistenceConfig true true) (demo_request "pods")
    demo_new_pod demo_recorded); done.
Defined.

Lemma vmi_creation_is_pinned_witness :
  wp (demo_handle (demo_request "virtualmachineinstances")) (λ resp w',
    contents w' = contents demo_recorded ∧
    resp = answer DAllowed DErrored DPatch demo_marshal_vmi demo_new_vmi
      (pinned_vmi (vmi_record (contents demo_recorded)
        (target_namespace (demo_request "virtualmachineinstances") (vmi_ObjectMeta demo_new_vmi))
        demo_new_vmi) demo_new_vmi)) demo_recorded.
Proof.
  apply (vmi_creation_is_pinned DAllowed DErrored DPatch demo_decode_pod demo_decode_vmi
    demo_marshal_pod demo_marshal_vmi (mkPersistenceConfig true true)
    (demo_request "virtualmachineinstances") demo_new_vmi demo_recorded); done.
Defined.

Lemma webhook_fails_open_witness :
  wp (demo_handle (demo_request "pods")) (λ resp w', contents w' = contents demo_faulty ∧
    (resp = DAllowed "" ∨ ∃ a b, resp = DPatch a b)) demo_faulty.
Proof.
  apply (webhook_fails_open DAllowed DErrored DPatch demo_decode_pod demo_decode_vmi
    demo_marshal_pod demo_marshal_vmi (mkPersistenceConfig true true) (demo_request "pods") demo_faulty).
  - intros x. by exists "pod".
  - intros x. by exists "vmi".
  - intros _. by exists demo_new_pod.
  - intros _. by exists demo_new_vmi.
Defined.

Lemma webhook_ignores_witness :
  demo_handle (demo_request "services") demo_recorded = (Ret (DAllowed ""), demo_recorded).
Proof.
  apply (webhook_ignores DAllowed DErrored DPatch demo_decode_pod demo_decode_vmi
    demo_marshal_pod demo_marshal_vmi (mkPersistenceConfig true true) (demo_request "services") demo_recorded).
  by right; left.
Defined.

Lemma pod_create_idempotent_witness :
  wp (let! r1 := handlePodCreate demo_new_pod in
      let! r2 := handlePodCreate r1.1 in
      go_ret (r1, r2)) (λ '(r1, r2) _, r1 = r2) demo_recorded.
Proof. apply (pod_create_idempotent demo_new_pod demo_recorded). done. Defined.

(** The response to web-0, evaluated. *)
Example demo_admission :
  fst (handlePodCreate (pod_with demo_new_pod
    (with_namespace "prod" (pod_ObjectMeta demo_new_pod)) None) demo_recorded) =
  Ret (pod_with demo_new_pod
    (with_namespace "prod" (with_annotations
      (Some {[ ip_annotation := ip_annotation_value "10.0.0.1" ]}) (pod_ObjectMeta demo_new_pod)))
    (Some (mkAffinity
      (Some (mkNodeAffinity (Some (mkNodeSelector [node_term "node-1"])) "")) None None)), None).
Proof. vm_compute. reflexivity. Qed.
