(* ===== verification/Crypto.v ===== *)
(** * The certificate library the generator calls

    [crypto/rsa], [crypto/x509], [crypto/tls], [encoding/pem], [net], [time] of Go and
    [k8s.io/client-go/util/cert]: an interface [Crypto] with the operations the program
    uses, and their documented behaviour [CryptoLaws].  [MemCluster] is an instance in which a
    certificate is the list of its fields; it shows that the laws can hold and makes the
    certificate code executable. *)
From S2P Require Export GoStrings.

(** A []byte: nil or its contents. *)
Abbreviation gobytes := (option string).
Definition bytes_len (b : gobytes) : Z := match b with None => 0 | Some s => go_len s end.
Definition bytes_contents (b : gobytes) : string := default "" b.

(** cert.AltNames and cert.Config of client-go. *)
Record AltNames := mkAltNames { an_IPs : list string; an_DNSNames : list string }.
Record CertConfig := mkCertConfig {
  cfg_CommonName : string; cfg_Organization : list string;
  cfg_AltNames : AltNames; cfg_Usages : list Z }.

(** The fields of the x509.Certificate template the program fills in; times in seconds. *)
Record CertTemplate := mkCertTemplate {
  tm_CommonName : string; tm_Organization : list string;
  tm_DNSNames : list string; tm_IPAddresses : list string;
  tm_SerialNumber : Z; tm_NotBefore : Z; tm_NotAfter : Z;
  tm_KeyUsage : Z; tm_ExtKeyUsage : list Z }.

(** The dynamic type of a parsed private key. *)
Inductive ParsedKey (K : Type) := RSAKey (k : K) | OtherKey.
Arguments RSAKey {K} k.
Arguments OtherKey {K}.

(** Every operation with a result that can fail returns the message of its error. *)
Class Crypto (W : Type) := {
  PrivateKey : Type;
  Certificate : Type;
  CertPool : Type;
  cert_NotBefore : Certificate → Z;
  cert_NotAfter : Certificate → Z;
  cert_DNSNames : Certificate → list string;
  cert_IPAddresses : Certificate → list string;
  cert_KeyUsage : Certificate → Z;
  (** the test of x509's CheckSignatureFrom on a signer: an X.509 v3 certificate has the basic
      constraints with CA:TRUE *)
  cert_AllowsCA : Certificate → bool;
  (** what x509's checkChainForKeyUsage asks of every certificate of a chain: it lists no
      extended key usage, or this one, or any *)
  cert_UsageAllowed : Certificate → Z → bool;
  (** it has name constraints, or a critical extension that x509 does not know *)
  cert_Constrained : Certificate → bool;
  cert_Raw : Certificate → string;
  (** rsa.GenerateKey(cryptorand.Reader, bits), cryptorand.Int, time.Now *)
  GenerateKey : Z → GoM W (string + PrivateKey);
  RandInt : Z → GoM W (string + Z);
  Now : GoM W Z;
  AddDate : Z → Z → Z → Z → Z;
  (** net.ParseIP and net.IP.To4: None is the nil IP; an IP is its text. *)
  ParseIP : string → option string;
  To4 : string → option string;
  NewSelfSignedCACert : CertConfig → PrivateKey → GoM W (string + Certificate);
  CreateCertificate : CertTemplate → Certificate → PrivateKey → PrivateKey → GoM W (string + string);
  ParseCertificate : string → string + Certificate;
  MarshalPKCS1PrivateKey : PrivateKey → string;
  ParsePrivateKeyPEM : string → string + ParsedKey PrivateKey;
  ParseCertsPEM : string → string + list Certificate;
  pem_EncodeToMemory : string → string → string;
  pem_Decode : string → option string;
  X509KeyPair : string → string → option string;
  (** x509.NewCertPool with AppendCertsFromPEM: None when it reports false. *)
  AppendCertsFromPEM : string → option CertPool;
  Verify : Certificate → string → CertPool → Z → option string }.

Definition RSAPrivateKeyBlockType : string := "RSA PRIVATE KEY".
Definition CertificateBlockType : string := "CERTIFICATE".
Definition ExtKeyUsageServerAuth : Z := 1.

Section encoders.
Context {W : Type} `{!Crypto W}.

(** EncodePrivateKeyPEM and EncodeCertPEM of the generator package. *)
Definition EncodePrivateKeyPEM (key : PrivateKey) : gobytes :=
  Some (pem_EncodeToMemory RSAPrivateKeyBlockType (MarshalPKCS1PrivateKey key)).
Definition EncodeCertPEM (ct : Certificate) : gobytes :=
  Some (pem_EncodeToMemory CertificateBlockType (cert_Raw ct)).
End encoders.

(** Ten times 365 days, in seconds. *)
Definition ten_years : Z := 60 * 60 * 24 * 365 * 10.

(** The names a certificate serves: an address is looked for among its addresses, anything
    else (a bracketed address and the root domain apart) among its DNS names. *)
Definition serves {W} `{!Crypto W} (c : Certificate) (name : string) : Prop :=
  match ParseIP name with
  | Some ip => default ip (To4 ip) ∈ cert_IPAddresses c
  | None => has_char "[" name = false ∧ name ≠ "." ∧ name ∈ cert_DNSNames c
  end.

Definition in_window {W} `{!Crypto W} (c : Certificate) (t : Z) : Prop :=
  (cert_NotBefore c ≤ t ≤ cert_NotAfter c)%Z.

(** The certificates of servers that [ca] signs are accepted by who trusts [ca]: it is a CA, its
    key may sign certificates, and neither its extended key usages nor name constraints (nor an
    unknown critical extension) stand in the way. *)
Definition may_issue {W} `{!Crypto W} (ca : Certificate) : Prop :=
  cert_AllowsCA ca = true ∧ (cert_KeyUsage ca = 0%Z ∨ Z.testbit (cert_KeyUsage ca) 5 = true) ∧
  cert_UsageAllowed ca ExtKeyUsageServerAuth = true ∧ cert_Constrained ca = false.

(** [clock w] is the time in world [w]; [key_of c k]: the public key in [c] is [k]'s;
    [signed_by ca c]: the signature of [c] checks with the key in [ca]. *)
Class CryptoLaws (W : Type) `{!Crypto W} := {
  clock : W → Z;
  key_of : Certificate → PrivateKey → Prop;
  signed_by : Certificate → Certificate → Prop;
  now_law w : wp Now (λ t w', t = clock w' ∧ (clock w ≤ t)%Z) w;
  add_date_law t y m d : (0 ≤ y)%Z → (0 ≤ m)%Z → (0 ≤ d)%Z →
    (t + 365 * y * 86400 ≤ AddDate t y m d ≤ t + (366 * y + 31 * m + 3 + d) * 86400)%Z;
  generate_key_law bits w : wp (GenerateKey bits) (λ _ w', (clock w ≤ clock w')%Z) w;
  rand_int_law bound w : wp (RandInt bound) (λ _ w', (clock w ≤ clock w')%Z) w;
  self_signed_law cfg k w : wp (NewSelfSignedCACert cfg k) (λ r w',
    (clock w ≤ clock w')%Z ∧
    ∀ c, r = inr c → key_of c k ∧ signed_by c c ∧ (cert_NotBefore c ≤ clock w')%Z ∧
      (clock w + ten_years ≤ cert_NotAfter c)%Z ∧ may_issue c) w;
  create_certificate_law tmpl ca pub signer w : wp (CreateCertificate tmpl ca pub signer) (λ r w',
    (clock w ≤ clock w')%Z ∧
    ∀ der, r = inr der → key_of ca signer →
      ∃ c, ParseCertificate der = inr c ∧ key_of c pub ∧ signed_by ca c ∧
        cert_DNSNames c = tm_DNSNames tmpl ∧ cert_IPAddresses c = tm_IPAddresses tmpl ∧
        cert_NotBefore c = tm_NotBefore tmpl ∧ cert_NotAfter c = tm_NotAfter tmpl ∧
        (∀ usage, usage ∈ tm_ExtKeyUsage tmpl → cert_UsageAllowed c usage = true)) w;
  parse_raw c : ParseCertificate (cert_Raw c) = inr c;
  pem_decode_encode ty der : pem_Decode (pem_EncodeToMemory ty der) = Some der;
  (** what the three readers of PEM agree on *)
  key_pair_encoded c k : X509KeyPair (bytes_contents (EncodeCertPEM c))
      (bytes_contents (EncodePrivateKeyPEM k)) = None ↔ key_of c k;
  key_pair_parsed s k c key : X509KeyPair s k = None → ParseCertsPEM s = inr [c] →
    ParsePrivateKeyPEM k = inr (RSAKey key) → key_of c key;
  parse_certs_decode s c der : ParseCertsPEM s = inr [c] → pem_Decode s = Some der →
    ParseCertificate der = inr c;
  (** The pool of one certificate: what it signs is accepted if it may sign it; and if it is
      not a CA, nothing else is accepted than itself. *)
  append_encoded ca : ∃ pool, AppendCertsFromPEM (bytes_contents (EncodeCertPEM ca)) = Some pool ∧
    (∀ c name t, signed_by ca c → may_issue ca → cert_UsageAllowed c ExtKeyUsageServerAuth = true →
      in_window ca t → in_window c t → serves c name → Verify c name pool t = None) ∧
    (∀ c name t, Verify c name pool t = None → c = ca ∨ cert_AllowsCA ca = true);
  verify_in_window s pool c t : AppendCertsFromPEM s = Some pool → Verify c "" pool t = None →
    in_window c t }.
#[global] Hint Mode CryptoLaws ! - : typeclass_instances.

(** ** Consequences *)

(** Six months after [t2] still comes before one year after [t1]. *)
Definition days (n : Z) : Z := n * 86400.

Lemma half_year_before_year {W} `{!Crypto W, !CryptoLaws W} t1 t2 :
  (t1 ≤ t2 ≤ t1 + days 150)%Z →
  (t1 ≤ AddDate t2 0 6 0)%Z ∧ (AddDate t2 0 6 0 ≤ AddDate t1 1 0 0)%Z ∧
  (AddDate t2 0 6 0 ≤ t1 + ten_years)%Z.
Proof.
  intros Ht. unfold days, ten_years in *.
  pose proof (add_date_law t2 0 6 0 ltac:(done) ltac:(done) ltac:(done)).
  pose proof (add_date_law t1 1 0 0 ltac:(done) ltac:(done) ltac:(done)). lia.
Qed.
