(* ===== verification/Generator.v ===== *)
(** * The certificate generator: [internal/webhook/util/generator]

    [selfsigned.go], [util.go] and [certgenerator.go]: a self-signed CA that signs the
    serving certificate of the webhook, reused as long as it stays valid for a year. *)
From S2P Require Export Crypto.

(** generator.Artifacts *)
Record Artifacts := mkArtifacts {
  art_Key : gobytes; art_Cert : gobytes; art_CAKey : gobytes; art_CACert : gobytes;
  art_ResourceVersion : string }.

#[global] Instance Artifacts_eq_dec : EqDecision Artifacts.
Proof. solve_decision. Defined.

(** The interface CertGenerator: its state is part of the world. *)
Class CertGenerator (W : Type) := {
  Generate : string → GoM W (string + Artifacts);
  SetCA : gobytes → gobytes → GoM W () }.

Definition ServiceToCommonName (serviceNamespace serviceName : string) : string :=
  serviceName +:+ "." +:+ serviceNamespace +:+ ".svc".

Definition rsaKeySize : Z := 2048.
Definition MaxInt64 : Z := 2 ^ 63 - 1.
Definition KeyUsageDigitalSignature : Z := Z.shiftl 1 0.
Definition KeyUsageKeyEncipherment : Z := Z.shiftl 1 2.

(** SelfSignedCertGenerator *)
Record SelfSignedCertGenerator := mkSelfSignedCertGenerator { caKey : gobytes; caCert : gobytes }.

(** errors.New and fmt.Errorf("<prefix>: %v", err) *)
Definition wrap {A} (prefix : string) (r : string + A) : string + A :=
  match r with inl err => inl (prefix +:+ ": " +:+ err) | inr a => inr a end.

(** if err != nil { return nil, err } *)
Definition try {W A B} (m : GoM W (string + A)) (k : A → GoM W (string + B)) : GoM W (string + B) :=
  let! r := m in match r with inl err => go_ret (inl err) | inr a => k a end.

Section generator.
Context {W : Type} `{!Crypto W}.

(** func ValidCACert(key, cert, caCert, dnsName, time) *)
Definition ValidCACert (key cert caCert : gobytes) (dnsName : string) (time : Z) : bool :=
  if (bytes_len key =? 0)%Z || (bytes_len cert =? 0)%Z || (bytes_len caCert =? 0)%Z then false
  else
    match X509KeyPair (bytes_contents cert) (bytes_contents key) with
    | Some _ => false
    | None =>
        match AppendCertsFromPEM (bytes_contents caCert) with
        | None => false
        | Some pool =>
            match pem_Decode (bytes_contents cert) with
            | None => false
            | Some block =>
                match ParseCertificate block with
                | inl _ => false
                | inr c => is_nil (Verify c dnsName pool time)
                end
            end
        end
    end.

(** func NewPrivateKey *)
Definition NewPrivateKey : GoM W (string + PrivateKey) := GenerateKey rsaKeySize.

(** func NewSignedCert *)
Definition signed_template (cfg : CertConfig) (serial notBefore now : Z) : CertTemplate :=
  mkCertTemplate (cfg_CommonName cfg) (cfg_Organization cfg)
    (an_DNSNames (cfg_AltNames cfg)) (an_IPs (cfg_AltNames cfg)) serial notBefore
    (now + 60 * 60 * 24 * 365 * 10)
    (Z.lor KeyUsageKeyEncipherment KeyUsageDigitalSignature) (cfg_Usages cfg).

Definition NewSignedCert (cfg : CertConfig) (key : PrivateKey) (caCert : Certificate)
    (caKey : PrivateKey) : GoM W (string + Certificate) :=
  try (RandInt MaxInt64) (λ serial,
    if (go_len (cfg_CommonName cfg) =? 0)%Z then go_ret (inl "must specify a CommonName")
    else if (Z.of_nat (length (cfg_Usages cfg)) =? 0)%Z
    then go_ret (inl "must specify at least one ExtKeyUsage")
    else
      let! now := Now in
      try (CreateCertificate (signed_template cfg serial (cert_NotBefore caCert) now)
             caCert key caKey) (λ certDERBytes,
        go_ret (ParseCertificate certDERBytes))).

(** func (cp *SelfSignedCertGenerator) validCACert *)
Definition validCACert (cp : SelfSignedCertGenerator) : GoM W (option (PrivateKey * Certificate)) :=
  let! now := Now in
  go_ret
    (if negb (ValidCACert (caKey cp) (caCert cp) (caCert cp) "" (AddDate now 1 0 0)) then None
     else
       match ParsePrivateKeyPEM (bytes_contents (caKey cp)) with
       | inl _ | inr OtherKey => None
       | inr (RSAKey privateKey) =>
           match ParseCertsPEM (bytes_contents (caCert cp)) with
           | inl _ => None
           | inr [c] => Some (privateKey, c)
           | inr _ => None
           end
       end).

(** The names of the serving certificate: localhost, and the common name as an address or
    as a name. *)
Definition alt_names (commonName : string) : AltNames :=
  match ParseIP commonName ≫= To4 with
  | Some ip => mkAltNames [ip] ["localhost"]
  | None => mkAltNames [] ["localhost"; commonName]
  end.

(** The CA that signs: the one that was set if it is valid, else a new one. *)
Definition signing_CA (cp : SelfSignedCertGenerator) : GoM W (string + (PrivateKey * Certificate)) :=
  let! valid := validCACert cp in
  match valid with
  | Some ca => go_ret (inr ca)
  | None =>
      let! k := NewPrivateKey in
      try (go_ret (wrap "failed to create the CA private key" k)) (λ signingKey,
        let! c := NewSelfSignedCACert
          (mkCertConfig "webhook-cert-ca" [] (mkAltNames [] []) []) signingKey in
        try (go_ret (wrap "failed to create the CA cert" c)) (λ signingCert,
          go_ret (inr (signingKey, signingCert))))
  end.

(** func (cp *SelfSignedCertGenerator) Generate *)
Definition SelfSigned_Generate (cp : SelfSignedCertGenerator) (commonName : string)
    : GoM W (string + Artifacts) :=
  try (signing_CA cp) (λ '(signingKey, signingCert),
    let! k := NewPrivateKey in
    try (go_ret (wrap "failed to create the private key" k)) (λ key,
      let! s := NewSignedCert
        (mkCertConfig commonName [] (alt_names commonName) [ExtKeyUsageServerAuth])
        key signingCert signingKey in
      try (go_ret (wrap "failed to create the cert" s)) (λ signedCert,
        go_ret (inr (mkArtifacts (EncodePrivateKeyPEM key) (EncodeCertPEM signedCert)
                       (EncodePrivateKeyPEM signingKey) (EncodeCertPEM signingCert) ""))))).
End generator.

(** The generator as the implementation of the interface: its fields are the state. *)
#[global] Instance self_signed_generator {W} `{!Crypto W} :
    CertGenerator (SelfSignedCertGenerator * W) := {
  Generate commonName := λ '(cp, w),
    let '(o, w') := SelfSigned_Generate cp commonName w in (o, (cp, w'));
  SetCA key cert := λ '(cp, w), (Ret (), (mkSelfSignedCertGenerator key cert, w)) }.
