(* ===== verification/GeneratorFacts.v ===== *)
(** * What the certificate generator produces *)
From S2P Require Export Generator.

(** ** The [try] of error values *)
Section try.
Context {W : Type}.

Lemma wp_try {A B} (m : GoM W (string + A)) (k : A → GoM W (string + B)) (Q : string + B → W → Prop) w :
  wp m (λ r w', match r with inl err => Q (inl err) w' | inr a => wp (k a) Q w' end) w →
  wp (try m k) Q w.
Proof. intros Hm. apply wp_bind. eapply wp_mono; [exact Hm|]. by intros [err|a] w'. Qed.

Lemma wrap_inr {A} prefix (r : string + A) a : wrap prefix r = inr a → r = inr a.
Proof. destruct r; simpl; congruence. Qed.
End try.

(** ** Validity, as a function of the time it is checked at *)
Section validity.
Context {W : Type} `{!Crypto W}.

Definition pair_ok (cert key caCert : string) (dnsName : string) (t : Z) : bool :=
  match X509KeyPair cert key with
  | Some _ => false
  | None =>
      match AppendCertsFromPEM caCert, pem_Decode cert with
      | Some pool, Some block =>
          match ParseCertificate block with
          | inl _ => false
          | inr c => is_nil (Verify c dnsName pool t)
          end
      | _, _ => false
      end
  end.

Lemma ValidCACert_pair_ok key cert caCert dnsName t :
  ValidCACert key cert caCert dnsName t = true →
  pair_ok (bytes_contents cert) (bytes_contents key) (bytes_contents caCert) dnsName t = true.
Proof. unfold ValidCACert, pair_ok. repeat (case_match; try done). Qed.

Context `{!CryptoLaws W}.

(** A serving certificate signed by a CA that may issue it checks as long as both windows are
    open. *)
Lemma pair_ok_encoded c key ca name t :
  key_of c key → signed_by ca c → may_issue ca → cert_UsageAllowed c ExtKeyUsageServerAuth = true →
  in_window ca t → in_window c t → serves c name →
  pair_ok (bytes_contents (EncodeCertPEM c)) (bytes_contents (EncodePrivateKeyPEM key))
    (bytes_contents (EncodeCertPEM ca)) name t = true.
Proof.
  intros Hkey Hsig Hissue Husage Hca Hc Hname. unfold pair_ok.
  rewrite (proj2 (key_pair_encoded c key) Hkey).
  destruct (append_encoded ca) as (pool & -> & Hverify & _). simpl.
  rewrite pem_decode_encode, parse_raw. by rewrite Hverify.
Qed.

(** Nothing that a certificate without CA:TRUE signs does. *)
Lemma pair_ok_not_CA c key ca name t :
  cert_AllowsCA ca = false → c ≠ ca →
  pair_ok (bytes_contents (EncodeCertPEM c)) key (bytes_contents (EncodeCertPEM ca)) name t = false.
Proof.
  intros Hno Hne. unfold pair_ok. destruct (X509KeyPair _ _); [done|].
  destruct (append_encoded ca) as (pool & -> & _ & Hneeds). simpl.
  rewrite pem_decode_encode, parse_raw. destruct (Verify c name pool t) eqn:Hv; [done|].
  destruct (Hneeds c name t Hv) as [?|Hyes]; [done|]. by rewrite Hno in Hyes.
Qed.

(** The CA in a state, once accepted: its key, and its window at the time of the check. *)
Lemma accepted_CA cp key ca t :
  ValidCACert (caKey cp) (caCert cp) (caCert cp) "" t = true →
  ParsePrivateKeyPEM (bytes_contents (caKey cp)) = inr (RSAKey key) →
  ParseCertsPEM (bytes_contents (caCert cp)) = inr [ca] →
  key_of ca key ∧ in_window ca t.
Proof.
  intros Hok%ValidCACert_pair_ok Hkey Hca. unfold pair_ok in Hok.
  destruct (X509KeyPair _ _) eqn:Hpair; [done|].
  destruct (AppendCertsFromPEM _) as [pool|] eqn:Hpool; [|done].
  destruct (pem_Decode _) as [der|] eqn:Hder; [|done].
  rewrite (parse_certs_decode _ _ _ Hca Hder) in Hok.
  destruct (Verify ca "" pool t) eqn:Hv; [done|].
  split; [by eapply key_pair_parsed|by eapply verify_in_window].
Qed.

(** What the signing CA of a run is: its own key, valid for the year to come, and either the
    one that was set or a new one. *)
Lemma validCACert_wp cp w :
  wp (validCACert cp) (λ r w', (clock w ≤ clock w')%Z ∧
    ∀ key ca, r = Some (key, ca) → key_of ca key ∧
      ParseCertsPEM (bytes_contents (caCert cp)) = inr [ca] ∧
      ∃ n, (clock w ≤ n ≤ clock w')%Z ∧ in_window ca (AddDate n 1 0 0)) w.
Proof.
  unfold validCACert. apply wp_bind. wp_call now_law. intros n w' [-> Hle].
  apply wp_ret. split; [done|]. intros key ca Hr.
  destruct (ValidCACert _ _ _ _ _) eqn:Hok; simpl in Hr; [|done].
  destruct (ParsePrivateKeyPEM _) as [|[k|]] eqn:Hk; try done.
  destruct (ParseCertsPEM _) as [|[|c []]] eqn:Hc; try done. simplify_eq.
  destruct (accepted_CA _ _ _ _ Hok Hk Hc) as [Hkey Hwin].
  split_and!; [done|done|]. exists (clock w'). split; [lia|done].
Qed.

(** The certificate in these bytes, if they hold one, is a CA that may issue certificates of
    servers and does not start later than the present. *)
Definition ca_usable (ca : gobytes) (w : W) : Prop :=
  ∀ c, ParseCertsPEM (bytes_contents ca) = inr [c] → (cert_NotBefore c ≤ clock w)%Z ∧ may_issue c.

(** The state holds no other. *)
Definition CA_usable (cp : SelfSignedCertGenerator) (w : W) : Prop := ca_usable (caCert cp) w.

Lemma ca_usable_mono ca w w' : (clock w ≤ clock w')%Z → ca_usable ca w → ca_usable ca w'.
Proof. intros Hle Hca c Hc. destruct (Hca c Hc). split; [lia|done]. Qed.

Lemma CA_usable_mono cp w w' : (clock w ≤ clock w')%Z → CA_usable cp w → CA_usable cp w'.
Proof. apply ca_usable_mono. Qed.

(** A CA encoded by the generator reads back as itself. *)
Lemma encoded_ca_usable ca w :
  (cert_NotBefore ca ≤ clock w)%Z → may_issue ca → ca_usable (EncodeCertPEM ca) w.
Proof.
  intros Hle Hissue c Hc. unfold EncodeCertPEM in Hc. simpl in Hc.
  pose proof (parse_certs_decode _ _ _ Hc (pem_decode_encode _ _)) as Hp.
  rewrite parse_raw in Hp. by injection Hp as <-.
Qed.

Lemma signing_CA_wp cp w :
  CA_usable cp w →
  wp (signing_CA cp) (λ r w', (clock w ≤ clock w')%Z ∧
    ∀ key ca, r = inr (key, ca) → key_of ca key ∧ (cert_NotBefore ca ≤ clock w')%Z ∧ may_issue ca ∧
      ∀ t, (clock w' ≤ t ≤ clock w + days 150)%Z → in_window ca (AddDate t 0 6 0)) w.
Proof.
  intros Hstart. unfold signing_CA. apply wp_bind. eapply wp_mono; [apply validCACert_wp|].
  intros [[key ca]|] w1 [Hle Hca].
  - apply wp_ret. split; [done|]. intros key' ca' [= <- <-].
    destruct (Hca key ca eq_refl) as (Hkey & Hparse & n & Hn & Hwin).
    destruct (Hstart ca Hparse) as [Hnb Hissue]. split_and!; [done|lia|done|]. intros t Ht.
    destruct (half_year_before_year n t) as (H1 & H2 & _); [lia|].
    unfold in_window in *. lia.
  - apply wp_bind. wp_call generate_key_law. intros k w2 Hle2.
    apply wp_try, wp_ret. destruct (wrap _ k) as [err|key] eqn:Hk; [by split; [lia|]|].
    apply wp_bind. wp_call self_signed_law. intros c w3 [Hle3 Hc].
    apply wp_try, wp_ret. destruct (wrap _ c) as [err|ca] eqn:Hcc; [by split; [lia|]|].
    apply wp_ret. split; [lia|]. intros key' ca' [= <- <-].
    destruct (Hc ca (wrap_inr _ _ _ Hcc)) as (Hkey & _ & Hnb & Hna & Hissue).
    split_and!; [done|done|done|]. intros t Ht.
    destruct (half_year_before_year (clock w2) t) as (H1 & _ & H2); [lia|].
    unfold in_window. pose proof (add_date_law t 0 6 0 ltac:(done) ltac:(done) ltac:(done)). lia.
Qed.

(** ** The serving certificate *)

(** [dnsName] can be served: it is a host name, or an IPv4 address. *)
Definition servable (dnsName : string) : Prop :=
  match ParseIP dnsName with
  | Some ip => ∃ ip4, To4 ip = Some ip4
  | None => has_char "[" dnsName = false ∧ dnsName ≠ "."
  end.

Lemma alt_names_serve c name :
  servable name →
  cert_DNSNames c = an_DNSNames (alt_names name) →
  cert_IPAddresses c = an_IPs (alt_names name) → serves c name.
Proof.
  unfold servable, serves, alt_names. intros Hs. destruct (ParseIP name) as [ip|]; simpl.
  - destruct Hs as [ip4 ->]. simpl. intros _ ->. set_solver.
  - destruct Hs as [Hb Hdot]. intros -> _. split_and!; [done|done|]. set_solver.
Qed.

Lemma NewSignedCert_wp cfg key ca signer w :
  key_of ca signer →
  wp (NewSignedCert cfg key ca signer) (λ r w', (clock w ≤ clock w')%Z ∧
    ∀ c, r = inr c → key_of c key ∧ signed_by ca c ∧
      cert_DNSNames c = an_DNSNames (cfg_AltNames cfg) ∧
      cert_IPAddresses c = an_IPs (cfg_AltNames cfg) ∧
      cert_NotBefore c = cert_NotBefore ca ∧ (clock w + ten_years ≤ cert_NotAfter c)%Z ∧
      (∀ usage, usage ∈ cfg_Usages cfg → cert_UsageAllowed c usage = true)) w.
Proof.
  intros Hca. unfold NewSignedCert. apply wp_try. wp_call rand_int_law. intros serial w1 Hle1.
  destruct serial as [err|serial]; [by split|].
  destruct (_ =? 0)%Z; [by apply wp_ret|]. destruct (_ =? 0)%Z; [by apply wp_ret|].
  apply wp_bind. wp_call now_law. intros n w2 [-> Hle2].
  apply wp_try. wp_call create_certificate_law. intros der w3 [Hle3 Hder].
  destruct der as [err|der]; [split; [lia|done]|]. apply wp_ret. split; [lia|].
  destruct (Hder der eq_refl Hca) as (c & -> & Hkey & Hsig & Hdns & Hips & Hnb & Hna & Husage).
  intros c' [= <-]. split_and!; try done. rewrite Hna. simpl. unfold ten_years. lia.
Qed.

(** Whether artifacts pass [validCert] when it is checked at [t]. *)
Definition cert_ok (a : option Artifacts) (dnsName : string) (t : Z) : bool :=
  match a with
  | None => false
  | Some a =>
      match art_Cert a, art_Key a, art_CACert a with
      | Some cert, Some key, Some caCert => pair_ok cert key caCert dnsName t
      | _, _, _ => false
      end
  end.

(** Artifacts generated between [t1] and [t2] pass for the months to come. *)
Definition stays_valid (a : option Artifacts) (dnsName : string) (t1 t2 : Z) : Prop :=
  ∀ t, (t2 ≤ t ≤ t1 + days 150)%Z → cert_ok a dnsName (AddDate t 0 6 0) = true.

(** Every part is there. *)
Definition filled (a : Artifacts) : Prop :=
  is_Some (art_Key a) ∧ is_Some (art_Cert a) ∧ is_Some (art_CAKey a) ∧ is_Some (art_CACert a).

Lemma SelfSigned_Generate_wp cp name w :
  CA_usable cp w → servable name →
  wp (SelfSigned_Generate cp name) (λ r w', (clock w ≤ clock w')%Z ∧
    ∀ a, r = inr a → art_ResourceVersion a = "" ∧ stays_valid (Some a) name (clock w) (clock w') ∧
      filled a ∧ ∃ ca, art_CACert a = EncodeCertPEM ca ∧ (cert_NotBefore ca ≤ clock w')%Z ∧ may_issue ca) w.
Proof.
  intros Hstart Hname. unfold SelfSigned_Generate. apply wp_try.
  wp_call signing_CA_wp; [done|]. intros r w1 [Hle1 Hca].
  destruct r as [err|[signer ca]]; [by split|].
  destruct (Hca signer ca eq_refl) as (Hsigner & Hnb & Hissue & Hwin).
  apply wp_bind. wp_call generate_key_law. intros k w2 Hle2. apply wp_try, wp_ret.
  destruct (wrap _ k) as [err|key]; [split; [lia|done]|].
  apply wp_bind. wp_call NewSignedCert_wp; [done|]. intros s w3 [Hle3 Hs]. apply wp_try, wp_ret.
  destruct (wrap _ s) as [err|c] eqn:Hc; [split; [lia|done]|].
  destruct (Hs c (wrap_inr _ _ _ Hc)) as (Hkey & Hsig & Hdns & Hips & Hnbc & Hnac & Husage).
  apply wp_ret. split; [lia|]. intros a [= <-].
  split; [done|]. split; [|split; [by split_and!|exists ca; split_and!; [done|lia|done]]].
  intros t Ht. specialize (Hwin t ltac:(lia)).
  apply (pair_ok_encoded c key ca); try done.
  - apply Husage. simpl. set_solver.
  - unfold in_window in *. rewrite Hnbc.
    destruct (half_year_before_year (clock w) t) as (_ & _ & H2); [lia|]. lia.
  - by apply alt_names_serve.
Qed.
End validity.
