(* ===== verification/CertWriter.v ===== *)
(** * Certificate writers: [internal/webhook/util/writer]

    [certwriter.go] and [error.go]: the logic shared by the two writers, over the interface
    [certReadWriter] that they implement. *)
From S2P Require Export Generator.

Definition CAKeyName : string := "ca-key.pem".
Definition CACertName : string := "ca-cert.pem".
Definition ServerKeyName : string := "key.pem".
Definition ServerKeyName2 : string := "tls.key".
Definition ServerCertName : string := "cert.pem".
Definition ServerCertName2 : string := "tls.crt".

(** The dynamic types of the errors: notFoundError, alreadyExistError, any other. *)
Inductive CertError :=
| notFoundError (err : string) | alreadyExistError (err : string) | otherError (err : string).

Definition isNotFound (err : option CertError) : bool :=
  match err with Some (notFoundError _) => true | _ => false end.
Definition isAlreadyExists (err : option CertError) : bool :=
  match err with Some (alreadyExistError _) => true | _ => false end.

(** What the methods return: a *generator.Artifacts, which may be nil, and an error. *)
Abbreviation cert_result := (option Artifacts * option CertError)%type.

Record certReadWriter (W : Type) := mkCertReadWriter {
  cw_read : GoM W cert_result;
  cw_write : GoM W cert_result;
  cw_overwrite : string → GoM W cert_result }.
Arguments mkCertReadWriter {W} _ _ _.
Arguments cw_read {W} _.
Arguments cw_write {W} _.
Arguments cw_overwrite {W} _ _.

Section writer.
Context {W : Type} `{!Crypto W}.

Definition createIfNotExists (ch : certReadWriter W) : GoM W (option Artifacts * bool * option CertError) :=
  let! (certs, err) := cw_read ch in
  if isNotFound err then
    let! (certs, err) := cw_write ch in
    if isAlreadyExists err then
      let! (certs, err) := cw_read ch in go_ret (certs, true, err)
    else go_ret (certs, true, err)
  else go_ret (certs, false, err).

(** Now().AddDate(0, 6, 0) is the time the certificate is verified at. *)
Definition validCert (certs : option Artifacts) (dnsName : string) : GoM W bool :=
  match certs with
  | None => go_ret false
  | Some certs =>
      match art_Cert certs, art_Key certs, art_CACert certs with
      | Some cert, Some key, Some caCert =>
          match X509KeyPair cert key with
          | Some _ => go_ret false
          | None =>
              match AppendCertsFromPEM caCert with
              | None => go_ret false
              | Some pool =>
                  match pem_Decode cert with
                  | None => go_ret false
                  | Some block =>
                      match ParseCertificate block with
                      | inl _ => go_ret false
                      | inr c =>
                          let! now := Now in
                          go_ret (is_nil (Verify c dnsName pool (AddDate now 0 6 0)))
                      end
                  end
              end
          end
      | _, _, _ => go_ret false
      end
  end.

Definition handleCommon (dnsName : string) (ch : option (certReadWriter W))
    : GoM W (option Artifacts * bool * option CertError) :=
  if (go_len dnsName =? 0)%Z then go_ret (None, false, Some (otherError "dnsName should not be empty"))
  else
    match ch with
    | None => go_ret (None, false, Some (otherError "certReaderWriter should not be nil"))
    | Some ch =>
        let! (certs, changed, err) := createIfNotExists ch in
        match err with
        | Some _ => go_ret (None, changed, err)
        | None =>
            let! valid := validCert certs dnsName in
            if negb valid then
              match certs with
              | None => go_panic "invalid memory address or nil pointer dereference"
              | Some old =>
                  let! (certs, err) := cw_overwrite ch (art_ResourceVersion old) in
                  match err with
                  | Some _ => go_ret (None, false, err)
                  | None => go_ret (certs, true, None)
                  end
              end
            else go_ret (certs, changed, None)
        end
    end.
End writer.
