(* ===== verification/CertWriterFacts.v ===== *)
(** * What a certificate writer promises

    [certReadWriterLaws]: the contract between the shared logic of [certwriter.go] and a
    store of certificates, interference by other replicas included.  [handleCommon] is
    verified against it; each writer discharges it. *)
From S2P Require Export CertWriter GeneratorFacts.

(** ** Artifacts up to the resource version the server gave them *)
Definition same_certs (a b : Artifacts) : Prop :=
  art_Key a = art_Key b ∧ art_Cert a = art_Cert b ∧ art_CAKey a = art_CAKey b ∧
  art_CACert a = art_CACert b.

#[export] Instance same_certs_equiv : Equivalence same_certs.
Proof.
  split.
  - by intros a.
  - intros a b (? & ? & ? & ?). by split_and!.
  - intros a b c (? & ? & ? & ?) (? & ? & ? & ?). split_and!; congruence.
Qed.

Definition same_certs_opt : relation (option Artifacts) := option_Forall2 same_certs.
#[export] Instance same_certs_opt_equiv : Equivalence same_certs_opt.
Proof. unfold same_certs_opt. apply _. Qed.

#[export] Instance cert_ok_proper {W} `{!Crypto W} :
  Proper (same_certs_opt ==> eq ==> eq ==> eq) cert_ok.
Proof.
  intros x y Hxy name ? <- t ? <-. destruct Hxy as [a b (Hk & Hc & _ & Hca)|]; [|done].
  simpl. by rewrite Hk, Hc, Hca.
Qed.

#[export] Instance stays_valid_proper {W} `{!Crypto W} :
  Proper (same_certs_opt ==> eq ==> eq ==> eq ==> iff) stays_valid.
Proof.
  intros x y Hxy name ? <- t1 ? <- t2 ? <-. unfold stays_valid.
  by split; intros Hf t Ht; [rewrite <-Hxy|rewrite Hxy]; apply Hf.
Qed.

(** ** The contract *)
Section contract.
Context {W : Type} `{!Crypto W, !CryptoLaws W}.

(** [rw_stored w]: the certificates the store holds in world [w].  [rw_rely]: what others
    may do to the store between two of our actions.  [rw_inv]: an invariant of the world
    that reads and successful writes keep.  [rw_guar]: what an operation may do to the
    world, even one that fails. *)
Class certReadWriterLaws (ch : certReadWriter W) (dnsName : string) := {
  rw_stored : W → option Artifacts;
  rw_rely : W → W → Prop;
  rw_inv : W → Prop;
  rw_guar : W → W → Prop;
  rw_guar_pre : PreOrder rw_guar;
  rw_now w : wp Now (λ _ w', rw_stored w' = rw_stored w ∧ (rw_inv w → rw_inv w') ∧ rw_guar w w') w;
  rw_read w : rw_inv w → wp (cw_read ch) (λ '(c, e) w',
    rw_inv w' ∧ rw_guar w w' ∧ (clock w ≤ clock w')%Z ∧
    ∃ w1, rw_rely w w1 ∧ rw_stored w' = rw_stored w1 ∧
    match e with
    | None => is_Some c ∧ rw_stored w1 = c
    | Some _ => isNotFound e = true → rw_stored w1 = None
    end) w;
  rw_write w : rw_inv w → wp (cw_write ch) (λ '(c, e) w',
    rw_guar w w' ∧ (clock w ≤ clock w')%Z ∧
    match e with
    | None => rw_inv w' ∧ is_Some c ∧ same_certs_opt (rw_stored w') c ∧
        stays_valid c dnsName (clock w) (clock w')
    | Some _ => isAlreadyExists e = true → rw_inv w'
    end) w;
  rw_overwrite rv w : rw_inv w → wp (cw_overwrite ch rv) (λ '(c, e) w',
    rw_guar w w' ∧ (clock w ≤ clock w')%Z ∧
    match e with
    | None => rw_inv w' ∧ is_Some c ∧ same_certs_opt (rw_stored w') c ∧
        stays_valid c dnsName (clock w) (clock w')
    | Some _ => True
    end) w }.

Lemma rw_guar_trans ch dnsName (laws : certReadWriterLaws ch dnsName) w w1 w2 :
  rw_guar w w1 → rw_guar w1 w2 → rw_guar w w2.
Proof. apply (@transitivity _ _ (@PreOrder_Transitive _ _ rw_guar_pre)). Qed.

Lemma rw_guar_refl ch dnsName (laws : certReadWriterLaws ch dnsName) w : rw_guar w w.
Proof. apply (@reflexivity _ _ (@PreOrder_Reflexive _ _ rw_guar_pre)). Qed.

Lemma validCert_wp ch dnsName (laws : certReadWriterLaws ch dnsName) c name w :
  rw_inv w → wp (validCert c name) (λ b w', rw_inv w' ∧ rw_guar w w' ∧ rw_stored w' = rw_stored w ∧
    (clock w ≤ clock w')%Z ∧
    ∃ t, (clock w ≤ t ≤ clock w')%Z ∧ b = cert_ok c name (AddDate t 0 6 0)) w.
Proof.
  intros Hinv. assert (∀ b, (∀ t, b = cert_ok c name t) → wp (go_ret b) (λ b w',
    rw_inv w' ∧ rw_guar w w' ∧ rw_stored w' = rw_stored w ∧ (clock w ≤ clock w')%Z ∧
    ∃ t, (clock w ≤ t ≤ clock w')%Z ∧ b = cert_ok c name (AddDate t 0 6 0)) w) as Hret.
  { intros b Hb. apply wp_ret. split_and!; [done|by eapply rw_guar_refl|done|lia|].
    exists (clock w). split; [lia|done]. }
  unfold validCert, cert_ok, pair_ok in *.
  destruct c as [a|]; [|by apply Hret].
  destruct (art_Cert a) as [cert|]; [|by apply Hret].
  destruct (art_Key a) as [key|]; [|by apply Hret].
  destruct (art_CACert a) as [ca|]; [|by apply Hret].
  destruct (X509KeyPair cert key); [by apply Hret|].
  destruct (AppendCertsFromPEM ca) as [pool|]; [|by apply Hret].
  destruct (pem_Decode cert) as [block|]; [|by apply Hret].
  destruct (ParseCertificate block) as [|x]; [by apply Hret|].
  apply wp_bind. eapply wp_mono; [apply wp_and; [apply rw_now|apply now_law]|].
  intros t w' [(Hst & Hi & Hg) [-> Hle]]. apply wp_ret. split_and!; [by apply Hi|done|done|done|].
  exists (clock w'). split; [lia|done].
Qed.

Context (ch : certReadWriter W) (dnsName : string) `{laws : !certReadWriterLaws ch dnsName}.

#[local] Hint Resolve rw_guar_trans : core.

(** What a successful [createIfNotExists] returns is what the store then holds. *)
Lemma createIfNotExists_wp w :
  rw_inv w → wp (createIfNotExists ch) (λ '(c, changed, e) w',
    rw_guar w w' ∧ (clock w ≤ clock w')%Z ∧
    (e = None → rw_inv w' ∧ is_Some c ∧ same_certs_opt (rw_stored w') c ∧
      (changed = false → ∃ w1, rw_rely w w1 ∧ rw_stored w1 = c ∧ rw_stored w' = c)) ∧
    ((∀ w1, rw_rely w w1 → is_Some (rw_stored w1)) → changed = false)) w.
Proof.
  intros Hinv. unfold createIfNotExists. apply wp_bind. wp_call rw_read; [done|].
  intros [c e] w1 (Hinv1 & Hg1 & Hle1 & wr & Hrely & Hst & He). destruct (isNotFound e) eqn:Hnf.
  - destruct e as [e|]; [|done]. specialize (He eq_refl).
    assert (∀ b, ((∀ w1, rw_rely w w1 → is_Some (rw_stored w1)) → b = false)) as Habs.
    { intros b Hall. specialize (Hall wr Hrely). rewrite He in Hall. by destruct Hall. }
    apply wp_bind. wp_call rw_write; [done|]. intros [c2 e2] w2 (Hg2 & Hle2 & H2).
    destruct (isAlreadyExists e2) eqn:Hae.
    + destruct e2 as [e2|]; [|done]. specialize (H2 eq_refl).
      apply wp_bind. wp_call rw_read; [done|].
      intros [c3 e3] w3 (Hinv3 & Hg3 & Hle3 & wr3 & _ & Hst3 & H3). apply wp_ret.
      split_and!; [by eauto|lia| |by apply Habs]. intros ->. destruct H3 as [Hsome Hc].
      split_and!; [done|done| |done]. by rewrite Hst3, Hc.
    + apply wp_ret. split_and!; [by eauto|lia| |by apply Habs]. intros ->. naive_solver.
  - apply wp_ret. split_and!; [done|lia| |done]. intros ->. destruct He as [Hsome Hc].
    split_and!; [done|done|by rewrite Hst, Hc|]. intros _. exists wr. split_and!; [done|done|].
    by rewrite Hst, Hc.
Qed.

(** The whole contract of EnsureCert; [None] for the certificates stands for nil. *)
Definition ensured (c : option Artifacts) (w w' : W) : Prop :=
  is_Some c ∧ same_certs_opt (rw_stored w') c ∧
  ((∃ t, (clock w ≤ t ≤ clock w')%Z ∧ cert_ok c dnsName (AddDate t 0 6 0) = true) ∨
   (∃ t1 t2, (clock w ≤ t1 ∧ t1 ≤ t2 ∧ t2 ≤ clock w')%Z ∧ stays_valid c dnsName t1 t2)).

Lemma handleCommon_wp w :
  dnsName ≠ "" → rw_inv w →
  wp (handleCommon dnsName (Some ch)) (λ '(c, changed, e) w',
    rw_guar w w' ∧ (clock w ≤ clock w')%Z ∧
    match e with
    | Some _ => c = None
    | None => rw_inv w' ∧ ensured c w w' ∧
        (changed = false → ∃ w1, rw_rely w w1 ∧ rw_stored w1 = c ∧ rw_stored w' = c)
    end ∧
    (e = None → (∀ w1, rw_rely w w1 → is_Some (rw_stored w1) ∧ ∀ t, (clock w ≤ t ≤ clock w')%Z →
       cert_ok (rw_stored w1) dnsName (AddDate t 0 6 0) = true) → changed = false)) w.
Proof.
  intros Hname Hinv. unfold handleCommon.
  destruct (go_len dnsName =? 0)%Z eqn:Hlen; [by apply Z.eqb_eq, go_len_zero in Hlen|].
  apply wp_bind. wp_call createIfNotExists_wp; [done|].
  intros [[c changed] e] w1 (Hg1 & Hle1 & Hok & Hch). destruct e as [e|].
  { apply wp_ret. by split_and!. }
  destruct (Hok eq_refl) as (Hinv1 & [a ->] & Hsame & Hch0). apply wp_bind.
  wp_call (validCert_wp ch dnsName _); [done|]. intros b w2 (Hinv2 & Hg2 & Hst2 & Hle2 & t & Ht & ->).
  destruct (cert_ok _ _ _) eqn:Hvalid; simpl.
  - apply wp_ret. split_and!; [by eauto|lia|done| |intros Hcf; rewrite Hst2; by apply Hch0|].
    + split_and!; [done|by rewrite Hst2|]. left. exists t. split; [lia|done].
    + intros _ Hall. apply Hch. intros. by apply Hall.
  - apply wp_bind. wp_call rw_overwrite; [done|]. intros [c3 e3] w3 (Hg3 & Hle3 & H3).
    destruct e3 as [e3|].
    + apply wp_ret. split_and!; [by eauto|lia|done|done].
    + apply wp_ret. destruct H3 as (Hinv3 & Hsome & Hsame3 & Hfresh).
      split_and!; [by eauto|lia|done| |done|].
      * split_and!; [done|done|]. right. exists (clock w2), (clock w3). split; [lia|done].
      * intros _ Hall. exfalso.
        assert (changed = false) as Hcf by (apply Hch; intros; by apply Hall).
        destruct (Hch0 Hcf) as (w' & Hrely & Hc & _).
        destruct (Hall w' Hrely) as [_ Hgood]. rewrite Hc in Hgood. by rewrite Hgood in Hvalid by lia.
Qed.
End contract.
