(* ===== verification/SecretWriter.v ===== *)
(** * Certificates in a Secret: [internal/webhook/util/writer/secret.go]

    The client for Secrets is client-go's: an interface, with the behaviour the API
    documents, other replicas writing the same Secret included. *)
From S2P Require Export CertWriterFacts ApiServer.

(** corev1.Secret: the fields the writer uses. *)
Record Secret := mkSecret {
  sec_Namespace : string; sec_Name : string; sec_ResourceVersion : string;
  sec_Data : gomap gobytes }.

#[global] Instance Secret_eq_dec : EqDecision Secret.
Proof. solve_decision. Defined.

Definition sec_key (s : Secret) : NamespacedName := (sec_Namespace s, sec_Name s).
Definition sec_with_rv (rv : string) (s : Secret) : Secret :=
  mkSecret (sec_Namespace s) (sec_Name s) rv (sec_Data s).

(** CoreV1().Secrets(namespace) *)
Class SecretClient (W : Type) := {
  GetSecret : NamespacedName → GoM W (ApiError + Secret);
  CreateSecret : Secret → GoM W (ApiError + Secret);
  UpdateSecret : Secret → GoM W (ApiError + Secret) }.

Definition SecretCertWriter : string := "secret".

(** err.Error() *)
Definition api_message (e : ApiError) : string :=
  match e with
  | NotFound => "not found" | AlreadyExists => "already exists" | Conflict => "conflict"
  | OtherError msg => msg
  end.

(** SecretCertWriterOptions: whether a client is set, the generator, the Secret. *)
Record SecretCertWriterOptions := mkSecretCertWriterOptions {
  ops_Clientset : bool;
  ops_CertGenerator : option SelfSignedCertGenerator;
  ops_Secret : option NamespacedName }.

Definition setDefaults (ops : SecretCertWriterOptions) : SecretCertWriterOptions :=
  match ops_CertGenerator ops with
  | None => mkSecretCertWriterOptions (ops_Clientset ops)
              (Some (mkSelfSignedCertGenerator None None)) (ops_Secret ops)
  | Some _ => ops
  end.

Definition validate (ops : SecretCertWriterOptions) : option string :=
  if negb (ops_Clientset ops) then Some "client must be set in SecretCertWriterOptions"
  else match ops_Secret ops with
       | None => Some "secret must be set in SecretCertWriterOptions"
       | Some _ => None
       end.

(** secretCertWriter: the Secret it writes and the name it serves; the client and the
    generator are in the world. *)
Record secretCertWriter := mkSecretCertWriter { scw_Secret : NamespacedName; scw_dnsName : string }.

(** The writer and the generator it starts with. *)
Definition NewSecretCertWriter (ops : SecretCertWriterOptions)
    : string + (secretCertWriter * SelfSignedCertGenerator) :=
  let ops := setDefaults ops in
  match validate ops with
  | Some err => inl err
  | None =>
      inr (mkSecretCertWriter (default ("", "") (ops_Secret ops)) "",
           default (mkSelfSignedCertGenerator None None) (ops_CertGenerator ops))
  end.

(** secret.Data[key]: nil when there is no such key. *)
Definition data_lookup (d : gomap gobytes) (k : string) : gobytes := default None (gomap_lookup d k).

Definition secretToCerts (secret : Secret) : Artifacts :=
  match sec_Data secret with
  | None => mkArtifacts None None None None (sec_ResourceVersion secret)
  | Some _ =>
      mkArtifacts (data_lookup (sec_Data secret) ServerKeyName)
        (data_lookup (sec_Data secret) ServerCertName) (data_lookup (sec_Data secret) CAKeyName)
        (data_lookup (sec_Data secret) CACertName) (sec_ResourceVersion secret)
  end.

Definition certsToSecret (certs : Artifacts) (sec : NamespacedName) : Secret :=
  mkSecret sec.1 sec.2 ""
    (Some (list_to_map
      [(CAKeyName, art_CAKey certs); (CACertName, art_CACert certs);
       (ServerKeyName, art_Key certs); (ServerKeyName2, art_Key certs);
       (ServerCertName, art_Cert certs); (ServerCertName2, art_Cert certs)])).

Section writer.
Context {W : Type} `{!Crypto W, !CertGenerator W, !SecretClient W}.
Variable s : secretCertWriter.

Definition secret_buildSecret : GoM W (string + (Secret * Artifacts)) :=
  try (Generate (scw_dnsName s)) (λ certs,
    go_ret (inr (certsToSecret certs (scw_Secret s), certs))).

Definition secret_write : GoM W cert_result :=
  let! r := secret_buildSecret in
  match r with
  | inl err => go_ret (None, Some (otherError err))
  | inr (secret, certs) =>
      let! r := CreateSecret secret in
      match r with
      | inl err =>
          if IsAlreadyExists err then go_ret (None, Some (alreadyExistError (api_message err)))
          else go_ret (Some certs, Some (otherError (api_message err)))
      | inr _ => go_ret (Some certs, None)
      end
  end.

Definition secret_overwrite (resourceVersion : string) : GoM W cert_result :=
  let! r := secret_buildSecret in
  match r with
  | inl err => go_ret (None, Some (otherError err))
  | inr (secret, certs) =>
      let! r := UpdateSecret (sec_with_rv resourceVersion secret) in
      match r with
      | inl err => go_ret (Some certs, Some (otherError (api_message err)))
      | inr _ => go_ret (Some certs, None)
      end
  end.

Definition secret_read : GoM W cert_result :=
  let! r := GetSecret (scw_Secret s) in
  match r with
  | inl err =>
      if IsNotFound err then go_ret (None, Some (notFoundError (api_message err)))
      else go_ret (None, Some (otherError (api_message err)))
  | inr secret =>
      let certs := secretToCerts secret in
      match art_CACert certs, art_CAKey certs with
      | Some _, Some _ =>
          do! SetCA (art_CAKey certs) (art_CACert certs) in go_ret (Some certs, None)
      | _, _ => go_ret (Some certs, None)
      end
  end.

Definition secret_rw : certReadWriter W := mkCertReadWriter secret_read secret_write secret_overwrite.
End writer.

(** EnsureCert: s.dnsName = dnsName, then the shared logic. *)
Definition secret_EnsureCert {W} `{!Crypto W, !CertGenerator W, !SecretClient W}
    (s : secretCertWriter) (dnsName : string) : GoM W (option Artifacts * bool * option CertError) :=
  let s := mkSecretCertWriter (scw_Secret s) dnsName in
  handleCommon (scw_dnsName s) (Some (secret_rw s)).
