(* ===== verification/SecretWriterFacts.v ===== *)
(** * The Secret writer keeps the contract of a certificate writer

    [CertWorldLaws] collects what the Secret API and the generator document, and that they
    keep out of each other's way; [secret_rw_laws] discharges [certReadWriterLaws]. *)
From S2P Require Export SecretWriter.

(** Every CA that is stored may issue certificates of servers, and has started. *)
Definition secrets_usable {W} `{!Crypto W, !CryptoLaws W} (m : gmap NamespacedName Secret) (w : W) : Prop :=
  map_Forall (λ _ s, ca_usable (art_CACert (secretToCerts s)) w) m.

(** The Secret API alone. *)
Class SecretClientLaws (W : Type) `{!Crypto W, !CryptoLaws W, !SecretClient W} := {
  api_secrets : W → gmap NamespacedName Secret;
  (** what other replicas may do to the Secrets *)
  api_rely : W → W → Prop;
  api_rely_refl w : api_rely w w;
  api_rely_usable w w1 : api_rely w w1 → secrets_usable (api_secrets w) w →
    secrets_usable (api_secrets w1) w1;
  api_get_secret k w : wp (GetSecret k) (λ r w', (clock w ≤ clock w')%Z ∧
    ∃ w1, api_rely w w1 ∧ (clock w1 ≤ clock w')%Z ∧ api_secrets w' = api_secrets w1 ∧
    match r with
    | inr s => api_secrets w1 !! k = Some s
    | inl e => e = NotFound → api_secrets w1 !! k = None
    end) w;
  api_create_secret o w : wp (CreateSecret o) (λ r w', (clock w ≤ clock w')%Z ∧
    ∃ w1, api_rely w w1 ∧ (clock w1 ≤ clock w')%Z ∧
    match r with
    | inr _ => ∃ rv, api_secrets w' = <[sec_key o := sec_with_rv rv o]> (api_secrets w1)
    | inl e => api_secrets w' = api_secrets w1 ∧ (e = AlreadyExists → is_Some (api_secrets w1 !! sec_key o))
    end) w;
  api_update_secret o w : wp (UpdateSecret o) (λ r w', (clock w ≤ clock w')%Z ∧
    ∃ w1, api_rely w w1 ∧ (clock w1 ≤ clock w')%Z ∧
    match r with
    | inr _ => ∃ rv, api_secrets w' = <[sec_key o := sec_with_rv rv o]> (api_secrets w1)
    | inl _ => api_secrets w' = api_secrets w1
    end) w;
  (** the certificate library does not touch the Secrets *)
  api_now w : wp Now (λ _ w', api_secrets w' = api_secrets w) w;
  api_generate_key bits w : wp (GenerateKey bits) (λ _ w', api_secrets w' = api_secrets w) w;
  api_rand_int b w : wp (RandInt b) (λ _ w', api_secrets w' = api_secrets w) w;
  api_self_signed cfg k w : wp (NewSelfSignedCACert cfg k) (λ _ w', api_secrets w' = api_secrets w) w;
  api_create_certificate t c k s w :
    wp (CreateCertificate t c k s) (λ _ w', api_secrets w' = api_secrets w) w }.

(** The Secret API and a generator. *)
Class CertWorldLaws (W : Type) `{!Crypto W, !CryptoLaws W, !CertGenerator W, !SecretClient W} := {
  secrets : W → gmap NamespacedName Secret;
  (** what other replicas may do to the Secrets *)
  sec_rely : W → W → Prop;
  (** the generator holds no CA of the future, and none that may not issue certificates of servers *)
  gen_ready : W → Prop;
  sec_rely_usable w w1 : sec_rely w w1 → secrets_usable (secrets w) w → secrets_usable (secrets w1) w1;
  sec_rely_refl w : sec_rely w w;
  gen_now w : wp Now (λ _ w', secrets w' = secrets w ∧ (gen_ready w → gen_ready w')) w;
  generate_law name w : gen_ready w → servable name →
    wp (Generate name) (λ r w', (clock w ≤ clock w')%Z ∧ secrets w' = secrets w ∧ gen_ready w' ∧
      ∀ a, r = inr a → art_ResourceVersion a = "" ∧ ca_usable (art_CACert a) w' ∧
        stays_valid (Some a) name (clock w) (clock w')) w;
  set_ca_law key ca w : ca_usable ca w →
    wp (SetCA key ca) (λ _ w', (clock w ≤ clock w')%Z ∧ secrets w' = secrets w ∧ gen_ready w') w;
  get_secret_law k w : wp (GetSecret k) (λ r w',
    (clock w ≤ clock w')%Z ∧ (gen_ready w → gen_ready w') ∧
    ∃ w1, sec_rely w w1 ∧ (clock w1 ≤ clock w')%Z ∧ secrets w' = secrets w1 ∧
    match r with
    | inr s => secrets w1 !! k = Some s
    | inl e => e = NotFound → secrets w1 !! k = None
    end) w;
  create_secret_law o w : wp (CreateSecret o) (λ r w',
    (clock w ≤ clock w')%Z ∧ (gen_ready w → gen_ready w') ∧
    ∃ w1, sec_rely w w1 ∧ (clock w1 ≤ clock w')%Z ∧
    match r with
    | inr _ => ∃ rv, secrets w' = <[sec_key o := sec_with_rv rv o]> (secrets w1)
    | inl e => secrets w' = secrets w1 ∧ (e = AlreadyExists → is_Some (secrets w1 !! sec_key o))
    end) w;
  update_secret_law o w : wp (UpdateSecret o) (λ r w',
    (clock w ≤ clock w')%Z ∧ (gen_ready w → gen_ready w') ∧
    ∃ w1, sec_rely w w1 ∧ (clock w1 ≤ clock w')%Z ∧
    match r with
    | inr _ => ∃ rv, secrets w' = <[sec_key o := sec_with_rv rv o]> (secrets w1)
    | inl _ => secrets w' = secrets w1
    end) w }.

(** ** Encoding artifacts in a Secret *)

(** Only the resource version is lost. *)
Lemma secretToCerts_certsToSecret a sec rv :
  secretToCerts (sec_with_rv rv (certsToSecret a sec)) =
    mkArtifacts (art_Key a) (art_Cert a) (art_CAKey a) (art_CACert a) rv.
Proof. done. Qed.

Lemma stored_secret_same a sec rv :
  same_certs (secretToCerts (sec_with_rv rv (certsToSecret a sec))) a.
Proof. by rewrite secretToCerts_certsToSecret. Qed.

Section laws.
Context {W : Type} `{!Crypto W, !CryptoLaws W, !CertGenerator W, !SecretClient W, !CertWorldLaws W}.

Lemma secrets_usable_mono m w w' : (clock w ≤ clock w')%Z → secrets_usable m w → secrets_usable m w'.
Proof. intros Hle Hm k s Hs. eapply ca_usable_mono; [done|by apply (Hm k)]. Qed.

Lemma secrets_usable_insert a sec rv m w :
  ca_usable (art_CACert a) w → secrets_usable m w →
  secrets_usable (<[sec := sec_with_rv rv (certsToSecret a sec)]> m) w.
Proof.
  intros Ha Hm. apply map_Forall_insert_2; [|done]. by rewrite secretToCerts_certsToSecret.
Qed.

Definition secret_inv (w : W) : Prop := gen_ready w ∧ secrets_usable (secrets w) w.
Definition secret_stored (sec : NamespacedName) (w : W) : option Artifacts :=
  secretToCerts <$> secrets w !! sec.

Lemma sec_key_certsToSecret a (sec : NamespacedName) : sec_key (certsToSecret a sec) = sec.
Proof. by destruct sec. Qed.

Lemma sec_key_with_rv rv o : sec_key (sec_with_rv rv o) = sec_key o.
Proof. done. Qed.

(** Building a Secret: new certificates, in a world with the same Secrets. *)
Lemma buildSecret_wp s w :
  secret_inv w → servable (scw_dnsName s) →
  wp (secret_buildSecret s) (λ r w', (clock w ≤ clock w')%Z ∧ secret_inv w' ∧
    secrets w' = secrets w ∧
    ∀ o a, r = inr (o, a) → o = certsToSecret a (scw_Secret s) ∧ ca_usable (art_CACert a) w' ∧
      stays_valid (Some a) (scw_dnsName s) (clock w) (clock w')) w.
Proof.
  intros [Hg Hs] Hname. unfold secret_buildSecret. apply wp_try.
  wp_call generate_law; [done|done|]. intros r w' (Hle & Hsec & Hg' & Ha).
  assert (secret_inv w') as Hinv.
  { split; [done|]. rewrite Hsec. by eapply secrets_usable_mono. }
  destruct r as [err|a]; [by split_and!|]. apply wp_ret. split_and!; [done..|].
  intros o a' [= <- <-]. destruct (Ha a eq_refl) as (_ & Hca & Hfresh). done.
Qed.

(** What follows a write of [a] that the server accepted. *)
Lemma written_inv s a rv w w1 w' :
  secret_inv w → sec_rely w w1 → ca_usable (art_CACert a) w → gen_ready w' →
  (clock w ≤ clock w')%Z → (clock w1 ≤ clock w')%Z →
  secrets w' = <[scw_Secret s := sec_with_rv rv (certsToSecret a (scw_Secret s))]> (secrets w1) →
  secret_inv w' ∧ same_certs_opt (secret_stored (scw_Secret s) w') (Some a).
Proof.
  intros [_ Hs] Hrely Ha Hg Hle Hle1 Hsec. split.
  - split; [done|]. rewrite Hsec. apply secrets_usable_insert; [eapply ca_usable_mono; [exact Hle|done]|].
    eapply secrets_usable_mono; [exact Hle1|]. by eapply sec_rely_usable.
  - unfold secret_stored. rewrite Hsec, lookup_insert_eq. simpl. constructor.
    by split_and!.
Qed.

Lemma unwritten_inv w w1 w' :
  secret_inv w → sec_rely w w1 → gen_ready w' → (clock w1 ≤ clock w')%Z →
  secrets w' = secrets w1 → secret_inv w'.
Proof.
  intros [_ Hs] Hrely Hg Hle Hsec. split; [done|]. rewrite Hsec.
  eapply secrets_usable_mono; [exact Hle|]. by eapply sec_rely_usable.
Qed.

(** Freshness may be claimed from earlier to later. *)
Lemma stays_valid_widen a name t1 t2 t1' t2' :
  (t1' ≤ t1)%Z → (t2 ≤ t2')%Z → stays_valid a name t1 t2 → stays_valid a name t1' t2'.
Proof. intros H1 H2 Hf t Ht. apply Hf. lia. Qed.

(** What others may do, seen through an action of ours that leaves the Secrets alone. *)
Definition secret_rely (w w1 : W) : Prop := ∃ w0, secrets w0 = secrets w ∧ sec_rely w0 w1.

Lemma secret_read_wp s w :
  secret_inv w → wp (secret_read s) (λ '(c, e) w',
    secret_inv w' ∧ (clock w ≤ clock w')%Z ∧
    ∃ w1, secret_rely w w1 ∧
      secret_stored (scw_Secret s) w' = secret_stored (scw_Secret s) w1 ∧
    match e with
    | None => is_Some c ∧ secret_stored (scw_Secret s) w1 = c
    | Some _ => isNotFound e = true → secret_stored (scw_Secret s) w1 = None
    end) w.
Proof.
  intros Hinv. unfold secret_read. apply wp_bind. wp_call get_secret_law.
  intros r w1 (Hle & Hg & w0 & Hrely & Hle0 & Hsec & Hr).
  assert (secret_inv w1) as Hinv1 by (apply (unwritten_inv w w0 w1); [done|done|apply Hg, Hinv|done|done]).
  assert (secret_rely w w0) as Hrely' by by exists w.
  assert (secret_stored (scw_Secret s) w1 = secret_stored (scw_Secret s) w0) as Hst
    by (unfold secret_stored; by rewrite Hsec).
  destruct r as [e|o].
  - destruct (IsNotFound e) eqn:He; apply wp_ret; (split_and!; [done..|]); exists w0;
      (split_and!; [done..|]); simpl; [|done]. intros _. unfold secret_stored.
    rewrite Hr; [done|]. by apply bool_decide_eq_true in He.
  - assert (secret_stored (scw_Secret s) w0 = Some (secretToCerts o)) as Ho
      by (unfold secret_stored; by rewrite Hr).
    destruct (art_CACert (secretToCerts o)) as [ca|] eqn:Hca, (art_CAKey (secretToCerts o)) as [key|];
      try (apply wp_ret; split_and!; [done..|]; exists w0; by split_and!).
    apply wp_bind. wp_call set_ca_law.
    + destruct Hinv1 as [_ Hs]. rewrite <-Hca. rewrite Hsec in Hs. by apply (Hs (scw_Secret s)).
    + intros _ w2 (Hle2 & Hsec2 & Hg2). apply wp_ret. split_and!; [|lia|].
      * split; [done|]. rewrite Hsec2. destruct Hinv1 as [_ Hs]. by eapply secrets_usable_mono.
      * exists w0. split_and!; [done| |done|done]. rewrite <-Hst. unfold secret_stored.
        by rewrite Hsec2.
Qed.

Lemma secret_write_wp s w :
  servable (scw_dnsName s) → secret_inv w → wp (secret_write s) (λ '(c, e) w',
    secret_inv w' ∧ (clock w ≤ clock w')%Z ∧
    match e with
    | None => is_Some c ∧ same_certs_opt (secret_stored (scw_Secret s) w') c ∧
        stays_valid c (scw_dnsName s) (clock w) (clock w')
    | Some _ => ∃ w1, secret_rely w w1 ∧
        secret_stored (scw_Secret s) w' = secret_stored (scw_Secret s) w1 ∧
        (isAlreadyExists e = true → is_Some (secret_stored (scw_Secret s) w1))
    end) w.
Proof.
  intros Hname Hinv. unfold secret_write. apply wp_bind. wp_call buildSecret_wp; [done|done|].
  intros r w1 (Hle & Hinv1 & Hsec & Ho). destruct r as [err|[o a]].
  { apply wp_ret. split_and!; [done|done|].
    exists w1. split_and!; [|done|done]. exists w1. split; [done|apply sec_rely_refl]. }
  destruct (Ho o a eq_refl) as (-> & Hca & Hvalid). apply wp_bind. wp_call create_secret_law.
  intros r w2 (Hle2 & Hg2 & w0 & Hrely & Hle0 & Hr). rewrite sec_key_certsToSecret in Hr.
  destruct r as [e|o'].
  - destruct Hr as [Hsec2 Hex].
    assert (secret_inv w2) as Hinv2 by (apply (unwritten_inv w1 w0 w2); [done|done|apply Hg2, Hinv1|done|done]).
    assert (secret_stored (scw_Secret s) w2 = secret_stored (scw_Secret s) w0) as Hst
      by (unfold secret_stored; by rewrite Hsec2).
    destruct (IsAlreadyExists e) eqn:He; apply wp_ret; (split_and!; [done|lia|]); exists w0;
      (split_and!; [by exists w1|done|]); [|done].
    intros _. unfold secret_stored. apply fmap_is_Some, Hex. by apply bool_decide_eq_true in He.
  - destruct Hr as [rv Hsec2]. apply wp_ret.
    destruct (written_inv s a rv w1 w0 w2) as [Hinv2 Hsame]; [done|done|done|apply Hg2, Hinv1|done|done|done|].
    split_and!; [done|lia|done|done|]. eapply stays_valid_widen; [|exact Hle2|exact Hvalid]. lia.
Qed.

Lemma secret_overwrite_wp s rv w :
  servable (scw_dnsName s) → secret_inv w → wp (secret_overwrite s rv) (λ '(c, e) w',
    secret_inv w' ∧ (clock w ≤ clock w')%Z ∧
    match e with
    | None => is_Some c ∧ same_certs_opt (secret_stored (scw_Secret s) w') c ∧
        stays_valid c (scw_dnsName s) (clock w) (clock w')
    | Some _ => ∃ w1, secret_rely w w1 ∧
        secret_stored (scw_Secret s) w' = secret_stored (scw_Secret s) w1
    end) w.
Proof.
  intros Hname Hinv. unfold secret_overwrite. apply wp_bind. wp_call buildSecret_wp; [done|done|].
  intros r w1 (Hle & Hinv1 & Hsec & Ho). destruct r as [err|[o a]].
  { apply wp_ret. split_and!; [done|done|].
    exists w1. split_and!; [|done]. exists w1. split; [done|apply sec_rely_refl]. }
  destruct (Ho o a eq_refl) as (-> & Hca & Hvalid). apply wp_bind. wp_call update_secret_law.
  intros r w2 (Hle2 & Hg2 & w0 & Hrely & Hle0 & Hr). destruct r as [e|o'].
  - assert (secret_inv w2) as Hinv2 by (apply (unwritten_inv w1 w0 w2); [done|done|apply Hg2, Hinv1|done|done]).
    apply wp_ret. split_and!; [done|lia|]. exists w0.
    split_and!; [by exists w1|unfold secret_stored; by rewrite Hr].
  - destruct Hr as [rv' Hsec2]. apply wp_ret. rewrite sec_key_with_rv, sec_key_certsToSecret in Hsec2.
    destruct (written_inv s a rv' w1 w0 w2) as [Hinv2 Hsame]; [done|done|done|apply Hg2, Hinv1|done|done|done|].
    split_and!; [done|lia|done|done|]. eapply stays_valid_widen; [|exact Hle2|exact Hvalid]. lia.
Qed.

(** What any operation does, even one that fails: it keeps the invariant. *)
Definition secret_guar (w w' : W) : Prop := secret_inv w → secret_inv w'.
#[export] Instance secret_guar_pre : PreOrder secret_guar.
Proof. split; [intros w; exact id|]. intros w1 w2 w3 H1 H2 H. by apply H2, H1. Qed.

(** The Secret writer is a certificate writer. *)
#[export] Instance secret_rw_laws s (Hname : servable (scw_dnsName s)) :
  certReadWriterLaws (secret_rw s) (scw_dnsName s).
Proof.
  refine {| rw_stored := secret_stored (scw_Secret s); rw_rely := secret_rely; rw_inv := secret_inv;
            rw_guar := secret_guar; rw_guar_pre := secret_guar_pre |}.
  - intros w. eapply wp_mono; [apply wp_and; [apply gen_now|apply now_law]|].
    intros t w' [[Hsec Hg] [-> Hle]]. unfold secret_stored, secret_guar. rewrite Hsec.
    assert (secret_inv w → secret_inv w') as Hi; [|done].
    intros [Hgr Hs]. split; [by apply Hg|]. rewrite Hsec. by eapply secrets_usable_mono.
  - intros w Hinv. eapply wp_mono; [by apply secret_read_wp|]. intros [c e] w' (Hi & Hrest).
    split; [done|]. split; [by intros _|exact Hrest].
  - intros w Hinv. eapply wp_mono; [by apply secret_write_wp|]. intros [c e] w' (Hi & Hle & Hrest).
    split_and!; [by intros _|done|]. destruct e; naive_solver.
  - intros rv w Hinv. eapply wp_mono; [by apply secret_overwrite_wp|]. intros [c e] w' (Hi & Hle & Hrest).
    split_and!; [by intros _|done|]. destruct e; naive_solver.
Defined.
End laws.
