(* ===== verification/CertWorld.v ===== *)
(** * The self-signed generator as the generator of a certificate writer

    A world with the generator's state in front of the rest: the generator of
    [Generator.v] implements the interface the Secret writer is verified against
    ([self_signed_world]). *)
From S2P Require Export SecretWriterFacts.

(** ** A computation on the second half of the world *)
Definition go_lift {S W A} (m : GoM W A) : GoM (S * W) A := λ '(s, w),
  let '(o, w') := m w in (o, (s, w')).

Lemma wp_lift {S W A} (m : GoM W A) (Q : A → S * W → Prop) (s : S) (w : W) :
  wp m (λ a w', Q a (s, w')) w → wp (go_lift m) Q (s, w).
Proof. unfold wp, go_lift. by destruct (m w) as [[a|why] w']. Qed.

Section lift.
Context {S W : Type} `{!Crypto W, !CryptoLaws W, !SecretClient W, !SecretClientLaws W}.

#[export] Instance crypto_lift : Crypto (S * W) := {|
  PrivateKey := PrivateKey (W:=W); Certificate := Certificate (W:=W); CertPool := CertPool (W:=W);
  cert_NotBefore := cert_NotBefore; cert_NotAfter := cert_NotAfter;
  cert_DNSNames := cert_DNSNames; cert_IPAddresses := cert_IPAddresses;
  cert_KeyUsage := cert_KeyUsage; cert_AllowsCA := cert_AllowsCA;
  cert_UsageAllowed := cert_UsageAllowed; cert_Constrained := cert_Constrained; cert_Raw := cert_Raw;
  GenerateKey bits := go_lift (GenerateKey bits);
  RandInt bound := go_lift (RandInt bound);
  Now := go_lift Now;
  AddDate := AddDate (W:=W);
  ParseIP := ParseIP (W:=W); To4 := To4 (W:=W);
  NewSelfSignedCACert cfg k := go_lift (NewSelfSignedCACert cfg k);
  CreateCertificate t c k s := go_lift (CreateCertificate t c k s);
  ParseCertificate := ParseCertificate; MarshalPKCS1PrivateKey := MarshalPKCS1PrivateKey;
  ParsePrivateKeyPEM := ParsePrivateKeyPEM; ParseCertsPEM := ParseCertsPEM;
  pem_EncodeToMemory := pem_EncodeToMemory (W:=W); pem_Decode := pem_Decode (W:=W);
  X509KeyPair := X509KeyPair (W:=W); AppendCertsFromPEM := AppendCertsFromPEM; Verify := Verify |}.

#[export] Instance secret_client_lift : SecretClient (S * W) := {|
  GetSecret k := go_lift (GetSecret k);
  CreateSecret o := go_lift (CreateSecret o);
  UpdateSecret o := go_lift (UpdateSecret o) |}.

#[export] Instance crypto_laws_lift : CryptoLaws (S * W).
Proof.
  refine {| clock := λ sw, clock sw.2; key_of := key_of (W:=W); signed_by := signed_by (W:=W) |}.
  - intros [s w]. exact (wp_lift _ _ s w (now_law (W:=W) w)).
  - exact (add_date_law (W:=W)).
  - intros bits [s w]. exact (wp_lift _ _ s w (generate_key_law (W:=W) bits w)).
  - intros bound [s w]. exact (wp_lift _ _ s w (rand_int_law (W:=W) bound w)).
  - intros cfg k [s w]. exact (wp_lift _ _ s w (self_signed_law (W:=W) cfg k w)).
  - intros t c k sg [s w]. exact (wp_lift _ _ s w (create_certificate_law (W:=W) t c k sg w)).
  - exact (parse_raw (W:=W)).
  - exact (pem_decode_encode (W:=W)).
  - exact (key_pair_encoded (W:=W)).
  - exact (key_pair_parsed (W:=W)).
  - exact (parse_certs_decode (W:=W)).
  - exact (append_encoded (W:=W)).
  - exact (verify_in_window (W:=W)).
Defined.
End lift.

(** ** The generator of the repository in such a world *)
Section generator.
Context {W : Type} `{!Crypto W, !CryptoLaws W, !SecretClient W, !SecretClientLaws W}.

Abbreviation world := (SelfSignedCertGenerator * W)%type.

(** Generation does not touch the Secrets, nor does it stop. *)
Definition keeps {A} (m : GoM W A) : Prop := ∀ w, wp m (λ _ w', api_secrets w' = api_secrets w) w.

Lemma keeps_ret {A} (a : A) : keeps (go_ret a).
Proof. by intros w. Qed.

Lemma keeps_bind {A B} (m : GoM W A) (k : A → GoM W B) :
  keeps m → (∀ a, keeps (k a)) → keeps (go_bind m k).
Proof.
  intros Hm Hk w. apply wp_bind. eapply wp_mono; [apply Hm|]. intros a w' Heq.
  eapply wp_mono; [apply Hk|]. by intros b w'' ->.
Qed.

Lemma keeps_try {A B} (m : GoM W (string + A)) (k : A → GoM W (string + B)) :
  keeps m → (∀ a, keeps (k a)) → keeps (try m k).
Proof. intros Hm Hk. apply keeps_bind; [done|]. intros [err|a]; [apply keeps_ret|apply Hk]. Qed.

Lemma NewSignedCert_keeps cfg key ca signer : keeps (NewSignedCert cfg key ca signer).
Proof.
  unfold NewSignedCert. apply keeps_try; [intros w; apply api_rand_int|]. intros serial.
  destruct (_ =? 0)%Z; [apply keeps_ret|]. destruct (_ =? 0)%Z; [apply keeps_ret|].
  apply keeps_bind; [intros w; apply api_now|]. intros n.
  apply keeps_try; [intros w; apply api_create_certificate|]. intros der. apply keeps_ret.
Qed.

Lemma signing_CA_keeps cp : keeps (signing_CA cp).
Proof.
  unfold signing_CA. apply keeps_bind.
  { apply keeps_bind; [intros w; apply api_now|]. intros n. apply keeps_ret. }
  intros [ca|]; [apply keeps_ret|]. apply keeps_bind; [intros w; apply api_generate_key|].
  intros k. apply keeps_try; [apply keeps_ret|]. intros key.
  apply keeps_bind; [intros w; apply api_self_signed|]. intros c.
  apply keeps_try; [apply keeps_ret|]. intros ca. apply keeps_ret.
Qed.

Lemma SelfSigned_Generate_keeps cp name : keeps (SelfSigned_Generate cp name).
Proof.
  unfold SelfSigned_Generate. apply keeps_try; [apply signing_CA_keeps|]. intros [signer ca].
  apply keeps_bind; [intros w; apply api_generate_key|]. intros k.
  apply keeps_try; [apply keeps_ret|]. intros key.
  apply keeps_bind; [apply NewSignedCert_keeps|]. intros c.
  apply keeps_try; [apply keeps_ret|]. intros c'. apply keeps_ret.
Qed.

Definition world_ready (sw : world) : Prop := CA_usable sw.1 sw.2.

#[export] Instance self_signed_world : CertWorldLaws world.
Proof.
  refine {| secrets := λ sw : world, api_secrets sw.2; gen_ready := world_ready;
            sec_rely := λ sw sw1 : world, sw1.1 = sw.1 ∧ api_rely sw.2 sw1.2 |}.
  - intros [cp w] [cp1 w1] [_ Hrely] Hs. exact (api_rely_usable (W:=W) w w1 Hrely Hs).
  - intros [cp w]. split; [done|apply api_rely_refl].
  - intros [cp w]. apply (wp_lift (Now (W:=W)) _ cp w).
    eapply wp_mono; [apply wp_and; [apply api_now|apply now_law]|].
    intros t w' [Hsec [-> Hle]]. split; [done|]. intros Hg. by eapply CA_usable_mono; [|exact Hg].
  - intros name [cp w] Hready Hname.
    assert (wp (SelfSigned_Generate cp name) (λ r w', (clock w ≤ clock w')%Z ∧
      api_secrets w' = api_secrets w ∧ ∀ a, r = inr a → art_ResourceVersion a = "" ∧
        ca_usable (art_CACert a) w' ∧ stays_valid (Some a) name (clock w) (clock w')) w) as Hgen.
    { eapply wp_mono; [apply wp_and; [apply SelfSigned_Generate_wp|apply SelfSigned_Generate_keeps]|];
        [done|done|]. intros r w' [[Hle Ha] Hsec]. split_and!; [done|done|]. intros a Hr.
      destruct (Ha a Hr) as (Hrv & Hvalid & _ & ca & -> & Hnb & Hissue).
      split_and!; [done|by apply encoded_ca_usable|done]. }
    apply (wp_lift (SelfSigned_Generate cp name) _ cp w). eapply wp_mono; [exact Hgen|].
    intros r w' (Hle & Hsec & Ha). split_and!; [done|done| |exact Ha].
    by eapply CA_usable_mono; [|exact Hready].
  - intros key ca [cp w] Hca. split_and!; [simpl; lia|done|exact Hca].
  - intros k [cp w]. apply (wp_lift (GetSecret (W:=W) k) _ cp w). wp_call api_get_secret.
    intros r w' (Hle & w1 & Hrely & Hle1 & Hsec & Hr). split_and!; [done| |by exists (cp, w1)].
    intros Hg. by eapply CA_usable_mono; [|exact Hg].
  - intros o [cp w]. apply (wp_lift (CreateSecret (W:=W) o) _ cp w). wp_call api_create_secret.
    intros r w' (Hle & w1 & Hrely & Hle1 & Hr). split_and!; [done| |by exists (cp, w1)].
    intros Hg. by eapply CA_usable_mono; [|exact Hg].
  - intros o [cp w]. apply (wp_lift (UpdateSecret (W:=W) o) _ cp w). wp_call api_update_secret.
    intros r w' (Hle & w1 & Hrely & Hle1 & Hr). split_and!; [done| |by exists (cp, w1)].
    intros Hg. by eapply CA_usable_mono; [|exact Hg].
Defined.
End generator.
