(* ===== verification/MemCluster.v ===== *)
(** * An in-memory instance of the certificate interfaces

    Certificates are tuples of their fields, written out as bit strings; Secrets are a map
    with a script of faults.  It satisfies every law the certificate writers are verified
    against, so those laws can hold together, and makes the writers executable. *)
From S2P Require Export CertWorld.

(** ** Values as strings *)
Fixpoint pos_to_string (p : positive) : string :=
  match p with
  | xH => ""
  | xO p => String "0" (pos_to_string p)
  | xI p => String "1" (pos_to_string p)
  end.

Fixpoint string_to_pos (s : string) : positive :=
  match s with
  | "" => xH
  | String c s => if decide (c = "0"%char) then xO (string_to_pos s) else xI (string_to_pos s)
  end.

Lemma string_to_pos_to_string p : string_to_pos (pos_to_string p) = p.
Proof. induction p as [p IH|p IH|]; simpl; by rewrite ?IH. Qed.

Definition mem_encode {A} `{Countable A} (x : A) : string := pos_to_string (encode x).
Definition mem_decode {A} `{Countable A} (s : string) : option A := decode (string_to_pos s).

Lemma mem_decode_encode {A} `{Countable A} (x : A) : mem_decode (mem_encode x) = Some x.
Proof. unfold mem_decode, mem_encode. by rewrite string_to_pos_to_string, decode_encode. Qed.

#[global] Arguments mem_encode : simpl never.
#[global] Arguments mem_decode : simpl never.

(** ** The world *)
Record MemCluster := mkMemCluster {
  mc_clock : Z; mc_next_key : N;
  mc_secrets : gmap NamespacedName Secret; mc_faults : list (option ApiError) }.

(** DNS names, addresses, validity, public key, key of the signer, CA:TRUE. *)
Abbreviation mem_cert := (list string * list string * Z * Z * N * N * bool)%type.
Definition mc_dns (c : mem_cert) : list string := let '(d, _, _, _, _, _, _) := c in d.
Definition mc_ips (c : mem_cert) : list string := let '(_, i, _, _, _, _, _) := c in i.
Definition mc_from (c : mem_cert) : Z := let '(_, _, f, _, _, _, _) := c in f.
Definition mc_until (c : mem_cert) : Z := let '(_, _, _, u, _, _, _) := c in u.
Definition mc_key (c : mem_cert) : N := let '(_, _, _, _, k, _, _) := c in k.
Definition mc_signer (c : mem_cert) : N := let '(_, _, _, _, _, s, _) := c in s.
Definition mc_ca (c : mem_cert) : bool := let '(_, _, _, _, _, _, a) := c in a.

Definition mem_pem (s : string) : option string :=
  match s with String "-" der => Some der | _ => None end.

Definition mem_accepts (c ca : mem_cert) (name : string) (t : Z) : Prop :=
  (c = ca ∨ mc_signer c = mc_key ca ∧ mc_ca ca = true) ∧ (mc_from c ≤ t ≤ mc_until c)%Z ∧ (mc_from ca ≤ t ≤ mc_until ca)%Z ∧
  (name = "" ∨ name ∈ mc_dns c).
#[global] Instance mem_accepts_dec c ca name t : Decision (mem_accepts c ca name t).
Proof. unfold mem_accepts. apply _. Defined.

#[global] Instance mem_crypto : Crypto MemCluster := {|
  PrivateKey := N; Certificate := mem_cert; CertPool := mem_cert;
  cert_NotBefore := mc_from; cert_NotAfter := mc_until;
  cert_DNSNames := mc_dns; cert_IPAddresses := mc_ips; cert_KeyUsage _ := 0%Z;
  cert_AllowsCA := mc_ca; cert_UsageAllowed _ _ := true; cert_Constrained _ := false; cert_Raw c := mem_encode c;
  GenerateKey _ := λ w, (Ret (inr (mc_next_key w)),
    mkMemCluster (mc_clock w) (mc_next_key w + 1) (mc_secrets w) (mc_faults w));
  RandInt _ := λ w, (Ret (inr 4%Z), w);
  Now := λ w, (Ret (mc_clock w + 1)%Z,
    mkMemCluster (mc_clock w + 1) (mc_next_key w) (mc_secrets w) (mc_faults w));
  AddDate t y m d := (t + (365 * y + 30 * m + d) * 86400)%Z;
  ParseIP _ := None; To4 _ := None;
  NewSelfSignedCACert cfg k := λ w,
    (Ret (inr ([cfg_CommonName cfg], [], mc_clock w, (mc_clock w + ten_years)%Z, k, k, true)), w);
  CreateCertificate t ca pub signer := λ w,
    (Ret (inr (mem_encode (tm_DNSNames t, tm_IPAddresses t, tm_NotBefore t, tm_NotAfter t, pub, signer, false))), w);
  ParseCertificate s := match mem_decode s with Some c => inr c | None => inl "malformed certificate" end;
  MarshalPKCS1PrivateKey k := mem_encode k;
  ParsePrivateKeyPEM s := match mem_pem s ≫= mem_decode with Some k => inr (RSAKey k) | None => inl "no key" end;
  ParseCertsPEM s := match mem_pem s ≫= mem_decode with Some c => inr [c] | None => inl "no certificate" end;
  pem_EncodeToMemory _ der := String "-" der;
  pem_Decode := mem_pem;
  X509KeyPair cert key :=
    match mem_pem cert ≫= mem_decode, mem_pem key ≫= mem_decode with
    | Some c, Some k => if decide (mc_key c = k) then None else Some "private key does not match public key"
    | _, _ => Some "failed to parse"
    end;
  AppendCertsFromPEM s := mem_pem s ≫= mem_decode;
  Verify c name ca t := if decide (mem_accepts c ca name t) then None else Some "not valid" |}.

#[global] Instance mem_crypto_laws : CryptoLaws MemCluster.
Proof.
  refine {| clock := mc_clock; key_of := λ c k, mc_key c = k;
            signed_by := λ ca c, mc_signer c = mc_key ca |}.
  - intros w. split; [done|]. simpl. lia.
  - intros t y m d Hy Hm Hd. simpl. lia.
  - intros bits w. unfold wp; simpl. lia.
  - intros bound w. unfold wp; simpl. lia.
  - intros cfg k w. split; [simpl; lia|]. intros c [= <-]. simpl. split_and!; [done|done|lia|lia|].
    split_and!; [done|by left|done|done].
  - intros t ca pub signer w. split; [simpl; lia|]. intros der [= <-] Hca.
    eexists. simpl. rewrite mem_decode_encode. split_and!; done.
  - intros c. simpl. by rewrite mem_decode_encode.
  - done.
  - intros c k. simpl. rewrite !mem_decode_encode. case_decide; naive_solver.
  - intros s k c key. simpl. destruct (mem_pem s ≫= mem_decode); [|done].
    destruct (mem_pem k ≫= mem_decode); [|done]. case_decide; naive_solver.
  - intros s c der. simpl. destruct (mem_pem s) as [d|]; [|done]. simpl.
    destruct (mem_decode d) eqn:Hd; [|done]. intros [= ->] [= ->]. by rewrite Hd.
  - intros ca. simpl. exists ca. rewrite mem_decode_encode. split; [done|].
    split.
    + intros c name t Hsig [Hissue _] _ Hca Hc Hname. rewrite decide_True; [done|].
      unfold serves in Hname. simpl in Hname. unfold mem_accepts.
      split_and!; try apply Hca; try apply Hc; naive_solver.
    + intros c name t. case_decide as Hacc; [|done]. intros _. destruct Hacc as [[?|[_ ?]] _]; auto.
  - intros s ca c t _. simpl. case_decide as Hacc; [|done]. intros _. apply Hacc.
Defined.

(** ** Secrets *)
Definition mem_secret_call {A} (k : GoM MemCluster (ApiError + A)) : GoM MemCluster (ApiError + A) := λ w,
  match mc_faults w with
  | Some e :: fs => (Ret (inl (if bool_decide (e = NotFound ∨ e = AlreadyExists) then OtherError "unavailable" else e)),
                     mkMemCluster (mc_clock w) (mc_next_key w) (mc_secrets w) fs)
  | None :: fs => k (mkMemCluster (mc_clock w) (mc_next_key w) (mc_secrets w) fs)
  | [] => k w
  end.

(** Store an object under the resource version that the clock gives. *)
Definition mem_put_secret (o : Secret) : GoM MemCluster (ApiError + Secret) := λ w,
  let o := sec_with_rv (pretty (Z.to_N (mc_clock w))) o in
  (Ret (inr o), mkMemCluster (mc_clock w + 1) (mc_next_key w) (<[sec_key o := o]> (mc_secrets w)) (mc_faults w)).

#[global] Instance mem_secret_client : SecretClient MemCluster := {|
  GetSecret k := mem_secret_call (λ w,
    (Ret (match mc_secrets w !! k with Some s => inr s | None => inl NotFound end), w));
  CreateSecret o := mem_secret_call (λ w,
    match mc_secrets w !! sec_key o with
    | Some _ => (Ret (inl AlreadyExists), w)
    | None => mem_put_secret o w
    end);
  UpdateSecret o := mem_secret_call (λ w,
    match mc_secrets w !! sec_key o with
    | None => (Ret (inl NotFound), w)
    | Some old =>
        if decide (sec_ResourceVersion o = "" ∨ sec_ResourceVersion o = sec_ResourceVersion old)
        then mem_put_secret o w else (Ret (inl Conflict), w)
    end) |}.

Lemma mem_secret_call_wp {A} (k : GoM MemCluster (ApiError + A)) (Q : ApiError + A → MemCluster → Prop) w :
  (∀ e fs, e ≠ NotFound → e ≠ AlreadyExists →
    Q (inl e) (mkMemCluster (mc_clock w) (mc_next_key w) (mc_secrets w) fs)) →
  (∀ fs, wp k Q (mkMemCluster (mc_clock w) (mc_next_key w) (mc_secrets w) fs)) →
  wp (mem_secret_call k) Q w.
Proof.
  intros Herr Hk. unfold mem_secret_call, wp. destruct w as [c n m [|[e|] fs]]; simpl in *.
  - apply Hk.
  - case_bool_decide; apply Herr; naive_solver.
  - apply Hk.
Qed.

#[global] Instance mem_secret_laws : SecretClientLaws MemCluster.
Proof.
  refine {| api_secrets := mc_secrets;
            api_rely := λ w w1, mc_clock w1 = mc_clock w ∧ mc_secrets w1 = mc_secrets w |}; try done.
  - intros w w1 [Hc Hs] Hst. rewrite Hs. intros k s Hk c Hp. destruct (Hst k s Hk c Hp).
    split; [simpl in *; lia|done].
  - intros k w. apply mem_secret_call_wp.
    + intros e fs He _. split; [simpl; lia|]. exists w. split_and!; try done; simpl; lia.
    + intros fs. unfold wp; simpl. split; [lia|]. exists w. split_and!; try done.
      destruct (mc_secrets w !! k); naive_solver.
  - intros o w. apply mem_secret_call_wp.
    + intros e fs He He'. split; [simpl; lia|]. exists w. split_and!; try done; simpl; lia.
    + intros fs. unfold wp; simpl. destruct (mc_secrets w !! sec_key o) eqn:Ho; simpl.
      * split; [lia|]. exists w. rewrite Ho. split_and!; [done..|lia|done|done].
      * split; [lia|]. exists w. split_and!; [done..|lia|]. by eexists.
  - intros o w. apply mem_secret_call_wp.
    + intros e fs He He'. split; [simpl; lia|]. exists w. split_and!; try done; simpl; lia.
    + intros fs. unfold wp; simpl. destruct (mc_secrets w !! sec_key o) as [old|] eqn:Ho; simpl.
      * case_decide; simpl; (split; [lia|]); exists w; (split_and!; [done..|lia|]); [by eexists|done].
      * split; [lia|]. exists w. split_and!; [done..|lia|done].
Defined.

(** ** A cluster whose Secret is missing *)
Definition demo_secret : NamespacedName := ("system", "certs").
Definition demo_writer (name : string) : secretCertWriter := mkSecretCertWriter demo_secret name.
Definition demo_cluster : SelfSignedCertGenerator * MemCluster :=
  (mkSelfSignedCertGenerator None None, mkMemCluster 1000 1 ∅ []).

Lemma demo_cluster_inv : secret_inv demo_cluster.
Proof. split; [by intros c|]. apply map_Forall_empty. Qed.

(** The first EnsureCert creates certificates, the second finds them valid. *)
Example demo_ensure_twice :
  match secret_EnsureCert (demo_writer "") "webhook.system.svc" demo_cluster with
  | (Ret (Some a, true, None), w) =>
      match secret_EnsureCert (demo_writer "") "webhook.system.svc" w with
      | (Ret (Some b, false, None), w') =>
          bool_decide (art_CACert a = art_CACert b ∧ mc_secrets w'.2 = mc_secrets w.2)
      | _ => false
      end
  | _ => false
  end = true.
Proof. vm_compute. reflexivity. Qed.
