(* ===== verification/WebhookUtil.v ===== *)
(** * The settings of the webhook: [internal/webhook/util/util.go]

    Each is an environment variable with a default.  [Getenv] is os.Getenv: the empty string
    for a variable that is not set.  klog.Fatalf ends the process: a panic here. *)
From S2P Require Export GoStrings.

Section settings.
Variable Getenv : string → string.

(** if v := os.Getenv(name); len(v) > 0 { return v }; return def *)
Definition env_or (name def : string) : string :=
  if (go_len (Getenv name) >? 0)%Z then Getenv name else def.

Definition GetMutatingWebhookName : string :=
  env_or "MUTATING_WEBHOOK_NAME" "persistentpodstate-mutating-webhook-configuration".
Definition GetValidatingWebhookName : string :=
  env_or "VALIDATING_WEBHOOK_NAME" "persistentpodstate-validating-webhook-configuration".
Definition GetHost : string := Getenv "WEBHOOK_HOST".
Definition GetNamespace : string := env_or "POD_NAMESPACE" "persistent-pod-state-system".
Definition GetSecretName : string := env_or "SECRET_NAME" "persistentpodstate-webhook-certs".
Definition GetServiceName : string := env_or "SERVICE_NAME" "persistentpodstate-webhook-service".

Definition GetPort {W} : GoM W Z :=
  let port := 9876%Z in
  let p := Getenv "WEBHOOK_PORT" in
  if (go_len p >? 0)%Z then
    match parse_int32 p with
    | Some v => go_ret v
    | None => go_panic "failed to convert WEBHOOK_PORT"
    end
  else go_ret port.

Definition GetCertDir : string := env_or "WEBHOOK_CERT_DIR" "/tmp/persistentpodstate-webhook-certs".
Definition GetCertWriter : string := Getenv "WEBHOOK_CERT_WRITER".
End settings.

(** An environment given by the variables that are set. *)
Definition env_of (l : list (string * string)) (name : string) : string :=
  default "" ((list_to_map l : gmap string string) !! name).

Example get_port_default : GetPort (env_of []) () = (Ret 9876%Z, ()).
Proof. vm_compute. reflexivity. Qed.
Example get_port_set : GetPort (env_of [("WEBHOOK_PORT", "-17")]) () = (Ret (-17)%Z, ()).
Proof. vm_compute. reflexivity. Qed.
Example get_port_out_of_range : panics (GetPort (env_of [("WEBHOOK_PORT", "2147483648")])) ().
Proof. by do 2 eexists. Qed.
