(* ===== verification/CertTheorems.v ===== *)
(** * The properties of certificates: generation, the Secret, the settings *)
From S2P Require Export MemCluster WebhookUtil.

(** ** The generator *)
Section generator.
Context {W : Type} `{!Crypto W, !CryptoLaws W}.

(** C21: whatever is set as the CA, as long as it is not a certificate that may not issue
    certificates of servers or that starts in the future, and whatever fails, Generate returns;
    and the certificate it gives for a host name or an IPv4 address passes the writers' check,
    which looks six months ahead, at any time in the 150 days after Generate was called.
    The program itself does not ask whether the certificate that is set is a CA
    ([leaf_signer_is_reused]). *)
Theorem generated_certificate_is_valid cp name w :
  CA_usable cp w → servable name →
  wp (SelfSigned_Generate cp name) (λ r w', ∀ a, r = inr a →
    ∀ t, (clock w' ≤ t ≤ clock w + days 150)%Z →
      cert_ok (Some a) name (AddDate t 0 6 0) = true) w.
Proof.
  intros Hca Hname. wp_call SelfSigned_Generate_wp; [done|done|].
  intros r w' [_ Ha] a Hr. by destruct (Ha a Hr) as (_ & Hvalid & _).
Qed.

(** The certificate of a run whose CA was set and is accepted. *)
Lemma Generate_signs_with cp name w key ca w1 :
  runs (validCACert cp) w (Some (key, ca)) w1 →
  wp (SelfSigned_Generate cp name) (λ r _, ∀ a, r = inr a →
    ∃ c, art_Cert a = EncodeCertPEM c ∧ art_CACert a = EncodeCertPEM ca ∧
      art_CAKey a = EncodePrivateKeyPEM key ∧ cert_DNSNames c = an_DNSNames (alt_names name)) w.
Proof.
  intros Hrun. unfold SelfSigned_Generate, signing_CA.
  assert (key_of ca key) as Hkey.
  { pose proof (validCACert_wp cp w) as (r & w' & Hrun' & _ & Hr)%wp_runs.
    unfold runs in *. rewrite Hrun in Hrun'. injection Hrun' as <- <-. by destruct (Hr key ca). }
  apply wp_bind, wp_bind, wp_runs. exists (Some (key, ca)), w1. split; [done|]. apply wp_ret.
  apply wp_bind. wp_call generate_key_law. intros k w2 _. apply wp_try, wp_ret.
  destruct (wrap _ k) as [err|k']; [done|]. apply wp_bind. wp_call NewSignedCert_wp; [done|].
  intros s w3 [_ Hs]. apply wp_try, wp_ret. destruct (wrap _ s) as [err|c] eqn:Hc; [done|].
  apply wp_ret. intros a [= <-]. exists c. split_and!; try done.
  apply (Hs c (wrap_inr _ _ _ Hc)).
Qed.

(** A CA that was set and is accepted for a year signs the next certificate too: the
    clients that trust its bundle need not be told of the new certificate. *)
Theorem accepted_CA_is_reused cp name w key ca w1 :
  runs (validCACert cp) w (Some (key, ca)) w1 →
  wp (SelfSigned_Generate cp name) (λ r _, ∀ a, r = inr a →
    art_CACert a = EncodeCertPEM ca ∧ art_CAKey a = EncodePrivateKeyPEM key) w.
Proof.
  intros Hrun. eapply wp_mono; [eapply Generate_signs_with; exact Hrun|].
  intros r w' Hr a ->. by destruct (Hr a eq_refl) as (c & _ & Hca & Hkey & _).
Qed.

(** The CA a run signs with may lack CA:TRUE, since [validCACert] does not ask for it; no
    certificate signed with it, another than itself, passes the writers' check, at any time. *)
Theorem leaf_signer_is_reused cp name w key ca w1 :
  runs (validCACert cp) w (Some (key, ca)) w1 →
  cert_AllowsCA ca = false → cert_DNSNames ca ≠ an_DNSNames (alt_names name) →
  wp (SelfSigned_Generate cp name) (λ r _, ∀ a, r = inr a →
    art_CACert a = EncodeCertPEM ca ∧ ∀ name t, cert_ok (Some a) name t = false) w.
Proof.
  intros Hrun Hno Hdns. eapply wp_mono; [eapply Generate_signs_with; exact Hrun|].
  intros r w' Hr a ->. destruct (Hr a eq_refl) as (c & Hcert & Hca & _ & Hc).
  split; [done|]. intros name' t. simpl. rewrite Hcert, Hca. destruct (art_Key a) as [k|]; [|done].
  apply pair_ok_not_CA; [done|]. intros ->. by apply Hdns.
Qed.
End generator.

(** ** The Secret *)
Section secret.
Context {W : Type} `{!Crypto W, !CryptoLaws W, !CertGenerator W, !SecretClient W, !CertWorldLaws W}.

(** The contract of the shared logic, over a Secret. *)
Lemma secret_EnsureCert_wp s dnsName w (Hname : servable dnsName) :
  dnsName ≠ "" → secret_inv w →
  wp (secret_EnsureCert s dnsName) (λ '(c, changed, e) w',
    secret_inv w' ∧
    match e with
    | Some _ => c = None
    | None =>
        is_Some c ∧ same_certs_opt (secret_stored (scw_Secret s) w') c ∧
        ((∃ t, (clock w ≤ t ≤ clock w')%Z ∧ cert_ok c dnsName (AddDate t 0 6 0) = true) ∨
         (∃ t1 t2, (clock w ≤ t1 ∧ t1 ≤ t2 ∧ t2 ≤ clock w')%Z ∧ stays_valid c dnsName t1 t2)) ∧
        (changed = false → ∃ w1, secret_rely w w1 ∧ secret_stored (scw_Secret s) w1 = c ∧
          secret_stored (scw_Secret s) w' = c) ∧
        ((∀ w1, secret_rely w w1 → is_Some (secret_stored (scw_Secret s) w1) ∧
            ∀ t, (clock w ≤ t ≤ clock w')%Z →
              cert_ok (secret_stored (scw_Secret s) w1) dnsName (AddDate t 0 6 0) = true) →
          changed = false)
    end) w.
Proof.
  intros Hne Hinv.
  eapply wp_mono.
  { exact (handleCommon_wp (secret_rw (mkSecretCertWriter (scw_Secret s) dnsName)) dnsName
      (laws := secret_rw_laws (mkSecretCertWriter (scw_Secret s) dnsName) Hname)
      w Hne Hinv). }
  intros [[c changed] [e|]] w' (Hg & _ & Hr & Hch); [split; [by apply Hg|done]|].
  destruct Hr as (Hinv' & (Hsome & Hsame & Hok) & Hkept). split_and!; try done. by apply Hch.
Qed.

(** C19: EnsureCert over a Secret, for a name that certificates can serve, with other replicas
    writing to it and any call failing, never panics, if the CAs that the Secrets and the
    generator hold have started and may issue certificates of servers and other replicas write
    only such ([leaf_signer_is_reused] is about others); on an error it returns no certificates; and on success the certificates it
    returns are the ones the Secret then holds, and they pass the check (at some time of the
    run, or from a time of the run on). *)
Theorem secret_ensures_valid_certs s dnsName w :
  dnsName ≠ "" → servable dnsName → secret_inv w →
  wp (secret_EnsureCert s dnsName) (λ '(c, changed, e) w',
    match e with
    | Some _ => c = None
    | None =>
        is_Some c ∧ same_certs_opt (secret_stored (scw_Secret s) w') c ∧
        ((∃ t, (clock w ≤ t ≤ clock w')%Z ∧ cert_ok c dnsName (AddDate t 0 6 0) = true) ∨
         (∃ t1 t2, (clock w ≤ t1 ∧ t1 ≤ t2 ∧ t2 ≤ clock w')%Z ∧ stays_valid c dnsName t1 t2))
    end) w.
Proof.
  intros Hne Hname Hinv. eapply wp_mono; [by apply secret_EnsureCert_wp|].
  intros [[c changed] [e|]] w'; naive_solver.
Qed.

(** certificates that are good stay: if every state the Secret may be found in holds
    certificates that pass the check throughout the run, a successful EnsureCert returns
    certificates found there and reports no change, and the Secret still holds them. *)
Theorem secret_keeps_valid_certs s dnsName w :
  dnsName ≠ "" → servable dnsName → secret_inv w →
  wp (secret_EnsureCert s dnsName) (λ '(c, changed, e) w',
    e = None →
    (∀ w1, secret_rely w w1 → is_Some (secret_stored (scw_Secret s) w1) ∧
       ∀ t, (clock w ≤ t ≤ clock w')%Z →
         cert_ok (secret_stored (scw_Secret s) w1) dnsName (AddDate t 0 6 0) = true) →
    changed = false ∧
    ∃ w1, secret_rely w w1 ∧ secret_stored (scw_Secret s) w1 = c ∧
      secret_stored (scw_Secret s) w' = c) w.
Proof.
  intros Hne Hname Hinv. eapply wp_mono; [by apply secret_EnsureCert_wp|].
  intros [[c changed] [e|]] w' [_ Hr]; [done|]. destruct Hr as (_ & _ & _ & Hkept & Hch).
  intros _ Hall. specialize (Hch Hall). split; [done|by apply Hkept].
Qed.
End secret.

(** Artifacts written to a Secret read back as they were, but for the resource version,
    which is the Secret's. *)
Theorem secret_roundtrip a sec rv :
  sec_key (certsToSecret a sec) = sec ∧
  secretToCerts (sec_with_rv rv (certsToSecret a sec)) =
    mkArtifacts (art_Key a) (art_Cert a) (art_CAKey a) (art_CACert a) rv.
Proof. split; [apply sec_key_certsToSecret|apply secretToCerts_certsToSecret]. Qed.

(** C40: GetPort gives a 32-bit integer whatever the environment holds, or ends the process;
    it ends it exactly when WEBHOOK_PORT is set to something that is not a 32-bit decimal.
    Nothing keeps the integer within the range of ports. *)
Theorem GetPort_bounds Getenv {W} (w : W) :
  match GetPort Getenv w with
  | (Ret port, w') => w' = w ∧ (- 2 ^ 31 ≤ port < 2 ^ 31)%Z ∧
      (Getenv "WEBHOOK_PORT" = "" ∧ port = 9876%Z ∨ parse_int32 (Getenv "WEBHOOK_PORT") = Some port)
  | (Panic _, w') => w' = w ∧ Getenv "WEBHOOK_PORT" ≠ "" ∧ parse_int32 (Getenv "WEBHOOK_PORT") = None
  end.
Proof.
  unfold GetPort. destruct (_ >? 0)%Z eqn:Hlen.
  - destruct (parse_int32 _) as [v|] eqn:Hp; simpl.
    + split; [done|]. split; [by eapply parse_int32_range|by right].
    + split_and!; [done| |done]. intros Hnil. by rewrite Hnil in Hlen.
  - split_and!; [done|done|done|]. left. split; [|done]. apply go_len_zero.
    unfold go_len in *. lia.
Qed.

(** ** Witnesses *)
Definition demo_dns : string := "webhook.system.svc".

Lemma demo_dns_set : demo_dns ≠ "".
Proof. done. Qed.
Lemma demo_dns_servable : servable (W:=SelfSignedCertGenerator * MemCluster) demo_dns.
Proof. done. Qed.

Lemma generated_certificate_is_valid_witness :
  wp (SelfSigned_Generate demo_cluster.1 demo_dns) (λ r w', ∀ a, r = inr a →
    ∀ t, (clock w' ≤ t ≤ clock demo_cluster.2 + days 150)%Z →
      cert_ok (Some a) demo_dns (AddDate t 0 6 0) = true) demo_cluster.2.
Proof.
  apply (generated_certificate_is_valid demo_cluster.1 demo_dns demo_cluster.2); [by intros c|done].
Defined.

(** A CA of key 7, valid from 0 for ten years. *)
Definition demo_CA : Certificate (W:=MemCluster) := (["ca"], [], 0%Z, ten_years, 7%N, 7%N, true).
Definition demo_CA_key : PrivateKey (W:=MemCluster) := 7%N.
Definition demo_CA_state : SelfSignedCertGenerator :=
  mkSelfSignedCertGenerator (EncodePrivateKeyPEM demo_CA_key) (EncodeCertPEM demo_CA).

Lemma accepted_CA_is_reused_witness :
  wp (SelfSigned_Generate demo_CA_state demo_dns) (λ r _, ∀ a, r = inr a →
    art_CACert a = EncodeCertPEM demo_CA ∧
    art_CAKey a = EncodePrivateKeyPEM demo_CA_key) demo_cluster.2.
Proof.
  apply (accepted_CA_is_reused demo_CA_state demo_dns demo_cluster.2 demo_CA_key demo_CA
    (mkMemCluster 1001 1 ∅ [])).
  vm_compute. reflexivity.
Defined.

Lemma secret_ensures_valid_certs_witness :
  wp (secret_EnsureCert (demo_writer "") demo_dns) (λ '(c, changed, e) w',
    match e with
    | Some _ => c = None
    | None =>
        is_Some c ∧ same_certs_opt (secret_stored (scw_Secret (demo_writer "")) w') c ∧
        ((∃ t, (clock demo_cluster ≤ t ≤ clock w')%Z ∧ cert_ok c demo_dns (AddDate t 0 6 0) = true) ∨
         (∃ t1 t2, (clock demo_cluster ≤ t1 ∧ t1 ≤ t2 ∧ t2 ≤ clock w')%Z ∧
            stays_valid c demo_dns t1 t2))
    end) demo_cluster.
Proof.
  exact (secret_ensures_valid_certs (demo_writer "") demo_dns demo_cluster
    demo_dns_set demo_dns_servable demo_cluster_inv).
Defined.

(** A self-signed certificate of a server, with its key, where the CA should be. *)
Definition demo_leaf : Certificate (W:=MemCluster) := (["server"], [], 0%Z, ten_years, 7%N, 7%N, false).
Definition demo_leaf_state : SelfSignedCertGenerator :=
  mkSelfSignedCertGenerator (EncodePrivateKeyPEM demo_CA_key) (EncodeCertPEM demo_leaf).

Lemma leaf_signer_is_reused_witness :
  wp (SelfSigned_Generate demo_leaf_state demo_dns) (λ r _, ∀ a, r = inr a →
    art_CACert a = EncodeCertPEM demo_leaf ∧ ∀ name t, cert_ok (Some a) name t = false) demo_cluster.2.
Proof.
  apply (leaf_signer_is_reused demo_leaf_state demo_dns demo_cluster.2 demo_CA_key demo_leaf
    (mkMemCluster 1001 1 ∅ [])); vm_compute; [reflexivity|reflexivity|congruence].
Defined.

(** The cluster once the certificates are there. *)
Definition demo_provisioned : SelfSignedCertGenerator * MemCluster :=
  (secret_EnsureCert (demo_writer "") demo_dns demo_cluster).2.

Lemma demo_provisioned_inv : secret_inv demo_provisioned.
Proof.
  pose proof (secret_EnsureCert_wp (demo_writer "") demo_dns demo_cluster demo_dns_servable
    demo_dns_set demo_cluster_inv) as Hwp.
  unfold demo_provisioned. unfold wp in Hwp.
  destruct (secret_EnsureCert _ _ _) as [[[[c ch] e]|why] w']; [apply Hwp|done].
Qed.

Lemma secret_keeps_valid_certs_witness :
  wp (secret_EnsureCert (demo_writer "") demo_dns) (λ '(c, changed, e) w',
    e = None →
    (∀ w1, secret_rely demo_provisioned w1 →
       is_Some (secret_stored (scw_Secret (demo_writer "")) w1) ∧
       ∀ t, (clock demo_provisioned ≤ t ≤ clock w')%Z →
         cert_ok (secret_stored (scw_Secret (demo_writer "")) w1) demo_dns (AddDate t 0 6 0) = true) →
    changed = false ∧
    ∃ w1, secret_rely demo_provisioned w1 ∧ secret_stored (scw_Secret (demo_writer "")) w1 = c ∧
      secret_stored (scw_Secret (demo_writer "")) w' = c) demo_provisioned.
Proof.
  exact (secret_keeps_valid_certs (demo_writer "") demo_dns demo_provisioned
    demo_dns_set demo_dns_servable demo_provisioned_inv).
Defined.
