(* ===== verification/Clientset.v ===== *)
(** * The generated clientset and its registry: [pkg/client]

    [clientset/versioned/clientset.go], [typed/apps/v1alpha1/apps_client.go],
    [generic_client.go] and [registry.go]: how a rest.Config becomes clients.  A config that
    the code copies before it writes to it ([configShallowCopy := *c]) is a value here; what
    client-go builds from one is an interface. *)
From S2P Require Export ApiTypes Generator.

(** The types of client-go that only pass through. *)
Class RestTypes := {
  float32 : Type;
  (** x > 0 *)
  float_positive : float32 → bool;
  RateLimiterT : Type;
  HTTPClient : Type;
  RESTClientT : Type;
  DiscoveryClientT : Type;
  KubeClientset : Type }.

(** schema.GroupVersion, and SchemeGroupVersion of the API group. *)
Record GroupVersion := mkGroupVersion { gv_Group : string; gv_Version : string }.
Definition SchemeGroupVersion : GroupVersion := mkGroupVersion "apps.clay.io" "v1alpha1".

(** A runtime.NegotiatedSerializer: that of scheme.Codecs.WithoutConversion(), or another. *)
Inductive Serializer := CodecsWithoutConversion | OtherSerializer (o : opaque).

(** rest.Config, with the fields the code reads or writes. *)
Record RestConfig `{RestTypes} := mkRestConfig {
  rc_UserAgent : string;
  rc_ContentType : string;
  rc_QPS : float32;
  rc_Burst : Z;
  rc_RateLimiter : option RateLimiterT;
  rc_GroupVersion : option GroupVersion;
  rc_APIPath : string;
  rc_NegotiatedSerializer : option Serializer;
  rc_rest : opaque }.

Section updates.
Context `{RestTypes}.
Definition rc_with_agent (ua : string) (c : RestConfig) : RestConfig :=
  mkRestConfig _ ua (rc_ContentType c) (rc_QPS c) (rc_Burst c) (rc_RateLimiter c) (rc_GroupVersion c)
    (rc_APIPath c) (rc_NegotiatedSerializer c) (rc_rest c).
Definition rc_with_content (ct : string) (c : RestConfig) : RestConfig :=
  mkRestConfig _ (rc_UserAgent c) ct (rc_QPS c) (rc_Burst c) (rc_RateLimiter c) (rc_GroupVersion c)
    (rc_APIPath c) (rc_NegotiatedSerializer c) (rc_rest c).
Definition rc_with_limiter (l : RateLimiterT) (c : RestConfig) : RestConfig :=
  mkRestConfig _ (rc_UserAgent c) (rc_ContentType c) (rc_QPS c) (rc_Burst c) (Some l) (rc_GroupVersion c)
    (rc_APIPath c) (rc_NegotiatedSerializer c) (rc_rest c).
End updates.

(** The functions of client-go that the clientset calls. *)
Class RestLibrary (W : Type) `{RestTypes} := {
  DefaultKubernetesUserAgent : string;
  NewTokenBucketRateLimiter : float32 → Z → RateLimiterT;
  HTTPClientFor : RestConfig → GoM W (string + HTTPClient);
  RESTClientForConfigAndClient : RestConfig → HTTPClient → GoM W (string + RESTClientT);
  NewDiscoveryClientForConfigAndClient : RestConfig → HTTPClient → GoM W (string + DiscoveryClientT);
  NewDiscoveryClientForConfig : RestConfig → GoM W (string + DiscoveryClientT);
  NewDiscoveryClient : RESTClientT → DiscoveryClientT;
  kube_NewForConfig : RestConfig → GoM W (string + KubeClientset) }.

Section clients.
Context {W : Type} `{RestTypes, !RestLibrary W}.

(** *** typed/apps/v1alpha1/apps_client.go *)
Record AppsV1alpha1Client := mkAppsV1alpha1Client { restClient : RESTClientT }.

(** func setConfigDefaults; it returns nil. *)
Definition setConfigDefaults (config : RestConfig) : RestConfig :=
  mkRestConfig _
    (if decide (rc_UserAgent config = "") then DefaultKubernetesUserAgent else rc_UserAgent config)
    (rc_ContentType config) (rc_QPS config) (rc_Burst config) (rc_RateLimiter config)
    (Some SchemeGroupVersion) "/apis" (Some CodecsWithoutConversion) (rc_rest config).

Definition apps_NewForConfigAndClient (c : RestConfig) (h : HTTPClient) : GoM W (string + AppsV1alpha1Client) :=
  let config := setConfigDefaults c in
  try (RESTClientForConfigAndClient config h) (λ client, go_ret (inr (mkAppsV1alpha1Client client))).

Definition apps_NewForConfig (c : RestConfig) : GoM W (string + AppsV1alpha1Client) :=
  let config := setConfigDefaults c in
  try (HTTPClientFor config) (λ httpClient, apps_NewForConfigAndClient config httpClient).

(** if err != nil { panic(err) } *)
Definition or_die {A} (m : GoM W (string + A)) : GoM W A :=
  let! r := m in match r with inl err => go_panic err | inr a => go_ret a end.

Definition apps_NewForConfigOrDie (c : RestConfig) : GoM W AppsV1alpha1Client := or_die (apps_NewForConfig c).

Definition apps_New (c : RESTClientT) : AppsV1alpha1Client := mkAppsV1alpha1Client c.

(** The method on a receiver that may be nil. *)
Definition apps_RESTClient (c : option AppsV1alpha1Client) : option RESTClientT := restClient <$> c.

(** *** clientset.go *)
Record Clientset := mkClientset {
  cs_DiscoveryClient : DiscoveryClientT;
  cs_appsV1alpha1 : AppsV1alpha1Client }.

Definition AppsV1alpha1 (c : Clientset) : AppsV1alpha1Client := cs_appsV1alpha1 c.
Definition Discovery (c : option Clientset) : option DiscoveryClientT := cs_DiscoveryClient <$> c.

Definition versioned_NewForConfigAndClient (c : RestConfig) (httpClient : HTTPClient) : GoM W (string + Clientset) :=
  let limited : string + RestConfig :=
    if is_nil (rc_RateLimiter c) && float_positive (rc_QPS c) then
      if (rc_Burst c <=? 0)%Z
      then inl "burst is required to be greater than 0 when RateLimiter is not set and QPS is set to greater than 0"
      else inr (rc_with_limiter (NewTokenBucketRateLimiter (rc_QPS c) (rc_Burst c)) c)
    else inr c in
  match limited with
  | inl err => go_ret (inl err)
  | inr configShallowCopy =>
      try (apps_NewForConfigAndClient configShallowCopy httpClient) (λ apps,
      try (NewDiscoveryClientForConfigAndClient configShallowCopy httpClient) (λ discovery,
        go_ret (inr (mkClientset discovery apps))))
  end.

Definition versioned_NewForConfig (c : RestConfig) : GoM W (string + Clientset) :=
  let configShallowCopy :=
    if decide (rc_UserAgent c = "") then rc_with_agent DefaultKubernetesUserAgent c else c in
  try (HTTPClientFor configShallowCopy) (λ httpClient,
    versioned_NewForConfigAndClient configShallowCopy httpClient).

Definition versioned_NewForConfigOrDie (c : RestConfig) : GoM W Clientset := or_die (versioned_NewForConfig c).

Definition versioned_New (c : RESTClientT) : Clientset := mkClientset (NewDiscoveryClient c) (apps_New c).

(** *** generic_client.go *)
Record GenericClientset := mkGenericClientset {
  DiscoveryClient : DiscoveryClientT;
  KubeClient : KubeClientset;
  KruiseClient : Clientset }.

Definition ContentTypeProtobuf : string := "application/vnd.kubernetes.protobuf".

Definition newForConfig (c : RestConfig) : GoM W (string + GenericClientset) :=
  let cWithProtobuf := rc_with_content ContentTypeProtobuf c in
  try (NewDiscoveryClientForConfig cWithProtobuf) (λ discoveryClient,
  try (kube_NewForConfig cWithProtobuf) (λ kubeClient,
  try (versioned_NewForConfig c) (λ kruiseClient,
    go_ret (inr (mkGenericClientset discoveryClient kubeClient kruiseClient))))).

Definition newForConfigOrDie (c : RestConfig) : GoM W GenericClientset := or_die (newForConfig c).

(** *** registry.go: the package variables cfg and defaultGenericClient *)
Record RegistryVars := mkRegistryVars {
  cfg : option RestConfig;
  defaultGenericClient : option GenericClientset }.
Definition initial_registry : RegistryVars := mkRegistryVars None None.

(** The variables in front of the world. *)
Definition NewRegistry (c : RestConfig) : GoM (RegistryVars * W) (option string) := λ '(v, w),
  match newForConfig c w with
  | (Ret (inl err), w') => (Ret (Some err), (mkRegistryVars (cfg v) None, w'))
  | (Ret (inr client), w') => (Ret None, (mkRegistryVars (Some c) (Some client), w'))
  | (Panic why, w') => (Panic why, (v, w'))
  end.

Definition GetGenericClient : GoM (RegistryVars * W) (option GenericClientset) := λ '(v, w),
  (Ret (defaultGenericClient v), (v, w)).

Definition GetGenericClientWithName (name : string) : GoM (RegistryVars * W) (option GenericClientset) := λ '(v, w),
  match cfg v with
  | None => (Ret None, (v, w))
  | Some cfg =>
      let newCfg := rc_with_agent (rc_UserAgent cfg +:+ "/" +:+ name) cfg in
      match newForConfigOrDie newCfg w with
      | (Ret client, w') => (Ret (Some client), (v, w'))
      | (Panic why, w') => (Panic why, (v, w'))
      end
  end.
End clients.
