(* ===== verification/TypedClient.v ===== *)
(** * The typed client of PersistentPodStates

    [typed/apps/v1alpha1/persistentpodstate.go]: each method builds one request with the
    fluent interface of rest.Request and runs it.  The request is a record; running it is
    the REST client's, an interface.  [opts.TimeoutSeconds] becomes a time.Duration, an
    int64 of nanoseconds that wraps around. *)
From S2P Require Export ApiServer Clientset.

(** time.Duration: a signed 64-bit integer. *)
Definition wrap_int64 (z : Z) : Z := ((z + 2 ^ 63) mod 2 ^ 64 - 2 ^ 63)%Z.
Definition Second : Z := 10 ^ 9.

(** metav1.ListOptions, and the other options, which only pass through. *)
Record ListOptions := mkListOptions {
  lo_TimeoutSeconds : option Z;
  lo_Watch : bool;
  lo_rest : opaque }.

Inductive VersionedParams := OptionsParams (o : opaque) | ListParams (o : ListOptions).

(** types.PatchType *)
Abbreviation PatchType := string.

Inductive Verb := GET | POST | PUT | DELETE | PATCH (pt : PatchType).

Inductive RequestBody := ObjectBody (o : PersistentPodState) | OptionsBody (o : opaque) | BytesBody (b : string).

(** rest.Request, as the methods build it. *)
Record Request := mkRequest {
  rq_Verb : Verb;
  rq_Namespace : string;
  rq_Resource : string;
  rq_Name : option string;
  rq_SubResource : list string;
  rq_Params : option VersionedParams;
  rq_Timeout : option Z;
  rq_Body : option RequestBody }.

(** v1alpha1.PersistentPodStateList *)
Record PersistentPodStateList := mkPersistentPodStateList {
  ppsl_ListMeta : opaque;
  ppsl_Items : option (list PersistentPodState) }.

(** rest.Interface: Do(ctx).Into(result), for the two results, Do(ctx).Error() and Watch. *)
Class RestClient (W : Type) := {
  WatchInterface : Type;
  do_into : Request → GoM W (ApiError + PersistentPodState);
  do_into_list : Request → GoM W (ApiError + PersistentPodStateList);
  do_error : Request → GoM W (option ApiError);
  do_watch : Request → GoM W (ApiError + WatchInterface) }.

Definition persistentpodstates_resource : string := "persistentpodstates".

(** The zero values a result starts with. *)
Definition empty_state : PersistentPodState :=
  mkPersistentPodState (mkObjectMeta "" "" "" "" None None [] "")
    (mkPersistentPodStateSpec (mkTargetReference "" "" "") None None) (mkPersistentPodStateStatus 0 None).
Definition empty_list : PersistentPodStateList := mkPersistentPodStateList "" None.

Section client.
Context {W : Type} `{!RestClient W}.

Record persistentPodStates := mkPersistentPodStates { pc_ns : string }.

(** newPersistentPodStates, by way of AppsV1alpha1Client.PersistentPodStates *)
Definition newPersistentPodStates (namespace : string) : persistentPodStates := mkPersistentPodStates namespace.
Definition apps_PersistentPodStates `{RestTypes} (c : AppsV1alpha1Client) (namespace : string) : persistentPodStates :=
  newPersistentPodStates namespace.

(** result = &T{}; err = ….Into(result); return *)
Definition into {A} (zero : A) (m : GoM W (ApiError + A)) : GoM W (A * option ApiError) :=
  let! r := m in match r with inl err => go_ret (zero, Some err) | inr a => go_ret (a, None) end.

(** The seconds of the options, as a time.Duration times time.Second. *)
Definition list_timeout (opts : ListOptions) : Z :=
  match lo_TimeoutSeconds opts with None => 0 | Some s => wrap_int64 (s * Second) end.

Definition Get_request (c : persistentPodStates) (name : string) (options : opaque) : Request :=
  mkRequest GET (pc_ns c) persistentpodstates_resource (Some name) [] (Some (OptionsParams options)) None None.
Definition pps_Get c name options : GoM W (PersistentPodState * option ApiError) :=
  into empty_state (do_into (Get_request c name options)).

Definition List_request (c : persistentPodStates) (opts : ListOptions) : Request :=
  mkRequest GET (pc_ns c) persistentpodstates_resource None [] (Some (ListParams opts)) (Some (list_timeout opts)) None.
Definition pps_List c opts : GoM W (PersistentPodStateList * option ApiError) :=
  into empty_list (do_into_list (List_request c opts)).

Definition Watch_request (c : persistentPodStates) (opts : ListOptions) : Request :=
  let timeout := list_timeout opts in
  let opts := mkListOptions (lo_TimeoutSeconds opts) true (lo_rest opts) in
  mkRequest GET (pc_ns c) persistentpodstates_resource None [] (Some (ListParams opts)) (Some timeout) None.
Definition pps_Watch c opts : GoM W (ApiError + WatchInterface) := do_watch (Watch_request c opts).

Definition Create_request (c : persistentPodStates) (o : PersistentPodState) (opts : opaque) : Request :=
  mkRequest POST (pc_ns c) persistentpodstates_resource None [] (Some (OptionsParams opts)) None (Some (ObjectBody o)).
Definition pps_Create c o opts : GoM W (PersistentPodState * option ApiError) :=
  into empty_state (do_into (Create_request c o opts)).

Definition Update_request (c : persistentPodStates) (o : PersistentPodState) (opts : opaque) : Request :=
  mkRequest PUT (pc_ns c) persistentpodstates_resource (Some (om_Name (pps_ObjectMeta o))) []
    (Some (OptionsParams opts)) None (Some (ObjectBody o)).
Definition pps_Update c o opts : GoM W (PersistentPodState * option ApiError) :=
  into empty_state (do_into (Update_request c o opts)).

Definition UpdateStatus_request (c : persistentPodStates) (o : PersistentPodState) (opts : opaque) : Request :=
  mkRequest PUT (pc_ns c) persistentpodstates_resource (Some (om_Name (pps_ObjectMeta o))) ["status"]
    (Some (OptionsParams opts)) None (Some (ObjectBody o)).
Definition pps_UpdateStatus c o opts : GoM W (PersistentPodState * option ApiError) :=
  into empty_state (do_into (UpdateStatus_request c o opts)).

Definition Delete_request (c : persistentPodStates) (name : string) (opts : opaque) : Request :=
  mkRequest DELETE (pc_ns c) persistentpodstates_resource (Some name) [] None None (Some (OptionsBody opts)).
Definition pps_Delete c name opts : GoM W (option ApiError) := do_error (Delete_request c name opts).

Definition DeleteCollection_request (c : persistentPodStates) (opts : opaque) (listOpts : ListOptions) : Request :=
  mkRequest DELETE (pc_ns c) persistentpodstates_resource None [] (Some (ListParams listOpts))
    (Some (list_timeout listOpts)) (Some (OptionsBody opts)).
Definition pps_DeleteCollection c opts listOpts : GoM W (option ApiError) :=
  do_error (DeleteCollection_request c opts listOpts).

Definition Patch_request (c : persistentPodStates) (name : string) (pt : PatchType) (data : string)
    (opts : opaque) (subresources : list string) : Request :=
  mkRequest (PATCH pt) (pc_ns c) persistentpodstates_resource (Some name) subresources
    (Some (OptionsParams opts)) None (Some (BytesBody data)).
Definition pps_Patch c name pt data opts subresources : GoM W (PersistentPodState * option ApiError) :=
  into empty_state (do_into (Patch_request c name pt data opts subresources)).
End client.
