(* ===== verification/FakeClients.v ===== *)
(** * The fake clients: [pkg/client/clientset/versioned/.../fake]

    [fake_persistentpodstate.go]: each method makes an action and hands it to client-go's
    testing.Fake, whose answer it asserts to be of its type.  [fake_apps_client.go] and
    [clientset_generated.go]: a clientset over an object tracker.  The actions are values
    with the constructors of client-go's names; the Fake and the tracker are an interface. *)
From S2P Require Export TypedClient.

(** schema.GroupVersionResource and GroupVersionKind *)
Record GroupVersionResource := mkGVR { gvr_GroupVersion : GroupVersion; gvr_Resource : string }.
Record GroupVersionKind := mkGVK { gvk_GroupVersion : GroupVersion; gvk_Kind : string }.

Definition persistentpodstatesResource : GroupVersionResource := mkGVR SchemeGroupVersion "persistentpodstates".
Definition persistentpodstatesKind : GroupVersionKind := mkGVK SchemeGroupVersion "PersistentPodState".

(** runtime.Object, as the fakes tell its types apart; None is the nil interface. *)
Inductive RuntimeObject :=
| StateObject (o : PersistentPodState) | StateListObject (l : PersistentPodStateList) | OtherObject (o : opaque).

(** testing.Action *)
Inductive Action :=
| NewGetAction (r : GroupVersionResource) (ns name : string)
| NewListAction (r : GroupVersionResource) (k : GroupVersionKind) (ns : string) (opts : ListOptions)
| NewWatchAction (r : GroupVersionResource) (ns : string) (opts : ListOptions)
| NewCreateAction (r : GroupVersionResource) (ns : string) (o : PersistentPodState)
| NewUpdateAction (r : GroupVersionResource) (ns : string) (o : PersistentPodState)
| NewUpdateSubresourceAction (r : GroupVersionResource) (subresource ns : string) (o : PersistentPodState)
| NewDeleteActionWithOptions (r : GroupVersionResource) (ns name : string) (opts : opaque)
| NewDeleteCollectionAction (r : GroupVersionResource) (ns : string) (opts : ListOptions)
| NewPatchSubresourceAction (r : GroupVersionResource) (ns name : string) (pt : PatchType) (data : string)
    (subresources : list string).

(** action.GetResource(), action.GetNamespace() *)
Definition GetResource (a : Action) : GroupVersionResource :=
  match a with
  | NewGetAction r _ _ | NewListAction r _ _ _ | NewWatchAction r _ _ | NewCreateAction r _ _ | NewUpdateAction r _ _
  | NewUpdateSubresourceAction r _ _ _ | NewDeleteActionWithOptions r _ _ _ | NewDeleteCollectionAction r _ _
  | NewPatchSubresourceAction r _ _ _ _ _ => r
  end.
Definition GetActionNamespace (a : Action) : string :=
  match a with
  | NewGetAction _ ns _ | NewListAction _ _ ns _ | NewWatchAction _ ns _ | NewCreateAction _ ns _ | NewUpdateAction _ ns _
  | NewUpdateSubresourceAction _ _ ns _ | NewDeleteActionWithOptions _ ns _ _ | NewDeleteCollectionAction _ ns _
  | NewPatchSubresourceAction _ ns _ _ _ _ => ns
  end.

(** A ReactionFunc: handled, the object, the error. *)
Definition ReactionFunc (W A : Type) : Type := Action → GoM W (bool * option A * option ApiError).

(** client-go's testing and labels packages. *)
Class FakeLibrary (W : Type) := {
  FakeT : Type;
  ObjectTracker : Type;
  FakeWatch : Type;
  Selector : Type;
  Everything : Selector;
  Matches : Selector → gomap string → bool;
  (** The label selector of the options, nil for none. *)
  ExtractFromListOptions : ListOptions → option Selector;
  Invokes : FakeT → Action → RuntimeObject → GoM W (option RuntimeObject * option ApiError);
  InvokesWatch : FakeT → Action → GoM W (option FakeWatch * option ApiError);
  new_Fake : GoM W FakeT;
  AddReactor : FakeT → string → string → ReactionFunc W RuntimeObject → GoM W ();
  AddWatchReactor : FakeT → string → ReactionFunc W FakeWatch → GoM W ();
  NewObjectTracker : GoM W ObjectTracker;
  tracker_Add : ObjectTracker → RuntimeObject → GoM W (option string);
  tracker_Watch : ObjectTracker → GroupVersionResource → string → GoM W (ApiError + FakeWatch);
  ObjectReaction : ObjectTracker → ReactionFunc W RuntimeObject }.

Section fake.
Context {W : Type} `{!FakeLibrary W}.

(** *** fake_persistentpodstate.go and fake_apps_client.go *)
Record FakeAppsV1alpha1 := mkFakeAppsV1alpha1 { fa_Fake : FakeT }.
Record FakePersistentPodStates := mkFakePersistentPodStates { fps_Fake : FakeAppsV1alpha1; fps_ns : string }.

Definition fake_PersistentPodStates (c : FakeAppsV1alpha1) (namespace : string) : FakePersistentPodStates :=
  mkFakePersistentPodStates c namespace.

(** var ret *rest.RESTClient; return ret: an interface that holds a nil pointer. *)
Definition fake_RESTClient {RESTClient : Type} (c : FakeAppsV1alpha1) : option (option RESTClient) := Some None.

Definition fake_invokes (c : FakePersistentPodStates) : Action → RuntimeObject → GoM W (option RuntimeObject * option ApiError) :=
  Invokes (fa_Fake (fps_Fake c)).

(** obj, err := c.Fake.Invokes(action, &v1alpha1.PersistentPodState{});
    if obj == nil { return nil, err }; return obj.( *v1alpha1.PersistentPodState), err *)
Definition invokes_state (c : FakePersistentPodStates) (action : Action)
    : GoM W (option PersistentPodState * option ApiError) :=
  let! (obj, err) := fake_invokes c action (StateObject empty_state) in
  match obj with
  | None => go_ret (None, err)
  | Some (StateObject o) => go_ret (Some o, err)
  | Some _ => go_panic "interface conversion: runtime.Object is not *v1alpha1.PersistentPodState"
  end.

Definition fake_Get (c : FakePersistentPodStates) (name : string) (options : opaque) :=
  invokes_state c (NewGetAction persistentpodstatesResource (fps_ns c) name).

(** if label.Matches(labels.Set(item.Labels)) { list.Items = append(list.Items, item) } *)
Definition append_matching (label : Selector) (item : PersistentPodState) (items : option (list PersistentPodState))
    : GoM W (option (list PersistentPodState)) :=
  if Matches label (om_Labels (pps_ObjectMeta item)) then go_ret (Some (default [] items ++ [item])) else go_ret items.

Definition fake_List (c : FakePersistentPodStates) (opts : ListOptions)
    : GoM W (option PersistentPodStateList * option ApiError) :=
  let! (obj, err) := fake_invokes c (NewListAction persistentpodstatesResource persistentpodstatesKind (fps_ns c) opts)
    (StateListObject empty_list) in
  match obj with
  | None => go_ret (None, err)
  | Some obj =>
      let label := default Everything (ExtractFromListOptions opts) in
      match obj with
      | StateListObject l =>
          let! items := go_for (append_matching label) (default [] (ppsl_Items l)) None in
          go_ret (Some (mkPersistentPodStateList (ppsl_ListMeta l) items), err)
      | _ => go_panic "interface conversion: runtime.Object is not *v1alpha1.PersistentPodStateList"
      end
  end.

Definition fake_Watch (c : FakePersistentPodStates) (opts : ListOptions) : GoM W (option FakeWatch * option ApiError) :=
  InvokesWatch (fa_Fake (fps_Fake c)) (NewWatchAction persistentpodstatesResource (fps_ns c) opts).

Definition fake_Create (c : FakePersistentPodStates) (o : PersistentPodState) (opts : opaque) :=
  invokes_state c (NewCreateAction persistentpodstatesResource (fps_ns c) o).
Definition fake_Update (c : FakePersistentPodStates) (o : PersistentPodState) (opts : opaque) :=
  invokes_state c (NewUpdateAction persistentpodstatesResource (fps_ns c) o).
Definition fake_UpdateStatus (c : FakePersistentPodStates) (o : PersistentPodState) (opts : opaque) :=
  invokes_state c (NewUpdateSubresourceAction persistentpodstatesResource "status" (fps_ns c) o).

Definition fake_Delete (c : FakePersistentPodStates) (name : string) (opts : opaque) : GoM W (option ApiError) :=
  let! (_, err) := fake_invokes c (NewDeleteActionWithOptions persistentpodstatesResource (fps_ns c) name opts)
    (StateObject empty_state) in
  go_ret err.

Definition fake_DeleteCollection (c : FakePersistentPodStates) (opts : opaque) (listOpts : ListOptions)
    : GoM W (option ApiError) :=
  let action := NewDeleteCollectionAction persistentpodstatesResource (fps_ns c) listOpts in
  let! (_, err) := fake_invokes c action (StateListObject empty_list) in
  go_ret err.

Definition fake_Patch (c : FakePersistentPodStates) (name : string) (pt : PatchType) (data : string)
    (opts : opaque) (subresources : list string) :=
  invokes_state c (NewPatchSubresourceAction persistentpodstatesResource (fps_ns c) name pt data subresources).

(** *** clientset_generated.go *)
Record FakeClientset := mkFakeClientset { fc_Fake : FakeT; fc_discovery : FakeT; fc_tracker : ObjectTracker }.

(** if err := o.Add(obj); err != nil { panic(err) } *)
Definition add_object (o : ObjectTracker) (obj : RuntimeObject) (_ : ()) : GoM W () :=
  let! err := tracker_Add o obj in
  match err with Some err => go_panic err | None => go_ret () end.

(** The reaction given to AddWatchReactor. *)
Definition watch_reaction (o : ObjectTracker) : ReactionFunc W FakeWatch := λ action,
  let gvr := GetResource action in
  let ns := GetActionNamespace action in
  let! r := tracker_Watch o gvr ns in
  match r with
  | inl err => go_ret (false, None, Some err)
  | inr watch => go_ret (true, Some watch, None)
  end.

Definition NewSimpleClientset (objects : list RuntimeObject) : GoM W FakeClientset :=
  let! o := NewObjectTracker in
  do! go_for (add_object o) objects () in
  let! fake := new_Fake in
  let cs := mkFakeClientset fake fake o in
  do! AddReactor fake "*" "*" (ObjectReaction o) in
  do! AddWatchReactor fake "*" (watch_reaction o) in
  go_ret cs.

Definition fake_Discovery (c : FakeClientset) : FakeT := fc_discovery c.
Definition fake_Tracker (c : FakeClientset) : ObjectTracker := fc_tracker c.
Definition fake_AppsV1alpha1 (c : FakeClientset) : FakeAppsV1alpha1 := mkFakeAppsV1alpha1 (fc_Fake c).
End fake.
