(* ===== verification/FakeTheorems.v ===== *)
(** * The fake client answers as the typed client does

    Each method of the fake hands its Fake the action that corresponds to the request the
    typed client sends.  So when the Fake answers its actions as a server answers these
    requests, the two clients cannot be told apart but by what they give besides an error. *)
From S2P Require Export FakeClients.

(** The request an action stands for. *)
Definition request_of (a : Action) : Request :=
  let res := gvr_Resource (GetResource a) in
  match a with
  | NewGetAction _ ns name => mkRequest GET ns res (Some name) [] None None None
  | NewListAction _ _ ns _ | NewWatchAction _ ns _ => mkRequest GET ns res None [] None None None
  | NewCreateAction _ ns o => mkRequest POST ns res None [] None None (Some (ObjectBody o))
  | NewUpdateAction _ ns o => mkRequest PUT ns res (Some (om_Name (pps_ObjectMeta o))) [] None None (Some (ObjectBody o))
  | NewUpdateSubresourceAction _ sub ns o =>
      mkRequest PUT ns res (Some (om_Name (pps_ObjectMeta o))) [sub] None None (Some (ObjectBody o))
  | NewDeleteActionWithOptions _ ns name _ => mkRequest DELETE ns res (Some name) [] None None None
  | NewDeleteCollectionAction _ ns opts => mkRequest DELETE ns res None [] (Some (ListParams opts)) None None
  | NewPatchSubresourceAction _ ns name pt data subs => mkRequest (PATCH pt) ns res (Some name) subs None None (Some (BytesBody data))
  end.

(** The same request without the options that say how, not what: those of get, create, update,
    patch and delete, and the time limit. *)
Definition without_options (r : Request) : Request :=
  mkRequest (rq_Verb r) (rq_Namespace r) (rq_Resource r) (rq_Name r) (rq_SubResource r)
    (match rq_Params r with Some (OptionsParams _) => None | p => p end) None
    (match rq_Body r with Some (OptionsBody _) => None | b => b end).

(** And without the selection of a list. *)
Definition unselected (r : Request) : Request :=
  mkRequest (rq_Verb r) (rq_Namespace r) (rq_Resource r) (rq_Name r) (rq_SubResource r) None None (rq_Body r).

Section fake.
Context {W : Type} `{!RestClient W, !FakeLibrary W}.

(** The states of a list that the options select. *)
Definition selected_states (opts : ListOptions) (l : PersistentPodStateList) : list PersistentPodState :=
  filter (λ p, Matches (default Everything (ExtractFromListOptions opts)) (om_Labels (pps_ObjectMeta p)) = true)
    (default [] (ppsl_Items l)).

(** A server that does not look at such options, and lists what is selected; and a Fake that
    answers each action, in every world, as this server does its request.  This is what a user
    of a fake clientset assumes, not what client-go promises: its object tracker validates and
    defaults nothing, as the comment on NewSimpleClientset warns.  The
    states in memory below meet it ([mem_alike]). *)
Record answers_alike (F : FakeT) : Prop := {
  alike_into r w : do_into r w = do_into (without_options r) w;
  alike_error r w : do_error r w = do_error (without_options r) w;
  alike_list r opts w : rq_Params r = Some (ListParams opts) →
    do_into_list r w = (let! x := do_into_list (unselected r) in
      go_ret match x with
             | inl e => inl e
             | inr l => inr (mkPersistentPodStateList (ppsl_ListMeta l) (Some (selected_states opts l)))
             end) w;
  alike_state a w :
    match a with NewListAction _ _ _ _ | NewDeleteActionWithOptions _ _ _ _ | NewDeleteCollectionAction _ _ _ => False | _ => True end →
    Invokes F a (StateObject empty_state) w = (let! x := do_into (request_of a) in
      go_ret match x with inl e => (None, Some e) | inr o => (Some (StateObject o), None) end) w;
  alike_states r k ns opts w :
    Invokes F (NewListAction r k ns opts) (StateListObject empty_list) w =
    (let! x := do_into_list (request_of (NewListAction r k ns opts)) in
      go_ret match x with inl e => (None, Some e) | inr l => (Some (StateListObject l), None) end) w;
  alike_delete r ns name opts d w :
    Invokes F (NewDeleteActionWithOptions r ns name opts) d w =
    (let! e := do_error (request_of (NewDeleteActionWithOptions r ns name opts)) in go_ret (None, e)) w;
  alike_deletes r ns opts d w :
    Invokes F (NewDeleteCollectionAction r ns opts) d w =
    (let! e := do_error (request_of (NewDeleteCollectionAction r ns opts)) in go_ret (None, e)) w }.

(** The same world and the same error; without one, the same result (up to [same]), and with
    one, nothing from the fake where the client gives a zero value. *)
Definition same_answer {A} (same : A → A → Prop) (client : GoM W (A * option ApiError))
    (fake : GoM W (option A * option ApiError)) : Prop :=
  ∀ w, match client w, fake w with
       | (Ret (a, None), w1), (Ret (b, None), w2) => w1 = w2 ∧ ∃ b', b = Some b' ∧ same a b'
       | (Ret (_, Some e), w1), (Ret (b, Some e'), w2) => w1 = w2 ∧ e = e' ∧ b = None
       | (Panic why, w1), (Panic why', w2) => w1 = w2 ∧ why = why'
       | _, _ => False
       end.

(** A nil slice and an empty one hold the same. *)
Definition same_items (l l' : PersistentPodStateList) : Prop :=
  ppsl_ListMeta l = ppsl_ListMeta l' ∧ default [] (ppsl_Items l) = default [] (ppsl_Items l').

Lemma go_bind_ext {A B} (m : GoM W A) (k k' : A → GoM W B) w :
  (∀ a w', k a w' = k' a w') → go_bind m k w = go_bind m k' w.
Proof. intros H. unfold go_bind. by destruct (m w) as [[a|why] w']. Qed.

Lemma invokes_state_alike F ns a r :
  answers_alike F → without_options r = request_of a →
  match a with NewListAction _ _ _ _ | NewDeleteActionWithOptions _ _ _ _ | NewDeleteCollectionAction _ _ _ => False | _ => True end →
  same_answer eq (into empty_state (do_into r)) (invokes_state (fake_PersistentPodStates (mkFakeAppsV1alpha1 F) ns) a).
Proof.
  intros [] Hr Ha w. unfold into, invokes_state, fake_invokes, go_bind. cbn.
  rewrite alike_into0, Hr, alike_state0 by done. unfold go_bind.
  destruct (do_into (request_of a) w) as [[[e|o]|why] w']; cbn; [done| |done]. split; [done|]. by exists o.
Qed.

Lemma append_matching_run label (l : list PersistentPodState) acc w :
  ∃ items, go_for (append_matching (W := W) label) l acc w = (Ret items, w) ∧
    default [] items = default [] acc ++ filter (λ p, Matches label (om_Labels (pps_ObjectMeta p)) = true) l.
Proof.
  revert acc. induction l as [|p l IH]; intros acc.
  - exists acc. by rewrite app_nil_r.
  - rewrite filter_cons. cbn [go_for]. unfold append_matching at 1, go_bind. destruct (Matches label _) eqn:Hm.
    + destruct (IH (Some (default [] acc ++ [p]))) as (items & Hrun & Hi). exists items. split; [exact Hrun|].
      rewrite Hi. cbn. by rewrite <-app_assoc.
    + destruct (IH acc) as (items & Hrun & Hi). exists items. split; [exact Hrun|].
      exact Hi.
Qed.

Lemma List_alike F ns opts :
  answers_alike F →
  same_answer same_items (pps_List (newPersistentPodStates ns) opts)
    (fake_List (fake_PersistentPodStates (mkFakeAppsV1alpha1 F) ns) opts).
Proof.
  intros [] w. unfold pps_List, into, fake_List, fake_invokes. cbn [fa_Fake fps_Fake fake_PersistentPodStates fps_ns].
  assert (∀ B (k : option RuntimeObject * option ApiError → GoM W B),
    go_bind (Invokes F (NewListAction persistentpodstatesResource persistentpodstatesKind ns opts) (StateListObject empty_list)) k w =
    go_bind (do_into_list (mkRequest GET ns "persistentpodstates" None [] None None None)) (λ x,
      k match x with inl e => (None, Some e) | inr l => (Some (StateListObject l), None) end) w) as ->.
  { intros B k. unfold go_bind at 1. rewrite alike_states0. unfold go_bind. by destruct (do_into_list _ w) as [[]]. }
  unfold go_bind. rewrite (alike_list0 _ opts) by done. unfold go_bind.
  change (unselected _) with (mkRequest GET ns "persistentpodstates" None [] None None None).
  destruct (do_into_list _ w) as [[[e|l]|why] w']; cbn; [done| |done].
  destruct (append_matching_run (default Everything (ExtractFromListOptions opts)) (default [] (ppsl_Items l)) None w')
    as (items & -> & Hitems). cbn. split; [done|]. eexists. split; [done|]. split; [done|]. symmetry. exact Hitems.
Qed.

Lemma error_alike (m m' : GoM W (option ApiError)) f w :
  m w = m' w → f w = (let! e := m' in go_ret (None : option RuntimeObject, e)) w →
  (let! (_, err) := f in go_ret err) w = m w.
Proof. unfold go_bind. intros -> ->. by destruct (m' w) as [[e|why] w']. Qed.

(** The fake client answers as the typed client.  Given a Fake that answers every action as
    a server that ignores options answers the request the action stands for, in every
    namespace and in every world each method of the fake leaves the same world and gives the
    same error as the method of the typed client, and without an error the same object (for
    a list, the same items); with an error the fake gives nil, the client a zero value. *)
Theorem fake_answers_as_client F ns :
  answers_alike F →
  let client := newPersistentPodStates ns in
  let fake := fake_PersistentPodStates (mkFakeAppsV1alpha1 F) ns in
  (∀ name o, same_answer eq (pps_Get client name o) (fake_Get fake name o)) ∧
  (∀ o, same_answer same_items (pps_List client o) (fake_List fake o)) ∧
  (∀ p o, same_answer eq (pps_Create client p o) (fake_Create fake p o)) ∧
  (∀ p o, same_answer eq (pps_Update client p o) (fake_Update fake p o)) ∧
  (∀ p o, same_answer eq (pps_UpdateStatus client p o) (fake_UpdateStatus fake p o)) ∧
  (∀ name pt data o subs, same_answer eq (pps_Patch client name pt data o subs) (fake_Patch fake name pt data o subs)) ∧
  (∀ name o w, fake_Delete fake name o w = pps_Delete client name o w) ∧
  (∀ o lo w, fake_DeleteCollection fake o lo w = pps_DeleteCollection client o lo w).
Proof.
  intros Hal client fake. pose proof Hal as [].
  split; [intros; by apply invokes_state_alike|]. split; [intros; by apply List_alike|].
  split; [intros; by apply invokes_state_alike|]. split; [intros; by apply invokes_state_alike|].
  split; [intros; by apply invokes_state_alike|]. split; [intros; by apply invokes_state_alike|]. split.
  - intros name o w. unfold fake_Delete. eapply error_alike; [apply alike_error0|apply alike_delete0].
  - intros o lo w. unfold fake_DeleteCollection. eapply error_alike; [apply alike_error0|apply alike_deletes0].
Qed.
End fake.

(** ** Witness: a server and a Fake over one map of states *)
Definition MemStates : Type := gmap NamespacedName PersistentPodState.

Definition mem_matches (sel : string) (labels : gomap string) : bool := bool_decide (is_Some (gomap_lookup labels sel)).
Definition mem_in_namespace (ns : string) (s : MemStates) : list PersistentPodState :=
  (map_to_list (filter (λ kp, kp.1.1 = ns) s)).*2.

Definition mem_do_into (r : Request) : GoM MemStates (ApiError + PersistentPodState) := λ s,
  match rq_Verb r, rq_Name r, rq_Body r with
  | GET, Some name, _ => (Ret (lookup_result (s !! (rq_Namespace r, name))), s)
  | POST, _, Some (ObjectBody o) =>
      let k := (rq_Namespace r, om_Name (pps_ObjectMeta o)) in
      match s !! k with Some _ => (Ret (inl AlreadyExists), s) | None => (Ret (inr o), <[k := o]> s) end
  | PUT, Some name, Some (ObjectBody o) => (Ret (inr o), <[(rq_Namespace r, name) := o]> s)
  | _, _, _ => (Ret (inl (OtherError "not supported")), s)
  end.

Definition mem_list_all (ns : string) (s : MemStates) : PersistentPodStateList :=
  mkPersistentPodStateList "" (Some (mem_in_namespace ns s)).
Definition mem_selector (opts : ListOptions) : option string :=
  let sel : string := lo_rest opts in if decide (sel = "") then None else Some sel.
Definition mem_everything : string := "".
Definition mem_selects (sel : string) (labels : gomap string) : bool :=
  if decide (sel = mem_everything) then true else mem_matches sel labels.

Definition mem_do_into_list (r : Request) : GoM MemStates (ApiError + PersistentPodStateList) := λ s,
  let l := mem_list_all (rq_Namespace r) s in
  (Ret (inr match rq_Params r with
            | Some (ListParams opts) => mkPersistentPodStateList (ppsl_ListMeta l) (Some
                (filter (λ p, mem_selects (default mem_everything (mem_selector opts)) (om_Labels (pps_ObjectMeta p)) = true)
                  (default [] (ppsl_Items l))))
            | _ => l
            end), s).

Definition mem_do_error (r : Request) : GoM MemStates (option ApiError) := λ s,
  match rq_Name r with
  | Some name => if decide (s !! (rq_Namespace r, name) = None) then (Ret (Some NotFound), s)
                 else (Ret None, delete (rq_Namespace r, name) s)
  | None => (Ret None, filter (λ kp, kp.1.1 ≠ rq_Namespace r) s)
  end.

#[export] Instance mem_states_client : RestClient MemStates := {|
  WatchInterface := ();
  do_into := mem_do_into; do_into_list := mem_do_into_list; do_error := mem_do_error;
  do_watch _ := go_ret (inr ()) |}.

Definition mem_invokes (a : Action) (d : RuntimeObject) : GoM MemStates (option RuntimeObject * option ApiError) :=
  match a with
  | NewListAction _ _ _ _ =>
      let! x := mem_do_into_list (request_of a) in
      go_ret match x with inl e => (None, Some e) | inr l => (Some (StateListObject l), None) end
  | NewDeleteActionWithOptions _ _ _ _ | NewDeleteCollectionAction _ _ _ =>
      let! e := mem_do_error (request_of a) in go_ret (None, e)
  | _ =>
      let! x := mem_do_into (request_of a) in
      go_ret match x with inl e => (None, Some e) | inr o => (Some (StateObject o), None) end
  end.

#[export] Instance mem_fake_library : FakeLibrary MemStates := {|
  FakeT := (); ObjectTracker := (); FakeWatch := (); Selector := string;
  Everything := mem_everything; Matches := mem_selects; ExtractFromListOptions := mem_selector;
  Invokes _ := mem_invokes;
  InvokesWatch _ _ := go_ret (Some (), None);
  new_Fake := go_ret (); AddReactor _ _ _ _ := go_ret (); AddWatchReactor _ _ _ := go_ret ();
  NewObjectTracker := go_ret (); tracker_Add _ _ := go_ret None; tracker_Watch _ _ _ := go_ret (inr ());
  ObjectReaction _ _ := go_ret (false, None, None) |}.

Lemma mem_alike : answers_alike (W := MemStates) ().
Proof.
  split.
  - intros [v ns res n sub p t b] w. cbn. unfold mem_do_into. cbn. by destruct v, n, b as [[]|].
  - done.
  - intros [v ns res n sub p t b] opts w. cbn. intros ->. done.
  - intros a w Ha. by destruct a.
  - done.
  - done.
  - done.
Qed.

Lemma fake_answers_as_client_witness :
  let client := newPersistentPodStates "prod" in
  let fake := fake_PersistentPodStates (W := MemStates) (mkFakeAppsV1alpha1 (W := MemStates) ()) "prod" in
  (∀ name o, same_answer eq (pps_Get (W := MemStates) client name o) (fake_Get fake name o)) ∧
  (∀ o, same_answer same_items (pps_List client o) (fake_List fake o)) ∧
  (∀ p o, same_answer eq (pps_Create client p o) (fake_Create fake p o)) ∧
  (∀ p o, same_answer eq (pps_Update client p o) (fake_Update fake p o)) ∧
  (∀ p o, same_answer eq (pps_UpdateStatus client p o) (fake_UpdateStatus fake p o)) ∧
  (∀ name pt data o subs, same_answer eq (pps_Patch client name pt data o subs) (fake_Patch fake name pt data o subs)) ∧
  (∀ name o w, fake_Delete fake name o w = pps_Delete client name o w) ∧
  (∀ o lo w, fake_DeleteCollection fake o lo w = pps_DeleteCollection client o lo w).
Proof. exact (fake_answers_as_client (W := MemStates) () "prod" mem_alike). Defined.
