(* ===== verification/ClientInterfaces.v ===== *)
(** * The interfaces of the clientset, and programs over them

    [PersistentPodStateInterface], [AppsV1alpha1Interface] and the clientset's [Interface] as
    records of their methods, with the generated clients and the fakes as implementations.
    A program is given an [Interface]; the theorem says when it cannot tell the two apart. *)
From S2P Require Export FakeTheorems.

(** ** The interfaces *)
Section interfaces.
Context {W : Type}.

(** A pointer and an error: a method's results. *)
Abbreviation result A := (GoM W (option A * option ApiError)).

Record PersistentPodStateInterface (Watch : Type) := mkPersistentPodStateInterface {
  ppi_Create : PersistentPodState → opaque → result PersistentPodState;
  ppi_Update : PersistentPodState → opaque → result PersistentPodState;
  ppi_UpdateStatus : PersistentPodState → opaque → result PersistentPodState;
  ppi_Delete : string → opaque → GoM W (option ApiError);
  ppi_DeleteCollection : opaque → ListOptions → GoM W (option ApiError);
  ppi_Get : string → opaque → result PersistentPodState;
  ppi_List : ListOptions → result PersistentPodStateList;
  ppi_Watch : ListOptions → result Watch;
  ppi_Patch : string → PatchType → string → opaque → list string → result PersistentPodState }.

(** AppsV1alpha1Interface, with the method of PersistentPodStatesGetter.  A rest.Interface is
    nil or has a dynamic value. *)
Record AppsV1alpha1Interface (Rest Watch : Type) := mkAppsV1alpha1Interface {
  ai_RESTClient : option Rest;
  ai_PersistentPodStates : string → PersistentPodStateInterface Watch }.

(** Interface of clientset.go *)
Record ClientsetInterface (Discovery Rest Watch : Type) := mkClientsetInterface {
  ci_Discovery : option Discovery;
  ci_AppsV1alpha1 : AppsV1alpha1Interface Rest Watch }.
End interfaces.
Arguments PersistentPodStateInterface : clear implicits.
Arguments AppsV1alpha1Interface : clear implicits.
Arguments ClientsetInterface : clear implicits.
Arguments mkPersistentPodStateInterface {W Watch}.
Arguments mkAppsV1alpha1Interface {W Rest Watch}.
Arguments mkClientsetInterface {W Discovery Rest Watch}.
Arguments ppi_Create {W Watch}. Arguments ppi_Update {W Watch}. Arguments ppi_UpdateStatus {W Watch}.
Arguments ppi_Delete {W Watch}. Arguments ppi_DeleteCollection {W Watch}. Arguments ppi_Get {W Watch}.
Arguments ppi_List {W Watch}. Arguments ppi_Watch {W Watch}. Arguments ppi_Patch {W Watch}.
Arguments ai_RESTClient {W Rest Watch}. Arguments ai_PersistentPodStates {W Rest Watch}.
Arguments ci_Discovery {W Discovery Rest Watch}. Arguments ci_AppsV1alpha1 {W Discovery Rest Watch}.

(** ** The generated clients *)
Section typed.
Context {W : Type} `{!RestClient W}.

(** The result of the typed client is &T{…}: a pointer that is never nil. *)
Definition pointer {A} (m : GoM W (A * option ApiError)) : GoM W (option A * option ApiError) :=
  let! (a, err) := m in go_ret (Some a, err).

Definition persistentPodStates_interface (c : persistentPodStates) : PersistentPodStateInterface W WatchInterface :=
  mkPersistentPodStateInterface
    (λ o opts, pointer (pps_Create c o opts)) (λ o opts, pointer (pps_Update c o opts))
    (λ o opts, pointer (pps_UpdateStatus c o opts)) (pps_Delete c) (pps_DeleteCollection c)
    (λ name opts, pointer (pps_Get c name opts)) (λ opts, pointer (pps_List c opts))
    (λ opts, let! r := pps_Watch c opts in
             go_ret match r with inl e => (None, Some e) | inr w => (Some w, None) end)
    (λ name pt data opts subs, pointer (pps_Patch c name pt data opts subs)).

Definition apps_interface `{RestTypes} (c : AppsV1alpha1Client) : AppsV1alpha1Interface W RESTClientT WatchInterface :=
  mkAppsV1alpha1Interface (apps_RESTClient (Some c)) (λ ns, persistentPodStates_interface (apps_PersistentPodStates c ns)).

Definition clientset_interface `{RestTypes} (c : Clientset) : ClientsetInterface W DiscoveryClientT RESTClientT WatchInterface :=
  mkClientsetInterface (Discovery (Some c)) (apps_interface (AppsV1alpha1 c)).
End typed.

(** ** The fakes *)
Section fakes.
Context {W : Type} `{!FakeLibrary W}.

Definition fake_states_interface (c : FakePersistentPodStates) : PersistentPodStateInterface W FakeWatch :=
  mkPersistentPodStateInterface (fake_Create c) (fake_Update c) (fake_UpdateStatus c) (fake_Delete c)
    (fake_DeleteCollection c) (fake_Get c) (fake_List c) (fake_Watch c) (fake_Patch c).

Definition fake_apps_interface {Rest : Type} (c : FakeAppsV1alpha1) : AppsV1alpha1Interface W (option Rest) FakeWatch :=
  mkAppsV1alpha1Interface (fake_RESTClient c) (λ ns, fake_states_interface (fake_PersistentPodStates c ns)).

Definition fake_clientset_interface {Rest : Type} (c : FakeClientset) : ClientsetInterface W FakeT (option Rest) FakeWatch :=
  mkClientsetInterface (Some (fake_Discovery c)) (fake_apps_interface (fake_AppsV1alpha1 c)).
End fakes.

(** ** Programs over the interface

    A program that looks at a result only when the error is nil, as Go code does, and at the
    items of a list, not at whether their slice is nil. *)
Inductive StateMethod :=
| MCreate (o : PersistentPodState) (opts : opaque) | MUpdate (o : PersistentPodState) (opts : opaque)
| MUpdateStatus (o : PersistentPodState) (opts : opaque) | MGet (name : string) (opts : opaque)
| MPatch (name : string) (pt : PatchType) (data : string) (opts : opaque) (subresources : list string).
Inductive ErrorMethod := MDelete (name : string) (opts : opaque) | MDeleteCollection (opts : opaque) (listOpts : ListOptions).

Inductive Program (A : Type) :=
| Returns (a : A)
| Panics (why : string)
| OnState (ns : string) (m : StateMethod) (k : ApiError + PersistentPodState → Program A)
| OnList (ns : string) (opts : ListOptions) (k : ApiError + (opaque * list PersistentPodState) → Program A)
| OnError (ns : string) (m : ErrorMethod) (k : option ApiError → Program A).
Arguments Returns {A}. Arguments Panics {A}. Arguments OnState {A}. Arguments OnList {A}. Arguments OnError {A}.

Section run.
Context {W Discovery Rest Watch : Type}.
Abbreviation Interface := (ClientsetInterface W Discovery Rest Watch).

Definition call_state (i : PersistentPodStateInterface W Watch) (m : StateMethod) : GoM W (option PersistentPodState * option ApiError) :=
  match m with
  | MCreate o opts => ppi_Create i o opts | MUpdate o opts => ppi_Update i o opts
  | MUpdateStatus o opts => ppi_UpdateStatus i o opts | MGet name opts => ppi_Get i name opts
  | MPatch name pt data opts subs => ppi_Patch i name pt data opts subs
  end.
Definition call_error (i : PersistentPodStateInterface W Watch) (m : ErrorMethod) : GoM W (option ApiError) :=
  match m with MDelete name opts => ppi_Delete i name opts | MDeleteCollection opts lo => ppi_DeleteCollection i opts lo end.

(** if err != nil { … } else { …*result… } *)
Definition checked {A B} (m : GoM W (option A * option ApiError)) (k : ApiError + A → GoM W B) : GoM W B :=
  let! (a, err) := m in
  match err, a with
  | Some e, _ => k (inl e)
  | None, Some a => k (inr a)
  | None, None => go_panic "invalid memory address or nil pointer dereference"
  end.

Definition listed (l : PersistentPodStateList) : opaque * list PersistentPodState :=
  (ppsl_ListMeta l, default [] (ppsl_Items l)).

Fixpoint run {A} (cs : Interface) (p : Program A) : GoM W A :=
  match p with
  | Returns a => go_ret a
  | Panics why => go_panic why
  | OnState ns m k => checked (call_state (ai_PersistentPodStates (ci_AppsV1alpha1 cs) ns) m) (λ r, run cs (k r))
  | OnList ns opts k =>
      checked (ppi_List (ai_PersistentPodStates (ci_AppsV1alpha1 cs) ns) opts) (λ r,
        run cs (k match r with inl e => inl e | inr l => inr (listed l) end))
  | OnError ns m k => let! err := call_error (ai_PersistentPodStates (ci_AppsV1alpha1 cs) ns) m in run cs (k err)
  end.
End run.

Section alike.
Context {W : Type} `{!RestClient W, !FakeLibrary W}.

Lemma checked_alike {A B} (same : A → A → Prop) client fake (k : ApiError + A → GoM W B) w :
  same_answer same client fake → (∀ a b w', same a b → k (inr a) w' = k (inr b) w') →
  checked (pointer client) k w = checked fake k w.
Proof.
  intros Hsame Hk. specialize (Hsame w). unfold checked, pointer, go_bind.
  destruct (client w) as [[[a [e|]]|why] w1], (fake w) as [[[b [e'|]]|why'] w2]; cbn; try done.
  - by destruct Hsame as (-> & -> & ->).
  - destruct Hsame as (-> & b' & -> & Hab). by apply Hk.
  - by destruct Hsame as (-> & ->).
Qed.

Lemma call_state_alike F ns m :
  answers_alike F → ∃ client,
    call_state (persistentPodStates_interface (newPersistentPodStates ns)) m = pointer client ∧
    same_answer eq client (call_state (fake_states_interface (fake_PersistentPodStates (mkFakeAppsV1alpha1 F) ns)) m).
Proof.
  intros Hal. destruct (fake_answers_as_client F ns Hal) as (Hget & _ & Hcreate & Hupdate & Hstatus & Hpatch & _).
  destruct m; cbn; eexists; (split; [reflexivity|auto]).
Qed.
Lemma call_error_alike F ns m w :
  answers_alike F →
  call_error (persistentPodStates_interface (newPersistentPodStates ns)) m w =
  call_error (fake_states_interface (fake_PersistentPodStates (mkFakeAppsV1alpha1 F) ns)) m w.
Proof.
  intros Hal. destruct (fake_answers_as_client F ns Hal) as (_ & _ & _ & _ & _ & _ & Hd & Hdc).
  symmetry. by destruct m; cbn.
Qed.

Context `{RestTypes}.

End alike.

(** ** What an informer asks its client for

    ListFunc and WatchFunc of the informer of a namespace, which tweak the options first. *)
Section list_watch.
Context {W Discovery Rest Watch : Type}.
Variable client : ClientsetInterface W Discovery Rest Watch.
Variable namespace : string.
Variable tweakListOptions : option (ListOptions → ListOptions).

Definition tweaked (options : ListOptions) : ListOptions :=
  match tweakListOptions with Some tweak => tweak options | None => options end.
Definition ListFunc (options : ListOptions) : GoM W (option PersistentPodStateList * option ApiError) :=
  ppi_List (ai_PersistentPodStates (ci_AppsV1alpha1 client) namespace) (tweaked options).
Definition WatchFunc (options : ListOptions) : GoM W (option Watch * option ApiError) :=
  ppi_Watch (ai_PersistentPodStates (ci_AppsV1alpha1 client) namespace) (tweaked options).
End list_watch.

(** ** Witness: a program that creates a state, finds it, and deletes it *)
#[local] Instance unit_rest_types : RestTypes :=
  {| float32 := (); float_positive _ := false; RateLimiterT := (); HTTPClient := (); RESTClientT := ();
     DiscoveryClientT := (); KubeClientset := () |}.

Definition named_state (name : string) : PersistentPodState :=
  mkPersistentPodState (mkObjectMeta name "prod" "" "1" None None [] "")
    (mkPersistentPodStateSpec (mkTargetReference "apps/v1" "StatefulSet" name) None None) Status_zero.

Definition demo_program : Program (list string * bool) :=
  OnState "prod" (MCreate (named_state "web") "") (λ r, match r with
  | inl _ => Panics "not created"
  | inr created =>
      OnState "prod" (MGet (om_Name (pps_ObjectMeta created)) "") (λ r,
      OnList "prod" (mkListOptions None false "") (λ l,
      OnError "prod" (MDelete "web" "") (λ _,
      OnError "prod" (MDelete "web" "") (λ again,
      Returns (match l with inr (_, l) => (λ p, om_Name (pps_ObjectMeta p)) <$> l | inl _ => [] end,
               match r, again with inr _, Some NotFound => true | _, _ => false end)))))
  end).

Definition demo_clientset : Clientset := mkClientset () (apps_New ()).
Definition demo_fake : FakeClientset (W := MemStates) := mkFakeClientset (W := MemStates) () () ().

