(* ===== verification/ClientsetTheorems.v ===== *)
(** * What the clients are made with

    Which configuration a client of the registry is built from, and the time limits of the
    typed client's requests. *)
From S2P Require Export TypedClient.

Section clientset.
Context {W : Type} `{RestTypes, !RestLibrary W}.

(** A limiter: the one that is set, or a token bucket when the rate is limited. *)
Definition limiter_for (c : RestConfig) : option RateLimiterT :=
  match rc_RateLimiter c with
  | Some l => Some l
  | None => if float_positive (rc_QPS c) then Some (NewTokenBucketRateLimiter (rc_QPS c) (rc_Burst c)) else None
  end.

(** A configuration for the API group: that of [c], with a user agent, the group's version
    and path, the clientset's serializer, and its limiter. *)
Definition group_config (c : RestConfig) : RestConfig :=
  mkRestConfig _ (if decide (rc_UserAgent c = "") then DefaultKubernetesUserAgent else rc_UserAgent c)
    (rc_ContentType c) (rc_QPS c) (rc_Burst c) (limiter_for c) (Some SchemeGroupVersion) "/apis"
    (Some CodecsWithoutConversion) (rc_rest c).

(** A rate that no burst allows for. *)
Definition burst_missing (c : RestConfig) : Prop :=
  rc_RateLimiter c = None ∧ float_positive (rc_QPS c) = true ∧ (rc_Burst c ≤ 0)%Z.

(** The clientset's REST client was made for the group configuration of [c]. *)
Definition built_for (c : RestConfig) (cs : Clientset) : Prop :=
  ¬ burst_missing c ∧
  ∃ http w1 w2, runs (RESTClientForConfigAndClient (group_config c) http) w1 (inr (restClient (AppsV1alpha1 cs))) w2.

Lemma try_inv {A B} (m : GoM W (string + A)) (k : A → GoM W (string + B)) w b w' :
  runs (try m k) w (inr b) w' → ∃ a w1, runs m w (inr a) w1 ∧ runs (k a) w1 (inr b) w'.
Proof. intros ([err|a] & w1 & Hm & Hk)%go_bind_inv; [by injection Hk|by exists a, w1]. Qed.

Lemma apps_NewForConfigAndClient_run c h w a w' :
  runs (apps_NewForConfigAndClient c h) w (inr a) w' →
  runs (RESTClientForConfigAndClient (setConfigDefaults c) h) w (inr (restClient a)) w'.
Proof. intros (r & w1 & Hr & Hk)%try_inv. injection Hk as <- <-. exact Hr. Qed.

Lemma with_agent_defaults c :
  DefaultKubernetesUserAgent ≠ "" →
  setConfigDefaults (if decide (rc_UserAgent c = "") then rc_with_agent DefaultKubernetesUserAgent c else c) =
  setConfigDefaults c.
Proof. 
  intros Hne. unfold setConfigDefaults. destruct (decide (rc_UserAgent c = "")) as [Hua|Hua]; cbn.
  - by rewrite (decide_False (P := DefaultKubernetesUserAgent = "")).
  - by rewrite (decide_False (P := rc_UserAgent c = "")).
Qed.

Lemma NewForConfig_built c w cs w' :
  DefaultKubernetesUserAgent ≠ "" →
  runs (versioned_NewForConfig c) w (inr cs) w' → built_for c cs.
Proof.
  intros Hne (h & w1 & _ & Hrun)%try_inv. unfold versioned_NewForConfigAndClient in Hrun.
  set (c' := if decide _ then _ else c) in Hrun.
  assert (rc_RateLimiter c' = rc_RateLimiter c ∧ rc_QPS c' = rc_QPS c ∧ rc_Burst c' = rc_Burst c) as (Hl & Hq & Hb)
    by (unfold c'; by case_decide).
  assert (setConfigDefaults c' = setConfigDefaults c) as Hd by by apply with_agent_defaults.
  rewrite Hl, Hq, Hb in Hrun. unfold built_for, burst_missing, group_config, limiter_for.
  unfold setConfigDefaults in Hd. injection Hd as Hua Hct _ _ _ Hrest.
  destruct (rc_RateLimiter c) as [l|] eqn:Hlim; cbn in Hrun;
    [|destruct (float_positive _) eqn:Hpos; cbn in Hrun; [destruct (rc_Burst c <=? 0)%Z eqn:Hburst; [by injection Hrun|]|]].
  all: apply try_inv in Hrun as (a & w2 & Ha%apps_NewForConfigAndClient_run & Hk);
    apply try_inv in Hk as (d & w3 & _ & Hk); injection Hk as <- <-;
    unfold setConfigDefaults in Ha; cbn in Ha; rewrite ?Hua, ?Hct, ?Hq, ?Hb, ?Hl, ?Hrest in Ha.
  all: split; [|by exists h, w1, w2].
  - by intros [? _].
  - intros (_ & _ & ?). lia.
  - by intros (_ & ? & _).
Qed.

(** C32: The registry hands out clients for the configuration it was given.  Before NewRegistry
    there is none (GetGenericClientWithName returns nil).  Once NewRegistry has returned nil
    for a configuration, GetGenericClientWithName never returns nil: it panics, when the
    library refuses the configuration, or returns a client of which the part for this API
    group was made with exactly that configuration under the user agent
    "<agent>/<name>", with the group's version and path and, if the rate is limited, a
    limiter (so a rate without a burst is refused).  Either way the registry stays. *)
Theorem registry_clients_follow_config (c : RestConfig) (v v1 : RegistryVars) (w w1 w2 : W) name :
  DefaultKubernetesUserAgent ≠ "" →
  runs (GetGenericClientWithName name) (initial_registry, w2) None (initial_registry, w2) ∧
  (runs (NewRegistry c) (v, w) None (v1, w1) →
   (∃ g, defaultGenericClient v1 = Some g ∧ built_for c (KruiseClient g)) ∧
   let named := rc_with_agent (rc_UserAgent c +:+ "/" +:+ name) c in
   match GetGenericClientWithName name (v1, w2) with
   | (Ret (Some g), (v', _)) => v' = v1 ∧ built_for named (KruiseClient g)
   | (Ret None, _) => False
   | (Panic _, (v', _)) => v' = v1
   end).
Proof.
  intros Hne. split; [done|]. intros Hreg.
  assert (∀ c w g w', runs (newForConfig c) w (inr g) w' → built_for c (KruiseClient g)) as Hnew.
  { intros c' w' g w'' (d & w3 & _ & (k & w4 & _ & (cs & w5 & Hcs & Hk)%try_inv)%try_inv)%try_inv.
    injection Hk as <- _. by eapply NewForConfig_built. }
  unfold runs, NewRegistry in Hreg. destruct (newForConfig c w) as [[[err|g]|why] w3] eqn:Hrun; try done.
  injection Hreg as <- <-. split; [exists g; split; [done|by eapply Hnew]|]. cbv zeta.
  unfold GetGenericClientWithName. cbn [cfg]. unfold newForConfigOrDie, or_die, go_bind.
  destruct (newForConfig (rc_with_agent _ c) w2) as [[[err|g']|why] w4] eqn:Hrun2; cbn; try done.
  split; [done|by eapply Hnew].
Qed.
End clientset.

(** ** Time limits *)
Lemma wrap_int64_range z : (- 2 ^ 63 ≤ wrap_int64 z < 2 ^ 63)%Z.
Proof. unfold wrap_int64. pose proof (Z.mod_pos_bound (z + 2 ^ 63) (2 ^ 64) ltac:(lia)). lia. Qed.

Lemma wrap_int64_id z : (- 2 ^ 63 ≤ z < 2 ^ 63)%Z → wrap_int64 z = z.
Proof. intros Hz. unfold wrap_int64. rewrite Z.mod_small by lia. lia. Qed.

(** The time limit of a list, a watch or the deletion of a collection is a 64-bit duration,
    the requested seconds exactly as long as they are at most 9223372036 in absolute value
    (about 292 years), and none when the options ask for none.  Beyond, the product wraps
    around: one second more asks for a negative time. *)
Theorem list_timeout_bounds (opts : ListOptions) :
  (- 2 ^ 63 ≤ list_timeout opts < 2 ^ 63)%Z ∧
  match lo_TimeoutSeconds opts with
  | None => list_timeout opts = 0%Z
  | Some s => (Z.abs s ≤ 9223372036)%Z → list_timeout opts = (s * Second)%Z
  end ∧
  (lo_TimeoutSeconds opts = Some 9223372037%Z → (list_timeout opts < 0)%Z).
Proof.
  unfold list_timeout. destruct (lo_TimeoutSeconds opts) as [s|]; [|split; [lia|done]].
  split; [apply wrap_int64_range|]. split.
  - intros Hs. apply wrap_int64_id. unfold Second. lia.
  - by intros [= ->].
Qed.

(** ** A library in memory: a client remembers the agent and the path it was made with *)
#[local] Instance mem_rest_types : RestTypes := {|
  float32 := Z; float_positive q := (0 <? q)%Z; RateLimiterT := Z * Z; HTTPClient := unit;
  RESTClientT := string * string; DiscoveryClientT := string; KubeClientset := string |}.
#[local] Instance mem_rest {W} : RestLibrary W := {|
  DefaultKubernetesUserAgent := "kubernetes";
  NewTokenBucketRateLimiter q b := (q, b);
  HTTPClientFor _ := go_ret (inr ());
  RESTClientForConfigAndClient c _ := go_ret (inr (rc_UserAgent c, rc_APIPath c));
  NewDiscoveryClientForConfigAndClient c _ := go_ret (inr (rc_UserAgent c));
  NewDiscoveryClientForConfig c := go_ret (inr (rc_UserAgent c));
  NewDiscoveryClient c := fst c;
  kube_NewForConfig c := go_ret (inr (rc_ContentType c)) |}.

Definition demo_config : RestConfig := mkRestConfig mem_rest_types "operator" "" 20%Z 30%Z None None "" None "".
Definition demo_registry : RegistryVars := (NewRegistry demo_config (initial_registry, ())).2.1.

Lemma demo_registered :
  runs (NewRegistry demo_config) (initial_registry, ()) None (demo_registry, ()).
Proof. reflexivity. Qed.

Example registry_names_clients :
  let '(r, _) := GetGenericClientWithName "webhook-controller" (demo_registry, ()) in
  match r with
  | Ret (Some g) => restClient (AppsV1alpha1 (KruiseClient g)) = ("operator/webhook-controller", "/apis")
  | _ => False
  end.
Proof. reflexivity. Qed.

Lemma demo_agent : DefaultKubernetesUserAgent (W := unit) ≠ "".
Proof. done. Qed.

Lemma registry_clients_follow_config_witness :
  ∃ g, defaultGenericClient demo_registry = Some g ∧ built_for (W := unit) demo_config (KruiseClient g).
Proof.
  exact (proj1 (proj2 (registry_clients_follow_config demo_config initial_registry demo_registry () () ()
    "webhook-controller" demo_agent) demo_registered)).
Defined.
