(* ===== verification/Listers.v ===== *)
(** * The lister of PersistentPodStates: [pkg/client/listers/apps/v1alpha1]

    [persistentpodstate.go]: reads from the indexer of an informer, which is client-go's and
    an interface.  What it holds are values of type interface{}, which the lister asserts
    to be states: one that is not is a panic.  Then what the lister promises. *)
From S2P Require Export ApiServer Clientset.

(** A value in an indexer. *)
Inductive Cached := CachedState (p : PersistentPodState) | CachedOther (o : opaque).

(** schema.GroupResource; errors.NewNotFound of one and a name. *)
Record GroupResource := mkGroupResource { gr_Group : string; gr_Resource : string }.
Inductive ListerError := NewNotFound (r : GroupResource) (name : string) | IndexerError (err : string).

(** func Resource of groupversion_info.go *)
Definition Resource (resource : string) : GroupResource :=
  mkGroupResource (gv_Group SchemeGroupVersion) resource.

(** cache.Indexer, with cache.ListAll and cache.ListAllByNamespace: the objects the appendFn
    gets, in order, and the error. *)
Class Indexer (I Sel : Type) := {
  ListAll : I → Sel → list Cached * option string;
  ListAllByNamespace : I → string → Sel → list Cached * option string;
  GetByKey : I → string → string + option Cached }.

Section lister.
Context {W I Sel : Type} `{!Indexer I Sel}.

Record persistentPodStateLister := mkLister { pl_indexer : I }.
Definition NewPersistentPodStateLister (indexer : I) : persistentPodStateLister := mkLister indexer.

(** func(m interface{}) { ret = append(ret, m.( *v1alpha1.PersistentPodState)) } *)
Definition append_state (m : Cached) (ret : list PersistentPodState) : GoM W (list PersistentPodState) :=
  match m with
  | CachedState p => go_ret (ret ++ [p])
  | CachedOther _ => go_panic "interface conversion: interface {} is not *v1alpha1.PersistentPodState"
  end.

Definition lister_List (s : persistentPodStateLister) (selector : Sel)
    : GoM W (list PersistentPodState * option string) :=
  let '(objs, err) := ListAll (pl_indexer s) selector in
  let! ret := go_for append_state objs [] in
  go_ret (ret, err).

Record persistentPodStateNamespaceLister := mkNamespaceLister { pnl_indexer : I; pnl_namespace : string }.
Definition lister_PersistentPodStates (s : persistentPodStateLister) (namespace : string)
    : persistentPodStateNamespaceLister := mkNamespaceLister (pl_indexer s) namespace.

Definition namespace_lister_List (s : persistentPodStateNamespaceLister) (selector : Sel)
    : GoM W (list PersistentPodState * option string) :=
  let '(objs, err) := ListAllByNamespace (pnl_indexer s) (pnl_namespace s) selector in
  let! ret := go_for append_state objs [] in
  go_ret (ret, err).

Definition namespace_lister_Get (s : persistentPodStateNamespaceLister) (name : string)
    : GoM W (option PersistentPodState * option ListerError) :=
  match GetByKey (pnl_indexer s) (pnl_namespace s +:+ "/" +:+ name) with
  | inl err => go_ret (None, Some (IndexerError err))
  | inr None => go_ret (None, Some (NewNotFound (Resource "persistentpodstate") name))
  | inr (Some (CachedState p)) => go_ret (Some p, None)
  | inr (Some (CachedOther _)) => go_panic "interface conversion: interface {} is not *v1alpha1.PersistentPodState"
  end.
End lister.

(** ** What an indexer promises *)
Class IndexerLaws (I Sel : Type) `{!Indexer I Sel} := {
  indexed : I → gmap string Cached;
  selects : Sel → PersistentPodState → bool;
  get_by_key_law i k : GetByKey (Sel := Sel) i k = inr (indexed i !! k);
  (** of states: those selected, in some order *)
  list_all_law i sel : ∃ l, ListAll i sel = (l, None) ∧
    ∀ c, c ∈ l ↔ (∃ k, indexed i !! k = Some c) ∧ match c with CachedState p => selects sel p = true | _ => True end;
  list_by_namespace_law i ns sel : ns ≠ "" → ∃ l, ListAllByNamespace i ns sel = (l, None) ∧
    ∀ c, c ∈ l ↔ (∃ k, indexed i !! k = Some c) ∧
      match c with CachedState p => om_Namespace (pps_ObjectMeta p) = ns ∧ selects sel p = true | _ => True end }.

(** The indexer of an informer of PersistentPodStates: states only, under their keys, and no
    slash in a namespace or a name. *)
Definition slashless (s : string) : Prop := has_char "/" s = false.
Definition well_keyed {I Sel} `{!Indexer I Sel, !IndexerLaws I Sel} (i : I) : Prop :=
  ∀ k c, indexed (Sel := Sel) i !! k = Some c → ∃ p, c = CachedState p ∧
    k = om_Namespace (pps_ObjectMeta p) +:+ "/" +:+ om_Name (pps_ObjectMeta p) ∧
    om_Namespace (pps_ObjectMeta p) ≠ "" ∧
    slashless (om_Namespace (pps_ObjectMeta p)) ∧ slashless (om_Name (pps_ObjectMeta p)).

Lemma key_inj (ns ns' n n' : string) :
  slashless ns → slashless ns' → ns +:+ "/" +:+ n = ns' +:+ "/" +:+ n' → ns = ns' ∧ n = n'.
Proof.
  unfold slashless. revert ns'. induction ns as [|c ns IH]; intros [|c' ns'] Hs Hs' He.
  - by injection He.
  - injection He as <- _. by cbn in Hs'.
  - injection He as -> _. by cbn in Hs.
  - cbn in Hs, Hs'. apply orb_false_iff in Hs as [_ Hs], Hs' as [_ Hs'].
    injection He as -> He. destruct (IH ns' Hs Hs' He) as [-> ->]. done.
Qed.

Section laws.
Context {W I Sel : Type} `{!Indexer I Sel, !IndexerLaws I Sel}.

Lemma append_states_wp (l : list Cached) (w : W) :
  (∀ c, c ∈ l → ∃ p, c = CachedState p) →
  wp (go_for append_state l []) (λ ret w', w' = w ∧ ∀ p, p ∈ ret ↔ CachedState p ∈ l) w.
Proof.
  intros Hl. eapply wp_mono.
  { apply (wp_for append_state (λ rest ret w', w' = w ∧ (∀ c, c ∈ rest → ∃ p, c = CachedState p) ∧
      ∀ p, CachedState p ∈ l ↔ p ∈ ret ∨ CachedState p ∈ rest)).
    - split; [done|]. split; [done|]. set_solver.
    - intros c rest ret w' (-> & Hrest & Hin). destruct (Hrest c) as [p ->]; [left|]. apply wp_ret.
      split; [done|]. split; [set_solver|]. intros q. rewrite Hin, elem_of_app, elem_of_cons, list_elem_of_singleton.
      naive_solver. }
  intros ret w' (-> & _ & Hin). split; [done|]. intros p. rewrite Hin. set_solver.
Qed.

(** The state of a namespace and a name, in the indexer. *)
Definition in_cache (i : I) (p : PersistentPodState) : Prop :=
  indexed (Sel := Sel) i !! (om_Namespace (pps_ObjectMeta p) +:+ "/" +:+ om_Name (pps_ObjectMeta p)) = Some (CachedState p).

Lemma in_cache_some (i : I) p :
  well_keyed (Sel := Sel) i → (∃ k, indexed (Sel := Sel) i !! k = Some (CachedState p)) ↔ in_cache i p.
Proof.
  intros Hwk. split; [|by eexists]. intros [k Hk]. destruct (Hwk k _ Hk) as (p' & [= <-] & -> & _). exact Hk.
Qed.

(** C34: The lister shows the cache.  Over the indexer of an informer, Get of a namespace and a
    name returns the state of that namespace and name, if there is one, and otherwise
    NotFound, which names the resource persistentpodstate of the group and the name; List
    returns exactly the states that the selector selects, and in a namespace those of them
    with that namespace.  None of them panics. *)
Theorem lister_shows_the_cache (i : I) (ns : string) (sel : Sel) (w : W) :
  well_keyed (Sel := Sel) i → slashless ns → ns ≠ "" →
  let lister := NewPersistentPodStateLister i in
  (∀ name, wp (namespace_lister_Get (Sel := Sel) (lister_PersistentPodStates lister ns) name) (λ '(p, err) w', w' = w ∧
    match p with
    | Some p => err = None ∧ in_cache i p ∧ meta_key (pps_ObjectMeta p) = (ns, name)
    | None => err = Some (NewNotFound (mkGroupResource "apps.clay.io" "persistentpodstate") name) ∧
        ∀ p, in_cache i p → meta_key (pps_ObjectMeta p) ≠ (ns, name)
    end) w) ∧
  wp (lister_List lister sel) (λ '(ps, err) w', w' = w ∧ err = None ∧
    ∀ p, p ∈ ps ↔ in_cache i p ∧ selects sel p = true) w ∧
  wp (namespace_lister_List (lister_PersistentPodStates lister ns) sel) (λ '(ps, err) w', w' = w ∧ err = None ∧
    ∀ p, p ∈ ps ↔ in_cache i p ∧ selects sel p = true ∧ om_Namespace (pps_ObjectMeta p) = ns) w.
Proof.
  intros Hwk Hns Hne lister. split; [|split].
  - intros name. unfold namespace_lister_Get. change (pnl_indexer (lister_PersistentPodStates lister ns)) with i.
    change (pnl_namespace (lister_PersistentPodStates lister ns)) with ns. rewrite get_by_key_law.
    destruct (indexed i !! _) as [c|] eqn:Hi.
    + destruct (Hwk _ _ Hi) as (p & -> & Hk & _ & Hs & _). apply key_inj in Hk as [-> ->]; [|done..].
      apply (wp_ret (_, _)). split; [done|]. by split_and!.
    + apply (wp_ret (_, _)). split; [done|]. split; [done|]. intros p Hp [= Hpns Hpn]. unfold in_cache in Hp.
      rewrite Hpns, Hpn, Hi in Hp. done.
  - unfold lister_List. change (pl_indexer lister) with i. destruct (list_all_law i sel) as (l & -> & Hl).
    apply wp_bind. eapply wp_mono; [apply append_states_wp|].
    { intros c Hc. apply Hl in Hc as [[k Hk] _]. destruct (Hwk _ _ Hk) as (p & -> & _). by eexists. }
    intros ret w' [-> Hret]. apply (wp_ret (_, _)). split; [done|]. split; [done|]. intros p.
    by rewrite Hret, Hl, in_cache_some.
  - unfold namespace_lister_List. change (pnl_indexer (lister_PersistentPodStates lister ns)) with i.
    change (pnl_namespace (lister_PersistentPodStates lister ns)) with ns.
    destruct (list_by_namespace_law i ns sel Hne) as (l & -> & Hl).
    apply wp_bind. eapply wp_mono; [apply append_states_wp|].
    { intros c Hc. apply Hl in Hc as [[k Hk] _]. destruct (Hwk _ _ Hk) as (p & -> & _). by eexists. }
    intros ret w' [-> Hret]. apply (wp_ret (_, _)). split; [done|]. split; [done|]. intros p.
    rewrite Hret, Hl, in_cache_some by done. naive_solver.
Qed.
End laws.

(** ** An indexer in memory *)
Definition MemIndexer : Type := gmap string Cached.
Definition MemSelector : Type := PersistentPodState → bool.
Definition passes (f : PersistentPodState → bool) (c : Cached) : bool :=
  match c with CachedState p => f p | CachedOther _ => true end.
Definition values (i : MemIndexer) : list Cached := (map_to_list (i : gmap string Cached)).*2.
Definition in_namespace (ns : string) (p : PersistentPodState) : bool :=
  bool_decide (om_Namespace (pps_ObjectMeta p) = ns).
#[local] Instance mem_indexer : Indexer MemIndexer MemSelector := {|
  ListAll i sel := (filter (λ c, passes sel c = true) (values i), None);
  ListAllByNamespace i ns sel :=
    (filter (λ c, passes (λ p, in_namespace ns p && sel p) c = true) (values i), None);
  GetByKey i k := inr ((i : gmap string Cached) !! k) |}.

Lemma elem_of_values (i : MemIndexer) c : c ∈ values i ↔ ∃ k, (i : gmap string Cached) !! k = Some c.
Proof.
  unfold values. rewrite list_elem_of_fmap. split.
  - intros ([k c'] & -> & Hk%elem_of_map_to_list). by exists k.
  - intros [k Hk]. exists (k, c). by rewrite elem_of_map_to_list.
Qed.

#[local] Instance mem_indexer_laws : IndexerLaws MemIndexer MemSelector.
Proof.
  refine {| indexed := λ i, i; selects := λ sel p, sel p |}; [done|intros i sel|intros i ns sel _].
  - eexists. split; [done|]. intros c. rewrite list_elem_of_filter, elem_of_values. destruct c; cbn; naive_solver.
  - eexists. split; [done|]. intros c. rewrite list_elem_of_filter, elem_of_values. destruct c; cbn; [|naive_solver].
    unfold in_namespace. rewrite andb_true_iff, bool_decide_eq_true. naive_solver.
Defined.

Definition listed_state : PersistentPodState :=
  mkPersistentPodState (mkObjectMeta "web" "shop" "" "" None None [] "")
    (mkPersistentPodStateSpec (mkTargetReference "apps/v1" "StatefulSet" "web") None None) Status_zero.
Definition demo_indexer : MemIndexer := ({[ "shop/web" := CachedState listed_state ]} : gmap string Cached).

Lemma demo_well_keyed : well_keyed (Sel := MemSelector) demo_indexer.
Proof.
  intros k c Hk. change ((({[ "shop/web" := CachedState listed_state ]} : gmap string Cached)) !! k = Some c) in Hk.
  apply lookup_singleton_Some in Hk as [<- <-].
  exists listed_state. by split_and!.
Qed.
Lemma demo_slashless : slashless "shop".
Proof. done. Qed.
Lemma demo_namespace : "shop" ≠ "".
Proof. done. Qed.

Lemma lister_shows_the_cache_witness :
  wp (namespace_lister_Get (W := unit) (Sel := MemSelector)
      (lister_PersistentPodStates (NewPersistentPodStateLister demo_indexer) "shop") "web")
    (λ '(p, err) w', w' = tt ∧ match p with
    | Some p => err = None ∧ in_cache (Sel := MemSelector) demo_indexer p ∧ meta_key (pps_ObjectMeta p) = ("shop", "web")
    | None => err = Some (NewNotFound (mkGroupResource "apps.clay.io" "persistentpodstate") "web") ∧
        ∀ p, in_cache (Sel := MemSelector) demo_indexer p → meta_key (pps_ObjectMeta p) ≠ ("shop", "web")
    end) tt.
Proof.
  exact (proj1 (lister_shows_the_cache demo_indexer "shop" (λ _, true) tt demo_well_keyed demo_slashless
    demo_namespace) "web").
Defined.
