(* ===== verification/Informers.v ===== *)
(** * The shared informer factory: [pkg/client/informers/externalversions]

    [factory.go], [generic.go] and the accessors below [apps]: one informer per type, made
    on demand, started at most once, and a Shutdown that waits for all that run.  Each
    operation holds the factory's lock, so it is one step; the goroutines it starts end in
    steps of their own.  An informer is a location of client-go's, with what it was made
    with. *)
From S2P Require Export ApiTypes Clientset Listers.

(** reflect.Type, as its name. *)
Abbreviation rtype := string.
Definition PersistentPodState_type : rtype := "*v1alpha1.PersistentPodState".

(** A *SharedIndexInformer; and what NewSharedIndexInformer was given. *)
Abbreviation iid := nat.
Record InformerSpec (Tweak Transform : Type) := mkInformerSpec {
  is_Type : rtype; is_Namespace : string; is_Tweak : option Tweak; is_Resync : Z; is_Indexers : list string;
  is_Transform : option Transform }.
Arguments mkInformerSpec {Tweak Transform}.
Arguments is_Type {Tweak Transform}. Arguments is_Namespace {Tweak Transform}.
Arguments is_Tweak {Tweak Transform}. Arguments is_Resync {Tweak Transform}.
Arguments is_Indexers {Tweak Transform}. Arguments is_Transform {Tweak Transform}.

Section factory.
Context {Client Tweak Transform : Type}.
(** The order in which a map is ranged over. *)
Variable range : ∀ {V}, gmap string V → list (string * V).

(** *** The factory *)
Record sharedInformerFactory := mkFactory {
  f_client : Client;
  f_namespace : string;
  f_tweakListOptions : option Tweak;
  f_defaultResync : Z;
  f_customResync : gmap rtype Z;
  f_transform : option Transform;
  f_informers : gmap rtype iid;
  f_startedInformers : gmap rtype bool;
  f_wg : nat;
  f_shuttingDown : bool }.

Definition SharedInformerOption : Type := sharedInformerFactory → sharedInformerFactory.

(** [resyncConfig]: the entries of the map in the order of range, each object as its type. *)
Definition WithCustomResyncConfig (resyncConfig : list (rtype * Z)) : SharedInformerOption := λ f,
  mkFactory (f_client f) (f_namespace f) (f_tweakListOptions f) (f_defaultResync f)
    (foldl (λ m '(k, v), <[k := v]> m) (f_customResync f) resyncConfig)
    (f_transform f) (f_informers f) (f_startedInformers f) (f_wg f) (f_shuttingDown f).
Definition WithTweakListOptions (tweak : option Tweak) : SharedInformerOption := λ f,
  mkFactory (f_client f) (f_namespace f) tweak (f_defaultResync f) (f_customResync f)
    (f_transform f) (f_informers f) (f_startedInformers f) (f_wg f) (f_shuttingDown f).
Definition WithNamespace (namespace : string) : SharedInformerOption := λ f,
  mkFactory (f_client f) namespace (f_tweakListOptions f) (f_defaultResync f) (f_customResync f)
    (f_transform f) (f_informers f) (f_startedInformers f) (f_wg f) (f_shuttingDown f).
Definition WithTransform (transform : option Transform) : SharedInformerOption := λ f,
  mkFactory (f_client f) (f_namespace f) (f_tweakListOptions f) (f_defaultResync f) (f_customResync f)
    transform (f_informers f) (f_startedInformers f) (f_wg f) (f_shuttingDown f).

(** v1.NamespaceAll *)
Definition NamespaceAll : string := "".

Definition NewSharedInformerFactoryWithOptions (client : Client) (defaultResync : Z)
    (options : list SharedInformerOption) : sharedInformerFactory :=
  foldl (λ factory opt, opt factory)
    (mkFactory client NamespaceAll None defaultResync ∅ None ∅ ∅ 0 false) options.
Definition NewSharedInformerFactory (client : Client) (defaultResync : Z) : sharedInformerFactory :=
  NewSharedInformerFactoryWithOptions client defaultResync [].
Definition NewFilteredSharedInformerFactory (client : Client) (defaultResync : Z) (namespace : string)
    (tweak : option Tweak) : sharedInformerFactory :=
  NewSharedInformerFactoryWithOptions client defaultResync [WithNamespace namespace; WithTweakListOptions tweak].

(** *** The process around it: the informers made so far, every informer that has been run,
    and those whose Run has not returned. *)
Record Informing := mkInforming {
  factory : sharedInformerFactory;
  heap : list (InformerSpec Tweak Transform);
  launched : list iid;
  running : list iid }.

Definition initial (f : sharedInformerFactory) : Informing := mkInforming f [] [] [].

Definition with_informers (m : gmap rtype iid) (f : sharedInformerFactory) : sharedInformerFactory :=
  mkFactory (f_client f) (f_namespace f) (f_tweakListOptions f) (f_defaultResync f) (f_customResync f)
    (f_transform f) m (f_startedInformers f) (f_wg f) (f_shuttingDown f).
Definition with_started (m : gmap rtype bool) (wg : nat) (f : sharedInformerFactory) : sharedInformerFactory :=
  mkFactory (f_client f) (f_namespace f) (f_tweakListOptions f) (f_defaultResync f) (f_customResync f)
    (f_transform f) (f_informers f) m wg (f_shuttingDown f).
Definition with_shutdown (f : sharedInformerFactory) : sharedInformerFactory :=
  mkFactory (f_client f) (f_namespace f) (f_tweakListOptions f) (f_defaultResync f) (f_customResync f)
    (f_transform f) (f_informers f) (f_startedInformers f) (f_wg f) true.

(** f.startedInformers[t]: false when absent. *)
Definition is_started (f : sharedInformerFactory) (t : rtype) : bool := default false (f_startedInformers f !! t).

(** One turn of the loop of Start. *)
Definition start_one (ti : rtype * iid) (_ : ()) : GoM Informing () := λ s,
  let '(informerType, informer) := ti in
  let f := factory s in
  if is_started f informerType then (Ret (), s)
  else (Ret (), mkInforming (with_started (<[informerType := true]> (f_startedInformers f)) (S (f_wg f)) f)
                  (heap s) (informer :: launched s) (informer :: running s)).

Definition Start : GoM Informing () := λ s,
  if f_shuttingDown (factory s) then (Ret (), s)
  else go_for start_one (range (f_informers (factory s))) () s.

(** The end of a goroutine: informer.Run has returned, and wg.Done. *)
Definition goroutine_done (i : iid) : GoM Informing () := λ s,
  match f_wg (factory s) with
  | O => (Panic "sync: negative WaitGroup counter", s)
  | S n =>
      (Ret (), mkInforming (with_started (f_startedInformers (factory s)) n (factory s))
        (heap s) (launched s) (filter (λ j, j ≠ i) (running s)))
  end.

(** Shutdown before it waits; f.wg.Wait() returns when the counter is 0. *)
Definition Shutdown_mark : GoM Informing () := λ s,
  (Ret (), mkInforming (with_shutdown (factory s)) (heap s) (launched s) (running s)).
Definition wg_Wait_returns (s : Informing) : bool := Nat.eqb (f_wg (factory s)) 0.

(** InformerFor: newFunc makes the informer from the client and the resync period. *)
Definition NewInformerFunc : Type := Client → Z → InformerSpec Tweak Transform.

Definition SetTransform (t : option Transform) (i : InformerSpec Tweak Transform) : InformerSpec Tweak Transform :=
  mkInformerSpec (is_Type i) (is_Namespace i) (is_Tweak i) (is_Resync i) (is_Indexers i) t.

Definition InformerFor (informerType : rtype) (newFunc : NewInformerFunc) : GoM Informing iid := λ s,
  let f := factory s in
  match f_informers f !! informerType with
  | Some informer => (Ret informer, s)
  | None =>
      let resyncPeriod := default (f_defaultResync f) (f_customResync f !! informerType) in
      let informer := length (heap s) in
      let made := SetTransform (f_transform f) (newFunc (f_client f) resyncPeriod) in
      (Ret informer,
       mkInforming (with_informers (<[informerType := informer]> (f_informers f)) f)
         (heap s ++ [made]) (launched s) (running s))
  end.

(** WaitForCacheSync: the started informers, each waited for by client-go. *)
Definition WaitForCacheSync (wait : iid → bool) : GoM Informing (gmap rtype bool) := λ s,
  let informers := filter (λ ti, is_started (factory s) ti.1 = true) (range (f_informers (factory s))) in
  (Ret (foldl (λ res '(t, i), <[t := wait i]> res) ∅ informers), s).

(** *** apps/interface.go, apps/v1alpha1: the accessors down to the informer of the type *)
Record persistentPodStateInformer := mkPpsInformer { pi_namespace : string; pi_tweak : option Tweak }.

(** The accessors of apps/interface.go and apps/v1alpha1/interface.go; the factory that each
    value carries on is the one whose state is passed. *)
Record group := mkGroup { group_namespace : string; group_tweak : option Tweak }.
Record version := mkVersion { version_namespace : string; version_tweak : option Tweak }.
Definition group_New (namespace : string) (tweak : option Tweak) : group := mkGroup namespace tweak.
Definition version_New (namespace : string) (tweak : option Tweak) : version := mkVersion namespace tweak.
Definition Apps (f : sharedInformerFactory) : group := group_New (f_namespace f) (f_tweakListOptions f).
Definition group_V1alpha1 (g : group) : version := version_New (group_namespace g) (group_tweak g).
Definition version_PersistentPodStates (v : version) : persistentPodStateInformer :=
  mkPpsInformer (version_namespace v) (version_tweak v).

(** f.Apps().V1alpha1().PersistentPodStates() *)
Definition PersistentPodStates (f : sharedInformerFactory) : persistentPodStateInformer :=
  version_PersistentPodStates (group_V1alpha1 (Apps f)).

Definition NewFilteredPersistentPodStateInformer (namespace : string) (resyncPeriod : Z) (indexers : list string)
    (tweak : option Tweak) : InformerSpec Tweak Transform :=
  mkInformerSpec PersistentPodState_type namespace tweak resyncPeriod indexers None.
Definition NewPersistentPodStateInformer (namespace : string) (resyncPeriod : Z) (indexers : list string)
    : InformerSpec Tweak Transform :=
  NewFilteredPersistentPodStateInformer namespace resyncPeriod indexers None.

(** cache.NamespaceIndex *)
Definition NamespaceIndex : string := "namespace".
Definition defaultInformer (p : persistentPodStateInformer) : NewInformerFunc := λ _ resyncPeriod,
  NewFilteredPersistentPodStateInformer (pi_namespace p) resyncPeriod [NamespaceIndex] (pi_tweak p).

Definition Informer (p : persistentPodStateInformer) : GoM Informing iid :=
  InformerFor PersistentPodState_type (defaultInformer p).

(** The lister over the informer's indexer, which is client-go's. *)
Definition informer_Lister {I : Type} (GetIndexer : iid → I) (p : persistentPodStateInformer)
    : GoM Informing (persistentPodStateLister (I := I)) :=
  let! i := Informer p in go_ret (NewPersistentPodStateLister (GetIndexer i)).

(** *** generic.go *)
Record GroupVersionResource := mkGVR { gvr_Group : string; gvr_Version : string; gvr_Resource : string }.
#[global] Instance GroupVersionResource_eq_dec : EqDecision GroupVersionResource.
Proof. solve_decision. Defined.
Definition persistentpodstates_gvr : GroupVersionResource :=
  mkGVR (gv_Group SchemeGroupVersion) (gv_Version SchemeGroupVersion) "persistentpodstates".

Record genericInformer := mkGenericInformer { gi_informer : iid; gi_resource : string * string }.

Definition generic_Informer (f : genericInformer) : iid := gi_informer f.
Definition generic_Lister {I L : Type} (GetIndexer : iid → I) (NewGenericLister : I → string * string → L)
    (f : genericInformer) : L := NewGenericLister (GetIndexer (generic_Informer f)) (gi_resource f).

Definition ForResource (resource : GroupVersionResource) : GoM Informing (string + genericInformer) :=
  if decide (resource = persistentpodstates_gvr) then
    λ s, (let! i := Informer (PersistentPodStates (factory s)) in
          go_ret (inr (mkGenericInformer i (gvr_Group resource, gvr_Resource resource)))) s
  else go_ret (inl "no informer found").
End factory.
Arguments sharedInformerFactory : clear implicits.
Arguments Informing : clear implicits.

(** * The interfaces of the informers and of the lister

    [SharedInformerFactory], the [Interface]s of [apps] and [apps/v1alpha1],
    [PersistentPodStateInformer], [GenericInformer], [PersistentPodStateLister] and
    [PersistentPodStateNamespaceLister] as records of their methods, with the generated types
    as implementations; and that all ways to the informer of the type lead to one. *)
(** ** The lister *)
Section lister.
Context {W I Sel : Type} `{!Indexer I Sel}.

Record PersistentPodStateNamespaceLister := mkNamespaceListerInterface {
  nl_List : Sel → GoM W (list PersistentPodState * option string);
  nl_Get : string → GoM W (option PersistentPodState * option ListerError) }.
Record PersistentPodStateLister := mkListerInterface {
  pl_List : Sel → GoM W (list PersistentPodState * option string);
  pl_PersistentPodStates : string → PersistentPodStateNamespaceLister }.

Definition namespace_lister_interface (s : persistentPodStateNamespaceLister (I := I)) : PersistentPodStateNamespaceLister :=
  mkNamespaceListerInterface (namespace_lister_List s) (namespace_lister_Get (Sel := Sel) s).
Definition lister_interface (s : persistentPodStateLister (I := I)) : PersistentPodStateLister :=
  mkListerInterface (lister_List s) (λ ns, namespace_lister_interface (lister_PersistentPodStates s ns)).
End lister.
Arguments PersistentPodStateLister : clear implicits.
Arguments PersistentPodStateNamespaceLister : clear implicits.

(** ** The informers

    [W] is what the methods act on; [Spec] what an informer is made with; [Lister] and
    [GenericLister] what the listers are. *)
Section interfaces.
Context {W : Type}.
Variables Lister GenericLister NewFunc : Type.

Record PersistentPodStateInformer := mkPersistentPodStateInformerInterface {
  psi_Informer : GoM W iid;
  psi_Lister : GoM W Lister }.

(** Interface of apps/v1alpha1/interface.go *)
Record V1alpha1Interface := mkV1alpha1Interface { vi_PersistentPodStates : PersistentPodStateInformer }.

(** Interface of apps/interface.go *)
Record AppsInterface := mkAppsInterface { api_V1alpha1 : V1alpha1Interface }.

Record GenericInformer := mkGenericInformerInterface {
  gii_Informer : iid;
  gii_Lister : GenericLister }.

(** Apps looks at the factory; Shutdown marks it and then waits for [wg_Wait_returns]. *)
Record SharedInformerFactory := mkSharedInformerFactoryInterface {
  sif_Start : GoM W ();
  sif_Shutdown : GoM W ();
  sif_WaitForCacheSync : GoM W (gmap rtype bool);
  sif_ForResource : GroupVersionResource → GoM W (string + GenericInformer);
  sif_InformerFor : rtype → NewFunc → GoM W iid;
  sif_Apps : GoM W AppsInterface }.
End interfaces.

(** ** The generated factory *)
Section implementation.
Context {Client Tweak Transform I Sel GL : Type} `{!Indexer I Sel}.
Variable range : ∀ {V}, gmap string V → list (string * V).
(** client-go: an informer's cache, the generic lister over one, and what waiting for the
    cache of an informer gives. *)
Variable GetIndexer : iid → I.
Variable NewGenericLister : I → string * string → GL.
Variable wait : iid → bool.
Abbreviation world := (Informing Client Tweak Transform).
Abbreviation Lister := (PersistentPodStateLister world Sel).

Definition informer_interface (p : persistentPodStateInformer (Tweak := Tweak)) : PersistentPodStateInformer (W := world) Lister :=
  mkPersistentPodStateInformerInterface Lister (Informer p)
    (let! l := informer_Lister GetIndexer p in go_ret (lister_interface l)).

Definition version_interface (v : version (Tweak := Tweak)) : V1alpha1Interface (W := world) Lister :=
  mkV1alpha1Interface Lister (informer_interface (version_PersistentPodStates v)).

Definition group_interface (g : group (Tweak := Tweak)) : AppsInterface (W := world) Lister :=
  mkAppsInterface Lister (version_interface (group_V1alpha1 g)).

Definition generic_informer_interface (f : genericInformer) : GenericInformer GL :=
  mkGenericInformerInterface GL (generic_Informer f) (generic_Lister GetIndexer NewGenericLister f).

Definition factory_interface : SharedInformerFactory (W := world) Lister GL (NewInformerFunc (Client := Client) (Tweak := Tweak) (Transform := Transform)) :=
  mkSharedInformerFactoryInterface Lister GL _
    (Start (@range)) Shutdown_mark (WaitForCacheSync (@range) wait)
    (λ resource, let! r := ForResource resource in
                 go_ret match r with inl err => inl err | inr f => inr (generic_informer_interface f) end)
    InformerFor
    (λ s, (Ret (group_interface (Apps (Client := Client) (Transform := Transform) (factory s))), s)).

(** ** All ways lead to one informer *)

(** Asking again, by whichever way, gives the informer made before and makes none. *)
Lemma InformerFor_again t newFunc newFunc' (s : world) :
  ∃ i s', InformerFor t newFunc s = (Ret i, s') ∧ InformerFor t newFunc' s' = (Ret i, s').
Proof.
  unfold InformerFor. destruct (f_informers (factory s) !! t) as [i|] eqn:Hi.
  - exists i, s. by rewrite Hi.
  - eexists _, _. split; [reflexivity|]. cbn. by rewrite lookup_insert_eq.
Qed.

(** factory.Apps().V1alpha1().PersistentPodStates() *)
Definition states_of (f : SharedInformerFactory (W := world) Lister GL (NewInformerFunc (Client := Client) (Tweak := Tweak) (Transform := Transform)))
    : GoM world (PersistentPodStateInformer (W := world) Lister) :=
  let! apps := sif_Apps _ _ _ f in go_ret (vi_PersistentPodStates _ (api_V1alpha1 _ apps)).

(** However a caller comes to the informer of the type, by the accessors or by its resource,
    and however often, it is one informer, whose cache both kinds of listers read. *)
Theorem one_informer_per_type (s : world) :
  ∃ i s', (let! p := states_of factory_interface in psi_Informer _ p) s = (Ret i, s') ∧
    (let! p := states_of factory_interface in psi_Informer _ p) s' = (Ret i, s') ∧
    (let! p := states_of factory_interface in psi_Lister _ p) s' =
      (Ret (lister_interface (NewPersistentPodStateLister (GetIndexer i))), s') ∧
    sif_ForResource _ _ _ factory_interface persistentpodstates_gvr s' =
      (Ret (inr (mkGenericInformerInterface GL i (NewGenericLister (GetIndexer i)
        (gvr_Group persistentpodstates_gvr, gvr_Resource persistentpodstates_gvr)))), s').
Proof.
  pose (new := defaultInformer (PersistentPodStates (factory s)) : NewInformerFunc (Client := Client) (Transform := Transform)).
  destruct (InformerFor_again PersistentPodState_type new new s) as (i & s' & H1 & _).
  exists i, s'. assert (∀ newFunc, InformerFor (Client := Client) (Tweak := Tweak) (Transform := Transform) PersistentPodState_type newFunc s' = (Ret i, s')) as H2.
  { intros newFunc. destruct (InformerFor_again PersistentPodState_type new newFunc s) as (j & s'' & H1' & H2').
    rewrite H1 in H1'. by simplify_eq. }
  assert (∀ p, Informer (Client := Client) (Tweak := Tweak) (Transform := Transform) p s' = (Ret i, s')) as H3 by (intros p; apply H2).
  split; [exact H1|]. split; [apply H2|].
  unfold states_of, go_bind; cbn. unfold informer_Lister, ForResource, go_bind. rewrite decide_True by done.
  by rewrite !H3.
Qed.
End implementation.
