(* ===== verification/TestUtils.v ===== *)
(** * The helpers of the end-to-end tests: [test/utils/utils.go]

    They run kubectl and kind.  The processes, the directory and the environment are the
    system's and an interface; what is printed for the reader of a test is an operation of
    it too. *)
From S2P Require Export GoStrings.

(** exec.Cmd, as far as the helpers set it. *)
Record Cmd := mkCmd { cmd_Args : list string; cmd_Dir : string; cmd_Env : option (list string) }.
(** exec.Command *)
Definition Command (name : string) (arg : list string) : Cmd := mkCmd (name :: arg) "" None.

Class System (W : Type) := {
  Getwd : GoM W (string * option string);
  Chdir : string → GoM W (option string);
  Environ : GoM W (list string);
  LookupEnv : string → GoM W (option string);
  (** what the process printed, and an error if it failed or could not be started *)
  CombinedOutput : Cmd → GoM W (string * option string);
  GinkgoPrint : string → GoM W () }.

(** strings.Replace of every occurrence of a non-empty [old] by nothing; [skip] bytes of an
    occurrence are still to be dropped. *)
Fixpoint remove_all_from (old : string) (skip : nat) (s : string) : string :=
  match s with
  | "" => ""
  | String c s' =>
      match skip with
      | S n => remove_all_from old n s'
      | O => if has_prefix s old then remove_all_from old (String.length old - 1) s'
             else String c (remove_all_from old 0 s')
      end
  end.
Definition remove_all (s old : string) : string := remove_all_from old 0 s.

Definition newline : ascii := ascii_of_nat 10.

Definition GetNonEmptyLines (output : string) : list string :=
  foldl (λ res element, if negb (bool_decide (element = "")) then res ++ [element] else res) [] (split output newline).

Definition prometheusOperatorVersion : string := "v0.72.0".
(** fmt.Sprintf of the constant *)
Definition prometheusOperatorURL (version : string) : string :=
  "https://github.com/prometheus-operator/prometheus-operator/" +:+ "releases/download/" +:+ version +:+ "/bundle.yaml".
Definition certmanagerVersion : string := "v1.14.4".
Definition certmanagerURLTmpl (version : string) : string :=
  "https://github.com/jetstack/cert-manager/releases/download/" +:+ version +:+ "/cert-manager.yaml".

Section helpers.
Context {W : Type} `{!System W}.

Definition warnError (err : string) : GoM W () := GinkgoPrint ("warning: " +:+ err).

Definition GetProjectDir : GoM W (string * option string) :=
  let! (wd, err) := Getwd in
  match err with
  | Some err => go_ret (wd, Some err)
  | None => go_ret (remove_all wd "/test/e2e", None)
  end.

Definition Run (cmd : Cmd) : GoM W (string * option string) :=
  let! (dir, _) := GetProjectDir in
  let! err := Chdir dir in
  do! match err with Some err => GinkgoPrint ("chdir dir: " +:+ err) | None => go_ret () end in
  let! environ := Environ in
  let cmd := mkCmd (cmd_Args cmd) dir (Some (environ ++ ["GO111MODULE=on"])) in
  let command := join (cmd_Args cmd) " " in
  do! GinkgoPrint ("running: " +:+ command) in
  let! (output, err) := CombinedOutput cmd in
  match err with
  | Some err => go_ret (output, Some (command +:+ " failed with error: (" +:+ err +:+ ") " +:+ output))
  | None => go_ret (output, None)
  end.

(** if _, err := Run(cmd); err != nil { warnError(err) } *)
Definition warned (cmd : Cmd) : GoM W () :=
  let! (_, err) := Run cmd in
  match err with Some err => warnError err | None => go_ret () end.

Definition InstallPrometheusOperator : GoM W (option string) :=
  let! (_, err) := Run (Command "kubectl" ["create"; "-f"; prometheusOperatorURL prometheusOperatorVersion]) in
  go_ret err.

Definition UninstallPrometheusOperator : GoM W () :=
  warned (Command "kubectl" ["delete"; "-f"; prometheusOperatorURL prometheusOperatorVersion]).

Definition UninstallCertManager : GoM W () :=
  warned (Command "kubectl" ["delete"; "-f"; certmanagerURLTmpl certmanagerVersion]).

Definition InstallCertManager : GoM W (option string) :=
  let! (_, err) := Run (Command "kubectl" ["apply"; "-f"; certmanagerURLTmpl certmanagerVersion]) in
  match err with
  | Some err => go_ret (Some err)
  | None =>
      let! (_, err) := Run (Command "kubectl" ["wait"; "deployment.apps/cert-manager-webhook";
        "--for"; "condition=Available"; "--namespace"; "cert-manager"; "--timeout"; "5m"]) in
      go_ret err
  end.

Definition LoadImageToKindClusterWithName (name : string) : GoM W (option string) :=
  let! v := LookupEnv "KIND_CLUSTER" in
  let cluster := default "kind" v in
  let! (_, err) := Run (Command "kind" ["load"; "docker-image"; name; "--name"; cluster]) in
  go_ret err.
End helpers.

(** ** The lines *)
Lemma GetNonEmptyLines_filter output :
  GetNonEmptyLines output = filter (λ l, l ≠ "") (split output newline).
Proof.
  unfold GetNonEmptyLines. set (keep := λ res element, _). generalize (split output newline) as l. intros l.
  assert (∀ res, foldl keep res l = res ++ filter (λ l, l ≠ "") l) as H; [|apply H].
  induction l as [|x l IH]; intros res; simpl; [by rewrite app_nil_r|]. rewrite IH. unfold keep.
  destruct (decide (x = "")) as [->|Hx].
  - by rewrite bool_decide_true, filter_cons_False by naive_solver.
  - rewrite bool_decide_false, filter_cons_True by done. simpl. by rewrite <-app_assoc.
Qed.

Lemma split_pieces s sep x : x ∈ split s sep → has_char sep x = false.
Proof.
  revert x. induction s as [|c s IH]; simpl; intros x.
  - intros ->%list_elem_of_singleton. done.
  - destruct (decide (c = sep)) as [->|Hc]; [by intros [->|?]%elem_of_cons; [|apply IH]|].
    destruct (split s sep) as [|y l] eqn:Hs; intros [->|Hx]%elem_of_cons; simpl.
    + by rewrite bool_decide_false.
    + by apply not_elem_of_nil in Hx.
    + rewrite bool_decide_false by done. apply IH. set_solver.
    + apply IH. set_solver.
Qed.

(** Non-empty lines, none of which spans two. *)
Theorem non_empty_lines output l :
  l ∈ GetNonEmptyLines output → l ≠ "" ∧ has_char newline l = false.
Proof. rewrite GetNonEmptyLines_filter. intros [Hl Hin]%list_elem_of_filter. by split; [|eapply split_pieces]. Qed.

(** ** Installing cert-manager waits for it only when it was applied *)
Section install.
Context {W : Type} `{!System W}.

Abbreviation apply_it := (Command "kubectl" ["apply"; "-f"; certmanagerURLTmpl certmanagerVersion]).
Abbreviation wait_for_it := (Command "kubectl" ["wait"; "deployment.apps/cert-manager-webhook";
  "--for"; "condition=Available"; "--namespace"; "cert-manager"; "--timeout"; "5m"]).

Theorem InstallCertManager_steps w err w' :
  runs InstallCertManager w err w' →
  ∃ out1 err1 w1, runs (Run apply_it) w (out1, err1) w1 ∧
    match err1 with
    | Some e => err = Some e ∧ w' = w1
    | None => ∃ out2, runs (Run wait_for_it) w1 (out2, err) w'
    end.
Proof.
  intros ([out1 err1] & w1 & H1 & H2)%go_bind_inv. exists out1, err1, w1. split; [done|].
  destruct err1 as [e|]; [by injection H2 as <- <-|].
  apply go_bind_inv in H2 as ([out2 err2] & w2 & H2 & H3). injection H3 as -> ->. by exists out2.
Qed.
End install.

(** ** On a system in memory: a log of the commands, and those that fail *)
Record MemSystem := mkMemSystem { sys_wd : string; sys_failing : list string; sys_log : list (string * list string) }.

#[export] Instance MemSystem_System : System MemSystem := {|
  Getwd s := (Ret (sys_wd s, None), s);
  Chdir d s := (Ret None, mkMemSystem d (sys_failing s) (sys_log s));
  Environ s := (Ret [], s);
  LookupEnv _ s := (Ret None, s);
  CombinedOutput c s :=
    (Ret ("", if existsb (λ f, bool_decide (f ∈ cmd_Args c)) (sys_failing s) then Some "exit status 1" else None),
     mkMemSystem (sys_wd s) (sys_failing s) (sys_log s ++ [(cmd_Dir c, cmd_Args c)]));
  GinkgoPrint _ s := (Ret (), s) |}.

Example load_image :
  LoadImageToKindClusterWithName "operator:v1" (mkMemSystem "/src/pps/test/e2e" [] []) =
  (Ret None, mkMemSystem "/src/pps" [] [("/src/pps", ["kind"; "load"; "docker-image"; "operator:v1"; "--name"; "kind"])]).
Proof. reflexivity. Qed.

Example refused_apply_is_not_waited_for : ∃ e s,
  InstallCertManager (mkMemSystem "/src/pps/test/e2e" ["apply"] []) = (Ret (Some e), s) ∧ length (sys_log s) = 1.
Proof. do 2 eexists. split; reflexivity. Qed.

(** The directory is right wherever the name of the tests' directory occurs once; one that
    merely starts like it is damaged. *)
Example project_dir : GetProjectDir (mkMemSystem "/src/pps/test/e2e" [] []) =
  (Ret ("/src/pps", None), mkMemSystem "/src/pps/test/e2e" [] []).
Proof. reflexivity. Qed.
Example project_dir_inside_word : GetProjectDir (mkMemSystem "/test/e2e-runs/pps/test/e2e" [] []) =
  (Ret ("-runs/pps", None), mkMemSystem "/test/e2e-runs/pps/test/e2e" [] []).
Proof. reflexivity. Qed.
