(* ===== verification/InformersTheorems.v ===== *)
(** * The informer factory as a state machine

    [step]: the operations of the factory and the ends of its goroutines, in any order.  In
    every state that can be reached the invariant [factory_ok] holds. *)
From stdpp Require Export relations.
From S2P Require Export Informers.

Section machine.
Context {Client Tweak Transform : Type}.
Context (range : ∀ V, gmap string V → list (string * V)).
Hypothesis range_perm : ∀ V (m : gmap string V), range V m ≡ₚ map_to_list m.

Abbreviation state := (Informing Client Tweak Transform).
Abbreviation factory_of := (sharedInformerFactory Client Tweak Transform).

(** Which goroutines call what is open; each call is one step, under the lock. *)
Inductive step : state → state → Prop :=
| step_informer t newFunc i s s' : runs (InformerFor t newFunc) s i s' → step s s'
| step_start s s' : runs (Start range) s () s' → step s s'
| step_done i s s' : i ∈ running s → runs (goroutine_done i) s () s' → step s s'
| step_shutdown s s' : runs Shutdown_mark s () s' → step s s'.

(** A factory as NewSharedInformerFactoryWithOptions makes it. *)
Definition unused (f : factory_of) : Prop :=
  f_informers f = ∅ ∧ f_startedInformers f = ∅ ∧ f_wg f = 0 ∧ f_shuttingDown f = false.
Definition reachable (s : state) : Prop := ∃ f, unused f ∧ rtc step (initial f) s.

(** The informers a factory holds and has started. *)
Definition started_informer (s : state) (i : iid) : Prop :=
  ∃ t, f_informers (factory s) !! t = Some i ∧ is_started (factory s) t = true.

Record factory_ok (s : state) : Prop := {
  ok_heap t i : f_informers (factory s) !! t = Some i → i < length (heap s);
  ok_inj t t' i : f_informers (factory s) !! t = Some i → f_informers (factory s) !! t' = Some i → t = t';
  ok_started t : is_started (factory s) t = true → is_Some (f_informers (factory s) !! t);
  ok_launched i : i ∈ launched s ↔ started_informer s i;
  ok_once : NoDup (launched s);
  ok_running : running s ⊆ launched s;
  ok_running_once : NoDup (running s);
  ok_wg : f_wg (factory s) = length (running s) }.

Lemma initial_ok f : unused f → factory_ok (initial f).
Proof.
  intros (Hi & Hs & Hw & _). split; cbn; rewrite ?Hi, ?Hs; try done.
  - intros t. unfold is_started. cbn. by rewrite Hs.
  - intros i. rewrite elem_of_nil. split; [done|]. intros (t & Ht & _). cbn in Ht. by rewrite Hi in Ht.
  - constructor.
  - constructor.
Qed.

(** *** InformerFor *)
Lemma InformerFor_ok t newFunc s i s' :
  factory_ok s → runs (InformerFor t newFunc) s i s' →
  factory_ok s' ∧ f_informers (factory s') !! t = Some i ∧
  f_informers (factory s) ⊆ f_informers (factory s') ∧ heap s `prefix_of` heap s' ∧
  f_shuttingDown (factory s') = f_shuttingDown (factory s) ∧ launched s' = launched s ∧ running s' = running s.
Proof.
  intros Hok. unfold runs, InformerFor. destruct (f_informers (factory s) !! t) as [j|] eqn:Ht.
  { intros [= -> <-]. by split_and!. }
  intros [= <- <-]. cbn.
  assert (∀ t', is_started (factory s) t' = true → t' ≠ t) as Hnew.
  { intros t' Hs ->. apply (ok_started _ Hok) in Hs as [? ?]. congruence. }
  split_and!; [|by rewrite lookup_insert_eq|by apply insert_subseteq|by apply prefix_app_r|done|done|done].
  split; cbn.
  - intros t' i'. rewrite length_app. cbn. rewrite lookup_insert_Some. intros [[_ <-]|[_ Hi]]; [lia|].
    apply (ok_heap _ Hok) in Hi. lia.
  - intros t1 t2 i'. rewrite !lookup_insert_Some.
    intros [[<- <-]|[_ H1]] [[<- H2]|[_ H2]]; [done| | |by eapply (ok_inj _ Hok)].
    + apply (ok_heap _ Hok) in H2. lia.
    + subst. apply (ok_heap _ Hok) in H1. lia.
  - intros t' Hs. rewrite lookup_insert_ne by (symmetry; by apply Hnew). by apply (ok_started _ Hok).
  - intros i'. rewrite (ok_launched _ Hok). unfold started_informer, is_started. cbn. split.
    + intros (t' & Hi & Hs). exists t'. split; [|done]. rewrite lookup_insert_ne; [done|].
      symmetry. by apply Hnew.
    + intros (t' & Hi & Hs). exists t'. split; [|done]. rewrite lookup_insert_ne in Hi; [done|].
      symmetry. by apply Hnew.
  - apply Hok.
  - apply Hok.
  - apply Hok.
  - apply Hok.
Qed.

(** *** Start *)
Lemma start_one_ok t i s :
  factory_ok s → f_informers (factory s) !! t = Some i →
  wp (start_one (t, i) ()) (λ _ s', factory_ok s' ∧ f_informers (factory s') = f_informers (factory s) ∧
    heap s' = heap s ∧ f_shuttingDown (factory s') = f_shuttingDown (factory s) ∧
    is_started (factory s') t = true ∧ launched s ⊆ launched s' ∧
    ∀ t', is_started (factory s) t' = true → is_started (factory s') t' = true) s.
Proof.
  intros Hok Ht. unfold wp, start_one. destruct (is_started (factory s) t) eqn:Hs; [by split_and!|]. cbn.
  assert (∀ t', default false (<[t := true]> (f_startedInformers (factory s)) !! t') = true ↔
    t' = t ∨ is_started (factory s) t' = true) as Hst.
  { intros t'. unfold is_started. destruct (decide (t' = t)) as [->|Hne].
    - rewrite lookup_insert_eq. naive_solver.
    - rewrite lookup_insert_ne by done. naive_solver. }
  assert (i ∉ launched s) as Hi.
  { rewrite (ok_launched _ Hok). intros (t' & Ht' & Hs'). pose proof (ok_inj _ Hok t t' i Ht Ht') as ->. congruence. }
  split; [split; cbn|split_and!; try done].
  - apply Hok.
  - apply Hok.
  - intros t' [->|Hs']%Hst; [by eexists|by apply (ok_started _ Hok)].
  - intros i'. rewrite elem_of_cons, (ok_launched _ Hok). unfold started_informer. cbn.
    setoid_rewrite Hst. split.
    + intros [->|(t' & ? & ?)]; [exists t; auto|exists t'; auto].
    + intros (t' & Hi' & [->|Hs']); [left; congruence|right; by exists t'].
  - constructor; [done|apply Hok].
  - pose proof (ok_running _ Hok). set_solver.
  - constructor; [|apply Hok]. intros Hr. by apply Hi, (ok_running _ Hok).
  - by rewrite (ok_wg _ Hok).
  - apply Hst. by left.
  - set_solver.
  - intros t' Hs'. apply Hst. by right.
Qed.

Lemma Start_wp s : factory_ok s → wp (Start range) (λ _ s',
  factory_ok s' ∧ f_informers (factory s') = f_informers (factory s) ∧ heap s' = heap s ∧
  f_shuttingDown (factory s') = f_shuttingDown (factory s) ∧
  if f_shuttingDown (factory s) then s' = s
  else ∀ t i, f_informers (factory s) !! t = Some i → i ∈ launched s') s.
Proof.
  intros Hok. set (m := f_informers (factory s)).
  destruct (f_shuttingDown (factory s)) eqn:Hsd; [unfold wp, Start; by rewrite Hsd|].
  assert (wp (go_for start_one (range _ m) ()) (λ _ s', factory_ok s' ∧ f_informers (factory s') = m ∧
    heap s' = heap s ∧ f_shuttingDown (factory s') = false ∧
    ∀ t i, m !! t = Some i → i ∈ launched s') s) as H; [|unfold wp, Start in *; by rewrite Hsd].
  eapply wp_mono; [apply (wp_for (start_one) (λ l _ s', factory_ok s' ∧ f_informers (factory s') = m ∧
    heap s' = heap s ∧ f_shuttingDown (factory s') = false ∧
    (∀ t i, (t, i) ∈ l → m !! t = Some i) ∧
    ∀ t i, m !! t = Some i → (t, i) ∈ l ∨ is_started (factory s') t = true) (range _ m))|].
  - split; [done|]. split_and!; [done..| |]; intros t i; rewrite range_perm, elem_of_map_to_list; auto.
  - intros [t i] l [] s1 (Hok1 & Hm & Hh & Hsd1 & Hl & Hall).
    assert (m !! t = Some i) as Ht by (apply Hl; left).
    eapply wp_mono; [apply start_one_ok; [done|by rewrite Hm]|].
    intros [] s2 (Hok2 & Hm2 & Hh2 & Hsd2 & Hst & _ & Hmono).
    split; [done|]. split_and!; [congruence..| |].
    + intros t' i' Hin. apply Hl. by right.
    + intros t' i' Hi'. destruct (Hall t' i' Hi') as [[[= -> ->]|Hin]%elem_of_cons|Hs]; auto.
  - intros [] s' (Hok' & Hm & Hh & Hsd' & _ & Hall). split; [done|]. split_and!; [done..|].
    intros t i Hi. apply (ok_launched _ Hok'). exists t. split; [by rewrite Hm|].
    destruct (Hall t i Hi) as [Hin|?]; [by apply not_elem_of_nil in Hin|done].
Qed.

(** *** Every step keeps the invariant, what is held, and the mark of Shutdown *)
Definition grows (s s' : state) : Prop :=
  f_informers (factory s) ⊆ f_informers (factory s') ∧ heap s `prefix_of` heap s' ∧
  (f_shuttingDown (factory s) = true →
    f_shuttingDown (factory s') = true ∧ launched s' = launched s ∧ running s' ⊆ running s).

#[local] Instance grows_pre : PreOrder grows.
Proof.
  split.
  - intros s. by split_and!.
  - intros s1 s2 s3 (H1 & H2 & H3) (H4 & H5 & H6). split_and!; [by etrans|by etrans|].
    intros Hsd. destruct (H3 Hsd) as (Hsd2 & Hl & Hr). destruct (H6 Hsd2) as (Hsd3 & Hl3 & Hr3).
    split_and!; [done|congruence|by etrans].
Qed.

Lemma done_ok i s s' : factory_ok s → i ∈ running s → runs (goroutine_done i) s () s' →
  factory_ok s' ∧ grows s s' ∧ length (running s) = S (length (running s')).
Proof.
  intros Hok Hi. unfold runs, goroutine_done. destruct (f_wg (factory s)) as [|n] eqn:Hw; [done|].
  intros [= <-]. cbn.
  assert (length (running s) = S (length (filter (λ j, j ≠ i) (running s)))) as Hlen.
  { pose proof (ok_running_once _ Hok) as Hnd. revert Hi Hnd. generalize (running s). intros l.
    induction l as [|j l IH]; intros Hi Hnd; [by apply not_elem_of_nil in Hi|].
    apply NoDup_cons in Hnd as [Hj Hnd]. destruct (decide (j = i)) as [->|Hne].
    - rewrite filter_cons_False by auto. cbn. f_equal. clear -Hj. induction l as [|k l IH]; [done|].
      rewrite filter_cons_True by set_solver. cbn. f_equal. apply IH. set_solver.
    - rewrite filter_cons_True by done. cbn. f_equal. apply IH; [set_solver|done]. }
  split; [split; cbn; try apply Hok|split; [split_and!; [done|done|]|done]].
  - etrans; [|apply (ok_running _ Hok)]. intros j. rewrite list_elem_of_filter. naive_solver.
  - by apply NoDup_filter, Hok.
  - pose proof (ok_wg _ Hok). lia.
  - intros Hsd. split_and!; [done|done|]. intros j. cbn. rewrite list_elem_of_filter. naive_solver.
Qed.

Lemma step_ok s s' : factory_ok s → step s s' → factory_ok s' ∧ grows s s'.
Proof.
  intros Hok Hstep. revert Hok.
  destruct Hstep as [t nf i s1 s2 Hrun|s1 s2 Hrun|i s1 s2 Hi Hrun|s1 s2 Hrun]; intros Hok.
  - destruct (InformerFor_ok _ _ _ _ _ Hok Hrun) as (Hok' & _ & Hm & Hh & Hsd & Hl & Hr).
    split; [done|]. split_and!; [done|done|]. rewrite Hsd, Hl, Hr. done.
  - pose proof (Start_wp s1 Hok) as Hwp. unfold wp in Hwp. rewrite Hrun in Hwp.
    destruct Hwp as (Hok' & Hm & Hh & Hsd & Hrest). split; [done|]. rewrite <-Hsd in Hrest.
    split_and!; [by rewrite Hm|by rewrite Hh|]. intros Hs. rewrite Hsd in Hrest. rewrite Hs in Hrest.
    by subst.
  - by destruct (done_ok _ _ _ Hok Hi Hrun) as (? & ? & _).
  - injection Hrun as <-. split; [split; apply Hok|]. by split_and!.
Qed.

Lemma steps_ok s s' : factory_ok s → rtc step s s' → factory_ok s' ∧ grows s s'.
Proof.
  intros Hok. induction 1 as [s|s s1 s2 Hstep _ IH]; [split; [done|reflexivity]|].
  destruct (step_ok _ _ Hok Hstep) as [Hok1 Hg]. destruct (IH Hok1) as [Hok2 Hg2].
  split; [done|by etrans].
Qed.

Lemma reachable_ok s : reachable s → factory_ok s.
Proof. intros (f & Hf & Hs). by apply (steps_ok _ _ (initial_ok f Hf)). Qed.

(** C30: Start may be called any number of times: whatever the factory's callers do and in
    whatever order, each informer has been run at most once, exactly those are run that are
    held and marked as started, what still runs has been run once, and the wait group
    counts exactly what runs.  And unless Shutdown has been called, after a Start every
    informer that was asked for has been run. *)
Theorem informers_run_once s :
  reachable s →
  NoDup (launched s) ∧ (∀ i, i ∈ launched s ↔ started_informer s i) ∧
  running s ⊆ launched s ∧ NoDup (running s) ∧ f_wg (factory s) = length (running s) ∧
  (f_shuttingDown (factory s) = false →
   wp (Start range) (λ _ s', ∀ t i, f_informers (factory s) !! t = Some i → i ∈ launched s') s).
Proof.
  intros Hok%reachable_ok. split_and!; try apply Hok. intros Hsd.
  eapply wp_mono; [by apply Start_wp|]. intros [] s' (_ & _ & _ & _ & Hall). by rewrite Hsd in Hall.
Qed.

(** An informer is shared: what InformerFor returns for a type it returns for it ever
    after, whatever happens in between, and without making another; and the one it makes is
    made from the factory's client with the resync period for the type (the factory's
    default if it has none of its own) and the factory's transform. *)
Theorem informer_is_shared s t newFunc i s1 :
  reachable s → runs (InformerFor t newFunc) s i s1 →
  (f_informers (factory s) !! t = None →
    heap s1 !! i = Some (SetTransform (f_transform (factory s)) (newFunc (f_client (factory s))
      (default (f_defaultResync (factory s)) (f_customResync (factory s) !! t))))) ∧
  ∀ s2 newFunc', rtc step s1 s2 → runs (InformerFor t newFunc') s2 i s2 ∧ heap s2 !! i = heap s1 !! i.
Proof.
  intros Hok%reachable_ok Hrun. split.
  - intros Hnone. unfold runs, InformerFor in Hrun. rewrite Hnone in Hrun. injection Hrun as <- <-. cbn.
    rewrite lookup_app_r, Nat.sub_diag by lia. done.
  - intros s2 newFunc' Hsteps. destruct (InformerFor_ok _ _ _ _ _ Hok Hrun) as (Hok1 & Ht & _).
    destruct (steps_ok _ _ Hok1 Hsteps) as (Hok2 & Hm & Hh & _).
    assert (f_informers (factory s2) !! t = Some i) as Ht2 by by eapply lookup_weaken.
    split; [unfold runs, InformerFor; by rewrite Ht2|].
    destruct (lookup_lt_is_Some_2 (heap s1) i) as [sp Hsp]; [by eapply (ok_heap _ Hok1)|].
    rewrite Hsp. by eapply prefix_lookup_Some.
Qed.

(** The end of one goroutine. *)
Definition done_step (s s' : state) : Prop := ∃ i, i ∈ running s ∧ runs (goroutine_done i) s () s'.

Lemma done_steps n s s' : factory_ok s → nsteps done_step n s s' →
  factory_ok s' ∧ n + length (running s') = length (running s).
Proof.
  intros Hok. induction 1 as [s|n s s1 s2 (i & Hi & Hrun) _ IH]; [done|].
  destruct (done_ok _ _ _ Hok Hi Hrun) as (Hok1 & _ & Hlen). destruct (IH Hok1) as [Hok2 Hn].
  split; [done|]. lia.
Qed.

Lemma all_done s : factory_ok s → ∃ s', nsteps done_step (length (running s)) s s' ∧ running s' = [].
Proof.
  remember (length (running s)) as n eqn:Hn. revert s Hn. induction n as [|n IH]; intros s Hn Hok.
  - exists s. split; [constructor|]. by apply nil_length_inv.
  - destruct (running s) as [|i l] eqn:Hr; [done|].
    assert (i ∈ running s) as Hi by (rewrite Hr; left).
    assert (∃ s1, runs (goroutine_done i) s () s1) as [s1 Hrun].
    { unfold runs, goroutine_done. rewrite (ok_wg _ Hok), Hr. cbn. by eexists. }
    destruct (done_ok _ _ _ Hok Hi Hrun) as (Hok1 & _ & Hlen). rewrite Hr in Hlen.
    destruct (IH s1) as (s' & Hs' & Hnil); [cbn in *; lia|done|].
    exists s'. split; [|done]. econstructor; [|exact Hs']. by exists i.
Qed.

(** C31: Shutdown waits for all, and comes to an end.  From the moment it has marked the
    factory, whatever is called, no further informer is run; its wait returns exactly when
    none is running any more, and once it has returned none ever runs again.  If the
    goroutines end (as they do when the stop channel is closed), it takes exactly as many
    ends as there are goroutines running: no sequence of ends is longer, and one of that
    length exists, after which the wait returns. *)
Theorem shutdown_waits_for_all s :
  reachable s → f_shuttingDown (factory s) = true →
  (∀ s', rtc step s s' → launched s' = launched s ∧ (wg_Wait_returns s' = true ↔ running s' = []) ∧
    (wg_Wait_returns s' = true → ∀ s'', rtc step s' s'' → running s'' = [])) ∧
  (∀ n s', nsteps done_step n s s' → n ≤ length (running s)) ∧
  (∃ s', nsteps done_step (length (running s)) s s' ∧ wg_Wait_returns s' = true).
Proof.
  intros Hok%reachable_ok Hsd.
  assert (∀ s, factory_ok s → wg_Wait_returns s = true ↔ running s = []) as Hwait.
  { intros s' Hok'. unfold wg_Wait_returns. rewrite (ok_wg _ Hok'), Nat.eqb_eq. split; [apply nil_length_inv|by intros ->]. }
  split_and!.
  - intros s' Hsteps. destruct (steps_ok _ _ Hok Hsteps) as (Hok' & _ & _ & Hg).
    destruct (Hg Hsd) as (Hsd' & Hl & _). split_and!; [done|by apply Hwait..|].
    intros Hr%Hwait s'' Hsteps'; [|done]. destruct (steps_ok _ _ Hok' Hsteps') as (_ & _ & _ & Hg').
    destruct (Hg' Hsd') as (_ & _ & Hsub). rewrite Hr in Hsub.
    destruct (running s'') as [|i l]; [done|]. exfalso. specialize (Hsub i). set_solver.
  - intros n s' Hn. destruct (done_steps _ _ _ Hok Hn) as [_ ?]. lia.
  - destruct (all_done s Hok) as (s' & Hs' & Hnil). exists s'. split; [done|].
    apply Hwait; [|done]. by apply (done_steps _ _ _ Hok Hs').
Qed.
End machine.

(** ** Witnesses: a factory with one informer, which runs *)
Definition in_map_order {V} (m : gmap string V) : list (string * V) := map_to_list m.
Lemma in_map_order_perm V (m : gmap string V) : in_map_order m ≡ₚ map_to_list m.
Proof. done. Qed.

Abbreviation demo_state := (Informing unit unit unit).
Definition demo_factory : sharedInformerFactory unit unit unit := NewSharedInformerFactory () 600.
Definition demo_pps_informer : GoM demo_state iid := Informer (PersistentPodStates demo_factory).
Definition demo_requested : demo_state := (demo_pps_informer (initial demo_factory)).2.
Definition demo_started : demo_state := (Start (@in_map_order) demo_requested).2.
Definition demo_stopping : demo_state := (Shutdown_mark demo_started).2.

Lemma demo_initial : reachable (@in_map_order) (initial demo_factory).
Proof. exists demo_factory. split; [done|constructor]. Qed.
Lemma demo_informer_runs : runs demo_pps_informer (initial demo_factory) 0 demo_requested.
Proof. reflexivity. Qed.
Lemma demo_start_runs : runs (Start (@in_map_order)) demo_requested () demo_started.
Proof. vm_compute. reflexivity. Qed.
Lemma demo_shutdown_runs : runs Shutdown_mark demo_started () demo_stopping.
Proof. reflexivity. Qed.

Lemma demo_started_reachable : reachable (@in_map_order) demo_started.
Proof.
  exists demo_factory. split; [done|]. eapply rtc_l; [eapply step_informer, demo_informer_runs|].
  eapply rtc_once, step_start, demo_start_runs.
Qed.
Lemma demo_stopping_reachable : reachable (@in_map_order) demo_stopping.
Proof.
  destruct demo_started_reachable as (f & Hf & Hs). exists f. split; [done|].
  eapply rtc_r; [exact Hs|]. apply step_shutdown, demo_shutdown_runs.
Qed.

Lemma informers_run_once_witness :
  NoDup (launched demo_started) ∧ f_wg (factory demo_started) = length (running demo_started) ∧
  launched demo_started = [0].
Proof.
  split; [|split; [|vm_compute; reflexivity]].
  - exact (proj1 (informers_run_once (@in_map_order) in_map_order_perm demo_started demo_started_reachable)).
  - exact (proj1 (proj2 (proj2 (proj2 (proj2
      (informers_run_once (@in_map_order) in_map_order_perm demo_started demo_started_reachable)))))).
Defined.

Lemma informer_is_shared_witness :
  heap demo_requested !! 0 = Some (mkInformerSpec PersistentPodState_type "" None 600 [NamespaceIndex] None).
Proof.
  exact (proj1 (informer_is_shared (@in_map_order) in_map_order_perm (initial demo_factory) PersistentPodState_type
    (defaultInformer (PersistentPodStates demo_factory)) 0 demo_requested demo_initial demo_informer_runs) eq_refl).
Defined.

Lemma shutdown_waits_for_all_witness :
  ∃ s', nsteps done_step 1 demo_stopping s' ∧ wg_Wait_returns s' = true.
Proof.
  exact (proj2 (proj2 (shutdown_waits_for_all (@in_map_order) in_map_order_perm demo_stopping
    demo_stopping_reachable eq_refl))).
Defined.
