(* ===== verification/Configuration.v ===== *)
(** * The webhook configurations: [internal/webhook/util/configuration]

    [Ensure] rewrites the registered MutatingWebhookConfiguration and
    ValidatingWebhookConfiguration from the template they were first installed with.  The
    two kinds have the same fields here and the code is written out once for each: a [kind]
    argument tells them apart.  encoding/json, net/url and the API client are parameters. *)
From S2P Require Export ApiTypes WebhookUtil Crypto.

Inductive WebhookKind := Mutating | Validating.
#[global] Instance WebhookKind_eq_dec : EqDecision WebhookKind.
Proof. solve_decision. Defined.

(** admissionregistration/v1 *)
Record ServiceReference := mkServiceReference {
  sr_Namespace : string; sr_Name : string; sr_Path : option string; sr_Port : option Z }.
Record WebhookClientConfig := mkWebhookClientConfig {
  cc_URL : option string; cc_Service : option ServiceReference; cc_CABundle : gobytes }.
Record Webhook := mkWebhook {
  wh_Name : string; wh_ClientConfig : WebhookClientConfig; wh_rest : opaque }.
(** A []MutatingWebhook or []ValidatingWebhook: nil or its elements. *)
Abbreviation Webhooks := (option (list Webhook)).
Record WebhookConfiguration := mkWebhookConfiguration {
  wc_ObjectMeta : ObjectMeta; wc_Webhooks : Webhooks }.

#[global] Instance ServiceReference_eq_dec : EqDecision ServiceReference.
Proof. solve_decision. Defined.
#[global] Instance WebhookClientConfig_eq_dec : EqDecision WebhookClientConfig.
Proof. solve_decision. Defined.
#[global] Instance Webhook_eq_dec : EqDecision Webhook.
Proof. solve_decision. Defined.
#[global] Instance WebhookConfiguration_eq_dec : EqDecision WebhookConfiguration.
Proof. solve_decision. Defined.

(** AdmissionregistrationV1().MutatingWebhookConfigurations() and the Validating ones; an
    error is its message. *)
Class ConfigurationClient (W : Type) := {
  GetConfiguration : WebhookKind → string → GoM W (string + WebhookConfiguration);
  UpdateConfiguration : WebhookKind → WebhookConfiguration → GoM W (option string) }.

Definition template_annotation : string := "template".

(** Assignments to fields. *)
Definition set_CABundle (ca : gobytes) (wh : Webhook) : Webhook :=
  mkWebhook (wh_Name wh)
    (mkWebhookClientConfig (cc_URL (wh_ClientConfig wh)) (cc_Service (wh_ClientConfig wh)) ca)
    (wh_rest wh).
Definition set_ClientConfig (cc : WebhookClientConfig) (wh : Webhook) : Webhook :=
  mkWebhook (wh_Name wh) cc (wh_rest wh).
Definition set_Service (s : ServiceReference) (cc : WebhookClientConfig) : WebhookClientConfig :=
  mkWebhookClientConfig (cc_URL cc) (Some s) (cc_CABundle cc).
Definition set_annotations (a : gomap string) (c : WebhookConfiguration) : WebhookConfiguration :=
  let m := wc_ObjectMeta c in
  mkWebhookConfiguration
    (mkObjectMeta (om_Name m) (om_Namespace m) (om_UID m) (om_ResourceVersion m) (om_Labels m) a
       (om_OwnerReferences m) (om_rest m)) (wc_Webhooks c).
Definition set_Webhooks (l : Webhooks) (c : WebhookConfiguration) : WebhookConfiguration :=
  mkWebhookConfiguration (wc_ObjectMeta c) l.

Section configuration.
Context {W : Type} `{!ConfigurationClient W}.
Variable Getenv : string → string.
(** json.Unmarshal and json.Marshal on a slice of webhooks of a kind; url.Parse(s).Path *)
Variable UnmarshalWebhooks : WebhookKind → string → string + Webhooks.
Variable MarshalWebhooks : WebhookKind → Webhooks → string + string.
Variable url_Path : string → string + string.

(** The package variables mutatingWebhookConfigurationName, validatingWebhookConfigurationName *)
Definition configurationName (kind : WebhookKind) : string :=
  match kind with
  | Mutating => GetMutatingWebhookName Getenv
  | Validating => GetValidatingWebhookName Getenv
  end.

Definition getPath (cc : WebhookClientConfig) : GoM W (string + string) :=
  match cc_Service cc with
  | Some s =>
      match sr_Path s with
      | None => go_panic "invalid memory address or nil pointer dereference"
      | Some p => go_ret (inr p)
      end
  | None =>
      match cc_URL cc with
      | Some u => go_ret (url_Path u)
      | None => go_ret (inl "invalid clientConfig")
      end
  end.

Definition convertClientConfig (cc : WebhookClientConfig) (host : string) (port : Z)
    : GoM W WebhookClientConfig :=
  match cc_Service cc ≫= sr_Path with
  | None => go_panic "invalid memory address or nil pointer dereference"
  | Some p =>
      let url := "https://" +:+ host +:+ ":" +:+ pretty port +:+ p in
      go_ret (mkWebhookClientConfig (Some url) None (cc_CABundle cc))
  end.

(** parseMutatingTemplate and parseValidatingTemplate: the template, and the configuration,
    whose annotation is set when it had none. *)
Definition parseTemplate (kind : WebhookKind) (c : WebhookConfiguration)
    : string + (Webhooks * WebhookConfiguration) :=
  let templateStr := gomap_str (om_Annotations (wc_ObjectMeta c)) template_annotation in
  if (go_len templateStr >? 0)%Z then
    match UnmarshalWebhooks kind templateStr with
    | inl err => inl err
    | inr whs => inr (whs, c)
    end
  else
    match MarshalWebhooks kind (wc_Webhooks c) with
    | inl err => inl err
    | inr templateBytes =>
        let a := default ∅ (om_Annotations (wc_ObjectMeta c)) in
        inr (wc_Webhooks c, set_annotations (Some (<[template_annotation := templateBytes]> a)) c)
    end.

(** One turn of the loop over a template: None for a webhook that is ignored. *)
Definition rewriteWebhook (handlers : gset string) (caBundle : gobytes) (wh : Webhook)
    : GoM W (string + option Webhook) :=
  let wh := set_CABundle caBundle wh in
  let cc := wh_ClientConfig wh in
  let! r := getPath cc in
  match r with
  | inl err => go_ret (inl err)
  | inr path =>
      if decide (path ∉ handlers) then go_ret (inr None)
      else
        let cc := match cc_Service cc with
          | Some s => set_Service (mkServiceReference (GetNamespace Getenv) (GetServiceName Getenv)
                                     (sr_Path s) (sr_Port s)) cc
          | None => cc
          end in
        let host := GetHost Getenv in
        let! cc :=
          (if (go_len host >? 0)%Z && negb (is_nil (cc_Service cc)) then
             let! port := GetPort Getenv in convertClientConfig cc host port
           else go_ret cc) in
        go_ret (inr (Some (set_ClientConfig cc wh)))
  end.

Fixpoint rewriteWebhooks (handlers : gset string) (caBundle : gobytes) (template : list Webhook)
    (webhooks : Webhooks) : GoM W (string + Webhooks) :=
  match template with
  | [] => go_ret (inr webhooks)
  | wh :: template' =>
      let! r := rewriteWebhook handlers caBundle wh in
      match r with
      | inl err => go_ret (inl err)
      | inr None => rewriteWebhooks handlers caBundle template' webhooks
      | inr (Some wh') => rewriteWebhooks handlers caBundle template' (Some (default [] webhooks ++ [wh']))
      end
  end.

(** if !reflect.DeepEqual(config, oldConfig) { Update } *)
Definition updateIfChanged (kind : WebhookKind) (old new : WebhookConfiguration) : GoM W (option string) :=
  if negb (DeepEqual new old) then
    let! e := UpdateConfiguration kind new in
    match e with
    | Some err => go_ret (Some ("failed to update " +:+ configurationName kind +:+ ": " +:+ err))
    | None => go_ret None
    end
  else go_ret None.

Definition Ensure (handlers : gset string) (caBundle : gobytes) : GoM W (option string) :=
  let! m := GetConfiguration Mutating (configurationName Mutating) in
  match m with
  | inl _ => go_ret (Some ("not found MutatingWebhookConfiguration " +:+ configurationName Mutating))
  | inr oldMutatingConfig =>
  let! v := GetConfiguration Validating (configurationName Validating) in
  match v with
  | inl _ => go_ret (Some ("not found ValidatingWebhookConfiguration " +:+ configurationName Validating))
  | inr oldValidatingConfig =>
  match parseTemplate Mutating oldMutatingConfig with
  | inl err => go_ret (Some err)
  | inr (mutatingTemplate, mutatingConfig) =>
  match parseTemplate Validating oldValidatingConfig with
  | inl err => go_ret (Some err)
  | inr (validatingTemplate, validatingConfig) =>
  let! r := rewriteWebhooks handlers caBundle (default [] mutatingTemplate) None in
  match r with
  | inl err => go_ret (Some err)
  | inr mutatingWHs =>
  let! r := rewriteWebhooks handlers caBundle (default [] validatingTemplate) None in
  match r with
  | inl err => go_ret (Some err)
  | inr validatingWHs =>
      let! e := updateIfChanged Mutating oldMutatingConfig (set_Webhooks mutatingWHs mutatingConfig) in
      match e with
      | Some err => go_ret (Some err)
      | None => updateIfChanged Validating oldValidatingConfig (set_Webhooks validatingWHs validatingConfig)
      end
  end end end end end end.
End configuration.
