(* ===== verification/ConfigurationTheorems.v ===== *)
(** * The properties of the webhook configurations *)
From S2P Require Export Configuration.

(** The configuration under another resource version. *)
Definition wc_with_rv (rv : string) (c : WebhookConfiguration) : WebhookConfiguration :=
  let m := wc_ObjectMeta c in
  mkWebhookConfiguration
    (mkObjectMeta (om_Name m) (om_Namespace m) (om_UID m) rv (om_Labels m) (om_Annotations m)
       (om_OwnerReferences m) (om_rest m)) (wc_Webhooks c).

(** What appending to a slice, nil at first, makes of it. *)
Definition go_appends {A} (s : option (list A)) (l : list A) : option (list A) :=
  match l with [] => s | _ => Some (default [] s ++ l) end.

Lemma go_appends_cons {A} s (x : A) l : go_appends (Some (default [] s ++ [x])) l = go_appends s (x :: l).
Proof. destruct l as [|y l]; simpl; [done|]. by rewrite <-app_assoc. Qed.

Lemma go_appends_elements {A} (l : list A) : default [] (go_appends None l) = l.
Proof. by destruct l. Qed.

(** An empty slice is nil, as it is once it has been stored. *)
Lemma go_appends_stored {A} (l : list A) : go_appends None l ≠ Some [].
Proof. by destruct l. Qed.

(** The documented behaviour of the API: reads change nothing, a failed update changes
    nothing, a successful one stores what it is given under a new resource version (a slice
    that is empty but not nil, which Ensure never sends, is stored as nil); in a
    [calm] world calls do not fail without a reason. *)
Class ConfigurationLaws (W : Type) `{!ConfigurationClient W} := {
  configs : W → gmap string WebhookConfiguration * gmap string WebhookConfiguration;
  calm : W → Prop;
  config_at (w : W) (kind : WebhookKind) (name : string) : option WebhookConfiguration :=
    match kind with Mutating => (configs w).1 | Validating => (configs w).2 end !! name;
  get_configuration_law kind name w : wp (GetConfiguration kind name) (λ r w',
    configs w' = configs w ∧
    (∀ c, r = inr c → config_at w kind name = Some c) ∧
    (calm w → calm w' ∧ ∀ c, config_at w kind name = Some c → r = inr c)) w;
  update_configuration_law kind c w : wc_Webhooks c ≠ Some [] → wp (UpdateConfiguration kind c) (λ e w',
    match e with
    | None => ∃ rv, configs w' =
        match kind with
        | Mutating => (<[om_Name (wc_ObjectMeta c) := wc_with_rv rv c]> (configs w).1, (configs w).2)
        | Validating => ((configs w).1, <[om_Name (wc_ObjectMeta c) := wc_with_rv rv c]> (configs w).2)
        end
    | Some _ => configs w' = configs w
    end ∧
    (calm w → calm w' ∧ ((∃ old, config_at w kind (om_Name (wc_ObjectMeta c)) = Some old ∧
      om_ResourceVersion (wc_ObjectMeta old) = om_ResourceVersion (wc_ObjectMeta c)) → e = None))) w }.
#[global] Hint Mode ConfigurationLaws ! - : typeclass_instances.

Section configuration.
Context {W : Type}.
Variable Getenv : string → string.
Variable UnmarshalWebhooks : WebhookKind → string → string + Webhooks.
Variable MarshalWebhooks : WebhookKind → Webhooks → string + string.
Variable url_Path : string → string + string.

(** ** What is registered of a template, as a function *)

(** The path a webhook is served under. *)
Definition served_path (wh : Webhook) : option string :=
  match cc_Service (wh_ClientConfig wh) with
  | Some s => sr_Path s
  | None =>
      match url_Path <$> cc_URL (wh_ClientConfig wh) with
      | Some (inr p) => Some p
      | _ => None
      end
  end.

Definition webhook_port : Z :=
  match GetPort Getenv () with (Ret p, _) => p | (Panic _, _) => 0 end.

Definition registered_config (ca : gobytes) (cc : WebhookClientConfig) : WebhookClientConfig :=
  match cc_Service cc with
  | None => mkWebhookClientConfig (cc_URL cc) None ca
  | Some s =>
      if decide (GetHost Getenv = "")
      then mkWebhookClientConfig (cc_URL cc)
        (Some (mkServiceReference (GetNamespace Getenv) (GetServiceName Getenv) (sr_Path s) (sr_Port s))) ca
      else mkWebhookClientConfig
        (Some ("https://" +:+ GetHost Getenv +:+ ":" +:+ pretty webhook_port +:+ default "" (sr_Path s)))
        None ca
  end.

Definition registered (handlers : gset string) (ca : gobytes) (wh : Webhook) : option Webhook :=
  path ← served_path wh;
  if decide (path ∈ handlers)
  then Some (mkWebhook (wh_Name wh) (registered_config ca (wh_ClientConfig wh)) (wh_rest wh))
  else None.

(** ** The loop computes it *)

Lemma GetPort_run (w : W) :
  GetPort Getenv w = (fst (GetPort Getenv ()), w).
Proof. unfold GetPort. destruct (_ >? 0)%Z; [|done]. by destruct (parse_int32 _). Qed.

Lemma host_set : (go_len (GetHost Getenv) >? 0)%Z = negb (bool_decide (GetHost Getenv = "")).
Proof.
  unfold go_len. destruct (GetHost Getenv) as [|c s] eqn:Hh; [done|].
  by rewrite bool_decide_false.
Qed.

Lemma rewriteWebhook_run handlers ca wh (w : W) o w' :
  runs (rewriteWebhook Getenv url_Path handlers ca wh) w (inr o) w' →
  w' = w ∧ is_Some (served_path wh) ∧ o = registered handlers ca wh.
Proof.
  unfold runs, rewriteWebhook, registered, served_path, registered_config, getPath, go_bind.
  destruct wh as [n [url [[ns nm [p|] port]|] ca0] rest]; simpl; try done.
  - rewrite host_set. case_decide as Hp.
    + intros [= <- <-]. split_and!; [done|by eexists|]. by rewrite decide_False.
    + rewrite decide_True by (by destruct (decide (p ∈ handlers))).
      case_bool_decide as Hh; simpl.
      * intros [= <- <-]. rewrite decide_True by done. split_and!; [done|by eexists|done].
      * rewrite decide_False by done. rewrite GetPort_run. unfold webhook_port.
        destruct (GetPort Getenv ()) as [[prt|why] []]; simpl; [|done].
        intros [= <- <-]. split_and!; [done|by eexists|done].
  - destruct url as [u|]; simpl; [|done]. destruct (url_Path u) as [err|p]; simpl; [done|].
    case_decide as Hp.
    + intros [= <- <-]. split_and!; [done|by eexists|]. by rewrite decide_False.
    + rewrite andb_false_r. intros [= <- <-]. split_and!; [done|by eexists|].
      rewrite decide_True; [done|]. by destruct (decide (p ∈ handlers)).
Qed.

Lemma rewriteWebhooks_run handlers ca template acc (w : W) l w' :
  runs (rewriteWebhooks Getenv url_Path handlers ca template acc) w (inr l) w' →
  w' = w ∧ l = go_appends acc (omap (registered handlers ca) template).
Proof.
  revert acc. induction template as [|wh template IH]; intros acc; simpl.
  - by intros [= <- <-].
  - intros ([err|o] & w1 & Hrun & Hrest)%go_bind_inv; [done|].
    apply rewriteWebhook_run in Hrun as (-> & _ & ->).
    destruct (registered handlers ca wh) as [wh'|] eqn:Hr; apply IH in Hrest as [-> ->].
    + by rewrite go_appends_cons.
    + done.
Qed.

(** The loop never touches the world, and cannot stop when paths are set and the port reads. *)
Lemma rewriteWebhook_world handlers ca wh (w : W) :
  (rewriteWebhook Getenv url_Path handlers ca wh w).2 = w.
Proof.
  unfold rewriteWebhook, getPath, convertClientConfig, go_bind.
  destruct wh as [n [url [[ns nm [p|] port]|] ca0] rest]; simpl; [|done|].
  - case_decide; [done|]. destruct (_ && _); [|done]. rewrite GetPort_run.
    by destruct (GetPort Getenv ()) as [[prt|why] []].
  - destruct url as [u|]; simpl; [|done]. destruct (url_Path u); simpl; [done|].
    case_decide; [done|]. by rewrite andb_false_r.
Qed.

Lemma rewriteWebhooks_world handlers ca template acc (w : W) :
  (rewriteWebhooks Getenv url_Path handlers ca template acc w).2 = w.
Proof.
  revert acc. induction template as [|wh template IH]; intros acc; simpl; [done|].
  unfold go_bind. pose proof (rewriteWebhook_world handlers ca wh w) as Hw.
  destruct (rewriteWebhook _ _ _ _ _ _) as [[[err|[wh'|]]|why] w1]; simpl in *; subst; done.
Qed.

Lemma rewriteWebhooks_cases handlers ca template (w : W) :
  (∃ r, rewriteWebhooks Getenv url_Path handlers ca template None w = (Ret r, w) ∧
     ∀ l, r = inr l → l = go_appends None (omap (registered handlers ca) template)) ∨
  (∃ why, rewriteWebhooks Getenv url_Path handlers ca template None w = (Panic why, w)).
Proof.
  pose proof (rewriteWebhooks_world handlers ca template None w) as Hw.
  destruct (rewriteWebhooks _ _ _ _ _ _ w) as [[r|why] w'] eqn:Hrun; simpl in Hw; subst w'.
  - left. exists r. split; [done|]. intros l ->. by apply rewriteWebhooks_run in Hrun as [_ ->].
  - right. by eexists.
Qed.

(** ** A configuration after Ensure *)
Definition registered_webhooks (handlers : gset string) (ca : gobytes) (t : Webhooks) : Webhooks :=
  go_appends None (omap (registered handlers ca) (default [] t)).

Definition template_of (kind : WebhookKind) (c : WebhookConfiguration) : option Webhooks :=
  match parseTemplate UnmarshalWebhooks MarshalWebhooks kind c with inl _ => None | inr (t, _) => Some t end.

Definition ensured_config (handlers : gset string) (ca : gobytes) (kind : WebhookKind)
    (c : WebhookConfiguration) : option WebhookConfiguration :=
  match parseTemplate UnmarshalWebhooks MarshalWebhooks kind c with
  | inl _ => None
  | inr (t, c') => Some (set_Webhooks (registered_webhooks handlers ca t) c')
  end.

Lemma wc_with_rv_self c : wc_with_rv (om_ResourceVersion (wc_ObjectMeta c)) c = c.
Proof. by destruct c as [[] ?]. Qed.

Lemma parseTemplate_keeps kind c t c' :
  parseTemplate UnmarshalWebhooks MarshalWebhooks kind c = inr (t, c') →
  om_Name (wc_ObjectMeta c') = om_Name (wc_ObjectMeta c) ∧
  om_ResourceVersion (wc_ObjectMeta c') = om_ResourceVersion (wc_ObjectMeta c).
Proof. unfold parseTemplate. repeat case_match; intros ?; simplify_eq; done. Qed.

(** json.Marshal writes something, and json.Unmarshal reads it back. *)
Definition json_roundtrip : Prop := ∀ kind whs s,
  MarshalWebhooks kind whs = inr s → s ≠ "" ∧ UnmarshalWebhooks kind s = inr whs.

(** Once a configuration has been through Ensure its template is on record: the same
    template is found again, whatever became of the webhooks. *)
Lemma parseTemplate_again kind c t c' rv l :
  json_roundtrip →
  parseTemplate UnmarshalWebhooks MarshalWebhooks kind c = inr (t, c') →
  parseTemplate UnmarshalWebhooks MarshalWebhooks kind (wc_with_rv rv (set_Webhooks l c')) =
    inr (t, wc_with_rv rv (set_Webhooks l c')).
Proof.
  intros Hjson. unfold parseTemplate.
  destruct (go_len (gomap_str (om_Annotations (wc_ObjectMeta c)) template_annotation) >? 0)%Z eqn:Hlen.
  - destruct (UnmarshalWebhooks _ _) as [err|t'] eqn:Hu; [done|]. intros [= -> <-]. simpl.
    by rewrite Hlen, Hu.
  - destruct (MarshalWebhooks _ _) as [err|s] eqn:Hm; [done|]. intros [= <- <-]. simpl.
    destruct (Hjson _ _ _ Hm) as [Hne Hu].
    assert (gomap_str (Some (<[template_annotation:=s]> (default ∅ (om_Annotations (wc_ObjectMeta c)))))
      template_annotation = s) as ->.
    { unfold gomap_str. simpl. by rewrite lookup_insert_eq. }
    rewrite Hu. destruct (go_len s >? 0)%Z eqn:Hl; [done|]. destruct Hne. apply go_len_zero.
    unfold go_len in *. lia.
Qed.

Lemma ensured_config_again handlers ca kind c c' rv :
  json_roundtrip → ensured_config handlers ca kind c = Some c' →
  ensured_config handlers ca kind (wc_with_rv rv c') = Some (wc_with_rv rv c').
Proof.
  intros Hjson. unfold ensured_config.
  destruct (parseTemplate _ _ kind c) as [err|[t c1]] eqn:Hp; [done|]. intros [= <-].
  by rewrite (parseTemplate_again _ _ _ _ _ _ Hjson Hp).
Qed.

(** ** Ensure *)
Section ensure.
Context `{!ConfigurationClient W, !ConfigurationLaws W}.

Abbreviation ensure := (Ensure Getenv UnmarshalWebhooks MarshalWebhooks url_Path).

(** The two configurations are stored under their names. *)
Definition named (w : W) : Prop := ∀ kind c,
  config_at w kind (configurationName Getenv kind) = Some c →
  om_Name (wc_ObjectMeta c) = configurationName Getenv kind.

Lemma updateIfChanged_wp kind old new w :
  wc_Webhooks new ≠ Some [] →
  config_at w kind (om_Name (wc_ObjectMeta new)) = Some old →
  wp (updateIfChanged Getenv kind old new) (λ e w',
    (∀ kind' name, kind' ≠ kind → config_at w' kind' name = config_at w kind' name) ∧
    match e with
    | None => (configs w' = configs w ∧ new = old) ∨
        ∃ rv, config_at w' kind (om_Name (wc_ObjectMeta new)) = Some (wc_with_rv rv new)
    | Some _ => configs w' = configs w
    end ∧
    (calm w → om_ResourceVersion (wc_ObjectMeta new) = om_ResourceVersion (wc_ObjectMeta old) →
      calm w' ∧ e = None)) w.
Proof.
  intros Hnew Hold. unfold updateIfChanged. destruct (DeepEqual new old) eqn:Heq; simpl.
  - apply wp_ret. apply DeepEqual_eq in Heq. split_and!; [done|by left|done].
  - apply wp_bind. wp_call update_configuration_law; [done|]. intros [err|] w1 [Hw Hcalm]; apply wp_ret.
    + split_and!; [|done|].
      * intros kind' name _. unfold config_at. by rewrite Hw.
      * intros Hc Hrv. destruct (Hcalm Hc) as [_ Hno]. exfalso.
        enough (Some err = None) by done. apply Hno. by exists old.
    + destruct Hw as [rv Hw]. split_and!.
      * intros kind' name Hne. unfold config_at. rewrite Hw. by destruct kind, kind'.
      * right. exists rv. unfold config_at. rewrite Hw.
        destruct kind; simpl; by rewrite lookup_insert_eq.
      * intros Hc _. by destruct (Hcalm Hc).
Qed.

(** The update step, successful, puts the ensured configuration in place. *)
Lemma updated_config handlers ca kind old t c w w' :
  config_at w kind (configurationName Getenv kind) = Some old →
  om_Name (wc_ObjectMeta old) = configurationName Getenv kind →
  parseTemplate UnmarshalWebhooks MarshalWebhooks kind old = inr (t, c) →
  let new := set_Webhooks (registered_webhooks handlers ca t) c in
  runs (updateIfChanged Getenv kind old new) w None w' →
  ensured_config handlers ca kind old = Some new ∧
  (∃ rv, config_at w' kind (configurationName Getenv kind) = Some (wc_with_rv rv new)) ∧
  ∀ kind' name, kind' ≠ kind → config_at w' kind' name = config_at w kind' name.
Proof.
  intros Hold Hname Hp new Hrun. destruct (parseTemplate_keeps _ _ _ _ Hp) as [Hn _].
  rewrite Hname in Hn. pose proof (updateIfChanged_wp kind old new w (go_appends_stored _)) as Hu. simpl in Hu.
  rewrite Hn in Hu. specialize (Hu Hold). unfold wp in Hu. rewrite Hrun in Hu.
  destruct Hu as (Hother & Hu & _).
  split_and!; [unfold ensured_config; by rewrite Hp| |done].
  destruct Hu as [[Hc Heq]|[rv Hc]]; [|by exists rv].
  exists (om_ResourceVersion (wc_ObjectMeta old)). rewrite Heq, wc_with_rv_self.
  transitivity (config_at w kind (configurationName Getenv kind)); [|done].
  unfold config_at. by rewrite Hc.
Qed.

Lemma get_configuration_run kind name w c w' :
  runs (GetConfiguration kind name) w (inr c) w' →
  (∀ k n, config_at w' k n = config_at w k n) ∧ config_at w kind name = Some c.
Proof.
  intros Hrun. pose proof (get_configuration_law kind name w) as Hlaw.
  unfold wp in Hlaw. rewrite Hrun in Hlaw. destruct Hlaw as (Hc & Hg & _).
  split; [|by apply Hg]. intros k n. unfold config_at. by rewrite Hc.
Qed.

(** A run of Ensure that returns nil has put both configurations in order. *)
Lemma Ensure_run handlers ca w w' :
  named w → runs (ensure handlers ca) w None w' →
  ∀ kind, ∃ old new, config_at w kind (configurationName Getenv kind) = Some old ∧
    ensured_config handlers ca kind old = Some new ∧
    ∃ rv, config_at w' kind (configurationName Getenv kind) = Some (wc_with_rv rv new).
Proof.
  intros Hnamed Hrun. unfold Ensure in Hrun.
  apply go_bind_inv in Hrun as ([err|om] & w1 & Hm & Hrun); [done|].
  apply get_configuration_run in Hm as [Hat1 Hmut].
  apply go_bind_inv in Hrun as ([err|ov] & w2 & Hv & Hrun); [done|].
  apply get_configuration_run in Hv as [Hat2 Hval]. rewrite Hat1 in Hval.
  destruct (parseTemplate _ _ Mutating om) as [err|[mt mc]] eqn:Hpm; [done|].
  destruct (parseTemplate _ _ Validating ov) as [err|[vt vc]] eqn:Hpv; [done|].
  apply go_bind_inv in Hrun as ([err|mwhs] & w3 & Hr & Hrun); [done|].
  apply rewriteWebhooks_run in Hr as [-> ->].
  apply go_bind_inv in Hrun as ([err|vwhs] & w4 & Hr & Hrun); [done|].
  apply rewriteWebhooks_run in Hr as [-> ->].
  apply go_bind_inv in Hrun as ([err|] & w5 & He & Hrun); [done|]. simpl in *.
  eapply updated_config in He as (Hem & [rvm Hcm] & Hotherm);
    [|by rewrite Hat2, Hat1|by apply Hnamed|done].
  eapply updated_config in Hrun as (Hev & [rvv Hcv] & Hotherv);
    [|by rewrite Hotherm, Hat2, Hat1|by apply Hnamed|done].
  intros [|].
  - eexists om, _. split_and!; [done|exact Hem|]. exists rvm. by rewrite Hotherv.
  - eexists ov, _. split_and!; [done|exact Hev|]. by exists rvv.
Qed.

(** The loop goes through when every webhook has a path and the port, if used, reads. *)
Definition port_reads : Prop :=
  GetHost Getenv = "" ∨ Getenv "WEBHOOK_PORT" = "" ∨ is_Some (parse_int32 (Getenv "WEBHOOK_PORT")).

Lemma GetPort_returns (w : W) : port_reads → GetHost Getenv ≠ "" → ∃ p, GetPort Getenv w = (Ret p, w).
Proof.
  intros Hport Hhost. unfold GetPort. destruct (_ >? 0)%Z eqn:Hlen; [|by eexists].
  destruct Hport as [?|[Hnil|[p ->]]]; [done| |by eexists]. by rewrite Hnil in Hlen.
Qed.

Lemma rewriteWebhook_total handlers ca wh (w : W) :
  port_reads → is_Some (served_path wh) →
  ∃ o, runs (rewriteWebhook Getenv url_Path handlers ca wh) w (inr o) w.
Proof.
  intros Hport [p Hp]. unfold runs, rewriteWebhook, getPath, go_bind.
  destruct wh as [n [url [[ns nm path port]|] ca0] rest]; unfold served_path in Hp; simpl in *.
  - subst path. simpl. case_decide; [by eexists|]. rewrite host_set.
    case_bool_decide as Hh; simpl; [by eexists|].
    destruct (GetPort_returns w Hport Hh) as [q ->]. simpl. by eexists.
  - destruct url as [u|]; simpl in *; [|done]. destruct (url_Path u) as [|q]; [done|]. simpl.
    case_decide; [by eexists|]. rewrite andb_false_r. by eexists.
Qed.

Lemma rewriteWebhooks_total handlers ca template acc (w : W) :
  port_reads → Forall (λ wh, is_Some (served_path wh)) template →
  ∃ l, runs (rewriteWebhooks Getenv url_Path handlers ca template acc) w (inr l) w.
Proof.
  intros Hport Hall. revert acc. induction Hall as [|wh template Hwh _ IH]; intros acc; simpl.
  - by eexists.
  - destruct (rewriteWebhook_total handlers ca wh w Hport Hwh) as [o Ho]. unfold runs in *.
    rewrite (go_bind_runs _ _ _ _ _ Ho). destruct o as [wh'|]; apply IH.
Qed.

(** C14: a run of Ensure that returns nil leaves in each configuration exactly the webhooks
    of its template that have a registered path, in order, each with the CA bundle and
    pointing at this process (its Service, or its URL when a host is set), and the template
    on record. *)
Theorem ensure_registers handlers ca w w' :
  json_roundtrip → named w → runs (ensure handlers ca) w None w' →
  ∀ kind, ∃ old t c, config_at w kind (configurationName Getenv kind) = Some old ∧
    template_of kind old = Some t ∧
    config_at w' kind (configurationName Getenv kind) = Some c ∧
    wc_Webhooks c = go_appends None (omap (registered handlers ca) (default [] t)) ∧ template_of kind c = Some t.
Proof.
  intros Hjson Hnamed Hrun kind.
  destruct (Ensure_run _ _ _ _ Hnamed Hrun kind) as (old & new & Hold & Hnew & rv & Hc).
  unfold ensured_config in Hnew. unfold template_of.
  destruct (parseTemplate _ _ kind old) as [err|[t c]] eqn:Hp; [done|]. injection Hnew as <-.
  exists old, t, (wc_with_rv rv (set_Webhooks (registered_webhooks handlers ca t) c)).
  rewrite Hp, (parseTemplate_again _ _ _ _ _ _ Hjson Hp). done.
Qed.

(** Ensure is idempotent: after a run that returned nil, another with the same handlers
    and bundle updates nothing, whatever it returns, even if calls fail. *)
Theorem ensure_idempotent handlers ca w w' :
  json_roundtrip → named w → runs (ensure handlers ca) w None w' →
  configs (ensure handlers ca w').2 = configs w'.
Proof.
  intros Hjson Hnamed Hrun.
  assert (∀ kind c, config_at w' kind (configurationName Getenv kind) = Some c →
    ensured_config handlers ca kind c = Some c) as Hfix.
  { intros kind c Hc.
    destruct (Ensure_run _ _ _ _ Hnamed Hrun kind) as (old & new & _ & Hnew & rv & Hc').
    rewrite Hc in Hc'. injection Hc' as ->. by eapply ensured_config_again. }
  unfold Ensure, go_bind.
  pose proof (get_configuration_law Mutating (configurationName Getenv Mutating) w') as Hm.
  unfold wp in Hm. destruct (GetConfiguration Mutating _ w') as [[m|why] w1]; [|done].
  destruct Hm as (Hc1 & Hm & _). destruct m as [err|om]; [done|].
  pose proof (get_configuration_law Validating (configurationName Getenv Validating) w1) as Hv.
  unfold wp in Hv. destruct (GetConfiguration Validating _ w1) as [[v|why] w2]; [|done].
  destruct Hv as (Hc2 & Hv & _). destruct v as [err|ov]; simpl; [congruence|].
  specialize (Hfix Mutating om (Hm om eq_refl)) as Hfm.
  assert (ensured_config handlers ca Validating ov = Some ov) as Hfv.
  { apply Hfix. specialize (Hv ov eq_refl). unfold config_at in *. by rewrite <-Hc1. }
  unfold ensured_config, registered_webhooks in Hfm, Hfv.
  destruct (parseTemplate _ _ Mutating om) as [|[mt mc]]; [done|].
  destruct (parseTemplate _ _ Validating ov) as [|[vt vc]]; [done|].
  injection Hfm as Hfm. injection Hfv as Hfv.
  destruct (rewriteWebhooks_cases handlers ca (default [] mt) w2) as [(x & -> & Hx)|[why ->]]; simpl; [|congruence].
  destruct x as [err|l]; [simpl; congruence|]. rewrite (Hx l eq_refl).
  destruct (rewriteWebhooks_cases handlers ca (default [] vt) w2) as [(y & -> & Hy)|[why ->]]; simpl; [|congruence].
  destruct y as [err|l']; [simpl; congruence|]. rewrite (Hy l' eq_refl).
  unfold updateIfChanged. rewrite Hfm, Hfv, !DeepEqual_refl. simpl.
  congruence.
Qed.

Lemma updateIfChanged_calm handlers ca kind old t c w :
  calm w → config_at w kind (configurationName Getenv kind) = Some old →
  om_Name (wc_ObjectMeta old) = configurationName Getenv kind →
  parseTemplate UnmarshalWebhooks MarshalWebhooks kind old = inr (t, c) →
  ∃ w', runs (updateIfChanged Getenv kind old (set_Webhooks (registered_webhooks handlers ca t) c)) w None w' ∧
    calm w' ∧ ∀ kind' name, kind' ≠ kind → config_at w' kind' name = config_at w kind' name.
Proof.
  intros Hcalm Hold Hname Hp. destruct (parseTemplate_keeps _ _ _ _ Hp) as [Hn Hrv].
  rewrite Hname in Hn.
  pose proof (updateIfChanged_wp kind old (set_Webhooks (registered_webhooks handlers ca t) c) w
    (go_appends_stored _)) as Hu.
  simpl in Hu. rewrite Hn in Hu. specialize (Hu Hold). apply wp_runs in Hu as (e & w' & Hrun & Hother & _ & Hc).
  destruct (Hc Hcalm Hrv) as [Hcalm' ->]. by exists w'.
Qed.

(** Ensure succeeds: in a calm world where both configurations exist, their templates
    parse, every webhook in them has a path and WEBHOOK_PORT is no obstacle, it neither
    fails nor panics. *)
Theorem ensure_succeeds handlers ca w :
  named w → calm w → port_reads →
  (∀ kind, ∃ old t, config_at w kind (configurationName Getenv kind) = Some old ∧
    template_of kind old = Some t ∧ Forall (λ wh, is_Some (served_path wh)) (default [] t)) →
  wp (ensure handlers ca) (λ e _, e = None) w.
Proof.
  intros Hnamed Hcalm Hport Hall.
  destruct (Hall Mutating) as (om & mt & Hom & Hmt & Hmp).
  destruct (Hall Validating) as (ov & vt & Hov & Hvt & Hvp).
  unfold template_of in Hmt, Hvt.
  destruct (parseTemplate _ _ Mutating om) as [|[mt' mc]] eqn:Hpm; [done|]. injection Hmt as ->.
  destruct (parseTemplate _ _ Validating ov) as [|[vt' vc]] eqn:Hpv; [done|]. injection Hvt as ->.
  unfold Ensure. apply wp_bind. wp_call get_configuration_law. intros m w1 (Hc1 & _ & Hm).
  destruct (Hm Hcalm) as [Hcalm1 ->%(λ H, H om Hom)].
  apply wp_bind. wp_call get_configuration_law. intros v w2 (Hc2 & _ & Hv).
  assert (∀ kind name, config_at w2 kind name = config_at w kind name) as Hat.
  { intros kind name. unfold config_at. by rewrite Hc2, Hc1. }
  assert (v = inr ov ∧ calm w2) as [-> Hcalm2].
  { destruct (Hv Hcalm1) as [Hcalm2 Hv']. split; [|done]. apply Hv'. unfold config_at in *.
    by rewrite Hc1. }
  rewrite Hpm, Hpv.
  destruct (rewriteWebhooks_total handlers ca (default [] mt) None w2 Hport Hmp) as [l Hl].
  destruct (rewriteWebhooks_total handlers ca (default [] vt) None w2 Hport Hvp) as [l' Hl'].
  apply wp_bind, wp_runs. exists (inr l), w2. split; [done|].
  apply rewriteWebhooks_run in Hl as [_ ->].
  apply wp_bind, wp_runs. exists (inr l'), w2. split; [done|].
  apply rewriteWebhooks_run in Hl' as [_ ->]. simpl.
  destruct (updateIfChanged_calm handlers ca Mutating om mt mc w2) as (w3 & Hu & Hcalm3 & Hother);
    [done|by rewrite Hat|by apply Hnamed|done|].
  apply wp_bind, wp_runs. exists None, w3. split; [done|].
  destruct (updateIfChanged_calm handlers ca Validating ov vt vc w3) as (w4 & Hu' & _);
    [done|by rewrite Hother, Hat|by apply Hnamed|done|].
  apply wp_runs. by exists None, w4.
Qed.
End ensure.
End configuration.
