(* ===== verification/MemConfigurations.v ===== *)
(** * An in-memory instance of the configuration API, and the witnesses of its theorems *)
From S2P Require Export ConfigurationTheorems.

Record MemConfigs := mkMemConfigs {
  mcf_mutating : gmap string WebhookConfiguration;
  mcf_validating : gmap string WebhookConfiguration;
  mcf_version : N; mcf_faults : list (option string) }.

Definition mem_configs (kind : WebhookKind) (w : MemConfigs) : gmap string WebhookConfiguration :=
  match kind with Mutating => mcf_mutating w | Validating => mcf_validating w end.

Definition mem_config_call {A} (fail : string → A) (k : GoM MemConfigs A) : GoM MemConfigs A := λ w,
  match mcf_faults w with
  | [] => k w
  | f :: fs =>
      let w := mkMemConfigs (mcf_mutating w) (mcf_validating w) (mcf_version w) fs in
      match f with Some e => (Ret (fail e), w) | None => k w end
  end.

#[global] Instance mem_configuration_client : ConfigurationClient MemConfigs := {|
  GetConfiguration kind name := mem_config_call inl (λ w,
    (Ret (match mem_configs kind w !! name with Some c => inr c | None => inl "not found" end), w));
  UpdateConfiguration kind c := mem_config_call Some (λ w,
    let name := om_Name (wc_ObjectMeta c) in
    match mem_configs kind w !! name with
    | None => (Ret (Some "not found"), w)
    | Some old =>
        if decide (om_ResourceVersion (wc_ObjectMeta old) = om_ResourceVersion (wc_ObjectMeta c)) then
          let c' := wc_with_rv (pretty (mcf_version w)) c in
          (Ret None, match kind with
                     | Mutating => mkMemConfigs (<[name := c']> (mcf_mutating w)) (mcf_validating w)
                                     (mcf_version w + 1) (mcf_faults w)
                     | Validating => mkMemConfigs (mcf_mutating w) (<[name := c']> (mcf_validating w))
                                       (mcf_version w + 1) (mcf_faults w)
                     end)
        else (Ret (Some "conflict"), w)
    end) |}.

Definition with_faults (fs : list (option string)) (w : MemConfigs) : MemConfigs :=
  mkMemConfigs (mcf_mutating w) (mcf_validating w) (mcf_version w) fs.

Lemma mem_config_call_wp {A} (fail : string → A) (k : GoM MemConfigs A) (Q : A → MemConfigs → Prop) w :
  (∀ e fs, mcf_faults w ≠ [] → Q (fail e) (with_faults fs w)) →
  (∀ fs, (mcf_faults w = [] → fs = []) → wp k Q (with_faults fs w)) →
  wp (mem_config_call fail k) Q w.
Proof.
  intros Hf Hk. unfold mem_config_call, wp. destruct w as [m v n [|[e|] fs]]; simpl in *.
  - by apply (Hk []).
  - by apply Hf.
  - by apply Hk.
Qed.

#[global] Instance mem_configuration_laws : ConfigurationLaws MemConfigs.
Proof.
  refine {| configs := λ w, (mcf_mutating w, mcf_validating w); calm := λ w, mcf_faults w = [] |}.
  - intros kind name w. apply mem_config_call_wp; [by intros|]. intros fs Hfs. unfold wp.
    split; [done|]. destruct kind; simpl; (destruct (_ !! name); split; [naive_solver|naive_solver..]).
  - intros kind c w _. apply mem_config_call_wp; [by intros|]. intros fs Hfs. unfold wp.
    destruct kind; simpl.
    + destruct (mcf_mutating w !! om_Name (wc_ObjectMeta c)) as [old|]; simpl; [case_decide; simpl|];
        (split; [by try eexists|naive_solver]).
    + destruct (mcf_validating w !! om_Name (wc_ObjectMeta c)) as [old|]; simpl; [case_decide; simpl|];
        (split; [by try eexists|naive_solver]).
Defined.

(** ** A cluster with both configurations, one of whose webhooks has an unknown path *)
Definition demo_env : string → string := env_of [].
Definition demo_url_path (_ : string) : string + string := inr "/mutate-pod".
Definition demo_webhook (name path : string) : Webhook :=
  mkWebhook name (mkWebhookClientConfig None
    (Some (mkServiceReference "old" "old-service" (Some path) (Some 443%Z))) None) "".
Definition demo_config (name : string) (l : list Webhook) : WebhookConfiguration :=
  mkWebhookConfiguration (mkObjectMeta name "" "uid" "1" None None [] "") (Some l).
Definition demo_webhooks : list Webhook :=
  [demo_webhook "mpod.kb.io" "/mutate-pod"; demo_webhook "marker" "/mutate-v1-pod"].
Definition demo_configs : MemConfigs :=
  mkMemConfigs
    {[ GetMutatingWebhookName demo_env := demo_config (GetMutatingWebhookName demo_env)
         demo_webhooks ]}
    {[ GetValidatingWebhookName demo_env := demo_config (GetValidatingWebhookName demo_env) [] ]} 7 [].
Definition demo_handlers : gset string := {[ "/mutate-pod" ]}.
Definition demo_ca : gobytes := Some "bundle".

(** JSON for the two slices that are written out here. *)
Definition mem_marshal (_ : WebhookKind) (l : Webhooks) : string + string :=
  if decide (l = None) then inr "null" else if decide (l = Some []) then inr "[]"
  else if decide (l = Some demo_webhooks) then inr "[...]" else inl "no encoding".
Definition mem_unmarshal (_ : WebhookKind) (s : string) : string + Webhooks :=
  if decide (s = "null") then inr None else if decide (s = "[]") then inr (Some [])
  else if decide (s = "[...]") then inr (Some demo_webhooks) else inl "invalid".

Lemma mem_json : json_roundtrip mem_unmarshal mem_marshal.
Proof. intros kind l s. unfold mem_marshal. repeat case_decide; by intros [= <-]; subst. Qed.

Abbreviation demo_ensure :=
  (Ensure demo_env mem_unmarshal mem_marshal demo_url_path demo_handlers demo_ca).

Lemma demo_named : named demo_env demo_configs.
Proof.
  intros [] c Hc; unfold config_at in Hc; simpl in Hc; by apply lookup_singleton_Some in Hc as [_ <-].
Qed.

(** The configurations once Ensure has run. *)
Definition demo_ensured : MemConfigs := (demo_ensure demo_configs).2.
Lemma demo_ensure_runs : runs demo_ensure demo_configs None demo_ensured.
Proof. vm_compute. reflexivity. Qed.

(** The webhook the kubebuilder marker declares is dropped: its path is not the one the
    handler is registered under. *)
Example demo_marker_dropped :
  (λ c, wh_Name <$> default [] (wc_Webhooks c)) <$> mcf_mutating demo_ensured !! GetMutatingWebhookName demo_env =
  Some ["mpod.kb.io"].
Proof. vm_compute. reflexivity. Qed.

Lemma ensure_registers_witness :
  ∃ old t c, config_at demo_configs Mutating (configurationName demo_env Mutating) = Some old ∧
    template_of mem_unmarshal mem_marshal Mutating old = Some t ∧
    config_at demo_ensured Mutating (configurationName demo_env Mutating) = Some c ∧
    wc_Webhooks c = go_appends None (omap (registered demo_env demo_url_path demo_handlers demo_ca) (default [] t)) ∧
    template_of mem_unmarshal mem_marshal Mutating c = Some t.
Proof.
  exact (ensure_registers demo_env mem_unmarshal mem_marshal demo_url_path demo_handlers demo_ca
    demo_configs demo_ensured mem_json demo_named demo_ensure_runs Mutating).
Defined.

Lemma ensure_idempotent_witness : configs (demo_ensure demo_ensured).2 = configs demo_ensured.
Proof.
  exact (ensure_idempotent demo_env mem_unmarshal mem_marshal demo_url_path demo_handlers demo_ca
    demo_configs demo_ensured mem_json demo_named demo_ensure_runs).
Defined.

Lemma ensure_succeeds_witness : wp demo_ensure (λ e _, e = None) demo_configs.
Proof.
  apply (ensure_succeeds demo_env mem_unmarshal mem_marshal demo_url_path demo_handlers demo_ca demo_configs).
  - apply demo_named.
  - done.
  - by left.
  - intros [|]; eexists _, _; (split; [done|]); (split; [done|]); repeat constructor; by eexists.
Defined.
