(* ===== verification/FileSystem.v ===== *)
(** * The file system, as the certificate writers use it

    Go's [os] and [path/filepath] over a tree of directories, files and symbolic links.  A
    path is absolute and clean: the list of its components.  Every call is one atomic step
    that a host runs ([FsHost]): the host may refuse it, and keeps a trace of the states the
    disk went through, so that what a crash or a concurrent reader finds is a state of the
    trace. *)
From stdpp Require Export sorting.
From S2P Require Export GoStrings Crypto.

Abbreviation path := (list string).

Inductive node :=
| Dir (mode : Z)
| File (mode : Z) (data : string)
| Symlink (target : string).
#[global] Instance node_eq_dec : EqDecision node.
Proof. solve_decision. Defined.

Abbreviation disk := (gmap path node).

Inductive Errno := ENOENT | EEXIST | ENOTDIR | EISDIR | EINVAL | ELOOP | ENOTEMPTY | EIO.
#[global] Instance Errno_eq_dec : EqDecision Errno.
Proof. solve_decision. Defined.

(** os.IsNotExist *)
Definition IsNotExist (e : Errno) : bool := bool_decide (e = ENOENT).

(** ** Paths *)
Definition components (s : string) : list string := filter (λ c, c ≠ "" ∧ c ≠ ".") (split s "/").
Definition is_abs (s : string) : bool := has_prefix s "/".
Definition parent (p : path) : path := take (length p - 1) p.

(** path.Join(p, s): s is resolved lexically. *)
Definition path_Join (p : path) (s : string) : path :=
  foldl (λ acc c, if decide (c = "..") then parent acc else acc ++ [c]) p (components s).

(** filepath.Base *)
Definition path_Base (p : path) : string := default "/" (last p).

(** ** Name resolution

    [links] bounds the number of symbolic links followed, as the kernel does.  With
    [follow = false] a link in the last place is not followed. *)
Fixpoint resolve_from (links : nat) (s : disk) (follow : bool) : path → list string → Errno + path :=
  fix go (cur : path) (rest : list string) {struct rest} : Errno + path :=
  match rest with
  | [] => inr cur
  | c :: rest' =>
      if decide (c = "..") then go (parent cur) rest'
      else
        let p := cur ++ [c] in
        match s !! p with
        | None => match rest' with [] => inr p | _ => inl ENOENT end
        | Some (Dir _) => go p rest'
        | Some (File _ _) => match rest' with [] => inr p | _ => inl ENOTDIR end
        | Some (Symlink t) =>
            if negb follow && bool_decide (rest' = []) then inr p
            else
              match links with
              | O => inl ELOOP
              | S links' =>
                  resolve_from links' s follow (if is_abs t then [] else cur) (components t ++ rest')
              end
        end
  end.

Definition max_links : nat := 40.
Definition resolve (s : disk) (follow : bool) (p : path) : Errno + path := resolve_from max_links s follow [] p.

(** The node at a resolved path; the root is a directory. *)
Definition node_at (s : disk) (p : path) : option node :=
  match p with [] => Some (Dir 493) | _ => s !! p end.

(** ** Calls, as functions of the disk *)
Definition fs_call (A : Type) : Type := disk → Errno + (A * disk).

(** A call on the node a path leads to. *)
Definition on_node {A} (follow : bool) (p : path) (k : path → option node → fs_call A) : fs_call A := λ s,
  match resolve s follow p with inl e => inl e | inr q => k q (node_at s q) s end.

Definition op_stat_gen (follow : bool) (p : path) : fs_call node :=
  on_node follow p (λ q n s, match n with None => inl ENOENT | Some n => inr (n, s) end).
Definition op_stat : path → fs_call node := op_stat_gen true.
Definition op_lstat : path → fs_call node := op_stat_gen false.

Definition op_readlink (p : path) : fs_call string :=
  on_node false p (λ q n s, match n with
    | None => inl ENOENT | Some (Symlink t) => inr (t, s) | Some _ => inl EINVAL end).

Definition op_readfile (p : path) : fs_call string :=
  on_node true p (λ q n s, match n with
    | None => inl ENOENT | Some (File _ d) => inr (d, s) | Some (Dir _) => inl EISDIR
    | Some (Symlink _) => inl ELOOP end).

Definition op_mkdir (p : path) (mode : Z) : fs_call () :=
  on_node false p (λ q n s, match n with None => inr ((), <[q := Dir mode]> s) | Some _ => inl EEXIST end).

Definition op_symlink (target : string) (p : path) : fs_call () :=
  on_node false p (λ q n s, match n with None => inr ((), <[q := Symlink target]> s) | Some _ => inl EEXIST end).

Definition op_chmod (p : path) (mode : Z) : fs_call () :=
  on_node true p (λ q n s, match n with
    | None => inl ENOENT
    | Some (Dir _) => inr ((), <[q := Dir mode]> s)
    | Some (File _ d) => inr ((), <[q := File mode d]> s)
    | Some (Symlink _) => inl ELOOP end).

(** os.WriteFile is two steps: open with O_CREATE|O_TRUNC, then the write. *)
Definition op_create (p : path) (mode : Z) : fs_call () :=
  on_node true p (λ q n s, match n with
    | None => inr ((), <[q := File mode ""]> s)
    | Some (File m _) => inr ((), <[q := File m ""]> s)
    | Some (Dir _) => inl EISDIR
    | Some (Symlink _) => inl ELOOP end).
Definition op_write (p : path) (data : string) : fs_call () :=
  on_node true p (λ q n s, match n with
    | Some (File m _) => inr ((), <[q := File m data]> s)
    | _ => inl EIO end).

(** Rename of a link or a file over a link, a file or nothing; the program renames nothing
    else. *)
Definition op_rename (old new : path) : fs_call () :=
  on_node false old (λ q n s, match n with
    | None => inl ENOENT
    | Some (Dir _) => inl EINVAL
    | Some n => on_node false new (λ q' n' s, match n' with
        | Some (Dir _) => inl EISDIR
        | _ => inr ((), <[q' := n]> (delete q s)) end) s end).

Definition under (q p : path) : Prop := q `prefix_of` p.

(** unlink or rmdir: a directory has to be empty. *)
Definition op_unlink (q : path) (n : option node) : fs_call () := λ s,
  match n with
  | None => inl ENOENT
  | Some (Dir _) =>
      if decide (map_Forall (λ k _, ¬ (under q k ∧ k ≠ q)) s) then inr ((), delete q s) else inl ENOTEMPTY
  | Some _ => inr ((), delete q s)
  end.
Definition op_remove (p : path) : fs_call () := on_node false p op_unlink.

(** The paths filepath.Walk visits: the root, which is not followed, and all below it. *)
Definition op_walk (p : path) : fs_call (list path) :=
  on_node false p (λ q n s, match n with
    | None => inl ENOENT
    | Some _ => inr ((map_to_list (filter (λ kn, under q kn.1) s)).*1, s) end).

(** ** The host *)
Class FsHost (W : Type) := {
  host_call {A} : fs_call A → GoM W (Errno + A);
  (** time.Now().UTC().Format("2006_01_02_15_04_05"), and the random part of a name *)
  timestamp : GoM W string;
  random_suffix : GoM W string }.

Section calls.
Context {W : Type} `{!FsHost W}.

Definition Stat (p : path) : GoM W (Errno + node) := host_call (op_stat p).
Definition Lstat (p : path) : GoM W (Errno + node) := host_call (op_lstat p).
Definition Readlink (p : path) : GoM W (Errno + string) := host_call (op_readlink p).
Definition ReadFile (p : path) : GoM W (Errno + string) := host_call (op_readfile p).
Definition Mkdir (p : path) (mode : Z) : GoM W (Errno + ()) := host_call (op_mkdir p mode).
Definition SymlinkAt (target : string) (p : path) : GoM W (Errno + ()) := host_call (op_symlink target p).
Definition Chmod (p : path) (mode : Z) : GoM W (Errno + ()) := host_call (op_chmod p mode).
Definition Rename (old new : path) : GoM W (Errno + ()) := host_call (op_rename old new).
Definition Remove (p : path) : GoM W (Errno + ()) := host_call (op_remove p).
Definition Walk (p : path) : GoM W (Errno + list path) := host_call (op_walk p).

(** if err != nil { return err } *)
Definition must {A B} (m : GoM W (Errno + A)) (k : A → GoM W (Errno + B)) : GoM W (Errno + B) :=
  let! r := m in match r with inl e => go_ret (inl e) | inr a => k a end.

Definition WriteFile (p : path) (data : string) (mode : Z) : GoM W (Errno + ()) :=
  must (host_call (op_create p mode)) (λ _, host_call (op_write p data)).

(** os.MkdirAll: nothing for a directory; else the parent, then the directory itself, where
    losing a race is no error.  [fuel] is the length of the path. *)
Fixpoint MkdirAll_fuel (fuel : nat) (p : path) (mode : Z) : GoM W (Errno + ()) :=
  let! r := Stat p in
  match r with
  | inr (Dir _) => go_ret (inr ())
  | inr _ => go_ret (inl ENOTDIR)
  | inl _ =>
      let! up := match fuel with O => go_ret (inr ()) | S n => MkdirAll_fuel n (parent p) mode end in
      match up with
      | inl e => go_ret (inl e)
      | inr _ =>
          let! m := Mkdir p mode in
          match m with
          | inr _ => go_ret (inr ())
          | inl e =>
              let! l := Lstat p in
              match l with inr (Dir _) => go_ret (inr ()) | _ => go_ret (inl e) end
          end
      end
  end.
Definition MkdirAll (p : path) (mode : Z) : GoM W (Errno + ()) := MkdirAll_fuel (length p) p mode.

(** os.RemoveAll: what is below first, then the root, each relative to the directory it was
    found in; nothing there is no error, and a removal that fails does not keep it from trying
    the others.  [err]: the error so far; that a directory is not empty, when something in it
    could not be removed, does not replace it. *)
Fixpoint remove_each (l : list path) (err : option Errno) : GoM W (Errno + ()) :=
  match l with
  | [] => go_ret (match err with Some e => inl e | None => inr () end)
  | p :: l' =>
      let! r := host_call (λ s, op_unlink p (s !! p) s) in
      remove_each l' (match r with
        | inr _ | inl ENOENT => err
        | inl ENOTEMPTY => Some (default ENOTEMPTY err)
        | inl e => Some e
        end)
  end.

Definition deeper (p q : path) : Prop := length q ≤ length p.
#[global] Instance deeper_dec p q : Decision (deeper p q).
Proof. unfold deeper. apply _. Defined.

Definition RemoveAll (p : path) : GoM W (Errno + ()) :=
  let! r := Walk p in
  match r with
  | inl e => if IsNotExist e then go_ret (inr ()) else go_ret (inl e)
  | inr l => remove_each (merge_sort deeper l) None
  end.

(** os.MkdirTemp(dir, prefix): a fresh name, tried again while it is taken. *)
Fixpoint MkdirTemp_tries (tries : nat) (dir : path) (prefix : string) : GoM W (Errno + path) :=
  match tries with
  | O => go_ret (inl EEXIST)
  | S n =>
      let! x := random_suffix in
      let p := dir ++ [prefix +:+ x] in
      let! r := Mkdir p 448 in
      match r with
      | inr _ => go_ret (inr p)
      | inl e => if decide (e = EEXIST) then MkdirTemp_tries n dir prefix else go_ret (inl e)
      end
  end.
Definition MkdirTemp (dir : path) (prefix : string) : GoM W (Errno + path) :=
  MkdirTemp_tries (100 * 100) dir prefix.
End calls.
