(* ===== verification/FileSystemFacts.v ===== *)
(** * Reasoning about runs over a disk

    [FsHostLaws]: what a host does with a call.  [wpd P m Q]: a run of [m] returns, every
    state the disk passes through satisfies [P] (so a crash or a reader at any point finds
    [P]), and the result and the last state satisfy [Q]. *)
From S2P Require Export FileSystem.

Class FsHostLaws (W : Type) `{!FsHost W} := {
  disk_of : W → disk;
  (** the states the disk went through, the last first *)
  trace_of : W → list disk;
  (** no call will be refused, and random names do not collide *)
  faultless : W → Prop;
  host_call_law {A : Type} (f : fs_call A) w : wp (host_call f) (λ r w',
    match r with
    | inr a => ∃ s', f (disk_of w) = inr (a, s') ∧ disk_of w' = s' ∧ trace_of w' = s' :: trace_of w
    | inl e => disk_of w' = disk_of w ∧ trace_of w' = trace_of w ∧
        (e = ENOENT → f (disk_of w) = inl ENOENT)
    end ∧
    (faultless w → faultless w' ∧ ∀ e, r = inl e → f (disk_of w) = inl e)) w;
  timestamp_law w : wp timestamp (λ t w', disk_of w' = disk_of w ∧ trace_of w' = trace_of w ∧
    (faultless w → faultless w') ∧
    ∃ c t', t = String c t' ∧ is_digit c = true ∧ has_char "/" t = false) w;
  random_suffix_law w : wp random_suffix (λ x w', disk_of w' = disk_of w ∧ trace_of w' = trace_of w ∧
    (faultless w → faultless w' ∧ ∀ p prefix, disk_of w !! (p ++ [prefix +:+ x]) = None) ∧
    has_char "/" x = false) w }.
#[global] Hint Mode FsHostLaws ! - : typeclass_instances.

(** ** Runs *)
Section runs.
Context {W : Type} `{!FsHost W, !FsHostLaws W}.

(** [FL]: the run is to be faultless. *)
Definition wpd {A : Type} (FL : Prop) (P : disk → Prop) (m : GoM W A) (Q : A → disk → Prop) (w : W) : Prop :=
  (FL → faultless w) →
  wp m (λ a w', Q a (disk_of w') ∧ (FL → faultless w') ∧
    ∃ new, trace_of w' = new ++ trace_of w ∧ Forall P new) w.

(** From every world whose disk satisfies [Pre]. *)
Definition triple {A : Type} (FL : Prop) (P : disk → Prop) (Pre : disk → Prop) (m : GoM W A)
    (Q : A → disk → Prop) : Prop :=
  ∀ w, Pre (disk_of w) → wpd FL P m Q w.

Context (FL : Prop) (P : disk → Prop).

Lemma triple_ret {A : Type} (a : A) (Pre : disk → Prop) (Q : A → disk → Prop) :
  (∀ s, Pre s → Q a s) → triple FL P Pre (go_ret a) Q.
Proof. intros HQ w Hw Hf. apply wp_ret. split_and!; [by apply HQ|done|]. by exists []. Qed.

Lemma triple_mono {A : Type} (Pre Pre' : disk → Prop) (m : GoM W A) (Q Q' : A → disk → Prop) :
  triple FL P Pre m Q → (∀ s, Pre' s → Pre s) → (∀ a s, Q a s → Q' a s) → triple FL P Pre' m Q'.
Proof.
  intros Hm Hpre HQ w Hw Hf. eapply wp_mono; [apply (Hm w (Hpre _ Hw) Hf)|].
  intros a w' (Ha & Hf' & Htr). split; [by apply HQ|done].
Qed.

Lemma triple_pre {A : Type} (Pre Pre' : disk → Prop) (m : GoM W A) (Q : A → disk → Prop) :
  triple FL P Pre m Q → (∀ s, Pre' s → Pre s) → triple FL P Pre' m Q.
Proof. intros Hm Hpre. eapply triple_mono; [exact Hm|exact Hpre|done]. Qed.

Lemma triple_post {A : Type} (Pre : disk → Prop) (m : GoM W A) (Q Q' : A → disk → Prop) :
  triple FL P Pre m Q → (∀ a s, Q a s → Q' a s) → triple FL P Pre m Q'.
Proof. intros Hm HQ. eapply triple_mono; [exact Hm|done|exact HQ]. Qed.

Lemma triple_bind {A B : Type} (Pre : disk → Prop) (m : GoM W A) (k : A → GoM W B)
    (R : A → disk → Prop) (Q : B → disk → Prop) :
  triple FL P Pre m R → (∀ a, triple FL P (R a) (k a) Q) → triple FL P Pre (go_bind m k) Q.
Proof.
  intros Hm Hk w Hw Hf. apply wp_bind. eapply wp_mono; [apply (Hm w Hw Hf)|].
  intros a w1 (Ha & Hf1 & new1 & Htr1 & Hnew1). eapply wp_mono; [apply (Hk a w1 Ha Hf1)|].
  intros b w2 (Hb & Hf2 & new2 & Htr2 & Hnew2). split_and!; [done|done|].
  exists (new2 ++ new1). split; [by rewrite Htr2, Htr1, app_assoc|by apply Forall_app].
Qed.

Lemma triple_pre_and {A : Type} (Pre : disk → Prop) (X : Prop) (m : GoM W A) (Q : A → disk → Prop) :
  (X → triple FL P Pre m Q) → triple FL P (λ s, X ∧ Pre s) m Q.
Proof. intros H w [HX Hw]. by apply H. Qed.

Lemma triple_pre_ex {A T : Type} (Pre : T → disk → Prop) (m : GoM W A) (Q : A → disk → Prop) :
  (∀ x, triple FL P (Pre x) m Q) → triple FL P (λ s, ∃ x, Pre x s) m Q.
Proof. intros H w [x Hw]. by apply (H x). Qed.

Lemma triple_at {A : Type} (Pre : disk → Prop) (m : GoM W A) (Q : A → disk → Prop) :
  (∀ s1, Pre s1 → triple FL P (λ s, s = s1) m Q) → triple FL P Pre m Q.
Proof. intros H w Hw. by apply (H (disk_of w)). Qed.

(** One call: refused, failed, or done. *)
Lemma triple_call {A : Type} (f : fs_call A) (Pre : disk → Prop) (Q : Errno + A → disk → Prop) :
  (∀ s a s', Pre s → f s = inr (a, s') → P s' ∧ Q (inr a) s') →
  (∀ s e, Pre s → (e = ENOENT → f s = inl ENOENT) → (FL → f s = inl e) → Q (inl e) s) →
  triple FL P Pre (host_call f) Q.
Proof.
  intros Hok Herr w Hw Hf. wp_call (host_call_law f). intros [e|a] w' [Hr Hfl].
  - destruct Hr as (Hd & Htr & He). split_and!.
    + rewrite Hd. apply Herr; [done|done|]. intros HFL. by apply (Hfl (Hf HFL)).
    + intros HFL. by apply (Hfl (Hf HFL)).
    + exists []. by rewrite Htr.
  - destruct Hr as (s' & Hfs & Hd & Htr). destruct (Hok _ _ _ Hw Hfs) as [HP HQ].
    split_and!; [by rewrite Hd|intros HFL; by apply (Hfl (Hf HFL))|].
    exists [s']. split; [done|by constructor].
Qed.

Lemma triple_must {A B : Type} (Pre : disk → Prop) (m : GoM W (Errno + A)) (k : A → GoM W (Errno + B))
    (R : A → disk → Prop) (Q : Errno + B → disk → Prop) :
  triple FL P Pre m (λ r s, match r with inl e => Q (inl e) s | inr a => R a s end) →
  (∀ a, triple FL P (R a) (k a) Q) → triple FL P Pre (must m k) Q.
Proof.
  intros Hm Hk. eapply triple_bind; [exact Hm|]. intros [e|a]; [by apply triple_ret|apply Hk].
Qed.
End runs.

(** ** Paths *)

(** A name that is one component of a path. *)
Definition plain (n : string) : Prop := n ≠ "" ∧ n ≠ "." ∧ n ≠ ".." ∧ has_char "/" n = false.

Lemma components_plain n : plain n → components n = [n].
Proof.
  intros (H1 & H2 & _ & H4). unfold components. rewrite split_no_sep by done.
  by rewrite filter_cons_True.
Qed.

Lemma components_cons a b : plain a → components (a +:+ String "/" b) = a :: components b.
Proof.
  intros (H1 & H2 & _ & H4). unfold components. rewrite split_app_sep by done.
  by rewrite filter_cons_True.
Qed.

Lemma path_Join_plain p n : plain n → path_Join p n = p ++ [n].
Proof.
  intros Hn. unfold path_Join. rewrite components_plain by done. simpl.
  rewrite decide_False; [done|]. apply Hn.
Qed.

Lemma plain_not_abs n : plain n → is_abs n = false.
Proof.
  intros (_ & _ & _ & Hn). unfold is_abs. destruct (has_prefix n "/") eqn:H; [|done].
  apply has_prefix_spec in H as [t ->]. done.
Qed.

Lemma not_abs_cons a b : plain a → is_abs (a +:+ b) = false.
Proof.
  intros (H1 & _ & _ & Hn). unfold is_abs. destruct (has_prefix (a +:+ b) "/") eqn:H; [|done].
  apply has_prefix_spec in H as [t Ht]. destruct a as [|c a]; [done|].
  injection Ht as -> _. done.
Qed.

Lemma parent_snoc p n : parent (p ++ [n]) = p.
Proof. unfold parent. rewrite length_app. simpl. rewrite take_app_le by lia. apply take_ge. lia. Qed.

Lemma path_Base_snoc p n : path_Base (p ++ [n]) = n.
Proof. unfold path_Base. by rewrite last_snoc. Qed.

Lemma node_at_snoc s p n : node_at s (p ++ [n]) = s !! (p ++ [n]).
Proof. by destruct p. Qed.

(** ** Resolution *)

(** [rest] leads from [cur] through directories only. *)
Fixpoint real_from (s : disk) (cur rest : path) : Prop :=
  match rest with
  | [] => True
  | c :: rest' => c ≠ ".." ∧ (∃ m, s !! (cur ++ [c]) = Some (Dir m)) ∧ real_from s (cur ++ [c]) rest'
  end.

Lemma resolve_from_cons l s fl cur c rest :
  resolve_from l s fl cur (c :: rest) =
    if decide (c = "..") then resolve_from l s fl (parent cur) rest
    else
      let p := cur ++ [c] in
      match s !! p with
      | None => match rest with [] => inr p | _ => inl ENOENT end
      | Some (Dir _) => resolve_from l s fl p rest
      | Some (File _ _) => match rest with [] => inr p | _ => inl ENOTDIR end
      | Some (Symlink t) =>
          if negb fl && bool_decide (rest = []) then inr p
          else match l with
               | O => inl ELOOP
               | S l' => resolve_from l' s fl (if is_abs t then [] else cur) (components t ++ rest)
               end
      end.
Proof. by destruct l. Qed.

Lemma resolve_from_nil l s fl cur : resolve_from l s fl cur [] = inr cur.
Proof. by destruct l. Qed.

Lemma resolve_real l s fl cur T rest :
  real_from s cur T → resolve_from l s fl cur (T ++ rest) = resolve_from l s fl (cur ++ T) rest.
Proof.
  revert cur. induction T as [|c T IH]; intros cur; simpl; [by rewrite app_nil_r|].
  intros (Hc & [m Hm] & HT). rewrite resolve_from_cons, decide_False by done. simpl.
  rewrite Hm, IH by done. by rewrite <-app_assoc.
Qed.

Lemma resolve_below s fl T rest :
  real_from s [] T → resolve s fl (T ++ rest) = resolve_from max_links s fl T rest.
Proof. intros HT. unfold resolve. by rewrite resolve_real. Qed.

(** The last component, not followed: always itself. *)
Lemma resolve_nofollow s T n :
  real_from s [] T → n ≠ ".." → resolve s false (T ++ [n]) = inr (T ++ [n]).
Proof.
  intros HT Hn. rewrite resolve_below, resolve_from_cons, decide_False by done. simpl.
  destruct (s !! _) as [[]|]; by rewrite ?resolve_from_nil.
Qed.

(** The last component, followed, when it is no link. *)
Lemma resolve_follow l s cur n :
  n ≠ ".." → (∀ t, s !! (cur ++ [n]) ≠ Some (Symlink t)) →
  resolve_from l s true cur [n] = inr (cur ++ [n]).
Proof.
  intros Hn Hl. rewrite resolve_from_cons, decide_False by done. simpl.
  destruct (s !! _) as [[| |t]|] eqn:He; rewrite ?resolve_from_nil; [done|done| |done].
  by destruct (Hl t).
Qed.

Lemma real_from_same s s' cur T :
  (∀ k, 0 < k ≤ length T → s' !! (cur ++ take k T) = s !! (cur ++ take k T)) →
  real_from s cur T → real_from s' cur T.
Proof.
  revert cur. induction T as [|c T IH]; intros cur Hsame; simpl; [done|].
  intros (Hc & [m Hm] & HT). split; [done|]. split.
  - exists m. rewrite <-Hm. apply (Hsame 1). simpl. lia.
  - apply IH; [|done]. intros k Hk. specialize (Hsame (S k)). simpl in Hsame.
    rewrite <-!app_assoc. apply Hsame. lia.
Qed.

(** ** Reading a file: what a process that opens the path finds *)
Definition read_at (s : disk) (p : path) : option string :=
  match op_readfile p s with inr (d, _) => Some d | inl _ => None end.
