(* ===== verification/AtomicWriter.v ===== *)
(** * The atomic writer: [internal/webhook/util/writer/atomic/atomic_writer.go]

    A payload of files is written to a fresh directory, and becomes visible at once when the
    symbolic link [..data] is renamed to point at it.  The order in which Go ranges over a
    map is a parameter; os.PathSeparator is '/', and the host is not Windows. *)
From S2P Require Export FileSystem.

(** atomic.FileProjection *)
Record FileProjection := mkFileProjection { fp_Data : gobytes; fp_Mode : Z }.

Definition maxFileNameLength : Z := 255.
Definition maxPathLength : Z := 4096.
Definition dataDirName : string := "..data".
Definition newDataDirName : string := "..data_tmp".

Abbreviation error := string.
Abbreviation payload := (gmap string FileProjection).

(** func validatePath *)
Fixpoint validateItems (items : list string) : option error :=
  match items with
  | [] => None
  | item :: items' =>
      if decide (item = "..") then Some "invalid path: must not contain '..'"
      else if (go_len item >? maxFileNameLength)%Z
      then Some "invalid path: filenames must be less than or equal to 255 characters"
      else validateItems items'
  end.

Definition validatePath (targetPath : string) : option error :=
  if decide (targetPath = "") then Some "invalid path: must not be empty"
  else if is_abs targetPath then Some "invalid path: must be relative path"
  else if (go_len targetPath >? maxPathLength)%Z
  then Some "invalid path: must be less than or equal to 4096 characters"
  else
    let items := split targetPath "/" in
    match validateItems items with
    | Some err => Some err
    | None =>
        let first := default "" (head items) in
        if has_prefix first ".." && (go_len first >? 2)%Z
        then Some "invalid path: must not start with '..'"
        else None
    end.

(** filepath.Clean of a relative path *)
Definition clean_components (l : list string) : list string :=
  foldl (λ acc c,
    if decide (c = "" ∨ c = ".") then acc
    else if decide (c = "..") then
      match last acc with
      | None | Some ".." => acc ++ [c]
      | Some _ => take (length acc - 1) acc
      end
    else acc ++ [c]) [] l.
Definition Clean (s : string) : string :=
  match clean_components (split s "/") with [] => "." | l => join l "/" end.

(** filepath.Split: what comes up to the last separator, included. *)
Definition path_dir (s : string) : string := slice_to s (last_index_byte s "/" + 1).

(** The loop of pathsToRemove over a file and the directories it is in. *)
Fixpoint subPaths (fuel : nat) (subPath : string) : list string :=
  if decide (subPath = "") then []
  else match fuel with
       | O => []
       | S n => subPath :: subPaths n (trim_suffix (path_dir subPath) "/")
       end.

Section writer.
Context {W : Type} `{!FsHost W}.
(** The order in which a map is ranged over. *)
Variable range : ∀ {V}, gmap string V → list (string * V).
Variable targetDir : path.

(** NewAtomicWriter *)
Definition NewAtomicWriter : GoM W (Errno + path) :=
  let! r := Stat targetDir in
  match r with
  | inl e => if IsNotExist e then go_ret (inl e) else go_ret (inr targetDir)
  | inr _ => go_ret (inr targetDir)
  end.

Fixpoint validate_each (l : list (string * FileProjection)) (clean : payload) : error + payload :=
  match l with
  | [] => inr clean
  | (k, content) :: l' =>
      match validatePath k with
      | Some err => inl err
      | None => validate_each l' (<[Clean k := content]> clean)
      end
  end.
Definition validatePayload (p : payload) : error + payload := validate_each (range p) ∅.

(** func shouldWriteFile *)
Definition shouldWriteFile (p : path) (content : gobytes) : GoM W (Errno + bool) :=
  let! r := Lstat p in
  match r with
  | inl ENOENT => go_ret (inr true)
  | _ => must (ReadFile p) (λ contentOnFs,
      go_ret (inr (negb (bool_decide (bytes_contents content = contentOnFs)))))
  end.

Fixpoint should_each (l : list (string * FileProjection)) (oldTsDir : path) : GoM W (Errno + bool) :=
  match l with
  | [] => go_ret (inr false)
  | (userVisiblePath, fp) :: l' =>
      must (shouldWriteFile (path_Join oldTsDir userVisiblePath) (fp_Data fp)) (λ shouldWrite,
        if (shouldWrite : bool) then go_ret (inr true) else should_each l' oldTsDir)
  end.
Definition shouldWritePayload (p : payload) (oldTsDir : path) : GoM W (Errno + bool) :=
  should_each (range p) oldTsDir.

(** func pathsToRemove: the paths found below the old directory that the payload does not
    account for; nothing when there is no such directory. *)
Definition relative_to (dir p : path) : string := join (drop (length dir) p) "/".

Definition pathsToRemove (p : payload) (oldTsDir : path) : GoM W (Errno + gset string) :=
  let! r := Walk oldTsDir in
  match r with
  | inl e => if IsNotExist e then go_ret (inr ∅) else go_ret (inl e)
  | inr visited =>
      let paths : gset string := list_to_set (filter (λ x, x ≠ "") (relative_to oldTsDir <$> visited)) in
      let newPaths : gset string :=
        list_to_set ((range p).*1 ≫= λ file, subPaths (String.length file) file) in
      go_ret (inr (paths ∖ newPaths))
  end.

(** func newTimestampDir *)
Definition newTimestampDir : GoM W (Errno + path) :=
  let! stamp := timestamp in
  must (MkdirTemp targetDir (".." +:+ stamp +:+ ".")) (λ tsDir,
    must (Chmod tsDir 493) (λ _, go_ret (inr tsDir))).

(** func writePayloadToDir: an error of the last Chmod is only logged. *)
Fixpoint write_each (l : list (string * FileProjection)) (dir : path) : GoM W (Errno + ()) :=
  match l with
  | [] => go_ret (inr ())
  | (userVisiblePath, fp) :: l' =>
      let fullPath := path_Join dir userVisiblePath in
      must (MkdirAll (parent fullPath) 511) (λ _,
        must (WriteFile fullPath (bytes_contents (fp_Data fp)) (fp_Mode fp)) (λ _,
          do! Chmod fullPath (fp_Mode fp) in write_each l' dir))
  end.
Definition writePayloadToDir (p : payload) (dir : path) : GoM W (Errno + ()) := write_each (range p) dir.

(** func createUserVisibleFiles *)
Definition link_name (userVisiblePath : string) : string :=
  let slashpos := index_byte userVisiblePath "/" in
  let slashpos := if decide (slashpos = -1)%Z then go_len userVisiblePath else slashpos in
  slice_to userVisiblePath slashpos.

Fixpoint link_each (l : list (string * FileProjection)) : GoM W (Errno + ()) :=
  match l with
  | [] => go_ret (inr ())
  | (userVisiblePath, _) :: l' =>
      let linkname := link_name userVisiblePath in
      let! r := Readlink (path_Join targetDir linkname) in
      match r with
      | inl ENOENT =>
          must (SymlinkAt (Clean (dataDirName +:+ "/" +:+ linkname)) (path_Join targetDir linkname))
            (λ _, link_each l')
      | _ => link_each l'
      end
  end.
Definition createUserVisibleFiles (p : payload) : GoM W (Errno + ()) := link_each (range p).

(** func removeUserVisiblePaths: every path is tried, the last error is returned. *)
Fixpoint unlink_each (l : list string) (lasterr : option Errno) : GoM W (option Errno) :=
  match l with
  | [] => go_ret lasterr
  | p :: l' =>
      if has_char "/" p then unlink_each l' lasterr
      else
        let! r := Remove (path_Join targetDir p) in
        match r with
        | inl e => unlink_each l' (Some e)
        | inr _ => unlink_each l' lasterr
        end
  end.
Definition removeUserVisiblePaths (paths : gset string) : GoM W (option Errno) :=
  unlink_each ((range (set_to_map (λ x, (x, ())) paths : gmap string ())).*1) None.

(** An error of Write: the payload's, or the system's. *)
Inductive WriteError := InvalidPayload (err : error) | SystemError (e : Errno).

(** Steps (8) to (11): the new directory becomes the data directory. *)
Definition publish (tsDir : path) (oldTsDir : string) (toRemove : gset string) : GoM W (option WriteError) :=
  let dataDirPath := path_Join targetDir dataDirName in
  let newDataDirPath := path_Join targetDir newDataDirName in
  let! r := SymlinkAt (path_Base tsDir) newDataDirPath in
  match r with
  | inl e => do! RemoveAll tsDir in go_ret (Some (SystemError e))
  | inr _ =>
      let! r := Rename newDataDirPath dataDirPath in
      match r with
      | inl e =>
          do! Remove newDataDirPath in
          do! RemoveAll tsDir in
          go_ret (Some (SystemError e))
      | inr _ =>
          let! r := removeUserVisiblePaths toRemove in
          match r with
          | Some e => go_ret (Some (SystemError e))
          | None =>
              if (go_len oldTsDir >? 0)%Z then
                let! r := RemoveAll (path_Join targetDir oldTsDir) in
                match r with
                | inl e => go_ret (Some (SystemError e))
                | inr _ => go_ret None
                end
              else go_ret None
          end
      end
  end.

(** Steps (5) to (7): the payload in a new directory, and the links to it. *)
Definition project (p : payload) (oldTsDir : string) (toRemove : gset string) : GoM W (option WriteError) :=
  let! r := newTimestampDir in
  match r with
  | inl e => go_ret (Some (SystemError e))
  | inr tsDir =>
      let! r := writePayloadToDir p tsDir in
      match r with
      | inl e => go_ret (Some (SystemError e))
      | inr _ =>
          let! r := createUserVisibleFiles p in
          match r with
          | inl e => go_ret (Some (SystemError e))
          | inr _ => publish tsDir oldTsDir toRemove
          end
      end
  end.

(** func (w *Writer) Write *)
Definition Write (p : payload) : GoM W (option WriteError) :=
  match validatePayload p with
  | inl err => go_ret (Some (InvalidPayload err))
  | inr cleanPayload =>
      let! r := Readlink (path_Join targetDir dataDirName) in
      match r with
      | inl e => if negb (IsNotExist e) then go_ret (Some (SystemError e)) else project cleanPayload "" ∅
      | inr oldTsDir =>
          if (go_len oldTsDir =? 0)%Z then project cleanPayload "" ∅
          else
            let oldTsPath := path_Join targetDir oldTsDir in
            let! r := pathsToRemove cleanPayload oldTsPath in
            match r with
            | inl e => go_ret (Some (SystemError e))
            | inr toRemove =>
                let! r := shouldWritePayload cleanPayload oldTsPath in
                match r with
                | inl e => go_ret (Some (SystemError e))
                | inr should =>
                    if negb should && (Nat.eqb (size toRemove) 0) then go_ret None
                    else project cleanPayload oldTsDir toRemove
                end
            end
      end
  end.
End writer.
