(* ===== verification/AtomicWriterFacts.v ===== *)
(** * What a reader of the target directory finds

    The names of a target directory, its shape, and the content a reader finds under a name
    as a function of the disk ([content]); then what staging a payload changes of it:
    nothing ([staged_content]), until the data link is renamed. *)
From S2P Require Export AtomicWriter FileSystemFacts.

(** ** Names *)
Definition visible (n : string) : Prop :=
  plain n ∧ has_prefix n ".." = false ∧ (go_len n ≤ maxFileNameLength)%Z.
Definition temp_name (x : string) : Prop :=
  ∃ c t, x = ".." +:+ String c t ∧ is_digit c = true ∧ has_char "/" t = false.
Definition link_target (n : string) : string := dataDirName +:+ String "/" n.

Lemma visible_plain n : visible n → plain n.
Proof. by intros [H _]. Qed.

Lemma temp_plain x : temp_name x → plain x.
Proof.
  intros (c & t & -> & Hc & Ht). split_and!; try done. simpl. rewrite Ht.
  rewrite bool_decide_false; [done|]. by intros <-.
Qed.

Lemma data_plain : plain dataDirName.
Proof. by split_and!. Qed.
Lemma new_data_plain : plain newDataDirName.
Proof. by split_and!. Qed.

Lemma visible_not_data n : visible n → n ≠ dataDirName.
Proof. by intros (_ & H & _) ->. Qed.
Lemma visible_not_new n : visible n → n ≠ newDataDirName.
Proof. by intros (_ & H & _) ->. Qed.
Lemma visible_not_temp n : visible n → ¬ temp_name n.
Proof. by intros (_ & H & _) (c & t & -> & _). Qed.
Lemma visible_ne_temp n x : visible n → temp_name x → n ≠ x.
Proof. intros Hn Hx ->. by eapply visible_not_temp. Qed.
Lemma temp_not_data x : temp_name x → x ≠ dataDirName.
Proof. intros (c & t & -> & Hc & _) [= ->]. done. Qed.
Lemma temp_not_new x : temp_name x → x ≠ newDataDirName.
Proof. intros (c & t & -> & Hc & _) [= ->]. done. Qed.
Lemma data_not_new : dataDirName ≠ newDataDirName.
Proof. done. Qed.

Create HintDb fs_names discriminated.
#[export] Hint Resolve visible_plain temp_plain data_plain new_data_plain visible_not_data
  visible_not_new visible_not_temp visible_ne_temp temp_not_data temp_not_new data_not_new
  : fs_names.

Lemma plain_not_dotdot n : plain n → n ≠ "..".
Proof. by intros (_ & _ & H & _). Qed.
#[export] Hint Resolve plain_not_dotdot : fs_names.

(** Two paths in the same directory. *)
Ltac path_ne :=
  let H := fresh in
  intros H; apply app_inv_head in H; simplify_eq;
  try (eapply visible_not_data; [|reflexivity]; by eauto with fs_names);
  try (eapply visible_not_new; [|reflexivity]; by eauto with fs_names);
  try (eapply temp_not_data; [|reflexivity]; by eauto with fs_names);
  try (eapply temp_not_new; [|reflexivity]; by eauto with fs_names);
  try (eapply visible_not_temp; by eauto with fs_names);
  try done; try by eauto with fs_names.

Lemma split_link_target n : plain n → split (link_target n) "/" = [dataDirName; n].
Proof.
  intros (_ & _ & _ & Hn). unfold link_target. rewrite split_app_sep by done.
  by rewrite split_no_sep.
Qed.

Lemma components_link_target n : plain n → components (link_target n) = [dataDirName; n].
Proof.
  intros Hn. unfold link_target. rewrite components_cons by apply data_plain.
  by rewrite components_plain.
Qed.

Lemma Clean_plain n : plain n → Clean n = n.
Proof.
  intros (H1 & H2 & H3 & H4). unfold Clean. rewrite split_no_sep by done. unfold clean_components.
  simpl. rewrite decide_False by naive_solver. by rewrite decide_False.
Qed.

Lemma Clean_link_target n : plain n → Clean (link_target n) = link_target n.
Proof.
  intros Hn. unfold Clean. rewrite split_link_target by done. unfold clean_components. simpl.
  destruct Hn as (H1 & H2 & H3 & H4). rewrite decide_False by naive_solver.
  by rewrite decide_False.
Qed.

Lemma link_name_plain n : plain n → link_name n = n.
Proof.
  intros (_ & _ & _ & Hn). unfold link_name. rewrite index_byte_absent, decide_True by done.
  rewrite <-(str_app_nil_r n) at 1. apply slice_to_app.
Qed.

Lemma subPaths_plain n : plain n → subPaths (String.length n) n = [n].
Proof.
  intros (H1 & _ & _ & Hn). destruct n as [|c n]; [done|]. simpl String.length. cbn [subPaths].
  rewrite decide_False by done. f_equal. unfold path_dir. rewrite last_index_byte_absent by done.
  by destruct (String.length n).
Qed.

(** ** A target directory *)
Section target.
Context (T : path).

Abbreviation at_name n := (T ++ [n]).
Abbreviation in_version x n := (T ++ [x; n]).

Definition current (s : disk) (old : string) : Prop := s !! at_name dataDirName = Some (Symlink old).
Definition linked (s : disk) (n : string) : Prop := s !! at_name n = Some (Symlink (link_target n)).

(** A directory of the writer: reached through directories only; [..data], if there, leads to
    a timestamped directory holding files only, all of them linked to; and nothing lies below
    a timestamped directory that does not exist.  [u]: what is found as [..data_tmp], nothing
    if no update was cut short. *)
Record target_at (u : option node) (s : disk) : Prop := {
  ok_real : real_from s [] T;
  ok_new : s !! at_name newDataDirName = u;
  ok_fresh x rest : temp_name x → s !! at_name x = None → s !! (T ++ x :: rest) = None;
  ok_data : s !! at_name dataDirName = None ∨ ∃ old, current s old;
  ok_old old : current s old → temp_name old ∧ ∃ m, s !! at_name old = Some (Dir m);
  ok_version old n rest nd : current s old → s !! (T ++ old :: n :: rest) = Some nd →
    rest = [] ∧ visible n ∧ linked s n ∧ ∃ m d, nd = File m d }.

#[local] Arguments ok_real {u} s _.
#[local] Arguments ok_new {u} s _.
#[local] Arguments ok_fresh {u} s _ x rest _ _.
#[local] Arguments ok_data {u} s _.
#[local] Arguments ok_old {u} s _ old _.
#[local] Arguments ok_version {u} s _ old n rest nd _ _.

(** The names the writer may use: free, or linked by it already. *)
Definition managed (s : disk) (n : string) : Prop :=
  visible n ∧ (s !! at_name n = None ∨ linked s n).

(** What a reader finds under a name. *)
Definition view (s : disk) (n : string) : option string := read_at s (at_name n).

(** The same, when the name is managed and the data link is in order. *)
Definition file_data (n : option node) : option string :=
  match n with Some (File _ d) => Some d | _ => None end.
Definition content (s : disk) (n : string) : option string :=
  match s !! at_name n, s !! at_name dataDirName with
  | Some (Symlink _), Some (Symlink x) => file_data (s !! in_version x n)
  | _, _ => None
  end.

Definition data_in_order (s : disk) : Prop :=
  s !! at_name dataDirName = None ∨
  ∃ x, current s x ∧ temp_name x ∧ (∃ m, s !! at_name x = Some (Dir m)) ∧
    ∀ n t, visible n → s !! in_version x n ≠ Some (Symlink t).

Lemma snoc2 x n : (T ++ [x]) ++ [n] = in_version x n.
Proof. by rewrite <-app_assoc. Qed.

Lemma view_content s n :
  real_from s [] T → data_in_order s → managed s n → view s n = content s n.
Proof.
  intros HT Hdata [Hn Hlink]. unfold view, read_at, op_readfile, on_node.
  rewrite resolve_below by done. unfold max_links. rewrite resolve_from_cons, decide_False by eauto with fs_names.
  simpl. unfold content. destruct Hlink as [Hnone|Hlink].
  - rewrite Hnone. by rewrite node_at_snoc, Hnone.
  - unfold linked in Hlink. rewrite Hlink.
    unfold link_target at 1. rewrite not_abs_cons by apply data_plain.
    rewrite components_link_target by eauto with fs_names. simpl.
    destruct Hdata as [Hnone|(x & Hx & Htemp & [m Hdir] & Hfiles)].
    + by rewrite Hnone.
    + unfold current in Hx. rewrite Hx. rewrite plain_not_abs by eauto with fs_names.
      rewrite components_plain by eauto with fs_names. simpl.
      rewrite decide_False by eauto with fs_names. rewrite Hdir.
      rewrite decide_False by eauto with fs_names. rewrite !snoc2.
      assert (node_at s (in_version x n) = s !! in_version x n) as Hat
        by (rewrite <-snoc2; apply node_at_snoc).
      destruct (s !! in_version x n) as [[| |t]|] eqn:He; rewrite ?Hat; try done.
      by destruct (Hfiles n t).
Qed.

Lemma target_at_data {u} s : target_at u s → data_in_order s.
Proof.
  intros Hok. destruct (ok_data s Hok) as [Hnone|[old Hold]]; [by left|right].
  destruct (ok_old s Hok old Hold) as [Htemp Hdir]. exists old. split_and!; [done..|].
  intros n t Hn He. by destruct (ok_version s Hok old n [] _ Hold He) as (_ & _ & _ & m & d & ?).
Qed.

(** ** Staging: from the disk [s0], with the payload [p] *)
Section staging.
Context (s0 : disk) (p : payload) {u : option node}.
Hypothesis Hok : target_at u s0.
Hypothesis Hp : ∀ n, is_Some (p !! n) → managed s0 n.

(** The content the payload gives a name. *)
Definition new_content (n : string) : option string := bytes_contents ∘ fp_Data <$> p !! n.

(** A reader of managed names finds all of the old version, or all of the new one. *)
Definition atomic (s : disk) : Prop :=
  (∀ n, managed s0 n → view s n = view s0 n) ∨ (∀ n, managed s0 n → view s n = new_content n).

Definition fresh_version (ts : string) : Prop := temp_name ts ∧ s0 !! at_name ts = None.

(** Where staging in [ts] may write. *)
Definition touched (ts : string) (q : path) : Prop :=
  (∃ rest, q = T ++ ts :: rest) ∨ q = at_name newDataDirName ∨ ∃ n, is_Some (p !! n) ∧ q = at_name n.

Record staging (ts : string) (s : disk) : Prop := {
  stg_same q : ¬ touched ts q → s !! q = s0 !! q;
  stg_links n : is_Some (p !! n) → s !! at_name n = s0 !! at_name n ∨ linked s n }.

Lemma staging_start ts : staging ts s0.
Proof. split; [done|]. intros n _. by left. Qed.

Lemma data_untouched ts : fresh_version ts → ¬ touched ts (at_name dataDirName).
Proof.
  intros [Hts _] [[rest H]|[H|(n & Hn & H)]].
  - apply app_inv_head in H. injection H as <- _. by eapply temp_not_data.
  - by apply app_inv_head in H.
  - apply app_inv_head in H. injection H as <-. by destruct (Hp _ Hn) as [(_ & ? & _) _].
Qed.

Lemma old_untouched ts old rest :
  fresh_version ts → current s0 old → rest ≠ [] → ¬ touched ts (T ++ old :: rest).
Proof.
  intros [Hts Hnone] Hold Hrest [[rest' H]|[H|(n & Hn & H)]]; apply app_inv_head in H; [|by simplify_eq..].
  injection H as -> _. destruct (ok_old _ Hok _ Hold) as [_ [m Hm]]. congruence.
Qed.

Lemma old_dir_untouched ts old :
  fresh_version ts → current s0 old → ¬ touched ts (at_name old).
Proof.
  intros [Hts Hnone] Hold. destruct (ok_old _ Hok _ Hold) as [Htemp [m Hm]].
  intros [[rest H]|[H|(n & Hn & H)]]; apply app_inv_head in H; simplify_eq.
  - by eapply temp_not_new.
  - eapply visible_not_temp; [apply Hp; exact Hn|done].
Qed.

Lemma real_untouched ts k : ¬ touched ts (take k T).
Proof.
  assert (∀ c rest, take k T ≠ T ++ c :: rest) as Hne.
  { intros c rest Heq. apply (f_equal length) in Heq. rewrite length_app, length_take in Heq.
    simpl in Heq. lia. }
  intros [[rest H]|[H|(n & _ & H)]]; by eapply Hne.
Qed.

Lemma staging_real ts s : staging ts s → real_from s [] T.
Proof.
  intros Hs. eapply real_from_same; [|apply Hok]. intros k _. simpl.
  apply (stg_same _ _ Hs), real_untouched.
Qed.

Lemma staging_data ts s : fresh_version ts → staging ts s → s !! at_name dataDirName = s0 !! at_name dataDirName.
Proof. intros Hf Hs. by apply (stg_same _ _ Hs), data_untouched. Qed.

Lemma staging_order ts s : fresh_version ts → staging ts s → data_in_order s.
Proof.
  intros Hf Hs. unfold data_in_order, current. rewrite (staging_data _ _ Hf Hs).
  destruct (ok_data _ Hok) as [Hnone|[old Hold]]; [by left|right]. exists old.
  destruct (ok_old _ Hok _ Hold) as [Htemp [m Hm]]. split_and!; [done|done| |].
  - exists m. by rewrite (stg_same _ _ Hs) by by apply old_dir_untouched.
  - intros n t Hn. rewrite (stg_same _ _ Hs) by by apply old_untouched. intros He.
    by destruct (ok_version _ Hok old n [] _ Hold He) as (_ & _ & _ & m' & d & ?).
Qed.

Lemma name_untouched ts n :
  fresh_version ts → visible n → p !! n = None → ¬ touched ts (at_name n).
Proof.
  intros [Hts _] Hn Hnp [[rest H]|[H|(n' & Hn' & H)]]; apply app_inv_head in H; simplify_eq.
  - by eapply visible_not_temp.
  - by eapply visible_not_new.
  - rewrite Hnp in Hn'. by destruct Hn'.
Qed.

Lemma staging_name ts s n :
  fresh_version ts → staging ts s → managed s0 n →
  s !! at_name n = s0 !! at_name n ∨ linked s n.
Proof.
  intros Hf Hs [Hn _]. destruct (p !! n) eqn:Hpn; [by apply (stg_links _ _ Hs); eexists|].
  left. by apply (stg_same _ _ Hs), name_untouched.
Qed.

Lemma staging_managed ts s n :
  fresh_version ts → staging ts s → managed s0 n → managed s n.
Proof.
  intros Hf Hs Hm. split; [apply Hm|]. unfold linked.
  destruct (staging_name _ _ _ Hf Hs Hm) as [->|?]; [apply Hm|by right].
Qed.

(** Staging does not show. *)
Lemma staged_content ts s n :
  fresh_version ts → staging ts s → managed s0 n → content s n = content s0 n.
Proof.
  intros Hf Hs Hm. unfold content. rewrite (staging_data _ _ Hf Hs).
  assert (∀ old, current s0 old → s !! in_version old n = s0 !! in_version old n) as Hver.
  { intros old Hold. by apply (stg_same _ _ Hs), old_untouched. }
  destruct (staging_name _ _ _ Hf Hs Hm) as [->|Hlink].
  - destruct (s0 !! at_name n) as [[]|]; [done..| |done].
    destruct (s0 !! at_name dataDirName) as [[| |old]|] eqn:Hd; [done..| |done]. by rewrite Hver.
  - unfold linked in Hlink. rewrite Hlink. destruct Hm as [Hn [Hnone|Hl]]; [|by rewrite Hl; destruct (s0 !! at_name dataDirName) as [[| |old]|] eqn:Hd; rewrite ?Hver].
    rewrite Hnone. destruct (s0 !! at_name dataDirName) as [[| |old]|] eqn:Hd; try done.
    rewrite Hver by done. destruct (s0 !! in_version old n) as [nd|] eqn:He; [|done].
    destruct (ok_version _ Hok old n [] nd Hd He) as (_ & _ & Hl & _). unfold linked in Hl. congruence.
Qed.

(** What shows is what showed at the start. *)
Definition unchanged (s : disk) : Prop := ∀ n, managed s0 n → view s n = view s0 n.

Lemma staging_unchanged ts s : fresh_version ts → staging ts s → unchanged s.
Proof.
  intros Hf Hs n Hm.
  rewrite view_content; [|by eapply staging_real|by eapply staging_order|by eapply staging_managed].
  rewrite view_content; [|apply Hok|by eapply target_at_data|done]. by eapply staged_content.
Qed.

Lemma staging_atomic ts s : fresh_version ts → staging ts s → atomic s.
Proof. intros Hf Hs. left. by eapply staging_unchanged. Qed.

(** Staging keeps the directory in its condition, but for what it leaves as [..data_tmp]; the
    version directory is there, or gone with all that is below it. *)
Lemma staging_target_at ts s :
  fresh_version ts → staging ts s →
  (s !! at_name ts = None → ∀ rest, s !! (T ++ ts :: rest) = None) →
  target_at (s !! at_name newDataDirName) s.
Proof.
  intros Hf Hs Hgone. pose proof (staging_data _ _ Hf Hs) as Hd.
  assert (∀ old, current s old → current s0 old) as Hcur by (intros old; unfold current; by rewrite Hd).
  split; [by eapply staging_real|done| | | |].
  - intros x rest Hx. destruct (decide (x = ts)) as [->|Hne]; [intros Hn; by apply Hgone|].
    assert (∀ rest', ¬ touched ts (T ++ x :: rest')) as Hun.
    { intros rest' [[r H]|[H|(n & Hn & H)]]; apply app_inv_head in H; simplify_eq.
      - by eapply temp_not_new.
      - eapply visible_not_temp; [by apply Hp|done]. }
    rewrite !(stg_same _ _ Hs) by apply Hun. by apply (ok_fresh _ Hok).
  - unfold current. rewrite Hd. apply (ok_data _ Hok).
  - intros old Hold%Hcur. destruct (ok_old _ Hok old Hold) as [Htemp [m Hm]]. split; [done|].
    exists m. by rewrite (stg_same _ _ Hs) by by apply old_dir_untouched.
  - intros old n rest nd Hold%Hcur. rewrite (stg_same _ _ Hs) by by apply old_untouched.
    intros Hnd. destruct (ok_version _ Hok old n rest nd Hold Hnd) as (-> & Hv & Hl & Hfile).
    split_and!; [done|done| |done].
    destruct (staging_name ts s n Hf Hs) as [Hn|?]; [by split; [|right]| |done].
    unfold linked in *. by rewrite Hn.
Qed.

Lemma start_atomic : atomic s0.
Proof. by left. Qed.

(** A write within the version directory, or of its link, is staging still. *)
Lemma staging_insert ts s q nd :
  staging ts s → touched ts q → (∀ n, is_Some (p !! n) → q ≠ at_name n) → staging ts (<[q := nd]> s).
Proof.
  intros Hs Hq Hne. split.
  - intros q' Hq'. rewrite lookup_insert_ne by (by intros ->). by apply (stg_same _ _ Hs).
  - intros n Hn. unfold linked. rewrite lookup_insert_ne by (by apply Hne).
    by apply (stg_links _ _ Hs).
Qed.

Lemma staging_delete ts s q :
  staging ts s → touched ts q → (∀ n, is_Some (p !! n) → q ≠ at_name n) → staging ts (delete q s).
Proof.
  intros Hs Hq Hne. split.
  - intros q' Hq'. rewrite lookup_delete_ne by (by intros ->). by apply (stg_same _ _ Hs).
  - intros n Hn. unfold linked. rewrite lookup_delete_ne by (by apply Hne).
    by apply (stg_links _ _ Hs).
Qed.

Lemma staging_link ts s n :
  staging ts s → is_Some (p !! n) → staging ts (<[at_name n := Symlink (link_target n)]> s).
Proof.
  intros Hs Hn. split.
  - intros q' Hq'. rewrite lookup_insert_ne; [by apply (stg_same _ _ Hs)|].
    intros <-. apply Hq'. right; right. by exists n.
  - intros n' Hn'. unfold linked. destruct (decide (n = n')) as [<-|Hne].
    + right. by rewrite lookup_insert_eq.
    + rewrite lookup_insert_ne by (intros H; apply app_inv_head in H; congruence).
      by apply (stg_links _ _ Hs).
Qed.
End staging.
End target.

Arguments ok_real T {u} s _.
Arguments ok_new T {u} s _.
Arguments ok_fresh T {u} s _ x rest _ _.
Arguments ok_data T {u} s _.
Arguments ok_old T {u} s _ old _.
Arguments ok_version T {u} s _ old n rest nd _ _.

(** A directory the writer can work in: no update was cut short. *)
Abbreviation target_ok T := (target_at T None).
