(* ===== verification/PathValidation.v ===== *)
(** * The paths of a payload: validatePath and Clean

    What [validatePath] accepts, as a condition on the string that says nothing of how it
    is checked (with lengths in bytes); and that an accepted path, cleaned and joined to a directory, is in it. *)
From S2P Require Export AtomicWriterFacts.

(** [c] is an element of the path [s]: what is between two slashes, or an end. *)
Definition element (c s : string) : Prop :=
  ∃ a b, s = a +:+ c +:+ b ∧ (a = "" ∨ ∃ a', a = a' +:+ "/") ∧ (b = "" ∨ ∃ b', b = "/" +:+ b') ∧
    has_char "/" c = false.

Definition acceptable (s : string) : Prop :=
  s ≠ "" ∧ (∀ t, s ≠ "/" +:+ t) ∧ (∀ t, s ≠ ".." +:+ t) ∧ (go_len s ≤ maxPathLength)%Z ∧
  ∀ c, element c s → c ≠ ".." ∧ (go_len c ≤ maxFileNameLength)%Z.

Lemma split_app_slash a b : split (a +:+ "/" +:+ b) "/" = split a "/" ++ split b "/".
Proof.
  induction a as [|c a IH]; [done|]. rewrite str_app_cons. cbn [split]. rewrite IH.
  case_decide; [done|]. pose proof (split_nonempty a "/") as Hne.
  by destruct (split a "/") as [|x l].
Qed.

(** What comes before and after an item in a joined list. *)
Definition joined_before (l : list string) : string := match l with [] => "" | _ => join l "/" +:+ "/" end.
Definition joined_after (l : list string) : string := match l with [] => "" | _ => "/" +:+ join l "/" end.

Lemma join_middle l1 c l2 : join (l1 ++ c :: l2) "/" = joined_before l1 +:+ c +:+ joined_after l2.
Proof.
  induction l1 as [|x l1 IH].
  - destruct l2; [cbn; by rewrite str_app_nil_r|done].
  - cbn [app]. destruct l1 as [|y l1]; cbn [app] in *.
    + rewrite join_cons, IH. change (joined_before [x]) with (x +:+ "/"). by rewrite str_app_assoc.
    + rewrite join_cons, IH. unfold joined_before. rewrite join_cons.
      by rewrite !str_app_assoc, str_app_cons.
Qed.

Lemma elem_of_split c s : c ∈ split s "/" ↔ element c s.
Proof.
  split.
  - intros Hc. pose proof (split_items s "/") as Hall. rewrite Forall_forall in Hall.
    apply Hall in Hc as Hno. apply list_elem_of_split in Hc as (l1 & l2 & Hl).
    exists (joined_before l1), (joined_after l2). rewrite <-join_middle, <-Hl, join_split. split; [done|].
    split; [destruct l1; [by left|right; by eexists]|]. split; [|done]. destruct l2; [by left|right; by eexists].
  - intros (a & b & -> & Ha & Hb & Hc).
    assert (∃ l, split (c +:+ b) "/" = c :: l) as [l Hcb].
    { destruct Hb as [->|[b' ->]].
      - exists []. by rewrite str_app_nil_r, split_no_sep.
      - exists (split b' "/"). change ("/" +:+ b') with (String "/" b'). by apply split_app_sep. }
    destruct Ha as [->|[a' ->]].
    + rewrite str_app_nil_l, Hcb. left.
    + rewrite str_app_assoc, split_app_slash, Hcb. apply elem_of_app. right. left.
Qed.

Lemma validateItems_none l :
  validateItems l = None ↔ ∀ c, c ∈ l → c ≠ ".." ∧ (go_len c ≤ maxFileNameLength)%Z.
Proof.
  induction l as [|x l IH]; cbn [validateItems]; [set_solver|].
  destruct (decide (x = "..")) as [->|Hne].
  { split; [done|]. intros H. by destruct (H ".." ltac:(left)). }
  destruct (go_len x >? maxFileNameLength)%Z eqn:Hlen.
  { split; [done|]. intros H. destruct (H x ltac:(left)). lia. }
  rewrite IH. split.
  - intros H c [->|Hc]%elem_of_cons; [split; [done|lia]|by apply H].
  - intros H c Hc. apply H. by right.
Qed.

(** The first item of a path that is not absolute. *)
Lemma first_item_prefix s :
  has_prefix (default "" (head (split s "/"))) ".." = true ↔ ∃ t, s = ".." +:+ t.
Proof.
  rewrite has_prefix_spec. split.
  - intros [t Ht]. destruct (split s "/") as [|x l] eqn:Hs; [by destruct (split_nonempty s "/")|].
    cbn in Ht. subst x. rewrite <-(join_split s "/"), Hs.
    pose proof (join_middle [] (".." +:+ t) l) as Hj. cbn [app joined_before] in Hj. rewrite Hj.
    exists (t +:+ joined_after l). by rewrite str_app_nil_l, str_app_assoc.
  - intros [t ->]. change (".." +:+ t) with (String "." (String "." t)). cbn [split].
    rewrite !decide_False by done. pose proof (split_nonempty t "/") as Hne.
    destruct (split t "/") as [|x l]; [done|]. by exists x.
Qed.

Lemma validatePath_acceptable s : validatePath s = None ↔ acceptable s.
Proof.
  unfold validatePath, acceptable. destruct (decide (s = "")) as [->|Hne]; [naive_solver|].
  assert (is_abs s = true ↔ ∃ t, s = "/" +:+ t) as Habs by apply has_prefix_spec.
  destruct (is_abs s); [naive_solver|].
  assert (∀ t, s ≠ "/" +:+ t) as Hrel by (intros t Ht; by assert (false = true) by (apply Habs; by exists t)).
  destruct (go_len s >? maxPathLength)%Z eqn:Hlen; [split; [done|lia]|].
  pose proof (validateItems_none (split s "/")) as Hitems. setoid_rewrite elem_of_split in Hitems.
  destruct (validateItems _) as [err|]; [split; [done|]; intros (_ & _ & _ & _ & H); by apply Hitems|].
  pose proof (proj1 Hitems eq_refl) as Hall. pose proof (first_item_prefix s) as Hfirst.
  destruct (has_prefix _ "..") eqn:Hpre; cbn [andb].
  - destruct (proj1 Hfirst eq_refl) as [t Ht].
    assert (default "" (head (split s "/")) ≠ "..") as Hdd.
    { pose proof (split_nonempty s "/") as Hs. destruct (split s "/") as [|x l] eqn:He; [done|]. cbn.
      apply (Hall x). apply elem_of_split. rewrite He. left. }
    apply has_prefix_spec in Hpre as [u Hu]. rewrite Hu in Hdd |- *.
    assert ((go_len (".." +:+ u) >? 2)%Z = true) as ->.
    { destruct u; [done|]. apply Z.gtb_lt. unfold go_len. rewrite str_length_app. simpl String.length. lia. }
    split; [done|]. intros (_ & _ & Hno & _). by destruct (Hno t).
  - split; [|done]. intros _. split; [done|]. split; [done|]. split; [|split; [lia|done]].
    intros t Ht. by assert (false = true) by (apply Hfirst; by exists t).
Qed.

(** ** Cleaning *)
Definition real (c : string) : Prop := c ≠ "" ∧ c ≠ ".".
#[local] Instance real_dec c : Decision (real c).
Proof. unfold real. apply _. Defined.

Lemma clean_no_dotdot l acc : Forall (λ c, c ≠ "..") l →
  foldl (λ acc c,
    if decide (c = "" ∨ c = ".") then acc
    else if decide (c = "..") then
      match last acc with
      | None | Some ".." => acc ++ [c]
      | Some _ => take (length acc - 1) acc
      end
    else acc ++ [c]) acc l = acc ++ filter real l.
Proof.
  revert acc. induction l as [|c l IH]; intros acc Hl; [by rewrite app_nil_r|].
  apply Forall_cons in Hl as [Hc Hl]. cbn [foldl]. rewrite IH by done. rewrite filter_cons. unfold real.
  destruct (decide (c = "" ∨ c = ".")) as [H|H].
  - rewrite decide_False; [done|naive_solver].
  - rewrite (decide_False (P := c = "..")) by done. rewrite decide_True by naive_solver.
    by rewrite <-app_assoc.
Qed.

Lemma join_no_dotdot p l : Forall (λ c, c ≠ "..") l →
  foldl (λ acc c, if decide (c = "..") then parent acc else acc ++ [c]) p l = p ++ l.
Proof.
  revert p. induction l as [|c l IH]; intros p Hl; [by rewrite app_nil_r|].
  apply Forall_cons in Hl as [Hc Hl]. cbn [foldl]. rewrite decide_False, IH by done. by rewrite <-app_assoc.
Qed.

Lemma filter_keeps {A} (P : A → Prop) `{!∀ x, Decision (P x)} (l : list A) : Forall P l → filter P l = l.
Proof. induction 1 as [|x l Hx _ IH]; [done|]. by rewrite filter_cons_True, IH. Qed.

(** An accepted path, cleaned or not, is below any directory it is joined to. *)
Lemma acceptable_below s T :
  acceptable s →
  path_Join T (Clean s) = T ++ components s ∧ path_Join T s = T ++ components s ∧ Forall plain (components s).
Proof.
  intros (_ & _ & _ & _ & Hall).
  assert (Forall (λ c, c ≠ ".." ∧ has_char "/" c = false) (split s "/")) as Hsplit.
  { apply Forall_and. split; [|apply split_items]. apply Forall_forall. intros c Hc. by apply Hall, elem_of_split. }
  assert (Forall plain (components s)) as Hplain.
  { apply Forall_forall. intros c Hc. apply list_elem_of_filter in Hc as [[? ?] Hc].
    rewrite Forall_forall in Hsplit. by destruct (Hsplit c Hc). }
  assert (Forall (λ c, c ≠ "..") (components s)) as Hdd by (eapply Forall_impl; [exact Hplain|]; by intros c (_ & _ & ? & _)).
  split; [|split; [|done]]; [|unfold path_Join; by apply join_no_dotdot].
  assert (components (Clean s) = components s) as He.
  { unfold Clean, clean_components. rewrite clean_no_dotdot by (eapply Forall_impl; [exact Hsplit|]; by intros c []).
    rewrite app_nil_l. assert (filter real (split s "/") = components s) as ->.
    { unfold components. apply list_filter_iff. intros c. done. }
    destruct (components s) as [|c l] eqn:Hl; [done|].
    unfold components at 1. rewrite split_join; [|done|eapply Forall_impl; [exact Hplain|]; by intros x (_ & _ & _ & ?)].
    apply filter_keeps. eapply Forall_impl; [exact Hplain|]. by intros x (? & ? & _). }
  unfold path_Join. rewrite He. by apply join_no_dotdot.
Qed.

(** ** Payloads *)
Lemma validate_each_run l clean :
  (Forall (λ kc, acceptable kc.1) l → ∃ q, validate_each l clean = inr q) ∧
  ∀ q, validate_each l clean = inr q → Forall (λ kc, acceptable kc.1) l ∧
    ∀ n fp, q !! n = Some fp → clean !! n = Some fp ∨ ∃ k, (k, fp) ∈ l ∧ n = Clean k.
Proof.
  revert clean. induction l as [|[k fp] l IH]; intros clean; cbn [validate_each].
  - split; [by exists clean|]. intros q [= <-]. split; [done|]. by left.
  - pose proof (validatePath_acceptable k) as Hk. destruct (IH (<[Clean k := fp]> clean)) as [IH1 IH2].
    destruct (validatePath k) as [err|].
    + split; [|done]. intros [Hk' _]%Forall_cons. by apply Hk in Hk'.
    + split; [intros [_ Hl]%Forall_cons; by apply IH1|]. intros q Hq. apply IH2 in Hq as [Hl Hq].
      split; [constructor; [by apply Hk|done]|]. intros n fp' Hn. apply Hq in Hn as [Hn|(k' & Hin & ->)].
      * apply lookup_insert_Some in Hn as [[<- <-]|[_ Hn]]; [|by left]. right. exists k. split; [left|done].
      * right. exists k'. split; [by right|done].
Qed.

Section payloads.
Context (range : ∀ V, gmap string V → list (string * V)).
Hypothesis range_perm : ∀ V (m : gmap string V), range V m ≡ₚ map_to_list m.

(** C36: What validation accepts, and that it keeps to the directory.  validatePath accepts exactly the strings that
    are not empty, not absolute, do not begin with "..", have at most 4096 bytes, and of
    which no element (what is between two slashes or the ends) is ".." or longer than 255
    bytes (bytes, as the code counts them with len; its comment and its messages say
    characters: [wide_name_refused]).  A payload is accepted exactly if all its paths are; and every path of the
    cleaned payload, joined to whatever directory, names something in it, by plain names
    only, and has the content that the payload has under a path it is cleaned from. *)
Theorem validation_spec :
  (∀ s, validatePath s = None ↔ acceptable s) ∧
  (∀ p, (∃ q, validatePayload range p = inr q) ↔ ∀ k, is_Some (p !! k) → acceptable k) ∧
  ∀ p q n fp, validatePayload range p = inr q → q !! n = Some fp →
    ∃ k, p !! k = Some fp ∧ n = Clean k ∧ ∀ T, ∃ l, path_Join T n = T ++ l ∧ Forall plain l.
Proof.
  assert (∀ p k fp, (k, fp) ∈ range FileProjection p ↔ p !! k = Some fp) as Hin
    by (intros p k fp; by rewrite range_perm, elem_of_map_to_list).
  assert (∀ p, Forall (λ kc, acceptable kc.1) (range FileProjection p) ↔ ∀ k, is_Some (p !! k) → acceptable k) as Hall.
  { intros p. rewrite Forall_forall. split.
    - intros H k [fp Hk]. by apply (H (k, fp)), Hin.
    - intros H [k fp] Hk. apply Hin in Hk. apply H. by eexists. }
  split; [apply validatePath_acceptable|]. split.
  - intros p. rewrite <-Hall. destruct (validate_each_run (range _ p) ∅) as [H1 H2]. split; [|done].
    intros [q Hq]. by apply H2 in Hq as [? _].
  - intros p q n fp Hq Hn. destruct (validate_each_run (range _ p) ∅) as [_ H2].
    apply H2 in Hq as [Hacc Hfrom]. apply Hfrom in Hn as [Hn|(k & Hk & ->)]; [by rewrite lookup_empty in Hn|].
    apply Hin in Hk. exists k. split; [done|]. split; [done|]. intros T. exists (components k).
    destruct (acceptable_below k T) as (? & _ & ?); [|done]. apply (proj1 (Hall p) Hacc). by eexists.
Qed.
End payloads.

(** ** Witness, and the corners *)
Definition any_order V (m : gmap string V) : list (string * V) := map_to_list m.
Lemma any_order_perm V (m : gmap string V) : any_order V m ≡ₚ map_to_list m.
Proof. done. Qed.

Lemma validation_spec_witness : acceptable "certs//tls.crt".
Proof. exact (proj1 (proj1 (validation_spec any_order any_order_perm) "certs//tls.crt") eq_refl). Defined.

Example validate_corners :
  (λ s, validatePath s) <$> [""; "/a"; "a/.."; "..a"; "a/..b"; "."; "..."] =
    [Some "invalid path: must not be empty"; Some "invalid path: must be relative path";
     Some "invalid path: must not contain '..'"; Some "invalid path: must not start with '..'"; None; None;
     Some "invalid path: must not start with '..'"].
Proof. vm_compute. reflexivity. Qed.

(** The characters of a text in UTF-8: the bytes that do not continue a character. *)
Fixpoint characters (s : string) : Z :=
  match s with
  | "" => 0
  | String c s' => (if (128 <=? Z.of_N (N_of_ascii c)) && (Z.of_N (N_of_ascii c) <? 192) then 0 else 1) + characters s'
  end%Z.

(** [n] times the character U+4E16. *)
Fixpoint wide_name (n : nat) : string :=
  match n with
  | O => ""
  | S n' => String (ascii_of_nat 228) (String (ascii_of_nat 184) (String (ascii_of_nat 150) (wide_name n')))
  end.

Lemma wide_name_length n : characters (wide_name n) = Z.of_nat n ∧ go_len (wide_name n) = (3 * Z.of_nat n)%Z ∧ has_char "/" (wide_name n) = false.
Proof.
  induction n as [|n (H1 & H2 & H3)]; [done|]. cbn [wide_name]. split; [|split].
  - cbn [characters]. rewrite H1. vm_compute (N_of_ascii _). cbn. lia.
  - unfold go_len in *. cbn [String.length]. lia.
  - exact H3.
Qed.

(** The limits are said to be in characters and are in bytes: a name of these characters is
    accepted up to 85 of them and refused from 86 on, far from 255. *)
Theorem wide_name_refused n : n ≠ 0 → (validatePath (wide_name n) = None ↔ (n ≤ 85)%nat).
Proof.
  intros Hn. destruct (wide_name_length n) as (_ & Hlen & Hslash). destruct n as [|n]; [done|].
  unfold validatePath. rewrite split_no_sep by done. rewrite decide_False by done.
  assert (is_abs (wide_name (S n)) = false) as -> by done.
  assert (has_prefix (wide_name (S n)) ".." = false) as Hpre by done.
  cbn [head default validateItems]. unfold id. rewrite Hpre, Hlen, decide_False by done.
  unfold maxPathLength, maxFileNameLength. rewrite !Z.gtb_ltb.
  destruct (Z.ltb_spec 4096 (3 * Z.of_nat (S n))); [split; [done|lia]|].
  destruct (Z.ltb_spec 255 (3 * Z.of_nat (S n))); [split; [done|lia]|].
  split; [lia|done].
Qed.
