(* ===== verification/AtomicWriterSteps.v ===== *)
(** * The steps of a write

    Calls that only read, directories that are there, and step (5) of [Write]: the version
    directory, made without a trace in what a reader finds. *)
From S2P Require Export AtomicWriterFacts.

(** ** Calls that only read *)
Definition reads {A : Type} (f : fs_call A) : Prop := ∀ s a s', f s = inr (a, s') → s' = s.

Lemma reads_on_node {A : Type} fl p (k : path → option node → fs_call A) :
  (∀ q n, reads (k q n)) → reads (on_node fl p k).
Proof. intros Hk s a s'. unfold on_node. destruct (resolve s fl p); [done|]. apply Hk. Qed.

Lemma stat_reads p : reads (op_stat p).
Proof. apply reads_on_node. intros q [n|] s a s' [=]; congruence. Qed.
Lemma lstat_reads p : reads (op_lstat p).
Proof. apply reads_on_node. intros q [n|] s a s' [=]; congruence. Qed.
Lemma readlink_reads p : reads (op_readlink p).
Proof. apply reads_on_node. intros q [[]|] s a s' [=]; congruence. Qed.
Lemma readfile_reads p : reads (op_readfile p).
Proof. apply reads_on_node. intros q [[]|] s a s' [=]; congruence. Qed.
Lemma walk_reads p : reads (op_walk p).
Proof. apply reads_on_node. intros q [n|] s a s' [=]; congruence. Qed.

Section read.
Context {W : Type} `{!FsHost W, !FsHostLaws W}.
Context (FL : Prop) (P : disk → Prop).

Lemma triple_read {A : Type} (f : fs_call A) (Pre : disk → Prop) (Q : Errno + A → disk → Prop) :
  reads f → (∀ s, Pre s → P s) →
  (∀ s a, Pre s → f s = inr (a, s) → Q (inr a) s) →
  (∀ s e, Pre s → (e = ENOENT → f s = inl ENOENT) → (FL → f s = inl e) → Q (inl e) s) →
  triple FL P Pre (host_call f) Q.
Proof.
  intros Hf HP Hok Herr. apply triple_call; [|done]. intros s a s' Hs Hfs.
  pose proof (Hf _ _ _ Hfs) as ->. split; [by apply HP|by apply Hok].
Qed.

(** ** Directories that are there *)
Lemma real_snoc s cur T n m :
  real_from s cur T → n ≠ ".." → s !! (cur ++ T ++ [n]) = Some (Dir m) → real_from s cur (T ++ [n]).
Proof.
  revert cur. induction T as [|c T IH]; intros cur; simpl.
  - intros _ Hn Hm. by repeat split; [|exists m].
  - intros (Hc & Hd & HT) Hn Hm. split_and!; [done|done|]. apply IH; [done|done|].
    by rewrite <-app_assoc.
Qed.

Lemma real_parent (s : disk) p : real_from s [] p → real_from s [] (parent p).
Proof.
  unfold parent. generalize (length p - 1). generalize (@nil string).
  induction p as [|c p IH]; intros cur [|n]; simpl; try done.
  intros (Hc & Hd & HT). split_and!; [done|done|]. by apply IH.
Qed.

Lemma resolve_real_dir (s : disk) fl p : real_from s [] p → resolve s fl p = inr p.
Proof.
  intros Hp. pose proof (resolve_real max_links s fl [] p [] Hp) as H.
  rewrite app_nil_r in H. unfold resolve. by rewrite H, resolve_from_nil.
Qed.

Lemma real_last s cur p n : real_from s cur (p ++ [n]) → ∃ m, s !! (cur ++ p ++ [n]) = Some (Dir m).
Proof.
  revert cur. induction p as [|c p IH]; intros cur; simpl; [by intros (_ & H & _)|].
  intros (_ & _ & H). destruct (IH _ H) as [m Hm]. exists m. by rewrite <-app_assoc in Hm.
Qed.

Lemma real_node (s : disk) p : real_from s [] p → ∃ m, node_at s p = Some (Dir m).
Proof.
  intros Hp. destruct p as [|n q _] using rev_ind; [by eexists|].
  rewrite node_at_snoc. by apply (real_last s []).
Qed.

(** The end of MkdirAll, when the directory turns out to be there. *)
Lemma MkdirAll_rest (s0 : disk) p mode m :
  P s0 → real_from s0 [] p → node_at s0 p = Some (Dir m) →
  triple FL P (λ s, s = s0)
    (let! m := Mkdir p mode in
     match m with
     | inr _ => go_ret (inr ())
     | inl e =>
         let! l := Lstat p in
         match l with inr (Dir _) => go_ret (inr ()) | _ => go_ret (inl e) end
     end) (λ r s, s = s0 ∧ (FL → r = inr ())).
Proof.
  intros HP Hp Hm.
  assert (op_mkdir p mode s0 = inl EEXIST) as Hmk
    by (unfold op_mkdir, on_node; by rewrite resolve_real_dir, Hm).
  assert (op_lstat p s0 = inr (Dir m, s0)) as Hl
    by (unfold op_lstat, op_stat_gen, on_node; by rewrite resolve_real_dir, Hm).
  eapply (triple_bind _ _ _ _ _ (λ r s, s = s0 ∧ ∃ e, r = inl e)).
  { apply triple_call; [intros s a s' ->; by rewrite Hmk|]. intros s e -> _ _. naive_solver. }
  intros r. apply (triple_pre _ _ (λ s, ∃ e, r = inl e ∧ s = s0)); [|naive_solver].
  apply triple_pre_ex. intros e. apply triple_pre_and. intros ->.
  eapply (triple_bind _ _ _ _ _ (λ r s, s = s0 ∧ (FL → r = inr (Dir m)))).
  { apply triple_read; [apply lstat_reads|by intros s ->|..].
    - intros s a ->. rewrite Hl. by intros [= <-].
    - intros s e' -> _ Hfl. split; [done|]. intros HFL. specialize (Hfl HFL). congruence. }
  intros l. destruct l as [e'|[| |]]; apply triple_ret; intros s [-> H]; (split; [done|]);
    intros HFL; by specialize (H HFL).
Qed.

(** What a call returned, kept while the disk stays put. *)
Lemma triple_put {A : Type} (X : Prop) (s0 : disk) (m : GoM W A) (Q : A → disk → Prop) :
  (X → triple FL P (λ s, s = s0) m Q) → triple FL P (λ s, s = s0 ∧ X) m Q.
Proof.
  intros H. apply (triple_pre _ _ (λ s, X ∧ s = s0)); [by apply triple_pre_and|naive_solver].
Qed.

Lemma stat_there (s0 : disk) p :
  P s0 → real_from s0 [] p →
  triple FL P (λ s, s = s0) (Stat p)
    (λ r s, s = s0 ∧ ((∃ m, r = inr (Dir m)) ∨ ∃ e, r = inl e ∧ ¬ FL)).
Proof.
  intros HP Hp. destruct (real_node s0 p Hp) as [m Hm].
  assert (op_stat p s0 = inr (Dir m, s0)) as Hstat
    by (unfold op_stat, op_stat_gen, on_node; by rewrite resolve_real_dir, Hm).
  apply triple_read; [apply stat_reads|by intros s ->|..].
  - intros s a ->. rewrite Hstat. intros [= <-]. split; [done|]. left. by eexists.
  - intros s e -> _ Hfl. split; [done|]. right. exists e. split; [done|]. intros HFL.
    specialize (Hfl HFL). congruence.
Qed.

(** os.MkdirAll on a directory changes nothing, even if calls are refused on the way. *)
Lemma MkdirAll_there (s0 : disk) fuel p mode :
  P s0 → real_from s0 [] p →
  triple FL P (λ s, s = s0) (MkdirAll_fuel fuel p mode) (λ r s, s = s0 ∧ (FL → r = inr ())).
Proof.
  intros HP. revert p. induction fuel as [|fuel IH]; intros p Hp; cbn [MkdirAll_fuel];
    destruct (real_node s0 p Hp) as [m Hm];
    (eapply triple_bind; [by apply stat_there|]); intros r; apply triple_put;
    (intros [[m' ->]|(e & -> & HF)]; [by apply triple_ret|]).
  - eapply triple_bind; [by apply (triple_ret _ _ _ _ (λ r s, s = s0 ∧ r = inr ()))|].
    intros r. apply triple_put. intros ->. by apply (MkdirAll_rest s0 p mode m).
  - eapply triple_bind; [apply (IH (parent p)); by apply real_parent|].
    intros [e'|[]]; apply triple_put; intros Hr; [by apply triple_ret|].
    by apply (MkdirAll_rest s0 p mode m).
Qed.
End read.

(** ** Staging the payload *)
Section staging_steps.
Context {W : Type} `{!FsHost W, !FsHostLaws W}.
Context (FL : Prop) (T : path) (s0 : disk) (p : payload) {u : option node}.
Hypothesis Hok : target_at T u s0.
Hypothesis Hp : ∀ n, is_Some (p !! n) → managed T s0 n.

Abbreviation at_name n := (T ++ [n]).
Abbreviation fresh_ts := (fresh_version T s0).

(** What every state on the way has to satisfy: staging does. *)
Context (shows : disk → Prop).
Hypothesis start_shows : shows s0.
Hypothesis staging_shows : ∀ ts s, fresh_ts ts → staging T s0 p ts s → shows s.

Lemma payload_visible n : is_Some (p !! n) → visible n.
Proof. intros Hn. by destruct (Hp n Hn). Qed.

(** The version directory [ts] holds the files [c]; [..data_tmp] is as it was. *)
Record staged (ts : string) (c : gmap string string) (s : disk) : Prop := {
  sd_staging : staging T s0 p ts s;
  sd_new : s !! at_name newDataDirName = s0 !! at_name newDataDirName;
  sd_dir : ∃ m, s !! at_name ts = Some (Dir m);
  sd_files n d : c !! n = Some d → ∃ m, s !! (T ++ [ts; n]) = Some (File m d);
  sd_rest n rest : rest ≠ [] ∨ c !! n = None → s !! (T ++ ts :: n :: rest) = None }.

Lemma staged_shows ts c s : fresh_ts ts → staged ts c s → shows s.
Proof. intros Hf Hs. eapply staging_shows; [done|apply Hs]. Qed.

Lemma staged_real ts c s : fresh_ts ts → staged ts c s → real_from s [] (at_name ts).
Proof.
  intros [Hts _] Hs. destruct (sd_dir _ _ _ Hs) as [m Hm].
  eapply real_snoc; [eapply staging_real; [done..|apply Hs]|eauto with fs_names|exact Hm].
Qed.

Lemma version_touched ts rest : touched T p ts (T ++ ts :: rest).
Proof. left. by exists rest. Qed.

Lemma version_not_name ts rest n : fresh_ts ts → is_Some (p !! n) → T ++ ts :: rest ≠ at_name n.
Proof.
  intros [Hts _] Hn%payload_visible H. apply app_inv_head in H. injection H as <- _.
  by eapply visible_not_temp.
Qed.

Lemma staged_start ts m :
  fresh_ts ts → staged ts ∅ (<[at_name ts := Dir m]> s0).
Proof.
  intros Hf. destruct Hf as [Hts Hnone]. split.
  - apply staging_insert; [apply staging_start|apply version_touched|]. intros n Hn.
    by apply version_not_name.
  - rewrite lookup_insert_ne; [done|]. intros H. apply app_inv_head in H. simplify_eq.
    by eapply temp_not_new.
  - exists m. by rewrite lookup_insert_eq.
  - intros n d. by rewrite lookup_empty.
  - intros n rest _. rewrite lookup_insert_ne by (intros H; apply app_inv_head in H; congruence).
    by apply (ok_fresh _ _ Hok).
Qed.

Lemma staged_file ts c s n m d :
  fresh_ts ts → staged ts c s → staged ts (<[n := d]> c) (<[T ++ [ts; n] := File m d]> s).
Proof.
  intros Hf Hs. pose proof Hf as [Hts _]. split.
  - apply staging_insert; [apply Hs|apply version_touched|]. intros n' Hn'. by apply version_not_name.
  - rewrite lookup_insert_ne; [apply (sd_new _ _ _ Hs)|]. intros H. apply app_inv_head in H. simplify_eq.
  - destruct (sd_dir _ _ _ Hs) as [m' Hm']. exists m'.
    by rewrite lookup_insert_ne by (intros H; apply app_inv_head in H; simplify_eq).
  - intros n' d'. destruct (decide (n = n')) as [<-|Hne].
    + rewrite lookup_insert_eq. intros [= <-]. exists m. by rewrite lookup_insert_eq.
    + rewrite lookup_insert_ne by done. intros Hd. destruct (sd_files _ _ _ Hs _ _ Hd) as [m' Hm'].
      exists m'. by rewrite lookup_insert_ne by (intros H; apply app_inv_head in H; congruence).
  - intros n' rest Hrest. rewrite lookup_insert_ne.
    + apply (sd_rest _ _ _ Hs). destruct Hrest as [|Hn']; [by left|right].
      by apply lookup_insert_None in Hn' as [? _].
    + intros H. apply app_inv_head in H. simplify_eq.
      destruct Hrest as [|Hn']; [done|]. by rewrite lookup_insert_eq in Hn'.
Qed.

(** *** (5) the version directory *)
Lemma MkdirTemp_tries_triple n stamp :
  (∃ c t, stamp = String c t ∧ is_digit c = true ∧ has_char "/" stamp = false) →
  triple FL shows (λ s, s = s0) (MkdirTemp_tries n T (".." +:+ stamp +:+ "."))
    (λ r s, match r with
     | inr q => ∃ ts, q = at_name ts ∧ fresh_ts ts ∧ staged ts ∅ s
     | inl _ => s = s0 ∧ (FL → n = 0)
     end).
Proof.
  intros Hstamp. induction n as [|n IH]; cbn [MkdirTemp_tries]; [by apply triple_ret|].
  eapply (triple_bind _ _ _ _ _ (λ x s, s = s0 ∧ has_char "/" x = false ∧
    (FL → ∀ q pre, s0 !! (q ++ [pre +:+ x]) = None))).
  { intros w Hw Hfl. wp_call random_suffix_law. intros x w' (Hd & Htr & Hf & Hx).
    rewrite Hd, Hw in *. split; [split; [done|split; [done|]]|split; [|by exists []; rewrite Htr]];
      intros HFL; by apply (Hf (Hfl HFL)). }
  intros x. apply triple_put. intros [Hx Hfree].
  set (ts := (".." +:+ stamp +:+ ".") +:+ x).
  assert (temp_name ts) as Hts.
  { destruct Hstamp as (c & t & -> & Hc & Ht). exists c, (t +:+ "." +:+ x). unfold ts.
    rewrite !str_app_assoc. split_and!; [done|done|]. rewrite !has_char_app, Hx. simpl in *.
    apply orb_false_iff in Ht as [_ ->]. done. }
  assert (resolve s0 false (at_name ts) = inr (at_name ts)) as Hres
    by (apply resolve_nofollow; [apply Hok|eauto with fs_names]).
  eapply (triple_bind _ _ _ _ _ (λ r s, match r with
    | inr _ => fresh_ts ts ∧ staged ts ∅ s | inl _ => s = s0 ∧ ¬ FL end)).
  { apply triple_call.
    - intros s [] s' ->. unfold op_mkdir, on_node. rewrite Hres, node_at_snoc.
      destruct (s0 !! at_name ts) eqn:Hnone; [done|]. intros [= <-].
      assert (fresh_ts ts) as Hf by done. pose proof (staged_start ts 448 Hf) as Hs.
      split; [by eapply staged_shows|done].
    - intros s e -> _ Hfl. split; [done|]. intros HFL. specialize (Hfl HFL).
      unfold op_mkdir, on_node in Hfl. rewrite Hres, node_at_snoc in Hfl.
      pose proof (Hfree HFL T (".." +:+ stamp +:+ ".")) as Hf. fold ts in Hf. by rewrite Hf in Hfl. }
  intros [e|[]]; [|apply triple_ret; intros s [Hf Hs]; by exists ts].
  apply triple_put. intros HF. case_decide.
  - eapply triple_post; [exact IH|]. intros [e'|q] s H'; [|done]. destruct H' as [-> _]. by split.
  - by apply triple_ret.
Qed.

Lemma chmod_version ts c :
  fresh_ts ts →
  triple FL shows (staged ts c) (Chmod (at_name ts) 493)
    (λ r s, staged ts c s ∧ (FL → r = inr ())).
Proof.
  intros Hf. assert (∀ s, staged ts c s → ∃ m, op_chmod (at_name ts) 493 s =
    inr ((), <[at_name ts := Dir 493]> s) ∧ s !! at_name ts = Some (Dir m)) as Hop.
  { intros s Hs. destruct (sd_dir _ _ _ Hs) as [m Hm]. exists m.
    unfold op_chmod, on_node. rewrite (resolve_real_dir _ _ _ (staged_real _ _ _ Hf Hs)).
    by rewrite node_at_snoc, Hm. }
  apply triple_call.
  - intros s [] s' Hs. destruct (Hop s Hs) as (m & -> & Hm). intros [= <-].
    assert (staged ts c (<[at_name ts := Dir 493]> s)) as Hs'.
    { split.
      - apply staging_insert; [apply Hs|apply version_touched|]. intros n Hn. by apply version_not_name.
      - rewrite lookup_insert_ne; [apply (sd_new _ _ _ Hs)|]. intros H. apply app_inv_head in H. simplify_eq.
        by eapply temp_not_new; [apply Hf|].
      - exists 493%Z. by rewrite lookup_insert_eq.
      - intros n d Hd. rewrite lookup_insert_ne by (intros H; apply app_inv_head in H; congruence).
        by apply (sd_files _ _ _ Hs).
      - intros n rest Hr. rewrite lookup_insert_ne by (intros H; apply app_inv_head in H; congruence).
        by apply (sd_rest _ _ _ Hs). }
    split; [by eapply staged_shows|done].
  - intros s e Hs _ Hfl. split; [done|]. intros HFL. specialize (Hfl HFL).
    destruct (Hop s Hs) as (m & Heq & _). congruence.
Qed.

Lemma newTimestampDir_triple :
  triple FL shows (λ s, s = s0) (newTimestampDir T)
    (λ r s, match r with
     | inr q => ∃ ts, q = at_name ts ∧ fresh_ts ts ∧ staged ts ∅ s
     | inl _ => shows s ∧ ¬ FL
     end).
Proof.
  unfold newTimestampDir. eapply (triple_bind _ _ _ _ _ (λ stamp s, s = s0 ∧
    ∃ c t, stamp = String c t ∧ is_digit c = true ∧ has_char "/" stamp = false)).
  { intros w Hw Hfl. wp_call timestamp_law. intros t w' (Hd & Htr & Hf & c & t' & Ht & Hc & Hs).
    rewrite Hd, Hw. split; [split; [done|by exists c, t']|split; [|by exists []; rewrite Htr]].
    intros HFL. by apply Hf, Hfl. }
  intros stamp. apply triple_put. intros Hstamp. eapply triple_must.
  - eapply triple_post; [by apply MkdirTemp_tries_triple|]. intros [e|q] s Hs; [|exact Hs].
    destruct Hs as [-> HF]. split; [done|]. intros HFL. by specialize (HF HFL).
  - intros q. apply triple_pre_ex. intros ts. apply triple_pre_and. intros ->.
    apply triple_pre_and. intros Hf.
    apply (triple_must _ _ _ _ _ (λ _, staged ts ∅)).
    + eapply triple_post; [by apply chmod_version|]. intros [e|[]] s [Hs Hr]; [|exact Hs].
      split; [by eapply staged_shows|]. intros HFL. by specialize (Hr HFL).
    + intros []. apply triple_ret. intros s Hs. by exists ts.
Qed.
End staging_steps.
