(* ===== verification/AtomicWriterFiles.v ===== *)
(** * Writing and linking the files of a payload

    Steps (6) and (7) of [Write]: the files of the new version, and the links to them. *)
From S2P Require Export AtomicWriterSteps.

(** What the version directory holds after the files [l] are written over [c]. *)
Definition file_bytes (fp : FileProjection) : string := bytes_contents (fp_Data fp).
Definition written (l : list (string * FileProjection)) (c : gmap string string) : gmap string string :=
  foldl (λ c x, <[x.1 := file_bytes x.2]> c) c l.

Lemma written_lookup l c n :
  NoDup l.*1 →
  written l c !! n = match (list_to_map l : payload) !! n with Some fp => Some (file_bytes fp) | None => c !! n end.
Proof.
  revert c. induction l as [|[k fp] l IH]; intros c; [done|].
  intros [Hk Hl]%NoDup_cons. cbn. fold (written l (<[k := file_bytes fp]> c)). rewrite IH by done.
  destruct (decide (k = n)) as [<-|Hne].
  - rewrite lookup_insert_eq. rewrite (not_elem_of_list_to_map_1 l k) by done. by rewrite lookup_insert_eq.
  - by rewrite !lookup_insert_ne.
Qed.

Section range.
Context (range : ∀ V, gmap string V → list (string * V)).
Hypothesis range_perm : ∀ V (m : gmap string V), range V m ≡ₚ map_to_list m.

Lemma range_nodup {V} (m : gmap string V) : NoDup (range V m).*1.
Proof. rewrite range_perm. apply NoDup_fst_map_to_list. Qed.

Lemma range_elem {V} (m : gmap string V) k v : (k, v) ∈ range V m ↔ m !! k = Some v.
Proof. rewrite range_perm. apply elem_of_map_to_list. Qed.

Lemma range_map {V} (m : gmap string V) : list_to_map (range V m) = m.
Proof.
  rewrite <-(list_to_map_to_list m) at 2. apply list_to_map_proper; [apply range_nodup|apply range_perm].
Qed.

Lemma written_range (p : payload) n : written (range _ p) ∅ !! n = file_bytes <$> p !! n.
Proof.
  rewrite written_lookup by apply range_nodup. rewrite range_map, lookup_empty. by destruct (p !! n).
Qed.
End range.

Section files.
Context {W : Type} `{!FsHost W, !FsHostLaws W}.
Context (FL : Prop) (T : path) (s0 : disk) (p : payload) {u : option node}.
Hypothesis Hok : target_at T u s0.
Hypothesis Hp : ∀ n, is_Some (p !! n) → managed T s0 n.
Context (shows : disk → Prop).
Hypothesis staging_shows : ∀ ts s, fresh_version T s0 ts → staging T s0 p ts s → shows s.
Context (ts : string).
Hypothesis Hts : fresh_version T s0 ts.

Abbreviation at_name n := (T ++ [n]).
Abbreviation file n := (T ++ [ts; n]).
Abbreviation staged := (staged T s0 p ts).

(** A precondition, as the state it holds of. *)
Lemma staged_at_file c s n :
  staged c s → visible n →
  resolve s true (file n) = inr (file n) ∧
  match c !! n with Some d => ∃ m, s !! file n = Some (File m d) | None => s !! file n = None end.
Proof.
  intros Hs Hn.
  assert (match c !! n with Some d => ∃ m, s !! file n = Some (File m d) | None => s !! file n = None end) as Hf.
  { destruct (c !! n) eqn:Hc; [by apply (sd_files _ _ _ _ _ _ Hs)|].
    apply (sd_rest _ _ _ _ _ _ Hs). by right. }
  split; [|done]. rewrite <-snoc2, resolve_below by by eapply staged_real.
  rewrite resolve_follow; [done|eauto with fs_names|]. rewrite snoc2. intros t.
  destruct (c !! n); [destruct Hf as [m ->]|rewrite Hf]; done.
Qed.

Lemma node_at_file (s : disk) n : node_at s (file n) = s !! file n.
Proof. by rewrite <-snoc2, node_at_snoc. Qed.

Lemma create_file c n mode :
  visible n →
  triple FL shows (staged c) (host_call (op_create (file n) mode))
    (λ r s, match r with inr _ => staged (<[n := ""]> c) s | inl _ => shows s ∧ ¬ FL end).
Proof.
  intros Hn. assert (∀ s, staged c s → ∃ m, op_create (file n) mode s = inr ((), <[file n := File m ""]> s)) as Hop.
  { intros s Hs. destruct (staged_at_file c s n Hs Hn) as [Hr Hf]. unfold op_create, on_node.
    rewrite Hr, node_at_file. destruct (c !! n); [destruct Hf as [m ->]|rewrite Hf]; by eexists. }
  apply triple_call.
  - intros s [] s' Hs. destruct (Hop s Hs) as [m ->]. intros [= <-].
    assert (staged (<[n := ""]> c) (<[file n := File m ""]> s)) by by apply staged_file.
    split; [by eapply staged_shows|done].
  - intros s e Hs _ Hfl. split; [by eapply staged_shows|]. intros HFL. specialize (Hfl HFL).
    destruct (Hop s Hs) as [m Heq]. congruence.
Qed.

Lemma write_file c n d :
  visible n → is_Some (c !! n) →
  triple FL shows (staged c) (host_call (op_write (file n) d))
    (λ r s, match r with inr _ => staged (<[n := d]> c) s | inl _ => shows s ∧ ¬ FL end).
Proof.
  intros Hn [d0 Hc]. assert (∀ s, staged c s → ∃ m, op_write (file n) d s = inr ((), <[file n := File m d]> s)) as Hop.
  { intros s Hs. destruct (staged_at_file c s n Hs Hn) as [Hr Hf]. unfold op_write, on_node.
    rewrite Hr, node_at_file. rewrite Hc in Hf. destruct Hf as [m ->]. by eexists. }
  apply triple_call.
  - intros s [] s' Hs. destruct (Hop s Hs) as [m ->]. intros [= <-].
    assert (staged (<[n := d]> c) (<[file n := File m d]> s)) by by apply staged_file.
    split; [by eapply staged_shows|done].
  - intros s e Hs _ Hfl. split; [by eapply staged_shows|]. intros HFL. specialize (Hfl HFL).
    destruct (Hop s Hs) as [m Heq]. congruence.
Qed.

Lemma chmod_file c n d mode :
  visible n → c !! n = Some d →
  triple FL shows (staged c) (Chmod (file n) mode) (λ _ s, staged c s).
Proof.
  intros Hn Hc. apply triple_call; [|done]. intros s [] s' Hs.
  destruct (staged_at_file c s n Hs Hn) as [Hr Hf]. rewrite Hc in Hf. destruct Hf as [m Hm].
  unfold op_chmod, on_node. rewrite Hr, node_at_file, Hm. intros [= <-].
  assert (staged c (<[file n := File mode d]> s)).
  { rewrite <-(insert_id c n d) by done. by apply staged_file. }
  split; [by eapply staged_shows|done].
Qed.

(** *** (6) the files *)
Lemma write_each_triple l c :
  (∀ n fp, (n, fp) ∈ l → visible n) →
  triple FL shows (staged c) (write_each l (at_name ts))
    (λ r s, match r with inr _ => staged (written l c) s | inl _ => shows s ∧ ¬ FL end).
Proof.
  revert c. induction l as [|[n fp] l IH]; intros c Hl; cbn [write_each]; [by apply triple_ret|].
  assert (visible n) as Hn by (eapply Hl; left). cbv zeta.
  rewrite path_Join_plain, parent_snoc, snoc2 by eauto with fs_names.
  apply (triple_must _ _ _ _ _ (λ _, staged c)).
  { apply triple_at. intros s1 Hs1. eapply triple_post.
    - apply MkdirAll_there; [by eapply staged_shows|by eapply staged_real].
    - intros [e|[]] s [-> Hr]; [|done]. split; [by eapply staged_shows|].
      intros HFL. by specialize (Hr HFL). }
  intros _. apply (triple_must _ _ _ _ _ (λ _, staged (<[n := file_bytes fp]> c))).
  { apply (triple_must _ _ _ _ _ (λ _, staged (<[n := ""]> c))).
    - by apply create_file.
    - intros _. rewrite <-(insert_insert_eq c n (file_bytes fp) ""). apply write_file; [done|].
      by rewrite lookup_insert_eq. }
  intros _. apply (triple_bind _ _ _ _ _ (λ _, staged (<[n := file_bytes fp]> c))).
  - eapply chmod_file; [done|by rewrite lookup_insert_eq].
  - intros _. apply IH. intros n' fp' Hin. eapply Hl. right. exact Hin.
Qed.

(** *** (7) the links

    The code goes on after an error of Readlink other than "does not exist": that there is
    no such error is a hypothesis on the host, here and below. *)
Hypothesis readlink_true : ∀ q w,
  wp (Readlink q) (λ r _, ∀ e, r = inl e → op_readlink q (disk_of w) = inl e) w.

Lemma triple_readlink q s1 :
  shows s1 →
  triple FL shows (λ s, s = s1) (Readlink q)
    (λ r s, s = s1 ∧ match op_readlink q s1 with inl e => r = inl e | inr (t, _) => r = inr t end).
Proof.
  intros Hs1 w Hw Hfl. eapply wp_mono; [apply wp_and; [|apply (readlink_true q w)]|].
  - eapply (triple_read FL shows (op_readlink q) (λ s, s = s1)
      (λ r s, s = s1 ∧ ∀ t, r = inr t → op_readlink q s1 = inr (t, s1)));
      [apply readlink_reads|by intros s ->|..| |]; [|done|exact Hw|exact Hfl].
    intros s t -> Ht. split; [done|]. by intros ? [= <-].
  - intros r w' [[[Hs Ht] Hrest] He]. split; [|exact Hrest]. split; [done|]. rewrite Hw in He.
    destruct r as [e|t]; [by rewrite (He e)|by rewrite (Ht t)].
Qed.

Lemma staged_link c s n :
  staged c s → is_Some (p !! n) → staged c (<[at_name n := Symlink (link_target n)]> s).
Proof.
  intros Hs Hn. pose proof (Hp n Hn) as [Hv _]. pose proof Hts as [Htemp _].
  assert (∀ rest, T ++ ts :: rest ≠ at_name n) as Hne by (intros rest; by eapply version_not_name).
  split.
  - by apply staging_link, Hn; apply Hs.
  - rewrite lookup_insert_ne; [apply (sd_new _ _ _ _ _ _ Hs)|]. intros H. apply app_inv_head in H. simplify_eq.
    by eapply visible_not_new.
  - destruct (sd_dir _ _ _ _ _ _ Hs) as [m Hm]. exists m. by rewrite lookup_insert_ne by by apply not_eq_sym, Hne.
  - intros n' d Hd. destruct (sd_files _ _ _ _ _ _ Hs _ _ Hd) as [m Hm]. exists m.
    by rewrite lookup_insert_ne by by apply not_eq_sym, Hne.
  - intros n' rest Hr. rewrite lookup_insert_ne by by apply not_eq_sym, Hne. by apply (sd_rest _ _ _ _ _ _ Hs).
Qed.

Lemma staged_name c s n : staged c s → is_Some (p !! n) → s !! at_name n = None ∨ linked T s n.
Proof.
  intros Hs Hn. unfold linked.
  destruct (stg_links _ _ _ _ _ (sd_staging _ _ _ _ _ _ Hs) n Hn) as [->|?]; [|by right].
  by destruct (Hp n Hn).
Qed.

Lemma linked_insert s n n' :
  linked T s n' → linked T (<[at_name n := Symlink (link_target n)]> s) n'.
Proof.
  intros Hl. unfold linked. destruct (decide (n = n')) as [<-|Hne]; [by rewrite lookup_insert_eq|].
  rewrite lookup_insert_ne; [done|]. intros H. apply app_inv_head in H. congruence.
Qed.

Lemma link_each_triple l c (D : string → Prop) :
  (∀ n fp, (n, fp) ∈ l → is_Some (p !! n)) →
  triple FL shows (λ s, staged c s ∧ ∀ n, D n → linked T s n) (link_each T l)
    (λ r s, match r with
     | inr _ => staged c s ∧ ∀ n, D n ∨ n ∈ l.*1 → linked T s n
     | inl _ => shows s ∧ ¬ FL
     end).
Proof.
  revert D. induction l as [|[n fp] l IH]; intros D Hl; cbn [link_each].
  { apply triple_ret. intros s [Hs HD]. split; [done|]. intros n [Hn|Hn]; [by apply HD|].
    by apply not_elem_of_nil in Hn. }
  assert (is_Some (p !! n)) as Hn by (eapply Hl; left). pose proof (Hp n Hn) as [Hv _]. cbv zeta.
  rewrite link_name_plain, path_Join_plain by eauto with fs_names.
  replace (Clean (dataDirName +:+ "/" +:+ n)) with (link_target n)
    by (symmetry; apply (Clean_link_target n); eauto with fs_names).
  assert (triple FL shows (λ s, staged c s ∧ ∀ n', D n' ∨ n' = n → linked T s n') (link_each T l)
    (λ r s, match r with
     | inr _ => staged c s ∧ ∀ n', D n' ∨ n' ∈ ((n, fp) :: l).*1 → linked T s n'
     | inl _ => shows s ∧ ¬ FL
     end)) as IH'.
  { eapply triple_post; [apply (IH (λ n', D n' ∨ n' = n))|].
    - intros n' fp' Hin. eapply Hl. right. exact Hin.
    - intros [e|[]] s; [done|]. intros [Hs HD]. split; [done|]. intros n' Hn'. apply HD.
      cbn in Hn'. rewrite elem_of_cons in Hn'. naive_solver. }
  apply triple_at. intros s1 [Hs1 HD1]. eapply triple_bind.
  { apply triple_readlink. by eapply staged_shows. }
  assert (resolve s1 false (at_name n) = inr (at_name n)) as Hres.
  { apply resolve_nofollow; [|eauto with fs_names]. eapply staging_real; [done..|apply Hs1]. }
  intros r. apply triple_put. unfold op_readlink, on_node. rewrite Hres, node_at_snoc.
  destruct (staged_name c s1 n Hs1 Hn) as [Hnone|Hlink].
  - rewrite Hnone. intros ->. apply (triple_must _ _ _ _ _ (λ _ s, staged c s ∧ ∀ n', D n' ∨ n' = n → linked T s n')).
    + apply triple_call.
      * intros s [] s' ->. unfold op_symlink, on_node. rewrite Hres, node_at_snoc, Hnone. intros [= <-].
        pose proof (staged_link c s1 n Hs1 Hn) as Hs'. split; [by eapply staged_shows|]. split; [done|].
        intros n' [HD| ->]; [by apply linked_insert, HD1|]. unfold linked. by rewrite lookup_insert_eq.
      * intros s e -> _ Hfl. split; [by eapply staged_shows|]. intros HFL. specialize (Hfl HFL).
        unfold op_symlink, on_node in Hfl. by rewrite Hres, node_at_snoc, Hnone in Hfl.
    + intros []. exact IH'.
  - unfold linked in Hlink. rewrite Hlink. intros ->.
    eapply triple_pre; [exact IH'|]. intros s ->. split; [done|]. intros n' [HD| ->]; [by apply HD1|done].
Qed.
End files.
