(* ===== verification/AtomicWriterPublish.v ===== *)
(** * Publishing a version

    Steps (8) to (11) of [Write]: the rename of the data link switches every name of the
    payload at once; what is removed after it, or after a failure, does not show. *)
From S2P Require Export AtomicWriterFiles.

(** ** Removing trees *)
Section removal.
Context {W : Type} `{!FsHost W, !FsHostLaws W}.
Context (FL : Prop) (P : disk → Prop).

#[local] Instance deeper_trans : Transitive deeper.
Proof. intros a b c. unfold deeper. lia. Qed.
#[local] Instance deeper_total : Total deeper.
Proof. intros a b. unfold deeper. lia. Qed.

(** Whatever is left below the paths of [l] is in [l]. *)
Definition all_listed (l : list path) (s : disk) : Prop :=
  ∀ q q', q ∈ l → under q q' → is_Some (s !! q') → q' ∈ l.

(** A directory whose turn comes is empty then. *)
Lemma op_unlink_works q l s :
  StronglySorted deeper (q :: l) → all_listed (q :: l) s → is_Some (s !! q) →
  op_unlink q (s !! q) s = inr ((), delete q s).
Proof.
  intros [_ Hdeep]%StronglySorted_inv Hall [nd Hnd]. rewrite Hnd. unfold op_unlink.
  destruct nd; [|done..]. rewrite decide_True; [done|].
  intros k nd' Hk [Hunder Hne].
  assert (k ∈ q :: l) as [?|Hin]%elem_of_cons by (eapply Hall; [by left|done|by eexists]); [done|].
  rewrite Forall_forall in Hdeep. specialize (Hdeep k Hin). unfold deeper in Hdeep.
  destruct Hunder as [rest ->]. rewrite length_app in Hdeep.
  apply Hne. destruct rest; [by rewrite app_nil_r|simpl in Hdeep; lia].
Qed.

Lemma all_listed_next q l s s' :
  all_listed (q :: l) s → s' ⊆ s → s' !! q = None → all_listed l s'.
Proof.
  intros Hall Hsub Hq q1 q' Hq1 Hunder [nd Hnd].
  assert (q' ∈ q :: l) as [->|?]%elem_of_cons; [|by rewrite Hq in Hnd|done].
  eapply Hall; [by right|exact Hunder|]. exists nd. by eapply lookup_weaken.
Qed.

(** One removal: done, or nothing there, or refused. *)
Lemma unlink_triple (J : disk → Prop) q l (err : option Errno) :
  (∀ s, J s → P s) → (∀ s, J s → J (delete q s)) → StronglySorted deeper (q :: l) →
  triple FL P (λ s, J s ∧ (FL → err = None → all_listed (q :: l) s))
    (host_call (λ s, op_unlink q (s !! q) s))
    (λ r s, J s ∧
      match r with
      | inr _ | inl ENOENT => s !! q = None ∧ (FL → err = None → all_listed l s)
      | inl _ => FL → err ≠ None
      end).
Proof.
  intros HP HJ Hsort. apply triple_call.
  - intros s [] s' [Hs Hall] Hrun.
    assert (s' = delete q s) as -> by (unfold op_unlink in Hrun; repeat case_match; by simplify_eq).
    split; [by apply HP, HJ|]. split_and!; [by apply HJ|by rewrite lookup_delete_eq|]. intros HF He.
    eapply all_listed_next; [by apply Hall|apply delete_subseteq|by rewrite lookup_delete_eq].
  - intros s e [Hs Hall] Hne Hfl. split; [done|]. destruct (s !! q) as [nd|] eqn:Hq.
    + assert (FL → err ≠ None) as Hbad.
      { intros HF He. specialize (Hfl HF). rewrite <-Hq in Hfl.
        rewrite (op_unlink_works q l) in Hfl; [done|done|by apply Hall|by rewrite Hq]. }
      destruct e; try done. specialize (Hne eq_refl). unfold op_unlink in Hne. by repeat case_match.
    + destruct e; try (intros HF; by specialize (Hfl HF)). split; [done|]. intros HF He.
      eapply all_listed_next; [by apply Hall|done|done].
Qed.

Lemma remove_each_triple (J : disk → Prop) l err :
  (∀ s, J s → P s) → (∀ q s, q ∈ l → J s → J (delete q s)) → StronglySorted deeper l →
  triple FL P (λ s, J s ∧ (FL → err = None → all_listed l s)) (remove_each l err)
    (λ r s, J s ∧ (FL → err = None → r = inr ()) ∧
      (r = inr () → err = None ∧ ∀ q, q ∈ l → s !! q = None)).
Proof.
  revert J err. induction l as [|q l IH]; intros J err HP HJ Hsort; cbn [remove_each].
  { apply triple_ret. intros s [Hs _]. destruct err; split_and!; try done.
    intros _. split; [done|]. intros q Hq. by apply not_elem_of_nil in Hq. }
  eapply triple_bind; [apply unlink_triple; [done|intros; apply HJ; [left|done]|done]|].
  intros r. apply StronglySorted_inv in Hsort as [Hsort _].
  assert (∀ q' s, q' ∈ l → J s → J (delete q' s)) as HJl by (intros; apply HJ; [by right|done]).
  assert (∀ e, triple FL P (λ s, J s ∧ (FL → err ≠ None)) (remove_each l (Some e))
    (λ r s, J s ∧ (FL → err = None → r = inr ()) ∧
      (r = inr () → err = None ∧ ∀ q', q' ∈ q :: l → s !! q' = None))) as Hfailed.
  { intros e. apply (triple_pre _ _ (λ s, (FL → err ≠ None) ∧ J s)); [|by intros s []].
    apply triple_pre_and. intros HF. eapply triple_mono; [by apply (IH J (Some e))|done|].
    intros r' s (Hs & _ & Hr). split_and!; [done|by intros ? ?%HF|]. by intros [? _]%Hr. }
  assert (triple FL P (λ s, J s ∧ s !! q = None ∧ (FL → err = None → all_listed l s)) (remove_each l err)
    (λ r s, J s ∧ (FL → err = None → r = inr ()) ∧
      (r = inr () → err = None ∧ ∀ q', q' ∈ q :: l → s !! q' = None))) as Hdone.
  { eapply triple_mono; [apply (IH (λ s, J s ∧ s !! q = None))|..].
    - by intros s [Hs _]; apply HP.
    - intros q' s Hq' [Hs Hn]. split; [by apply HJl|].
      destruct (decide (q = q')) as [<-|]; [by rewrite lookup_delete_eq|by rewrite lookup_delete_ne].
    - done.
    - by intros s (Hs & Hn & Hall).
    - intros r' s ([Hs Hn] & HF & Hr). split_and!; [done|done|]. intros Hret.
      destruct (Hr Hret) as [? Hl]. split; [done|]. intros q' [->|?]%elem_of_cons; [done|by apply Hl]. }
  destruct r as [[]|[]]; first [exact Hdone|apply Hfailed].
Qed.

Lemma RemoveAll_triple (J : disk → Prop) (s1 : disk) p n nd :
  (∀ s, J s → P s) → (∀ q s, under (p ++ [n]) q → J s → J (delete q s)) →
  J s1 → resolve s1 false (p ++ [n]) = inr (p ++ [n]) → s1 !! (p ++ [n]) = Some nd →
  triple FL P (λ s, s = s1) (RemoveAll (p ++ [n]))
    (λ r s, J s ∧ (FL → r = inr ()) ∧ (r = inr () → ∀ q, under (p ++ [n]) q → s !! q = None)).
Proof.
  intros HP HJ Hs1 Hres Hnd. set (q := p ++ [n]) in *. unfold RemoveAll.
  set (found := (map_to_list (filter (λ kn, under q kn.1) s1)).*1).
  assert (op_walk q s1 = inr (found, s1)) as Hw.
  { unfold op_walk, on_node. rewrite Hres. unfold q. rewrite node_at_snoc. fold q. by rewrite Hnd. }
  assert (∀ q', q' ∈ found → under q q') as Hfound.
  { intros q' Hq'. apply list_elem_of_fmap in Hq' as ([k nd'] & -> & Hk).
    by apply elem_of_map_to_list, map_lookup_filter_Some in Hk as [_ ?]. }
  assert (∀ q', under q q' → is_Some (s1 !! q') → q' ∈ found) as Hlisted.
  { intros q' Hq' [nd' Hnd']. apply list_elem_of_fmap. exists (q', nd'). split; [done|].
    by apply elem_of_map_to_list, map_lookup_filter_Some. }
  eapply (triple_bind _ _ _ _ _ (λ r s, s = s1 ∧ (r = inr found ∨ ∃ e, r = inl e ∧ e ≠ ENOENT ∧ ¬ FL))).
  { apply triple_read; [apply walk_reads|by intros s ->; apply HP|..].
    - intros s a ->. rewrite Hw. intros [= <-]. auto.
    - intros s e -> Hne Hfl. split; [done|]. right. exists e. rewrite Hw in Hne, Hfl.
      split_and!; [done|intros ->; by specialize (Hne eq_refl)|intros HFL; by specialize (Hfl HFL)]. }
  intros r. apply triple_put. intros [->|(e & -> & He & HF)].
  - eapply triple_mono.
    + apply (remove_each_triple (λ s, J s ∧ s ⊆ s1)).
      * intros s [Hs _]. by apply HP.
      * intros q' s Hq' [Hs Hsub]. rewrite merge_sort_Permutation in Hq'.
        split; [by apply HJ; [apply Hfound|]|]. etrans; [apply delete_subseteq|done].
      * apply (StronglySorted_merge_sort deeper).
    + intros s ->. split; [done|]. intros _ _ q1 q' Hq1 Hunder Hq'.
      rewrite merge_sort_Permutation in *. apply Hlisted; [|done].
      etrans; [by apply Hfound|done].
    + intros r s ([Hs Hsub] & HF & Hall). split_and!; [done|by intros ?; apply HF|]. intros Hr q' Hq'.
      destruct (s !! q') as [nd'|] eqn:He; [|done]. rewrite <-He. apply Hall; [done|].
      rewrite merge_sort_Permutation. apply Hlisted; [done|]. exists nd'. by eapply lookup_weaken.
  - unfold IsNotExist. rewrite bool_decide_false by done. apply triple_ret. intros s ->.
    split_and!; [done|by intros ?|done].
Qed.
End removal.

(** ** The staged version, before it is published *)
Section ready.
Context {W : Type} `{!FsHost W, !FsHostLaws W}.
Context (FL : Prop) (T : path) (s0 : disk) (p : payload) {u : option node}.
Hypothesis Hok : target_at T u s0.
Hypothesis Hp : ∀ n, is_Some (p !! n) → managed T s0 n.
Context (shows : disk → Prop).
Hypothesis staging_shows : ∀ ts s, fresh_version T s0 ts → staging T s0 p ts s → shows s.
Context (ts : string).
Hypothesis Hts : fresh_version T s0 ts.

Abbreviation at_name n := (T ++ [n]).

(** The new version, staged and linked to. *)
Definition ready (s : disk) : Prop :=
  (∃ c, (∀ n, c !! n = file_bytes <$> p !! n) ∧ staged T s0 p ts c s) ∧
  ∀ n, is_Some (p !! n) → linked T s n.

(** What the steps before found out of the old version. *)
Record found (old : string) (toRemove : gset string) : Prop := {
  fd_old : (old = "" ∧ s0 !! at_name dataDirName = None) ∨ current T s0 old;
  fd_remove n : n ∈ toRemove → visible n ∧ linked T s0 n ∧ p !! n = None }.

Lemma staging_resolve s n : staging T s0 p ts s → plain n → resolve s false (at_name n) = inr (at_name n).
Proof. intros Hs Hn. apply resolve_nofollow; [by eapply staging_real|eauto with fs_names]. Qed.

(** os.RemoveAll(tsDir), after a failure. *)
Lemma discard_triple s1 e :
  staging T s0 p ts s1 → (∃ m, s1 !! at_name ts = Some (Dir m)) →
  triple FL shows (λ s, s = s1) (do! RemoveAll (at_name ts) in go_ret (Some (SystemError e)))
    (λ r s, r = Some (SystemError e) ∧ shows s ∧ staging T s0 p ts s ∧
      s !! at_name newDataDirName = s1 !! at_name newDataDirName ∧
      (FL → ∀ rest, s !! (T ++ ts :: rest) = None)).
Proof.
  intros Hs1 [m Hm]. set (J s := staging T s0 p ts s ∧
    s !! at_name newDataDirName = s1 !! at_name newDataDirName). eapply triple_bind.
  - eapply (RemoveAll_triple FL shows J s1 T ts (Dir m)); [|..|done].
    + intros s [Hs _]. by eapply staging_shows.
    + intros q s [rest ->] [Hs Hn]. rewrite <-app_assoc in *. simpl. split.
      * apply staging_delete; [done|left; by exists rest|]. intros n Hn'. by eapply version_not_name.
      * rewrite lookup_delete_ne; [done|]. intros H. apply app_inv_head in H. simplify_eq.
        eapply temp_not_new; [apply Hts|done].
    + done.
    + apply staging_resolve; [done|]. apply temp_plain, Hts.
  - intros r. apply triple_ret. intros s ([Hs Hn] & HF & Hgone).
    split_and!; [done|by eapply staging_shows|done|done|]. intros HFL rest.
    apply Hgone; [by apply HF|]. exists rest. by rewrite <-app_assoc.
Qed.

(** Where [..data_tmp] is taken nothing is published: making it fails. *)
Lemma publish_blocked (range : ∀ V, gmap string V → list (string * V)) old toRemove nd :
  u = Some nd →
  triple FL shows ready (publish range T (at_name ts) old toRemove)
    (λ r s, shows s ∧ ∃ e, r = Some (SystemError e) ∧
      (FL → e = EEXIST ∧ target_at T u s ∧ ∀ n, managed T s0 n → managed T s n)).
Proof.
  intros Hu. unfold publish. rewrite !path_Join_plain by (apply data_plain || apply new_data_plain).
  rewrite path_Base_snoc. apply triple_at. intros s1 [(c & _ & Hs) _].
  pose proof (sd_staging _ _ _ _ _ _ Hs) as Hst.
  assert (s1 !! at_name newDataDirName = u) as Hnew.
  { rewrite (sd_new _ _ _ _ _ _ Hs). apply (ok_new _ _ Hok). }
  assert (op_symlink ts (at_name newDataDirName) s1 = inl EEXIST) as Hsym.
  { unfold op_symlink, on_node. rewrite staging_resolve by (done || apply new_data_plain).
    by rewrite node_at_snoc, Hnew, Hu. }
  apply (triple_bind _ _ _ _ _ (λ r s, match r with inl e => (FL → e = EEXIST) ∧ s = s1 | inr _ => False end)).
  { apply triple_call; intros s; [intros [] s' ->; congruence|]. intros e -> _ Hfl. split; [|done].
    intros HFL. specialize (Hfl HFL). congruence. }
  intros [e|[]]; [|by intros w []]. apply triple_pre_and. intros He.
  eapply triple_post; [apply discard_triple; [done|apply Hs]|].
  intros r s (-> & Hsh & Hs' & Hn & Hgone). split; [done|]. exists e. split; [done|].
  intros HFL. split_and!; [by apply He| |by intros n; eapply staging_managed].
  rewrite <-Hnew, <-Hn. eapply staging_target_at; [done..|]. intros _ rest. by apply Hgone.
Qed.
End ready.

(** ** The published version *)
Section publish.
Context {W : Type} `{!FsHost W, !FsHostLaws W}.
Context (FL : Prop) (T : path) (s0 : disk) (p : payload).
Hypothesis Hok : target_ok T s0.
Hypothesis Hp : ∀ n, is_Some (p !! n) → managed T s0 n.
Context (ts : string).
Hypothesis Hts : fresh_version T s0 ts.

Abbreviation at_name n := (T ++ [n]).
Abbreviation file n := (T ++ [ts; n]).
Abbreviation shows := (atomic T s0 p).

Record published (s : disk) : Prop := {
  pb_real : real_from s [] T;
  pb_new : s !! at_name newDataDirName = None;
  pb_data : current T s ts;
  pb_dir : ∃ m, s !! at_name ts = Some (Dir m);
  pb_files n fp : p !! n = Some fp → ∃ m, s !! file n = Some (File m (file_bytes fp));
  pb_rest n rest : rest ≠ [] ∨ p !! n = None → s !! (T ++ ts :: n :: rest) = None;
  pb_links n : is_Some (p !! n) → linked T s n;
  pb_managed n : managed T s0 n → managed T s n;
  pb_fresh x rest : temp_name x → ¬ current T s0 x →
    s !! at_name x = None → s !! (T ++ x :: rest) = None }.

Lemma published_view s n : published s → managed T s0 n → view T s n = new_content p n.
Proof.
  intros Hs Hm. pose proof Hts as [Htemp _]. pose proof (pb_data s Hs) as Hd. unfold current in Hd.
  assert (∀ n, p !! n = None → s !! file n = None) as Hno
    by (intros n' Hn'; apply (pb_rest s Hs); by right).
  rewrite view_content; [|apply (pb_real s Hs)| |by apply (pb_managed s Hs)].
  - unfold content, new_content. rewrite Hd. destruct (p !! n) as [fp|] eqn:Hn.
    + destruct (pb_files s Hs n fp Hn) as [m Hf].
      assert (linked T s n) as Hl by (apply (pb_links s Hs); by eexists).
      unfold linked in Hl. by rewrite Hl, Hf.
    + rewrite (Hno n Hn). by destruct (s !! at_name n) as [[]|].
  - right. exists ts. split_and!; [done|done|apply (pb_dir s Hs)|]. intros n' t _ He.
    destruct (p !! n') as [fp|] eqn:Hn'.
    + destruct (pb_files s Hs n' fp Hn') as [m Hf]. congruence.
    + specialize (Hno n' Hn'). congruence.
Qed.

Lemma published_shows s : published s → shows s.
Proof. intros Hs. right. intros n Hm. by apply published_view. Qed.

(** The rename publishes the staged files. *)
Lemma staged_published c s :
  (∀ n, c !! n = file_bytes <$> p !! n) → staged T s0 p ts c s → (∀ n, is_Some (p !! n) → linked T s n) →
  published (<[at_name dataDirName := Symlink ts]> s).
Proof.
  intros Hc Hs Hlinks. pose proof Hts as [Htemp _].
  assert (∀ rest, T ++ ts :: rest ≠ at_name dataDirName) as Hne.
  { intros rest H. apply app_inv_head in H. simplify_eq. by eapply temp_not_data. }
  assert (∀ n, visible n → at_name n ≠ at_name dataDirName) as Hvis.
  { intros n Hn H. apply app_inv_head in H. simplify_eq. by eapply visible_not_data. }
  pose proof (sd_staging _ _ _ _ _ _ Hs) as Hst. split.
  - eapply real_from_same; [|by eapply staging_real]. intros k _. apply lookup_insert_ne.
    intros H. apply (f_equal length) in H. rewrite !length_app, length_take in H. simpl in H. lia.
  - rewrite lookup_insert_ne by (intros H; by apply app_inv_head in H).
    rewrite (sd_new _ _ _ _ _ _ Hs). apply (ok_new _ _ Hok).
  - unfold current. by rewrite lookup_insert_eq.
  - destruct (sd_dir _ _ _ _ _ _ Hs) as [m Hm]. exists m. by rewrite lookup_insert_ne by apply not_eq_sym, Hne.
  - intros n fp Hn. destruct (sd_files _ _ _ _ _ _ Hs n (file_bytes fp)) as [m Hm]; [by rewrite Hc, Hn|].
    exists m. by rewrite lookup_insert_ne by apply not_eq_sym, Hne.
  - intros n rest Hr. rewrite lookup_insert_ne by apply not_eq_sym, Hne. apply (sd_rest _ _ _ _ _ _ Hs).
    destruct Hr as [|Hn]; [by left|right]. by rewrite Hc, Hn.
  - intros n Hn. unfold linked. rewrite lookup_insert_ne; [by apply Hlinks|]. apply not_eq_sym, Hvis.
    by apply Hp.
  - intros n Hm. split; [apply Hm|]. unfold linked. rewrite lookup_insert_ne by apply not_eq_sym, Hvis, Hm.
    eapply staging_managed; [done..|exact Hm].
  - intros x rest Hx _. rewrite !lookup_insert_ne;
      [|intros H; apply app_inv_head in H; simplify_eq; by eapply temp_not_data..].
    destruct (decide (x = ts)) as [->|Hxts]; [destruct (sd_dir _ _ _ _ _ _ Hs) as [m Hm]; congruence|].
    assert (∀ rest', ¬ touched T p ts (T ++ x :: rest')) as Hun.
    { intros rest' [[r H]|[H|(n & Hn & H)]]; apply app_inv_head in H; simplify_eq.
      - by eapply temp_not_new.
      - eapply visible_not_temp; [by apply Hp|done]. }
    rewrite !(stg_same _ _ _ _ _ Hst) by apply Hun. by apply (ok_fresh _ _ Hok).
Qed.

(** What may be removed once published: names of no file, and the old version. *)
Definition dead (q : path) : Prop :=
  (∃ n, visible n ∧ p !! n = None ∧ q = at_name n) ∨ (∃ old rest, current T s0 old ∧ q = T ++ old :: rest).

Lemma dead_ne q q' :
  dead q → (∀ n, visible n → p !! n = None → q' ≠ at_name n) →
  (∀ old rest, current T s0 old → q' ≠ T ++ old :: rest) → q ≠ q'.
Proof.
  intros [(n & Hn & Hpn & ->)|(old & rest & Hold & ->)] H1 H2 Heq.
  - by eapply H1.
  - by eapply H2.
Qed.

Lemma published_delete s q : published s → dead q → published (delete q s).
Proof.
  intros Hs Hq. pose proof Hts as [Htemp Hnone].
  assert (∀ old, current T s0 old → temp_name old ∧ old ≠ ts) as Hold.
  { intros old H. destruct (ok_old _ _ Hok _ H) as [? [m Hm]]. split; [done|]. intros ->. congruence. }
  assert (∀ rest, q ≠ T ++ ts :: rest) as Hver.
  { intros rest. apply (dead_ne _ _ Hq).
    - intros n Hn _ H. apply app_inv_head in H. simplify_eq. by eapply visible_not_temp.
    - intros old rest' H' H. apply app_inv_head in H. simplify_eq. by destruct (Hold _ H'). }
  assert (∀ x, x = dataDirName ∨ x = newDataDirName ∨ is_Some (p !! x) → q ≠ at_name x) as Hname.
  { intros x Hx. apply (dead_ne _ _ Hq).
    - intros n Hn Hpn H. apply app_inv_head in H. simplify_eq. destruct Hx as [->|[->|[fp Hx]]].
      + by eapply visible_not_data.
      + by eapply visible_not_new.
      + congruence.
    - intros old rest H' H. apply app_inv_head in H. simplify_eq. destruct (Hold _ H') as [Ht _].
      destruct Hx as [->|[->|Hx]].
      + by eapply temp_not_data.
      + by eapply temp_not_new.
      + eapply visible_not_temp; [by apply Hp|done]. }
  split.
  - eapply real_from_same; [|apply (pb_real s Hs)]. intros k _. apply lookup_delete_ne.
    assert (∀ c rest, T ++ c :: rest ≠ take k T) as Hne.
    { intros c rest H. apply (f_equal length) in H. rewrite length_app, length_take in H. simpl in H. lia. }
    apply (dead_ne _ _ Hq); [intros n _ _|intros old rest _]; apply not_eq_sym, Hne.
  - rewrite lookup_delete_ne by (apply Hname; auto). apply Hs.
  - unfold current. rewrite lookup_delete_ne by (apply Hname; auto). apply Hs.
  - rewrite lookup_delete_ne by apply Hver. apply Hs.
  - intros n fp Hn. rewrite lookup_delete_ne by apply Hver. by apply (pb_files s Hs).
  - intros n rest Hr. rewrite lookup_delete_ne by apply Hver. by apply (pb_rest s Hs).
  - intros n Hn. unfold linked. rewrite lookup_delete_ne by (apply Hname; auto). by apply (pb_links s Hs).
  - intros n Hm. split; [apply Hm|]. unfold linked. destruct (decide (q = at_name n)) as [->|Hne].
    + left. by rewrite lookup_delete_eq.
    + rewrite lookup_delete_ne by done. apply (pb_managed s Hs n Hm).
  - intros x rest Hx Hcur. destruct (decide (q = at_name x)) as [->|Hne].
    + exfalso. destruct Hq as [(n & Hn & _ & H)|(old & r & H' & H)]; apply app_inv_head in H; simplify_eq;
        [by eapply visible_not_temp|done].
    + rewrite lookup_delete_ne by done. intros H. apply lookup_delete_None. right.
      by apply (pb_fresh s Hs).
Qed.

(** Once nothing is left of the old version, the directory is in order again. *)
Lemma published_ok s :
  published s → (∀ old rest, current T s0 old → s !! (T ++ old :: rest) = None) → target_ok T s.
Proof.
  intros Hs Hgone. pose proof Hts as [Htemp _].
  assert (∀ x, current T s x → x = ts) as Hcur.
  { intros x Hx. pose proof (pb_data s Hs) as Hd. unfold current in *. congruence. }
  split.
  - apply Hs.
  - apply Hs.
  - intros x rest Hx Hnone. destruct (decide (s0 !! at_name dataDirName = Some (Symlink x))) as [H|H].
    + by apply Hgone.
    + by apply (pb_fresh s Hs).
  - right. exists ts. apply Hs.
  - intros x ->%Hcur. split; [done|apply Hs].
  - intros x n rest nd ->%Hcur Hnd. destruct (decide (rest ≠ [] ∨ p !! n = None)) as [H|H].
    + by rewrite (pb_rest s Hs) in Hnd.
    + destruct (p !! n) as [fp|] eqn:Hn; [|by destruct H; right].
      assert (rest = []) as -> by (destruct rest; [done|by destruct H; left]).
      destruct (pb_files s Hs n fp Hn) as [m Hm]. split_and!; [done| | |].
      * apply Hp. by eexists.
      * apply (pb_links s Hs). by eexists.
      * exists m, (file_bytes fp). congruence.
Qed.

(** *** (10) the links to nothing *)
Definition keeps_old (s : disk) : Prop :=
  ∀ o, current T s0 o → ∃ m, s !! at_name o = Some (Dir m).

(** Published, the old version and the links [l] still there. *)
Definition removing (l : list string) (s : disk) : Prop :=
  published s ∧ keeps_old s ∧ ∀ n, n ∈ l → linked T s n.

Lemma removing_tail n l s : removing (n :: l) s → removing l s.
Proof. intros (Hs & Hk & Hl). split_and!; [done|done|]. intros n' Hn'. apply Hl. by right. Qed.

Lemma removing_link n l s :
  NoDup (n :: l) → visible n → p !! n = None → removing (n :: l) s →
  op_remove (at_name n) s = inr ((), delete (at_name n) s) ∧ removing l (delete (at_name n) s).
Proof.
  intros [Hn _]%NoDup_cons Hv Hpn (Hs & Hk & Hl). split.
  - unfold op_remove, on_node. rewrite resolve_nofollow by (first [apply (pb_real s Hs)|eauto with fs_names]).
    assert (s !! at_name n = Some (Symlink (link_target n))) as Hsym by (apply Hl; left).
    by rewrite node_at_snoc, Hsym.
  - split; [apply published_delete; [done|left; by exists n]|]. split.
    + intros o Ho. rewrite lookup_delete_ne; [by apply Hk|]. intros H. apply app_inv_head in H.
      simplify_eq. eapply visible_not_temp; [done|]. by apply (ok_old _ _ Hok).
    + intros n' Hn'. unfold linked. rewrite lookup_delete_ne; [apply Hl; by right|].
      intros H. apply app_inv_head in H. injection H as ->. done.
Qed.

Lemma unlink_each_triple l lasterr :
  NoDup l → (∀ n, n ∈ l → visible n ∧ p !! n = None) →
  triple FL shows (removing l) (unlink_each T l lasterr)
    (λ r s, removing [] s ∧ (FL → r = lasterr)).
Proof.
  revert lasterr. induction l as [|n l IH]; intros lasterr Hnd Hl; cbn [unlink_each].
  { by apply triple_ret. }
  destruct (Hl n) as [Hv Hpn]; [left|]. assert (plain n) as Hplain by eauto with fs_names.
  assert (has_char "/" n = false) as -> by apply Hplain. rewrite path_Join_plain by done.
  assert (∀ lasterr', triple FL shows (removing l) (unlink_each T l lasterr')
    (λ r s, removing [] s ∧ (FL → r = lasterr'))) as IH'.
  { intros lasterr'. apply IH; [by apply NoDup_cons in Hnd as [_ ?]|].
    intros n' Hn'. apply Hl. by right. }
  apply (triple_bind _ _ _ _ _ (λ r s, (r = inr () ∨ ¬ FL) ∧ removing l s)).
  - apply triple_call.
    + intros s [] s' Hs. destruct (removing_link n l s Hnd Hv Hpn Hs) as [-> Hs']. intros [= <-].
      split; [by apply published_shows, Hs'|]. split; [by left|done].
    + intros s e Hs _ Hfl. split; [right|by eapply removing_tail]. intros HFL. specialize (Hfl HFL).
      destruct (removing_link n l s Hnd Hv Hpn Hs) as [Heq _]. congruence.
  - intros [e|[]]; apply triple_pre_and; intros Hr; [|apply IH'].
    eapply triple_post; [apply IH'|]. intros r s [Hs _]. split; [done|]. intros HFL. by destruct Hr.
Qed.

(** *** (8) to (11) *)
Context (old : string) (toRemove : gset string).
Context (range : ∀ V, gmap string V → list (string * V)).
Hypothesis range_perm : ∀ V (m : gmap string V), range V m ≡ₚ map_to_list m.

Hypothesis Hfound : found T s0 p old toRemove.

Definition removal_list : list string := (range _ (set_to_map (λ x, (x, ())) toRemove : gmap string ())).*1.

Lemma removal_nodup : NoDup removal_list.
Proof. by apply range_nodup. Qed.

Lemma removal_elem n : n ∈ removal_list → n ∈ toRemove.
Proof.
  intros Hn. apply list_elem_of_fmap in Hn as ([k []] & -> & Hk). apply range_elem in Hk; [|done].
  apply lookup_set_to_map in Hk; [|done]. by destruct Hk as (x & Hx & [= ->]).
Qed.

Definition complete (s : disk) : Prop :=
  target_ok T s ∧ ∀ n, managed T s0 n → managed T s n ∧ view T s n = new_content p n.

Lemma published_complete s :
  published s → (∀ rest, current T s0 old → s !! (T ++ old :: rest) = None) → complete s.
Proof.
  intros Hs Hgone. split; [|intros n Hn; split; [by apply (pb_managed s Hs)|by apply published_view]].
  apply published_ok; [done|].
  intros old' rest Hold'. assert (old' = old) as ->; [|by apply Hgone].
  destruct (fd_old _ _ _ _ _ Hfound) as [[_ Hnone]|Hold]; unfold current in *; congruence.
Qed.

(** What is left to do after the rename. *)
Definition retire : GoM W (option WriteError) :=
  let! r := removeUserVisiblePaths range T toRemove in
  match r with
  | Some e => go_ret (Some (SystemError e))
  | None =>
      if (go_len old >? 0)%Z then
        let! r := RemoveAll (path_Join T old) in
        match r with
        | inl e => go_ret (Some (SystemError e))
        | inr _ => go_ret None
        end
      else go_ret None
  end.

Lemma retire_triple :
  triple FL shows (removing removal_list) retire
    (λ r s, match r with None => complete s | Some _ => shows s ∧ ¬ FL end).
Proof.
  unfold retire, removeUserVisiblePaths. fold removal_list. eapply triple_bind.
  { apply unlink_each_triple; [apply removal_nodup|]. intros n Hn%removal_elem.
    destruct (fd_remove _ _ _ _ _ Hfound n Hn) as (? & _ & ?). done. }
  intros [e|].
  { apply triple_ret. intros s [(Hs & _) HF]. split; [by apply published_shows|].
    intros HFL. by specialize (HF HFL). }
  destruct (fd_old _ _ _ _ _ Hfound) as [[Hempty Hnone]|Hcur].
  - rewrite Hempty. simpl. apply triple_ret. intros s [(Hs & _) _]. apply published_complete; [done|].
    intros rest Hcur. unfold current in Hcur. congruence.
  - destruct (ok_old _ _ Hok _ Hcur) as [Htemp _].
    assert ((go_len old >? 0)%Z = true) as -> by (by destruct Htemp as (c & t & -> & _)).
    rewrite path_Join_plain by eauto with fs_names.
    apply triple_at. intros s1 [(Hs1 & Hk & _) _]. destruct (Hk old Hcur) as [m Hm].
    eapply triple_bind.
    + eapply (RemoveAll_triple FL shows published s1 T old (Dir m)); [apply published_shows| |done| |done].
      * intros q s [rest ->] Hs. apply published_delete; [done|]. right. exists old, rest.
        by rewrite <-app_assoc.
      * apply resolve_nofollow; [apply Hs1|eauto with fs_names].
    + intros [e|[]]; apply triple_ret.
      * intros s (Hs & HF & _). split; [by apply published_shows|]. intros HFL. by specialize (HF HFL).
      * intros s (Hs & _ & Hgone). apply published_complete; [done|]. intros rest _.
        apply Hgone; [done|]. exists rest. by rewrite <-app_assoc.
Qed.

(** A version that is not published is taken away. *)
Lemma abandon_triple s1 e :
  ¬ FL → staging T s0 p ts s1 → (∃ m, s1 !! at_name ts = Some (Dir m)) →
  triple FL shows (λ s, s = s1) (do! RemoveAll (at_name ts) in go_ret (Some (SystemError e)))
    (λ r s, match r with None => complete s | Some _ => shows s ∧ ¬ FL end).
Proof.
  intros HF Hs1 Hdir. eapply triple_post.
  - eapply discard_triple; [done..|by intros; eapply staging_atomic|done|done|done].
  - by intros r s (-> & Hs & _).
Qed.

Lemma staged_new s c : staged T s0 p ts c s → s !! at_name newDataDirName = None.
Proof. intros Hs. rewrite (sd_new _ _ _ _ _ _ Hs). apply (ok_new _ _ Hok). Qed.

(** The disk between the link and its renaming. *)
Lemma announced s :
  ready T s0 p ts s → staging T s0 p ts (<[at_name newDataDirName := Symlink ts]> s) ∧
    (∃ m, <[at_name newDataDirName := Symlink ts]> s !! at_name ts = Some (Dir m)) ∧
    op_symlink ts (at_name newDataDirName) s = inr ((), <[at_name newDataDirName := Symlink ts]> s).
Proof.
  intros [(c & Hc & Hs) _]. pose proof (sd_staging _ _ _ _ _ _ Hs) as Hst. split_and!.
  - apply staging_insert; [done|right; by left|]. intros n Hn H. apply app_inv_head in H. simplify_eq.
    eapply visible_not_new; [by apply Hp|done].
  - destruct (sd_dir _ _ _ _ _ _ Hs) as [m Hm]. exists m. rewrite lookup_insert_ne; [done|].
    intros H. apply app_inv_head in H. simplify_eq. eapply temp_not_new; [apply Hts|done].
  - unfold op_symlink, on_node. rewrite (staging_resolve T s0 p Hok ts) by (done || apply new_data_plain).
    by rewrite node_at_snoc, (staged_new s c).
Qed.

(** A process that dies there leaves a directory in which [..data_tmp] is taken. *)
Lemma cut_short s :
  ready T s0 p ts s →
  let s' := <[at_name newDataDirName := Symlink ts]> s in
  target_at T (Some (Symlink ts)) s' ∧ unchanged T s0 s' ∧ ∀ n, managed T s0 n → managed T s' n.
Proof.
  intros Hs s'. destruct (announced s Hs) as (Hst & [m Hm] & _). fold s' in Hst, Hm. split_and!.
  - replace (Some (Symlink ts)) with (s' !! at_name newDataDirName) by apply lookup_insert_eq.
    eapply staging_target_at; [done..|]. intros Hn. congruence.
  - by eapply staging_unchanged.
  - intros n. by eapply staging_managed.
Qed.

(** The rename: from everything old to everything new. *)
Lemma renamed s :
  ready T s0 p ts s → ∃ s', op_rename (at_name newDataDirName) (at_name dataDirName)
      (<[at_name newDataDirName := Symlink ts]> s) = inr ((), s') ∧ removing removal_list s'.
Proof.
  intros Hr. destruct (announced s Hr) as (Hst & _ & _). destruct Hr as [(c & Hc & Hs) Hlinks].
  pose proof (sd_staging _ _ _ _ _ _ Hs) as Hst0.
  exists (<[at_name dataDirName := Symlink ts]> s). split.
  - unfold op_rename, on_node. rewrite (staging_resolve T s0 p Hok ts) by (done || apply new_data_plain).
    rewrite node_at_snoc, lookup_insert_eq. rewrite (staging_resolve T s0 p Hok ts) by (done || apply data_plain).
    rewrite node_at_snoc, lookup_insert_ne by (by intros H; apply app_inv_head in H).
    rewrite (staging_data _ _ _ Hp _ _ Hts Hst0), delete_insert_id by by eapply staged_new.
    destruct (ok_data _ _ Hok) as [->|[o Ho]]; [done|]. unfold current in Ho. by rewrite Ho.
  - split; [by eapply staged_published|]. split.
    + intros o Ho. destruct (ok_old _ _ Hok _ Ho) as [Htemp [m Hm]]. exists m.
      rewrite lookup_insert_ne by (intros H; apply app_inv_head in H; simplify_eq; by eapply temp_not_data).
      rewrite (stg_same _ _ _ _ _ Hst0); [done|]. by eapply old_dir_untouched.
    + intros n Hn%removal_elem. destruct (fd_remove _ _ _ _ _ Hfound n Hn) as (Hv & Hl & Hpn). unfold linked in *.
      rewrite lookup_insert_ne by (intros H; apply app_inv_head in H; simplify_eq; by eapply visible_not_data).
      rewrite (stg_same _ _ _ _ _ Hst0); [done|]. by eapply name_untouched.
Qed.

Lemma publish_triple :
  triple FL shows (ready T s0 p ts) (publish range T (at_name ts) old toRemove)
    (λ r s, match r with None => complete s | Some _ => shows s ∧ ¬ FL end).
Proof.
  unfold publish. rewrite !path_Join_plain by (apply data_plain || apply new_data_plain).
  rewrite path_Base_snoc. fold retire. apply triple_at. intros s1 Hr.
  destruct (announced s1 Hr) as (Hst & Hdir & Hsym). destruct Hr as [(c & Hc & Hs) Hlinks].
  set (s2 := <[at_name newDataDirName := Symlink ts]> s1) in *.
  apply (triple_bind _ _ _ _ _ (λ r s, match r with inr _ => s = s2 | inl _ => ¬ FL ∧ s = s1 end)).
  { apply triple_call; intros s.
    - intros [] s' ->. rewrite Hsym. intros [= <-]. split; [by eapply staging_atomic|done].
    - intros e -> _ Hfl. split; [|done]. intros HFL. specialize (Hfl HFL). congruence. }
  intros [e|[]].
  { apply triple_pre_and. intros HF. apply abandon_triple; [done|apply Hs|apply Hs]. }
  destruct (renamed s1) as (s3 & Hren & Hs3); [by split; [exists c|]|]. fold s2 in Hren.
  apply (triple_bind _ _ _ _ _ (λ r s, match r with inr _ => removing removal_list s | inl _ => ¬ FL ∧ s = s2 end)).
  { apply triple_call; intros s.
    - intros [] s' ->. rewrite Hren. intros [= <-]. split; [|done]. apply published_shows, Hs3.
    - intros e -> _ Hfl. split; [|done]. intros HFL. specialize (Hfl HFL). congruence. }
  intros [e|[]]; [|apply retire_triple]. apply triple_pre_and. intros HF.
  apply (triple_bind _ _ _ _ _ (λ _ s, s = s2 ∨ s = delete (at_name newDataDirName) s2)).
  - apply triple_call; [|auto]. intros s [] s' ->. unfold op_remove, on_node.
    rewrite (staging_resolve T s0 p Hok ts) by (done || apply new_data_plain). unfold s2 at 1.
    rewrite node_at_snoc, lookup_insert_eq. intros [= <-]. split; [|by right].
    unfold s2. rewrite delete_insert_id by by eapply staged_new. eapply staging_atomic; [done..|apply Hs].
  - intros _. apply triple_at. intros s4 Hs4. apply abandon_triple; [done| |].
    + destruct Hs4 as [->| ->]; [done|]. unfold s2. rewrite delete_insert_id by by eapply staged_new. apply Hs.
    + destruct Hs4 as [->| ->]; [done|]. unfold s2. rewrite delete_insert_id by by eapply staged_new. apply Hs.
Qed.
End publish.
