(* ===== verification/AtomicWriterTheorems.v ===== *)
(** * The atomic writer is atomic

    The theorems about [Write]: whatever calls fail and wherever it is cut short, a reader
    finds the old payload or the new one; success means the new one, in a directory ready
    for the next update; and without failures it succeeds. *)
From S2P Require Export AtomicWriterPublish.

Section theorems.
Context {W : Type} `{!FsHost W, !FsHostLaws W}.
Context (range : ∀ V, gmap string V → list (string * V)).
Hypothesis range_perm : ∀ V (m : gmap string V), range V m ≡ₚ map_to_list m.

(** *** (1) validation *)
Lemma validatePath_visible n : visible n → validatePath n = None.
Proof.
  intros [Hpl [Hpre Hlen]]. pose proof Hpl as (H1 & _ & H3 & H4). unfold validatePath.
  rewrite decide_False by done.
  assert (is_abs n = false) as -> by by apply plain_not_abs.
  unfold maxFileNameLength in Hlen.
  assert ((go_len n >? maxPathLength)%Z = false) as -> by (unfold maxPathLength; lia).
  rewrite split_no_sep by done. cbn -[go_len]. rewrite decide_False by done.
  assert ((go_len n >? maxFileNameLength)%Z = false) as -> by (unfold maxFileNameLength; lia).
  by rewrite Hpre.
Qed.

Lemma validate_each_visible l clean :
  (∀ n fp, (n, fp) ∈ l → visible n) → NoDup l.*1 →
  ∃ clean', validate_each l clean = inr clean' ∧
    ∀ n, clean' !! n = match (list_to_map l : payload) !! n with Some fp => Some fp | None => clean !! n end.
Proof.
  revert clean. induction l as [|[n fp] l IH]; intros clean Hl Hnd; [by exists clean|].
  cbn in Hnd. apply NoDup_cons in Hnd as [Hn Hnd]. cbn [validate_each].
  assert (visible n) as Hv by (eapply Hl; left).
  rewrite validatePath_visible, Clean_plain by eauto with fs_names.
  destruct (IH (<[n := fp]> clean)) as (clean' & -> & Hclean'); [intros n' fp' H; eapply Hl; by right|done|].
  exists clean'. split; [done|]. intros n'. rewrite Hclean'. cbn.
  destruct (decide (n = n')) as [<-|Hne].
  - rewrite (not_elem_of_list_to_map_1 l n) by done. by rewrite !lookup_insert_eq.
  - by rewrite !lookup_insert_ne.
Qed.

Lemma validatePayload_visible (p : payload) :
  (∀ n, is_Some (p !! n) → visible n) → validatePayload range p = inr p.
Proof.
  intros Hp. unfold validatePayload.
  destruct (validate_each_visible (range _ p) ∅) as (clean & -> & Hc).
  - intros n fp Hin. apply range_elem in Hin; [|done]. apply Hp. by eexists.
  - by apply range_nodup.
  - f_equal. apply map_eq. intros n. rewrite Hc, range_map, lookup_empty by done. by destruct (p !! n).
Qed.

Section write.
Context (FL : Prop) (T : path) (s0 : disk) (p : payload) {u : option node}.
Hypothesis Hok : target_at T u s0.
Hypothesis Hp : ∀ n, is_Some (p !! n) → managed T s0 n.
Hypothesis readlink_true : ∀ q w,
  wp (Readlink q) (λ r _, ∀ e, r = inl e → op_readlink q (disk_of w) = inl e) w.

Abbreviation at_name n := (T ++ [n]).

(** What every state shows, and what is claimed of the end: after a failure, after the steps
    that publish, and when there was nothing to do. *)
Context (shows : disk → Prop) (Q : option WriteError → disk → Prop).
Hypothesis start_shows : shows s0.
Hypothesis staging_shows : ∀ ts s, fresh_version T s0 ts → staging T s0 p ts s → shows s.
Hypothesis Q_failed : ∀ e s, shows s → ¬ FL → Q (Some (SystemError e)) s.
Hypothesis Q_published : ∀ ts old toRemove,
  fresh_version T s0 ts → found T s0 p old toRemove →
  triple FL shows (ready T s0 p ts) (publish range T (at_name ts) old toRemove) Q.
Hypothesis Q_shown : (∀ n, managed T s0 n → view T s0 n = new_content p n) → Q None s0.

Lemma payload_elem n fp : (n, fp) ∈ range _ p → p !! n = Some fp.
Proof. by apply range_elem. Qed.

(** *** (5) to (11) *)
Lemma project_triple old (toRemove : gset string) :
  found T s0 p old toRemove →
  triple FL shows (λ s, s = s0) (project range T p old toRemove) Q.
Proof.
  intros Hfound. unfold project. eapply triple_bind; [by eapply newTimestampDir_triple|].
  intros [e|tsDir]; [apply triple_ret; intros s []; by apply Q_failed|].
  apply triple_pre_ex. intros ts. apply triple_pre_and. intros ->. apply triple_pre_and. intros Hts.
  eapply triple_bind.
  { apply (write_each_triple FL T s0 p Hok Hp shows staging_shows ts Hts). intros n fp Hin%payload_elem.
    apply Hp. by eexists. }
  intros [e|[]]; [apply triple_ret; intros s []; by apply Q_failed|].
  eapply triple_bind.
  { eapply triple_pre.
    - apply (link_each_triple FL T s0 p Hok Hp shows staging_shows ts Hts readlink_true (range _ p) (written (range _ p) ∅) (λ _, False)).
      intros n fp Hin%payload_elem. by eexists.
    - intros s Hs. split; [exact Hs|done]. }
  intros [e|[]]; [apply triple_ret; intros s []; by apply Q_failed|].
  eapply triple_pre; [by eapply Q_published|]. intros s [Hs Hl]. split.
  - exists (written (range _ p) ∅). split; [|done]. intros n. by apply written_range.
  - intros n [fp Hn]. apply Hl. right. apply list_elem_of_fmap. exists (n, fp). split; [done|].
    by apply range_elem.
Qed.

(** *** (3) what the old version has and the payload has not *)
Section old.
Context (old : string).
Hypothesis Hold : current T s0 old.

Abbreviation file n := (T ++ [old; n]).

Lemma old_temp : temp_name old.
Proof. by apply (ok_old _ _ Hok). Qed.

Lemma old_plain : plain old.
Proof. apply temp_plain, old_temp. Qed.

Lemma old_real : real_from s0 [] (at_name old).
Proof.
  destruct (ok_old _ _ Hok old Hold) as [Htemp [m Hm]].
  eapply real_snoc; [apply Hok|apply plain_not_dotdot, old_plain|exact Hm].
Qed.

Definition removable (n : string) : Prop := is_Some (s0 !! file n) ∧ p !! n = None.

Lemma relative_file n : plain n → relative_to (at_name old) (file n) = n.
Proof.
  intros Hn. unfold relative_to. rewrite <-snoc2, drop_app_length. by destruct n.
Qed.

Lemma walk_elem x :
  x ∈ filter (λ x, x ≠ "") (relative_to (at_name old) <$>
    (map_to_list (filter (λ kn, under (at_name old) kn.1) s0)).*1) ↔ is_Some (s0 !! file x) ∧ plain x.
Proof.
  rewrite list_elem_of_filter, list_elem_of_fmap. split.
  - intros (Hx & q & -> & Hq). apply list_elem_of_fmap in Hq as ([k nd] & -> & Hk).
    apply elem_of_map_to_list, map_lookup_filter_Some in Hk as [Hk [rest Hu]]. cbn in Hu, Hx |- *. subst k.
    rewrite <-app_assoc in *. destruct rest as [|n rest].
    { destruct Hx. unfold relative_to. by rewrite app_assoc, app_nil_r, drop_all. }
    destruct (ok_version _ _ Hok old n rest nd Hold Hk) as (-> & Hv & _).
    cbn in *. rewrite relative_file by eauto with fs_names. split; [by eexists|eauto with fs_names].
  - intros [[nd Hnd] Hx]. split; [apply Hx|]. exists (file x). split; [by rewrite relative_file|].
    apply list_elem_of_fmap. exists (file x, nd). split; [done|].
    apply elem_of_map_to_list, map_lookup_filter_Some. split; [done|]. exists [x]. cbn. by rewrite snoc2.
Qed.

Lemma new_paths_elem x : x ∈ (range _ p).*1 ≫= (λ file, subPaths (String.length file) file) ↔ is_Some (p !! x).
Proof.
  rewrite list_elem_of_bind. split.
  - intros (n & Hx & Hn). apply list_elem_of_fmap in Hn as ([n' fp] & -> & Hn%payload_elem).
    cbn in Hx. assert (is_Some (p !! n')) as Hs by by eexists.
    rewrite subPaths_plain in Hx by (apply visible_plain; by apply Hp).
    apply list_elem_of_singleton in Hx as ->. done.
  - intros [fp Hx]. exists x. split.
    + rewrite subPaths_plain by (apply visible_plain; apply Hp; by eexists). by left.
    + apply list_elem_of_fmap. exists (x, fp). split; [done|]. by apply range_elem.
Qed.

Lemma pathsToRemove_triple :
  triple FL shows (λ s, s = s0) (pathsToRemove range p (at_name old))
    (λ r s, s = s0 ∧ match r with inr x => ∀ n, n ∈ x ↔ removable n | inl _ => ¬ FL end).
Proof.
  destruct (ok_old _ _ Hok old Hold) as [_ [m Hm]]. unfold pathsToRemove.
  assert (op_walk (at_name old) s0 =
    inr ((map_to_list (filter (λ kn, under (at_name old) kn.1) s0)).*1, s0)) as Hw.
  { unfold op_walk, on_node. by rewrite (resolve_real_dir _ _ _ old_real), node_at_snoc, Hm. }
  eapply (triple_bind _ _ _ _ _ (λ r s, s = s0 ∧ match r with
    | inl e => e ≠ ENOENT ∧ ¬ FL
    | inr l => l = (map_to_list (filter (λ kn, under (at_name old) kn.1) s0)).*1 end)).
  { apply triple_read; [apply walk_reads|by intros s ->|..].
    - intros s a ->. rewrite Hw. by intros [= <-].
    - intros s e -> Hne Hfl. rewrite Hw in Hne, Hfl. split_and!; [done| |].
      + intros ->. by specialize (Hne eq_refl).
      + intros HFL. by specialize (Hfl HFL). }
  intros [e|l]; apply triple_put.
  - intros [He HF]. unfold IsNotExist. rewrite bool_decide_false by done. by apply triple_ret.
  - intros ->. apply triple_ret. intros s ->. split; [done|]. intros n.
    rewrite elem_of_difference, !elem_of_list_to_set, walk_elem, new_paths_elem.
    unfold removable. rewrite <-eq_None_not_Some. split; [naive_solver|]. intros [[nd Hnd] Hn].
    split_and!; [by eexists| |done].
    by destruct (ok_version _ _ Hok old n [] nd Hold Hnd) as (_ & [? _] & _).
Qed.

(** *** (4) whether the old version holds the payload *)
Definition holds (n : string) (fp : FileProjection) : Prop := ∃ m, s0 !! file n = Some (File m (file_bytes fp)).

Lemma old_file_node n : visible n →
  resolve s0 false (file n) = inr (file n) ∧ resolve s0 true (file n) = inr (file n) ∧
  node_at s0 (file n) = s0 !! file n ∧ (s0 !! file n = None ∨ ∃ m d, s0 !! file n = Some (File m d)).
Proof.
  intros Hn. rewrite <-!snoc2. assert (n ≠ "..") as Hd by eauto with fs_names.
  assert (s0 !! (at_name old ++ [n]) = None ∨ ∃ m d, s0 !! (at_name old ++ [n]) = Some (File m d)) as Hnode.
  { rewrite snoc2. destruct (s0 !! file n) as [nd|] eqn:He; [right|by left].
    destruct (ok_version _ _ Hok old n [] nd Hold He) as (_ & _ & _ & m & d & ->). by exists m, d. }
  split_and!; [by apply resolve_nofollow; [apply old_real|]| |apply node_at_snoc|done].
  rewrite resolve_below by apply old_real. apply resolve_follow; [done|]. intros t Ht.
  rewrite Ht in Hnode. by destruct Hnode as [|(? & ? & ?)].
Qed.

Lemma shouldWriteFile_triple n fp :
  visible n →
  triple FL shows (λ s, s = s0) (shouldWriteFile (file n) (fp_Data fp))
    (λ r s, s = s0 ∧ match r with inr b => b = false → holds n fp | inl _ => ¬ FL end).
Proof.
  intros Hn. destruct (old_file_node n Hn) as (Hrf & Hrt & Hat & Hnode). unfold shouldWriteFile.
  eapply (triple_bind _ _ _ _ _ (λ r s, s = s0 ∧ (FL → s0 !! file n = None → r = inl ENOENT))).
  { apply triple_read; [apply lstat_reads|by intros s ->|..]; intros s x ->;
      unfold op_lstat, op_stat_gen, on_node; rewrite Hrf, Hat.
    - destruct (s0 !! file n); [done|]. done.
    - intros _ Hfl. split; [done|]. intros HFL Hnone. specialize (Hfl HFL). rewrite Hnone in Hfl. congruence. }
  intros r. apply triple_put. intros Hl.
  assert (∀ r', r' = r → r' ≠ inl ENOENT → triple FL shows (λ s, s = s0)
    (must (ReadFile (file n)) (λ contentOnFs,
      go_ret (inr (negb (bool_decide (bytes_contents (fp_Data fp) = contentOnFs))))))
    (λ r s, s = s0 ∧ match r with inr b => b = false → holds n fp | inl _ => ¬ FL end)) as Hread.
  { intros r' -> Hr. apply (triple_must _ _ _ _ _ (λ d s, s = s0 ∧ ∃ m, s0 !! file n = Some (File m d))).
    - apply triple_read; [apply readfile_reads|by intros s ->|..]; intros s x ->;
        unfold op_readfile, on_node; rewrite Hrt, Hat; destruct Hnode as [Hnone|(m & d & Hf)].
      + by rewrite Hnone.
      + rewrite Hf. intros [= ->]. split; [done|]. by exists m.
      + intros _ _. split; [done|]. intros HFL. by apply Hr, Hl.
      + rewrite Hf. intros _ Hfl. split; [done|]. intros HFL. by specialize (Hfl HFL).
    - intros d. apply triple_put. intros [m Hm]. apply triple_ret. intros s ->. split; [done|].
      intros Hb%negb_false_iff%bool_decide_eq_true. exists m. unfold file_bytes. by rewrite Hb. }
  destruct r as [e|nd]; [destruct e|]; try by (eapply Hread; [reflexivity|]).
  apply triple_ret. by intros s ->.
Qed.

Lemma shouldWritePayload_triple :
  triple FL shows (λ s, s = s0) (shouldWritePayload range p (at_name old))
    (λ r s, s = s0 ∧ match r with
     | inr b => b = false → ∀ n fp, p !! n = Some fp → holds n fp
     | inl _ => ¬ FL end).
Proof.
  unfold shouldWritePayload. eapply (triple_post _ _ _ _ (λ r s, s = s0 ∧ match r with
    | inr b => b = false → ∀ n fp, (n, fp) ∈ range _ p → holds n fp | inl _ => ¬ FL end)).
  2: { intros [e|b] s [-> H]; (split; [done|]); [done|]. intros Hb n fp Hn. apply H; [done|].
       by apply range_elem. }
  assert (∀ n fp, (n, fp) ∈ range _ p → visible n) as Hl.
  { intros n fp Hin%payload_elem. apply Hp. by eexists. }
  revert Hl. generalize (range _ p). intros l. induction l as [|[n fp] l IH]; intros Hl; cbn [should_each].
  { apply triple_ret. intros s ->. split; [done|]. intros _ n fp Hn. by apply not_elem_of_nil in Hn. }
  assert (visible n) as Hn by (eapply Hl; left). rewrite path_Join_plain, snoc2 by eauto with fs_names.
  apply (triple_must _ _ _ _ _ (λ b s, s = s0 ∧ (b = false → holds n fp))).
  { eapply triple_post; [by apply (shouldWriteFile_triple n fp)|]. intros [e|b] s H; exact H. }
  intros b. apply triple_put. intros Hb. destruct b.
  { apply triple_ret. by intros s ->. }
  eapply triple_post; [apply IH; intros n' fp' H; eapply Hl; by right|].
  intros [e|b] s [-> H]; (split; [done|]); [done|]. intros Hb' n' fp' [[= -> ->]|Hin]%elem_of_cons.
  - by apply Hb.
  - by apply (H Hb').
Qed.

(** Nothing to do: the old version is the payload. *)
Lemma up_to_date (toRemove : gset string) :
  (∀ n, n ∈ toRemove ↔ removable n) → size toRemove = 0 → (∀ n fp, p !! n = Some fp → holds n fp) →
  ∀ n, managed T s0 n → view T s0 n = new_content p n.
Proof.
  intros Hrm Hsize Hh n Hm. apply size_empty_inv in Hsize.
  rewrite view_content by (first [apply (ok_real _ _ Hok)|by eapply target_at_data|done]).
  unfold content, new_content. unfold current in Hold. rewrite Hold. destruct (p !! n) as [fp|] eqn:Hn.
  - destruct (Hh n fp Hn) as [m Hf].
    destruct (ok_version _ _ Hok old n [] _ Hold Hf) as (_ & _ & Hl & _). unfold linked in Hl.
    by rewrite Hl, Hf.
  - assert (s0 !! file n = None) as Hf.
    { destruct (s0 !! file n) eqn:Hf; [|done]. exfalso. assert (n ∈ toRemove) as Hin.
      { apply Hrm. split; [by eexists|done]. }
      by apply Hsize in Hin. }
    rewrite Hf. by destruct (s0 !! at_name n) as [[]|].
Qed.
End old.

Lemma old_found old (toRemove : gset string) :
  current T s0 old → (∀ n, n ∈ toRemove ↔ removable old n) → found T s0 p old toRemove.
Proof.
  intros Hold Hrm. split; [by right|]. intros n [[nd Hnd] Hn]%Hrm.
  by destruct (ok_version _ _ Hok old n [] nd Hold Hnd) as (_ & ? & ? & _).
Qed.

(** *** The whole of it *)
Lemma Write_triple :
  triple FL shows (λ s, s = s0) (Write range T p) Q.
Proof.
  unfold Write. rewrite validatePayload_visible by (intros n Hn; by apply Hp).
  rewrite path_Join_plain by apply data_plain.
  assert (resolve s0 false (at_name dataDirName) = inr (at_name dataDirName)) as Hres
    by (apply resolve_nofollow; [apply Hok|done]).
  eapply (triple_bind _ _ _ _ _ (λ r s, s = s0 ∧ match r with
    | inr old => current T s0 old
    | inl e => (e = ENOENT → s0 !! at_name dataDirName = None) ∧ (e ≠ ENOENT → ¬ FL) end)).
  { apply triple_read; [apply readlink_reads|by intros s ->|..]; intros s x ->;
      unfold op_readlink, on_node; rewrite Hres, node_at_snoc; unfold current.
    - destruct (s0 !! at_name dataDirName) as [[]|]; by intros [= <-].
    - destruct (ok_data _ _ Hok) as [->|[old Hold]]; [|unfold current in Hold; rewrite Hold].
      + intros _ Hfl. split_and!; [done|done|]. intros Hx HFL. specialize (Hfl HFL). congruence.
      + intros Hne Hfl. split_and!; [done|intros ->; by specialize (Hne eq_refl)|].
        intros _ HFL. by specialize (Hfl HFL). }
  intros [e|old]; apply triple_put.
  - intros [Hno HF]. unfold IsNotExist. case_bool_decide as He; cbn [negb].
    + apply project_triple. split; [left; by auto|]. intros n Hn. set_solver.
    + apply triple_ret. intros s ->. apply Q_failed; [done|by apply HF].
  - intros Hold. pose proof (old_temp old Hold) as Htemp.
    assert ((go_len old =? 0)%Z = false) as -> by (by destruct Htemp as (c & t & -> & _)).
    rewrite path_Join_plain by by apply old_plain.
    eapply triple_bind; [by apply pathsToRemove_triple|]. intros [e|toRemove]; apply triple_put; intros Hrm.
    { apply triple_ret. intros s ->. by apply Q_failed. }
    eapply triple_bind; [by apply shouldWritePayload_triple|]. intros [e|should]; apply triple_put; intros Hs.
    { apply triple_ret. intros s ->. by apply Q_failed. }
    destruct (negb should && (size toRemove =? 0)) eqn:Hskip.
    + apply andb_true_iff in Hskip as [Hshould%negb_true_iff Hsize%Nat.eqb_eq].
      apply triple_ret. intros s ->. apply Q_shown. by eapply up_to_date; eauto.
    + apply project_triple. by apply old_found.
Qed.
End write.

(** In a directory in order. *)
Lemma Write_in_order FL T s0 p :
  target_ok T s0 → (∀ n, is_Some (p !! n) → managed T s0 n) →
  (∀ q w, wp (Readlink q) (λ r _, ∀ e, r = inl e → op_readlink q (disk_of w) = inl e) w) →
  triple FL (atomic T s0 p) (λ s, s = s0) (Write range T p)
    (λ r s, match r with None => complete T s0 p s | Some _ => atomic T s0 p s ∧ ¬ FL end).
Proof.
  intros Hok Hp Hrl. eapply Write_triple; [done..|by apply start_atomic| |by intros| |].
  - intros ts s. by eapply staging_atomic.
  - intros. by apply publish_triple.
  - intros Hshown. split; [done|]. intros n Hn. split; [done|by apply Hshown].
Qed.

(** In one whose last update was cut short. *)
Lemma Write_blocked FL T s0 p nd :
  target_at T (Some nd) s0 → (∀ n, is_Some (p !! n) → managed T s0 n) →
  (∀ q w, wp (Readlink q) (λ r _, ∀ e, r = inl e → op_readlink q (disk_of w) = inl e) w) →
  triple FL (unchanged T s0) (λ s, s = s0) (Write range T p)
    (λ r s, unchanged T s0 s ∧
      (r = None → ∀ n, managed T s0 n → view T s0 n = new_content p n) ∧
      (FL → (r = None ∨ r = Some (SystemError EEXIST)) ∧ target_at T (Some nd) s ∧
        ∀ n, managed T s0 n → managed T s n)).
Proof.
  intros Hok Hp Hrl. eapply Write_triple; [done..| | | |].
  - intros ts s. by eapply staging_unchanged.
  - by intros e s Hs HF.
  - intros ts old toRemove Hts Hfound. eapply triple_post.
    + eapply publish_blocked; [done..|by intros; eapply staging_unchanged|done|done].
    + intros r s (Hs & e & -> & HF). split_and!; [done|done|]. intros HFL.
      destruct (HF HFL) as (-> & ? & ?). split_and!; [by right|done|done].
  - intros Hshown. split_and!; [done|by intros _|]. intros _. split_and!; [by left|done|done].
Qed.

(** A directory the writer has not used yet is in order. *)
Lemma unused_target_ok T s :
  real_from s [] T → s !! (T ++ [newDataDirName]) = None → s !! (T ++ [dataDirName]) = None →
  (∀ x rest, temp_name x → s !! (T ++ x :: rest) = None) → target_ok T s.
Proof.
  intros HT Hnew Hdata Hno. split; [done|done|by auto|by left|..].
  - intros old Hold. unfold current in Hold. by rewrite Hdata in Hold.
  - intros old n rest nd Hold. unfold current in Hold. by rewrite Hdata in Hold.
Qed.

(** C13: [Write] is atomic.  Take a target directory in order, and a payload of plain names
    that are free there or links of the writer.  Whichever of the calls are refused, Write
    returns, and every state the disk goes through (so what a concurrent reader, or a
    process that starts after a crash, finds at any moment) shows for all names at once
    either the content from before or the payload's.  If Write returns nil the payload is
    what shows, every other name shows nothing, and the directory and the names are in order
    for the next Write.  The host is one where a map is ranged over in some order, and reading a link
    fails only when it should (the code takes any other failure of it for success). *)
Theorem Write_atomic (T : path) (p : payload) (w : W) :
  (∀ q w', wp (Readlink q) (λ r _, ∀ e, r = inl e → op_readlink q (disk_of w') = inl e) w') →
  target_ok T (disk_of w) →
  (∀ n, is_Some (p !! n) → managed T (disk_of w) n) →
  wp (Write range T p) (λ r w',
    (∃ new, trace_of w' = new ++ trace_of w ∧ Forall (atomic T (disk_of w) p) new) ∧
    (r = None → target_ok T (disk_of w') ∧
      ∀ n, managed T (disk_of w) n → managed T (disk_of w') n ∧ view T (disk_of w') n = new_content p n)) w.
Proof.
  intros Hrl Hok Hp. eapply wp_mono.
  - by apply (Write_in_order False T (disk_of w) p Hok Hp Hrl w).
  - intros r w' (Hr & _ & Htr). split; [done|]. by intros ->.
Qed.

(** When no call is refused, [Write] succeeds: it returns nil, the payload shows under
    its names and nothing under the others, and the directory is in order. *)
Theorem Write_succeeds (T : path) (p : payload) (w : W) :
  (∀ q w', wp (Readlink q) (λ r _, ∀ e, r = inl e → op_readlink q (disk_of w') = inl e) w') →
  faultless w →
  target_ok T (disk_of w) →
  (∀ n, is_Some (p !! n) → managed T (disk_of w) n) →
  wp (Write range T p) (λ r w',
    r = None ∧ target_ok T (disk_of w') ∧
    ∀ n, managed T (disk_of w) n → managed T (disk_of w') n ∧ view T (disk_of w') n = new_content p n) w.
Proof.
  intros Hrl Hfl Hok Hp. eapply wp_mono.
  - by apply (Write_in_order True T (disk_of w) p Hok Hp Hrl w).
  - intros [e|] w' (Hr & _ & _); [|done]. by destruct Hr as [_ []].
Qed.

End theorems.
