(* ===== verification/MemHost.v ===== *)
(** * An in-memory file system, and the witnesses of the atomic writer

    A host over a disk in memory, with a script of calls to refuse; with [reads = false] it
    refuses only calls that would change the disk.  On it the writer runs. *)
From S2P Require Export AtomicWriterTheorems.

Record MemHost (reads : bool) := mkMemHost {
  mh_disk : disk; mh_trace : list disk; mh_refuse : list bool }.
Arguments mkMemHost {reads}.
Arguments mh_disk {reads}.
Arguments mh_trace {reads}.
Arguments mh_refuse {reads}.

Section host.
Context {reads : bool}.
Abbreviation world := (MemHost reads).

Definition refused (r : bool) (s s' : disk) : bool := r && (reads || negb (bool_decide (s' = s))).

Definition mem_host_call {A : Type} (f : fs_call A) : GoM world (Errno + A) := λ w,
  let refuse := default false (head (mh_refuse w)) in
  let s := mh_disk w in
  let w1 := mkMemHost s (mh_trace w) (tail (mh_refuse w)) in
  match f s with
  | inl e => (Ret (inl (if refused refuse s s then EIO else e)), w1)
  | inr (a, s') =>
      if refused refuse s s' then (Ret (inl EIO), w1)
      else (Ret (inr a), mkMemHost s' (s' :: mh_trace w) (tail (mh_refuse w)))
  end.

(** A name longer than any on the disk. *)
Definition longest (s : disk) : nat :=
  max_list (map_to_list s ≫= λ kn, String.length <$> kn.1).
Fixpoint digits (n : nat) : string := match n with O => "1" | S n => String "1" (digits n) end.

#[global] Instance mem_host : FsHost world := {|
  host_call A := mem_host_call;
  timestamp := go_ret "2024_01_01_00_00_00";
  random_suffix := λ w, (Ret (digits (longest (mh_disk w))), w) |}.

Lemma digits_length n : String.length (digits n) = S n.
Proof. induction n; simpl; by rewrite ?IHn. Qed.

Lemma digits_plain n : has_char "/" (digits n) = false.
Proof. by induction n. Qed.

Lemma digits_fresh (s : disk) p pre : s !! (p ++ [pre +:+ digits (longest s)]) = None.
Proof.
  destruct (s !! _) as [nd|] eqn:He; [|done]. exfalso.
  assert (String.length (pre +:+ digits (longest s)) ≤ longest s) as Hle.
  { apply max_list_elem_of_le, list_elem_of_bind.
    eexists (_, nd). split; [|by apply elem_of_map_to_list].
    apply list_elem_of_fmap. eexists. split; [reflexivity|]. cbn. set_solver. }
  rewrite str_length_app, digits_length in Hle. lia.
Qed.

#[global] Instance mem_host_laws : FsHostLaws world.
Proof.
  refine {| disk_of := mh_disk; trace_of := mh_trace;
    faultless := λ w, Forall (λ r, r = false) (mh_refuse w) |}.
  - intros A f w. unfold wp, host_call. cbn. unfold mem_host_call.
    destruct (f (mh_disk w)) as [e|[a s']] eqn:Hf.
    + destruct (refused _ _ _) eqn:Hr.
      * split; [done|]. intros H. destruct w as [? ? [|r l]]; [done|].
        cbn in *. apply Forall_cons in H as [-> _]. done.
      * split; [by split_and!; [..|intros ->]|]. intros H. split; [by destruct H|congruence].
    + destruct (refused _ _ _) eqn:Hr.
      * split; [done|]. intros H. destruct w as [? ? [|r l]]; [done|].
        cbn in *. apply Forall_cons in H as [-> _]. done.
      * split; [by exists s'|]. intros H. split; [by destruct H|done].
  - intros w. unfold wp. cbn. split_and!; try done. by eexists _, _.
  - intros w. unfold wp. cbn. split_and!; [done..| |apply digits_plain].
    intros H. split; [done|]. intros. apply digits_fresh.
Defined.
End host.

(** Reads are never refused. *)
Lemma mem_readlink q (w : MemHost false) :
  wp (Readlink q) (λ r _, ∀ e, r = inl e → op_readlink q (disk_of w) = inl e) w.
Proof.
  unfold wp, Readlink, host_call. cbn. unfold mem_host_call.
  destruct (op_readlink q (mh_disk w)) as [e|[a s']] eqn:Hf.
  { unfold refused. rewrite bool_decide_true by done.
    destruct (default false _); by intros ? [= <-]. }
  apply readlink_reads in Hf as ->. unfold refused.
  rewrite bool_decide_true by done. by destruct (default false _).
Qed.

Definition by_key {V} (m : gmap string V) : list (string * V) := map_to_list m.
Lemma by_key_perm V (m : gmap string V) : by_key m ≡ₚ map_to_list m.
Proof. done. Qed.

(** ** A directory of certificates *)
Definition certs_dir : path := ["certs"].
Definition empty_disk : disk := {[ certs_dir := Dir 493 ]}.
Definition start (refuse : list bool) {reads : bool} : MemHost reads := mkMemHost empty_disk [] refuse.

Definition bytes (s : string) : gobytes := Some s.
Definition payload_of (cert key : string) : payload :=
  {[ "tls.crt" := mkFileProjection (bytes cert) 420; "tls.key" := mkFileProjection (bytes key) 384 ]}.

Lemma empty_disk_ok : target_ok certs_dir empty_disk.
Proof.
  apply unused_target_ok; [split_and!; [done|by eexists|done]|..].
  - by apply lookup_singleton_ne.
  - by apply lookup_singleton_ne.
  - intros x rest _. by apply lookup_singleton_ne.
Qed.

Lemma payload_managed cert key n : is_Some (payload_of cert key !! n) → managed certs_dir empty_disk n.
Proof.
  intros Hn. split; [|left; by apply lookup_singleton_ne]. revert Hn. unfold payload_of.
  rewrite lookup_insert_is_Some, lookup_singleton_is_Some.
  intros [<-|[_ <-]]; by split_and!.
Qed.

(** The third call that changes the disk is refused. *)
Lemma Write_atomic_witness :
  wp (Write (@by_key) certs_dir (payload_of "cert-1" "key-1")) (λ r w',
    (∃ new, trace_of w' = new ++ [] ∧
      Forall (atomic certs_dir empty_disk (payload_of "cert-1" "key-1")) new) ∧
    (r = None → target_ok certs_dir (disk_of w') ∧
      ∀ n, managed certs_dir empty_disk n → managed certs_dir (disk_of w') n ∧
        view certs_dir (disk_of w') n = new_content (payload_of "cert-1" "key-1") n))
    (start (reads := false) (replicate 6 false ++ [true])).
Proof.
  exact (Write_atomic (@by_key) by_key_perm certs_dir (payload_of "cert-1" "key-1")
    (start (replicate 6 false ++ [true])) mem_readlink empty_disk_ok (payload_managed "cert-1" "key-1")).
Defined.

Lemma Write_succeeds_witness :
  wp (Write (@by_key) certs_dir (payload_of "cert-1" "key-1")) (λ r w',
    r = None ∧ target_ok certs_dir (disk_of w') ∧
    ∀ n, managed certs_dir empty_disk n → managed certs_dir (disk_of w') n ∧
      view certs_dir (disk_of w') n = new_content (payload_of "cert-1" "key-1") n)
    (start (reads := false) []).
Proof.
  exact (Write_succeeds (@by_key) by_key_perm certs_dir (payload_of "cert-1" "key-1")
    (start []) mem_readlink (Forall_nil_2 _) empty_disk_ok (payload_managed "cert-1" "key-1")).
Defined.

(** ** What goes wrong *)
Definition run {reads : bool} (p : payload) (w : MemHost reads) : option (option WriteError) * MemHost reads :=
  match Write (@by_key) certs_dir p w with
  | (Ret r, w') => (Some r, w')
  | (Panic _, w') => (None, w')
  end.

(** A version replaced by another: the second write leaves no trace of the first. *)
Example replaced :
  let w1 := (run (payload_of "cert-1" "key-1") (start (reads := true) [])).2 in
  let '(r, w2) := run {[ "tls.crt" := mkFileProjection (bytes "cert-2") 420 ]} w1 in
  r = Some None ∧ view certs_dir (mh_disk w2) "tls.crt" = Some "cert-2" ∧
  view certs_dir (mh_disk w2) "tls.key" = None ∧ size (mh_disk w2) = 5.
Proof. vm_compute. by split_and!. Qed.

(** CreateUserVisibleFiles takes an error of Readlink other than "does not exist" for a
    link that is there: if reading the link of a new file is refused once, Write returns nil
    although the file is not visible. *)
Theorem refused_readlink_hides_file :
  let '(r, w') := run (payload_of "cert-1" "key-1") (start (reads := true) (replicate 11 false ++ [true])) in
  r = Some None ∧
  (view certs_dir (mh_disk w') "tls.crt" = None ∨ view certs_dir (mh_disk w') "tls.key" = None).
Proof. vm_compute. split; [done|]. first [by left|by right]. Qed.

(** A process that dies between creating [..data_tmp] and renaming it leaves a directory in
    which no different payload is written any more: from some disk that a write passes
    through, a later Write in which nothing fails returns EEXIST, and the old content stays. *)
Example crash_is_reached :
  let w1 := (run (payload_of "cert-1" "key-1") (start (reads := true) [])).2 in
  let w2 := (run (payload_of "cert-2" "key-2") (mkMemHost (reads := true) (mh_disk w1) [] [])).2 in
  ∃ s, s ∈ mh_trace w2 ∧
    let '(r, w3) := run (payload_of "cert-3" "key-3") (mkMemHost (reads := true) s [] []) in
    r = Some (Some (SystemError EEXIST)) ∧
    view certs_dir (mh_disk w3) "tls.crt" = Some "cert-1".
Proof.
  intros w1 w2.
  assert (existsb (λ s, let '(r, w3) := run (payload_of "cert-3" "key-3") (mkMemHost (reads := true) s [] []) in
    match r with Some (Some (SystemError EEXIST)) => true | _ => false end &&
    bool_decide (view certs_dir (mh_disk w3) "tls.crt" = Some "cert-1")) (mh_trace w2) = true) as H
    by (vm_compute; reflexivity).
  apply existsb_exists in H as (s & Hs%list_elem_of_In & H). exists s. split; [done|].
  cbv zeta. destruct (run _ (mkMemHost s [] [])) as [r w3]. apply andb_true_iff in H as [Hr Hv%bool_decide_eq_true].
  split; [|done]. by destruct r as [[[|[]]|]|].
Qed.

(** A directory whose first update was cut short. *)
Definition cut_short_disk : disk :=
  <[certs_dir ++ [newDataDirName] := Symlink "..1"]>
  (<[certs_dir ++ ["tls.crt"] := Symlink (link_target "tls.crt")]>
  (<[certs_dir ++ ["..1"; "tls.crt"] := File 420 "cert-1"]>
  (<[certs_dir ++ ["..1"] := Dir 493]> empty_disk))).

Lemma cut_short_disk_at : target_at certs_dir (Some (Symlink "..1")) cut_short_disk.
Proof.
  assert (cut_short_disk !! (certs_dir ++ [dataDirName]) = None) as Hdata by reflexivity.
  split; [split_and!; [done|by eexists|done]|reflexivity| |by left|..].
  - intros x rest _ Hx. destruct (cut_short_disk !! (certs_dir ++ x :: rest)) as [nd|] eqn:He; [|done]. exfalso.
    unfold cut_short_disk, empty_disk in He. cbn [app certs_dir] in He.
    repeat (apply lookup_insert_Some in He as [[? _]|[_ He]]; [simplify_eq; vm_compute in Hx; done|]).
    apply lookup_singleton_Some in He as [? _]. by simplify_eq.
  - intros old Hold. unfold current in Hold. congruence.
  - intros old n rest nd Hold. unfold current in Hold. congruence.
Qed.

Lemma cut_short_managed cert key n :
  is_Some (payload_of cert key !! n) → managed certs_dir cut_short_disk n.
Proof.
  unfold payload_of. rewrite lookup_insert_is_Some, lookup_singleton_is_Some. intros [<-|[_ <-]].
  - split; [by split_and!|by right].
  - split; [by split_and!|by left].
Qed.

