(* ===== verification/FsWriter.v ===== *)
(** * Certificates in a directory: [internal/webhook/util/writer/fs.go]

    The writer over a directory, and [WriteCertsToDir], over the atomic writer. *)
From S2P Require Export AtomicWriter CertWriter.

Definition FsCertWriter : string := "fs".

(** FSCertWriterOptions: the generator and the directory. *)
Record FSCertWriterOptions := mkFSCertWriterOptions {
  fso_CertGenerator : option SelfSignedCertGenerator;
  fso_Path : option path }.

Definition fs_setDefaults (ops : FSCertWriterOptions) : FSCertWriterOptions :=
  match fso_CertGenerator ops with
  | None => mkFSCertWriterOptions (Some (mkSelfSignedCertGenerator None None)) (fso_Path ops)
  | Some _ => ops
  end.

(** len(ops.Path) == 0: no path. *)
Definition fs_validate (ops : FSCertWriterOptions) : option string :=
  match fso_Path ops with None => Some "path must be set in FSCertWriterOptions" | Some _ => None end.

Record fsCertWriter := mkFsCertWriter { fcw_dnsName : string; fcw_Path : path }.

Definition NewFSCertWriter (ops : FSCertWriterOptions) : string + (fsCertWriter * SelfSignedCertGenerator) :=
  let ops := fs_setDefaults ops in
  match fs_validate ops with
  | Some err => inl err
  | None => inr (mkFsCertWriter "" (default [] (fso_Path ops)),
                 default (mkSelfSignedCertGenerator None None) (fso_CertGenerator ops))
  end.

(** The six files of a certificate directory. *)
Definition cert_filenames : list string :=
  [CAKeyName; CACertName; ServerCertName; ServerCertName2; ServerKeyName; ServerKeyName2].

(** func certToProjectionMap *)
Definition certToProjectionMap (cert : Artifacts) : payload :=
  list_to_map
    [(CAKeyName, mkFileProjection (art_CAKey cert) 438);
     (CACertName, mkFileProjection (art_CACert cert) 438);
     (ServerCertName, mkFileProjection (art_Cert cert) 438);
     (ServerCertName2, mkFileProjection (art_Cert cert) 438);
     (ServerKeyName, mkFileProjection (art_Key cert) 438);
     (ServerKeyName2, mkFileProjection (art_Key cert) 438)].

Section writer.
Context {W : Type} `{!FsHost W}.
Variable range : ∀ {V}, gmap string V → list (string * V).

(** err.Error() *)
Definition errno_message (e : Errno) : string :=
  match e with
  | ENOENT => "no such file or directory" | EEXIST => "file exists"
  | ENOTDIR => "not a directory" | EISDIR => "is a directory" | EINVAL => "invalid argument"
  | ELOOP => "too many levels of symbolic links" | ENOTEMPTY => "directory not empty"
  | EIO => "input/output error"
  end.
Definition write_message (e : WriteError) : string :=
  match e with InvalidPayload err => err | SystemError e => errno_message e end.

(** The loop of prepareToWrite: what is there and is not a link is removed; errors are only
    logged. *)
Fixpoint clear_each (dir : path) (l : list string) : GoM W () :=
  match l with
  | [] => go_ret ()
  | f :: l' =>
      let abspath := path_Join dir f in
      let! r := Stat abspath in
      match r with
      | inl ENOENT => clear_each dir l'
      | _ =>
          let! r := Readlink abspath in
          match r with
          | inl _ => do! Remove abspath in clear_each dir l'
          | inr _ => clear_each dir l'
          end
      end
  end.

Definition prepareToWrite (dir : path) : GoM W (option string) :=
  let! r := Stat dir in
  match r with
  | inl ENOENT =>
      let! r := MkdirAll dir 511 in
      match r with
      | inl _ => go_ret (Some "can't create dir")
      | inr _ => do! clear_each dir cert_filenames in go_ret None
      end
  | inl e => go_ret (Some (errno_message e))
  | inr _ => do! clear_each dir cert_filenames in go_ret None
  end.

(** func WriteCertsToDir; certs is dereferenced, so it must not be nil. *)
Definition WriteCertsToDir (dir : path) (certs : Artifacts) : GoM W (option string) :=
  let! e := prepareToWrite dir in
  match e with
  | Some err => go_ret (Some err)
  | None =>
      let! r := NewAtomicWriter dir in
      match r with
      | inl e => go_ret (Some (errno_message e))
      | inr targetDir =>
          let! e := Write (@range) targetDir (certToProjectionMap certs) in
          go_ret (write_message <$> e)
      end
  end.

(** func ensureExist *)
Fixpoint exist_each (dir : path) (l : list string) : GoM W (option CertError) :=
  match l with
  | [] => go_ret None
  | filename :: l' =>
      let! r := Stat (path_Join dir filename) in
      match r with
      | inr _ => exist_each dir l'
      | inl ENOENT => go_ret (Some (notFoundError (errno_message ENOENT)))
      | inl e => go_ret (Some (otherError (errno_message e)))
      end
  end.
Definition ensureExist (dir : path) : GoM W (option CertError) := exist_each dir cert_filenames.

(** if err != nil { return nil, err } *)
Definition read_or {A} (m : GoM W (Errno + A)) (k : A → GoM W cert_result) : GoM W cert_result :=
  let! r := m in
  match r with inl e => go_ret (None, Some (otherError (errno_message e))) | inr a => k a end.

Definition fs_read (f : fsCertWriter) : GoM W cert_result :=
  let! e := ensureExist (fcw_Path f) in
  match e with
  | Some err => go_ret (None, Some err)
  | None =>
      read_or (ReadFile (path_Join (fcw_Path f) CAKeyName)) (λ caKeyBytes,
      read_or (ReadFile (path_Join (fcw_Path f) CACertName)) (λ caCertBytes,
      read_or (ReadFile (path_Join (fcw_Path f) ServerCertName)) (λ certBytes,
      read_or (ReadFile (path_Join (fcw_Path f) ServerKeyName)) (λ keyBytes,
        go_ret (Some (mkArtifacts (Some keyBytes) (Some certBytes) (Some caKeyBytes)
                        (Some caCertBytes) ""), None)))))
  end.

Context `{!CertGenerator W}.

Definition fs_doWrite (f : fsCertWriter) : GoM W cert_result :=
  let! r := Generate (fcw_dnsName f) in
  match r with
  | inl err => go_ret (None, Some (otherError err))
  | inr certs =>
      let! e := WriteCertsToDir (fcw_Path f) certs in
      match e with
      | Some err => go_ret (None, Some (otherError err))
      | None => go_ret (Some certs, None)
      end
  end.
Definition fs_write (f : fsCertWriter) : GoM W cert_result := fs_doWrite f.
Definition fs_overwrite (f : fsCertWriter) (_ : string) : GoM W cert_result := fs_doWrite f.
Definition fs_rw (f : fsCertWriter) : certReadWriter W := mkCertReadWriter (fs_read f) (fs_write f) (fs_overwrite f).

Context `{!Crypto W}.

Definition fs_EnsureCert (f : fsCertWriter) (dnsName : string)
    : GoM W (option Artifacts * bool * option CertError) :=
  let f := mkFsCertWriter dnsName (fcw_Path f) in
  handleCommon (fcw_dnsName f) (Some (fs_rw f)).
End writer.
