(* ===== verification/FsWriterTheorems.v ===== *)
(** * Certificates in a directory: the theorems

    [WriteCertsToDir] on a directory in order, where the six names are free, links of the
    writer or plain files; and that what it wrote reads back. *)
From S2P Require Export FsWriter MemHost.

(** ** Runs without failures *)
Section calm.
Context {W : Type} `{!FsHost W, !FsHostLaws W}.

Abbreviation calm := (triple True (λ _, True)).

Lemma calm_weaken {A : Type} (P Pre : disk → Prop) (m : GoM W A) (Q : A → disk → Prop) :
  triple True P Pre m Q → calm Pre m Q.
Proof.
  intros H w Hw Hf. eapply wp_mono; [apply (H w Hw Hf)|]. intros a w' (HQ & Hf' & new & Htr & _).
  split_and!; [done|done|]. exists new. split; [done|]. by apply Forall_true.
Qed.

(** A call does what the disk says. *)
Lemma calm_call {A B : Type} (f : fs_call A) (s : disk) (k : Errno + A → GoM W B) (Q : B → disk → Prop) :
  match f s with
  | inr (a, s') => calm (λ s, s = s') (k (inr a)) Q
  | inl e => calm (λ s1, s1 = s) (k (inl e)) Q
  end → calm (λ s1, s1 = s) (let! r := host_call f in k r) Q.
Proof.
  intros Hk. eapply (triple_bind _ _ _ _ _ (λ r s1, match f s with
    | inr (a, s') => r = inr a ∧ s1 = s' | inl e => r = inl e ∧ s1 = s end)).
  - apply triple_call.
    + intros s1 a s' -> ->. done.
    + intros s1 e -> _ Hfl. specialize (Hfl I). by rewrite Hfl.
  - intros r. destruct (f s) as [e|[a s']]; apply triple_pre_and; by intros ->.
Qed.

Lemma calm_must {A B : Type} (f : fs_call A) (s s' : disk) (a : A) (k : A → GoM W (Errno + B)) (Q : Errno + B → disk → Prop) :
  f s = inr (a, s') → calm (λ s, s = s') (k a) Q → calm (λ s1, s1 = s) (must (host_call f) k) Q.
Proof. intros Hf Hk. apply (calm_call f s (λ r, match r with inl e => go_ret (inl e) | inr a => k a end)). by rewrite Hf. Qed.
End calm.

(** ** Names of certificates *)
Lemma cert_names_visible n : n ∈ cert_filenames → visible n.
Proof.
  intros Hn. apply (proj1 (Forall_forall visible cert_filenames)); [|done].
  repeat constructor; try done; by intros [=].
Qed.

Lemma cert_payload_names a n : is_Some (certToProjectionMap a !! n) ↔ n ∈ cert_filenames.
Proof.
  unfold certToProjectionMap, cert_filenames. cbn [list_to_map foldr uncurry fst snd].
  rewrite !lookup_insert_is_Some', !elem_of_cons, lookup_empty, elem_of_nil.
  split; [intros Hn|intros Hn]; destruct_or! Hn; subst; auto 10; by destruct Hn.
Qed.

(** ** Clearing the way for the links *)
Section clear.
Context {W : Type} `{!FsHost W, !FsHostLaws W} (T : path).

Abbreviation calm := (triple (W := W) True (λ _, True)).
Abbreviation at_name n := (T ++ [n]).

Definition plain_file (s : disk) (n : string) : Prop := ∃ m d, s !! at_name n = Some (File m d).

(** A name the writer can take over. *)
Definition clearable (s : disk) (n : string) : Prop := managed T s n ∨ visible n ∧ plain_file s n.

Lemma ok_delete_file s n : target_ok T s → visible n → plain_file s n → target_ok T (delete (at_name n) s).
Proof.
  intros Hok Hn (m & d & Hf).
  assert (∀ x, x = dataDirName ∨ x = newDataDirName ∨ temp_name x → at_name n ≠ at_name x) as Hne.
  { intros x Hx H. apply app_inv_head in H. injection H as ->. destruct Hx as [->|[->|Hx]].
    - by eapply visible_not_data.
    - by eapply visible_not_new.
    - by eapply visible_not_temp. }
  assert (∀ old, current T (delete (at_name n) s) old ↔ current T s old) as Hcur.
  { intros old. unfold current. by rewrite lookup_delete_ne by (apply Hne; auto). }
  split.
  - eapply real_from_same; [|apply Hok]. intros k _. apply lookup_delete_ne. intros H.
    apply (f_equal length) in H. rewrite !length_app, length_take in H. simpl in H. lia.
  - apply lookup_delete_None. right. apply Hok.
  - intros x rest Hx. rewrite lookup_delete_ne by (apply Hne; auto). intros Hx'.
    apply lookup_delete_None. right. by apply (ok_fresh _ _ Hok).
  - rewrite lookup_delete_ne by (apply Hne; auto). destruct (ok_data _ _ Hok) as [?|[old ?]]; [by left|].
    right. exists old. by apply Hcur.
  - intros old Hold%Hcur. destruct (ok_old _ _ Hok old Hold) as [Ht Hm].
    rewrite lookup_delete_ne by (apply Hne; auto). done.
  - intros old n' rest nd Hold%Hcur [_ Hnd]%lookup_delete_Some.
    destruct (ok_version _ _ Hok old n' rest nd Hold Hnd) as (? & ? & Hl & ?). split_and!; try done.
    unfold linked in *. rewrite lookup_delete_ne; [done|]. intros Hq. congruence.
Qed.

Lemma managed_delete s n n' : managed T s n' → managed T (delete (at_name n) s) n'.
Proof.
  intros [Hv Hn]. split; [done|]. unfold linked. destruct (decide (n = n')) as [->|Hne].
  - left. by rewrite lookup_delete_eq.
  - rewrite lookup_delete_ne; [done|]. intros H. apply app_inv_head in H. congruence.
Qed.

Lemma clearable_delete s n n' : clearable s n' → clearable (delete (at_name n) s) n'.
Proof.
  intros [Hm|[Hv (m & d & Hf)]]; [left; by apply managed_delete|].
  destruct (decide (n = n')) as [->|Hne].
  - left. split; [done|]. left. by rewrite lookup_delete_eq.
  - right. split; [done|]. exists m, d. rewrite lookup_delete_ne; [done|].
    intros H. apply app_inv_head in H. congruence.
Qed.

Lemma stat_managed s n :
  target_ok T s → managed T s n → op_stat (at_name n) s ≠ inl ENOENT → linked T s n.
Proof.
  intros Hok [Hv [Hnone|Hl]] Hst; [|done]. destruct Hst. unfold op_stat, op_stat_gen, on_node.
  rewrite resolve_below by apply Hok.
  rewrite resolve_follow by (first [by eauto with fs_names|by rewrite Hnone]).
  by rewrite node_at_snoc, Hnone.
Qed.

Lemma clear_each_calm l s :
  target_ok T s → (∀ n, n ∈ l → clearable s n) →
  calm (λ s1, s1 = s) (clear_each T l) (λ _ s',
    target_ok T s' ∧ ∀ n, n ∈ l ∨ managed T s n → managed T s' n).
Proof.
  revert s. induction l as [|n l IH]; intros s Hok Hl; cbn [clear_each].
  { apply triple_ret. intros s' ->. split; [done|]. intros n [Hn|?]; [|done]. by apply not_elem_of_nil in Hn. }
  assert (clearable s n) as Hn by (apply Hl; left).
  assert (visible n) as Hv by by destruct Hn as [[? _]|[? _]].
  rewrite path_Join_plain by eauto with fs_names. cbv zeta.
  assert (resolve s false (at_name n) = inr (at_name n)) as Hres
    by (apply resolve_nofollow; [apply Hok|eauto with fs_names]).
  assert (managed T s n → calm (λ s1, s1 = s) (clear_each T l) (λ _ s',
    target_ok T s' ∧ ∀ n', n' ∈ n :: l ∨ managed T s n' → managed T s' n')) as Hskip.
  { intros Hm. eapply triple_post; [apply IH; [done|intros n' Hn'; apply Hl; by right]|].
    intros _ s' [Hok' H']. split; [done|]. intros n' [[->|Hn']%elem_of_cons|Hn']; apply H'; auto. }
  destruct Hn as [Hm|[_ (m & d & Hf)]].
  - apply (calm_call (op_stat (at_name n))). pose proof (stat_managed s n Hok Hm) as Hlink.
    assert (linked T s n → calm (λ s1, s1 = s)
      (let! r := Readlink (at_name n) in
       match r with inl _ => do! Remove (at_name n) in clear_each T l | inr _ => clear_each T l end)
      (λ _ s', target_ok T s' ∧ ∀ n', n' ∈ n :: l ∨ managed T s n' → managed T s' n')) as Hread.
    { intros Hl'. unfold linked in Hl'. apply (calm_call (op_readlink (at_name n))).
      unfold op_readlink, on_node. rewrite Hres, node_at_snoc, Hl'. by apply Hskip. }
    destruct (op_stat (at_name n) s) as [e|[nd s1]] eqn:Hst.
    + destruct e; first [by apply Hskip|by apply Hread, Hlink].
    + apply stat_reads in Hst as ->. by apply Hread, Hlink.
  - apply (calm_call (op_stat (at_name n))). unfold op_stat, op_stat_gen, on_node.
    rewrite resolve_below by apply Hok. rewrite resolve_follow by (first [by eauto with fs_names|by rewrite Hf]).
    rewrite node_at_snoc, Hf. apply (calm_call (op_readlink (at_name n))). unfold op_readlink, on_node.
    rewrite Hres, node_at_snoc, Hf. apply (calm_call (op_remove (at_name n))). unfold op_remove, on_node.
    rewrite Hres, node_at_snoc, Hf. eapply triple_post.
    + apply IH; [by apply ok_delete_file; [..|exists m, d]|]. intros n' Hn'. apply clearable_delete, Hl. by right.
    + intros _ s' [Hok' H']. split; [done|]. intros n' [[->|Hn']%elem_of_cons|Hn'].
      * apply H'. right. split; [done|]. left. by rewrite lookup_delete_eq.
      * apply H'. by left.
      * apply H'. right. by apply managed_delete.
Qed.
End clear.

(** ** Writing and reading back *)
Section write.
Context {W : Type} `{!FsHost W, !FsHostLaws W}.
Context (range : ∀ V, gmap string V → list (string * V)).
Hypothesis range_perm : ∀ V (m : gmap string V), range V m ≡ₚ map_to_list m.
Hypothesis readlink_true : ∀ q (w : W),
  wp (Readlink q) (λ r _, ∀ e, r = inl e → op_readlink q (disk_of w) = inl e) w.
Context (T : path).

Abbreviation calm := (triple (W := W) True (λ _, True)).
Abbreviation at_name n := (T ++ [n]).

(** The directory shows these certificates. *)
Definition shows_certs (a : Artifacts) (s : disk) : Prop :=
  target_ok T s ∧ ∀ n, n ∈ cert_filenames →
    managed T s n ∧ view T s n = new_content (certToProjectionMap a) n.

Lemma prepareToWrite_calm s :
  target_ok T s → (∀ n, n ∈ cert_filenames → clearable T s n) →
  calm (λ s1, s1 = s) (prepareToWrite T) (λ r s',
    r = None ∧ target_ok T s' ∧ ∀ n, n ∈ cert_filenames → managed T s' n).
Proof.
  intros Hok Hc. destruct (real_node s T (ok_real _ _ Hok)) as [m Hm].
  unfold prepareToWrite. apply (calm_call (op_stat T)). unfold op_stat, op_stat_gen, on_node.
  rewrite resolve_real_dir by apply Hok. rewrite Hm.
  eapply triple_bind; [by apply clear_each_calm|]. intros []. apply triple_ret. intros s' [Hok' H'].
  split_and!; [done|done|]. intros n Hn. apply H'. by left.
Qed.

(** What follows prepareToWrite, on names that are managed. *)
Lemma write_prepared_calm a s1 :
  target_ok T s1 → (∀ n, n ∈ cert_filenames → managed T s1 n) →
  calm (λ s, s = s1) (let! r := NewAtomicWriter T in
     match r with
     | inl e => go_ret (Some (errno_message e))
     | inr targetDir =>
         let! e := Write range targetDir (certToProjectionMap a) in
         go_ret (write_message <$> e)
     end) (λ r s', r = None ∧ shows_certs a s').
Proof.
  intros Hok1 Hm1. eapply (triple_bind _ _ _ _ _ (λ r s, r = inr T ∧ s = s1)).
  { destruct (real_node s1 T (ok_real _ _ Hok1)) as [m Hm].
    apply (calm_call (op_stat T)). unfold op_stat, op_stat_gen, on_node.
    rewrite resolve_real_dir by apply Hok1. rewrite Hm. by apply triple_ret. }
  intros r. apply triple_pre_and. intros ->. eapply triple_bind.
  { eapply calm_weaken, (Write_in_order range range_perm True T s1 (certToProjectionMap a) Hok1); [|done].
    intros n Hn. apply Hm1. by apply cert_payload_names in Hn. }
  intros [e|]; apply triple_ret; [by intros s' [_ []]|]. intros s' [Hok' H']. split; [done|].
  split; [done|]. intros n Hn. by apply H', Hm1.
Qed.

Lemma WriteCertsToDir_calm a s :
  target_ok T s → (∀ n, n ∈ cert_filenames → clearable T s n) →
  calm (λ s1, s1 = s) (WriteCertsToDir range T a) (λ r s', r = None ∧ shows_certs a s').
Proof.
  intros Hok Hc. unfold WriteCertsToDir.
  eapply triple_bind; [by apply prepareToWrite_calm|]. intros r. apply triple_pre_and. intros ->.
  apply triple_at. intros s1 [Hok1 Hm1]. by apply write_prepared_calm.
Qed.

(** ** Writing, with calls that are refused

    On names that the writer manages already, nothing is cleared away, whatever fails. *)
Section refused.
Context (FL : Prop) (s0 : disk) (a : Artifacts).
Hypothesis Hok : target_ok T s0.
Hypothesis Hnames : ∀ n, n ∈ cert_filenames → managed T s0 n.
Abbreviation shows := (atomic T s0 (certToProjectionMap a)).

Lemma clear_each_managed l :
  (∀ n, n ∈ l → n ∈ cert_filenames) →
  triple FL shows (λ s, s = s0) (clear_each T l) (λ _ s, s = s0).
Proof.
  induction l as [|n l IH]; intros Hl; cbn [clear_each]; [by apply triple_ret|].
  assert (triple FL shows (λ s, s = s0) (clear_each T l) (λ _ s, s = s0)) as Hskip
    by (apply IH; intros n' Hn'; apply Hl; by right).
  destruct (Hnames n) as [Hv Hn]; [apply Hl; left|]. rewrite path_Join_plain by eauto with fs_names. cbv zeta.
  assert (resolve s0 false (at_name n) = inr (at_name n)) as Hres
    by (apply resolve_nofollow; [apply Hok|eauto with fs_names]).
  assert (triple FL shows (λ s, s = s0)
    (let! r := Readlink (at_name n) in
     match r with inl _ => do! Remove (at_name n) in clear_each T l | inr _ => clear_each T l end)
    (λ _ s, s = s0)) as Hread.
  { eapply triple_bind; [apply triple_readlink; [done|by left]|]. intros r. apply triple_put.
    unfold op_readlink, on_node. rewrite Hres, node_at_snoc.
    destruct Hn as [Hnone|Hlink]; [rewrite Hnone|unfold linked in Hlink; rewrite Hlink]; intros ->; [|done].
    eapply (triple_bind _ _ _ _ _ (λ _ s, s = s0)); [|intros _; done].
    apply triple_call; [|done]. intros s [] s' ->. unfold op_remove, on_node.
    by rewrite Hres, node_at_snoc, Hnone. }
  eapply (triple_bind _ _ _ _ _ (λ _ s, s = s0)).
  { apply triple_read; [apply stat_reads|by intros s ->; left|..]; by intros s x ->. }
  intros [[]|]; done.
Qed.

Lemma stat_dir :
  triple FL shows (λ s, s = s0) (Stat T) (λ r s, s = s0 ∧ r ≠ inl ENOENT).
Proof.
  destruct (real_node s0 T (ok_real _ _ Hok)) as [m Hm].
  apply triple_read; [apply stat_reads|by intros s ->; left|..]; intros s x ->;
    unfold op_stat, op_stat_gen, on_node; rewrite resolve_real_dir by apply Hok; rewrite Hm; [done|].
  intros Hne _. split; [done|]. intros [= ->]. by specialize (Hne eq_refl).
Qed.

Lemma prepareToWrite_managed :
  triple FL shows (λ s, s = s0) (prepareToWrite T) (λ _ s, s = s0).
Proof.
  assert (triple FL shows (λ s, s = s0) (do! clear_each T cert_filenames in go_ret (@None string))
    (λ _ s, s = s0)) as Hclear.
  { eapply triple_bind; [by apply clear_each_managed|]. intros []. by apply triple_ret. }
  unfold prepareToWrite. eapply triple_bind; [apply stat_dir|]. intros r. apply triple_put. intros Hr.
  destruct r as [[]|]; try done; by apply triple_ret.
Qed.

(** What follows prepareToWrite. *)
Lemma write_prepared_triple :
  triple FL shows (λ s, s = s0)
    (let! r := NewAtomicWriter T in
     match r with
     | inl e => go_ret (Some (errno_message e))
     | inr targetDir =>
         let! e := Write range targetDir (certToProjectionMap a) in
         go_ret (write_message <$> e)
     end) (λ r s, shows s ∧ (r = None → shows_certs a s)).
Proof.
  unfold NewAtomicWriter.
  apply (triple_bind _ _ _ _ _ (λ r s, s = s0 ∧ r = inr T)).
  { eapply triple_bind; [apply stat_dir|]. intros r. apply triple_put. intros Hr.
    destruct r as [e|nd]; [|by apply triple_ret]. unfold IsNotExist.
    rewrite bool_decide_false by congruence. by apply triple_ret. }
  intros r. apply triple_put. intros ->. eapply triple_bind.
  { apply (Write_in_order range range_perm FL T s0 (certToProjectionMap a) Hok); [|done].
    intros n Hn%cert_payload_names. by apply Hnames. }
  intros [e|]; apply triple_ret; [by intros s [? _]|]. intros s [Hok' H'].
  split; [by right; intros n Hn; apply H'|]. intros _. split; [done|].
  intros n Hn. by apply H', Hnames.
Qed.

Lemma WriteCertsToDir_triple :
  triple FL shows (λ s, s = s0) (WriteCertsToDir range T a)
    (λ r s, shows s ∧ (r = None → shows_certs a s)).
Proof.
  unfold WriteCertsToDir. eapply triple_bind; [apply prepareToWrite_managed|].
  intros [e|]; [|apply write_prepared_triple]. apply triple_ret. intros s ->. split; [by left|done].
Qed.
End refused.

(** What reads back: a nil slice as an empty one, and no resource version. *)
Definition read_back (a : Artifacts) : Artifacts :=
  mkArtifacts (Some (bytes_contents (art_Key a))) (Some (bytes_contents (art_Cert a)))
    (Some (bytes_contents (art_CAKey a))) (Some (bytes_contents (art_CACert a))) "".

Lemma view_reads s n d : view T s n = Some d → 
  op_readfile (at_name n) s = inr (d, s) ∧ ∃ nd, op_stat (at_name n) s = inr (nd, s).
Proof.
  unfold view, read_at. intros H. destruct (op_readfile (at_name n) s) as [|[d' s']] eqn:Hr; [done|].
  injection H as ->. pose proof (readfile_reads _ _ _ _ Hr) as ->. split; [done|].
  unfold op_readfile, op_stat, op_stat_gen, on_node in *. destruct (resolve s true (at_name n)) as [|q]; [done|].
  destruct (node_at s q) as [nd|]; [by eexists|done].
Qed.

Lemma ensureExist_calm l s :
  (∀ n, n ∈ l → plain n ∧ is_Some (view T s n)) →
  calm (λ s1, s1 = s) (exist_each T l) (λ r s', r = None ∧ s' = s).
Proof.
  induction l as [|n l IH]; intros Hl; cbn [exist_each]; [by apply triple_ret|].
  destruct (Hl n) as [Hpl [d Hd]]; [left|]. rewrite path_Join_plain by done.
  destruct (view_reads s n d Hd) as [_ [nd Hst]]. apply (calm_call (op_stat (at_name n))). rewrite Hst.
  apply IH. intros n' Hn'. apply Hl. by right.
Qed.

Lemma fs_read_calm a s dns :
  shows_certs a s →
  calm (λ s1, s1 = s) (fs_read (mkFsCertWriter dns T)) (λ r s', r = (Some (read_back a), None) ∧ s' = s).
Proof.
  intros [Hok Hs]. unfold fs_read. cbn [fcw_Path].
  assert (∀ n fp, n ∈ cert_filenames → certToProjectionMap a !! n = Some fp →
    op_readfile (at_name n) s = inr (file_bytes fp, s)) as Hread.
  { intros n fp Hn Hfp. apply view_reads. destruct (Hs n Hn) as [_ ->]. unfold new_content. by rewrite Hfp. }
  eapply triple_bind.
  { apply (ensureExist_calm cert_filenames s). intros n Hn. split; [by apply visible_plain, cert_names_visible|].
    destruct (Hs n Hn) as [_ ->]. unfold new_content. rewrite fmap_is_Some. by apply cert_payload_names. }
  intros r. apply triple_pre_and. intros ->. unfold read_or.
  rewrite !path_Join_plain by (by split_and!).
  apply (calm_call (op_readfile (at_name CAKeyName))). rewrite (Hread CAKeyName (mkFileProjection (art_CAKey a) 438)) by (done || by left).
  apply (calm_call (op_readfile (at_name CACertName))). rewrite (Hread CACertName (mkFileProjection (art_CACert a) 438)) by (done || set_solver).
  apply (calm_call (op_readfile (at_name ServerCertName))). rewrite (Hread ServerCertName (mkFileProjection (art_Cert a) 438)) by (done || set_solver).
  apply (calm_call (op_readfile (at_name ServerKeyName))). rewrite (Hread ServerKeyName (mkFileProjection (art_Key a) 438)) by (done || set_solver).
  by apply triple_ret.
Qed.

(** C35: Certificates written to a directory read back.  Take a directory in order, where
    each of the six names is free, a link of the writer or a plain file, and no call is
    refused: WriteCertsToDir succeeds, the directory then shows the six files with the
    contents of the artifacts and nothing stands in the way of the next write, and the
    writer's read returns the artifacts (a nil slice as an empty one). *)
Theorem certs_roundtrip (a : Artifacts) (dnsName : string) (w : W) :
  faultless w → target_ok T (disk_of w) →
  (∀ n, n ∈ cert_filenames → clearable T (disk_of w) n) →
  wp (let! e := WriteCertsToDir range T a in
      let! r := fs_read (mkFsCertWriter dnsName T) in go_ret (e, r))
    (λ '(e, r) w', e = None ∧ r = (Some (read_back a), None) ∧ shows_certs a (disk_of w')) w.
Proof.
  intros Hfl Hok Hc.
  assert (calm (λ s1, s1 = disk_of w) (let! e := WriteCertsToDir range T a in
      let! r := fs_read (mkFsCertWriter dnsName T) in go_ret (e, r))
    (λ '(e, r) s', e = None ∧ r = (Some (read_back a), None) ∧ shows_certs a s')) as H.
  { eapply triple_bind; [by apply WriteCertsToDir_calm|]. intros e. apply triple_pre_and. intros ->.
    apply triple_at. intros s1 Hs1. eapply triple_bind; [by apply fs_read_calm|].
    intros r. apply triple_ret. by intros s' [-> ->]. }
  eapply wp_mono; [by apply (H w)|]. by intros [e r] w' [Hr _].
Qed.
End write.

(** ** The witness: a directory with a plain file of that name in it *)
Definition used_disk : disk := <[ certs_dir ++ ["tls.crt"] := File 420 "by hand" ]> empty_disk.
Definition used_host : MemHost false := mkMemHost used_disk [] [].
Definition some_certs : Artifacts := mkArtifacts (Some "key") (Some "cert") None (Some "ca") "".

Lemma used_disk_ok : target_ok certs_dir used_disk.
Proof.
  apply unused_target_ok; [split_and!; [done|by eexists|done]|done|done|].
  intros x rest Hx. unfold used_disk. rewrite lookup_insert_ne.
  - by apply lookup_singleton_ne.
  - intros [= <- _]. by destruct Hx as (c & t & [=] & _).
Qed.

Lemma used_disk_clearable n : n ∈ cert_filenames → clearable certs_dir used_disk n.
Proof.
  intros Hn. pose proof (cert_names_visible n Hn) as Hv. destruct (decide (n = "tls.crt")) as [->|Hne].
  - right. split; [done|]. by eexists _, _.
  - left. split; [done|]. left. unfold used_disk. rewrite lookup_insert_ne.
    + by apply lookup_singleton_ne.
    + by intros [= <-].
Qed.

Lemma certs_roundtrip_witness :
  wp (let! e := WriteCertsToDir (@by_key) certs_dir some_certs in
      let! r := fs_read (mkFsCertWriter "localhost" certs_dir) in go_ret (e, r))
    (λ '(e, r) w', e = None ∧ r = (Some (read_back some_certs), None) ∧
      shows_certs certs_dir some_certs (disk_of w')) used_host.
Proof.
  exact (certs_roundtrip (@by_key) by_key_perm mem_readlink certs_dir some_certs "localhost" used_host
    (Forall_nil_2 _) used_disk_ok used_disk_clearable).
Defined.
