(* ===== verification/CertDirectory.v ===== *)
(** * The certificate directory, from before it exists

    On the first start the directory of the certificates is not there: [prepareToWrite]
    makes it with os.MkdirAll.  This file covers the directory in every state the writer can
    meet ([dir_ready]), and reading from it while calls are refused. *)
From S2P Require Export FsWriterTheorems.

Section generic.
Context {W : Type} `{!FsHost W, !FsHostLaws W} (FL : Prop).

Lemma triple_inv_mono {A : Type} (P P' Pre : disk → Prop) (m : GoM W A) (Q : A → disk → Prop) :
  (∀ s, P s → P' s) → triple FL P Pre m Q → triple FL P' Pre m Q.
Proof.
  intros HP H w Hw Hf. eapply wp_mono; [apply (H w Hw Hf)|]. intros a w' (HQ & Hf' & new & Htr & Hall).
  split_and!; [done|done|]. exists new. split; [done|]. by eapply Forall_impl.
Qed.
End generic.

Lemma real_from_app s cur a b : real_from s cur (a ++ b) → real_from s cur a.
Proof.
  revert cur. induction a as [|c a IH]; intros cur; cbn; [done|].
  intros (Hc & Hd & H). split_and!; [done|done|by apply IH].
Qed.

(** ** Making the directory *)
Section making.
Context (T : path).
Hypothesis T_plain : Forall (λ c, c ≠ "..") T.

Abbreviation at_name n := (T ++ [n]).

(** The first [j] components are directories, and nothing lies below them on the way to [T]
    (nor in [T]). *)
Definition made (j : nat) (s : disk) : Prop :=
  j ≤ length T ∧ real_from s [] (take j T) ∧
  ∀ q, take (S j) T `prefix_of` q → q ≠ take j T → s !! q = None.

Lemma take_next j : S j ≤ length T → ∃ c, c ≠ ".." ∧ take (S j) T = take j T ++ [c] ∧ T = take j T ++ c :: drop (S j) T.
Proof.
  intros Hj. destruct (lookup_lt_is_Some_2 T j) as [c Hc]; [lia|]. exists c. split_and!.
  - by apply (proj1 (Forall_lookup _ T) T_plain j).
  - by apply take_S_r.
  - by rewrite take_drop_middle.
Qed.

Lemma made_there j m s fl : made j s → m ≤ j →
  resolve s fl (take m T) = inr (take m T) ∧ ∃ md, node_at s (take m T) = Some (Dir md).
Proof.
  intros (Hj & Hr & _) Hm. assert (real_from s [] (take m T)) as Hm'.
  { rewrite <-(take_drop m (take j T)), take_take, min_l in Hr by lia. by eapply real_from_app. }
  split; [by apply resolve_real_dir|by apply real_node].
Qed.

(** Below what is made, resolution stops at the next name. *)
Lemma made_stop j s fl c rest : made j s → S j ≤ length T → take (S j) T = take j T ++ [c] → c ≠ ".." →
  resolve s fl (take j T ++ c :: rest) = match rest with [] => inr (take j T ++ [c]) | _ => inl ENOENT end.
Proof.
  intros (_ & Hr & Hno) Hj Hc Hdd. rewrite resolve_below by done.
  rewrite resolve_from_cons, decide_False by done. cbv zeta.
  rewrite (Hno (take j T ++ [c])); [done|by rewrite Hc|]. intros H. apply (f_equal length) in H.
  rewrite length_app in H. simpl in H. lia.
Qed.

(** The next component is free. *)
Lemma made_next j s fl : made j s → S j ≤ length T →
  resolve s fl (take (S j) T) = inr (take (S j) T) ∧ node_at s (take (S j) T) = None.
Proof.
  intros Hmade Hj. destruct (take_next j Hj) as (c & Hdd & Hc & HT). pose proof Hmade as (_ & _ & Hno).
  rewrite Hc, (made_stop j s fl c []) by (done || lia). rewrite node_at_snoc.
  split; [done|]. apply Hno; [by rewrite Hc|]. intros H. apply (f_equal length) in H.
  rewrite length_app in H. simpl in H. lia.
Qed.

Lemma made_missing j m s fl : made j s → j < m ≤ length T →
  (m = S j ∧ resolve s fl (take m T) = inr (take m T) ∧ node_at s (take m T) = None) ∨
  resolve s fl (take m T) = inl ENOENT.
Proof.
  intros Hmade Hm. destruct (decide (m = S j)) as [->|Hne].
  { left. by destruct (made_next j s fl Hmade) as [-> ->]; [lia|]. }
  destruct (take_next j) as (c & Hdd & Hc & HT); [lia|].
  right. assert (take m T = take j T ++ c :: drop (S j) (take m T)) as ->.
  { rewrite <-(take_drop (S j) (take m T)) at 1. rewrite take_take, min_l by lia.
    by rewrite Hc, <-app_assoc. }
  rewrite (made_stop j s fl c) by (done || lia).
  destruct (drop (S j) (take m T)) as [|x l] eqn:Hd; [|done]. apply (f_equal length) in Hd.
  rewrite length_drop, length_take in Hd. simpl in Hd. lia.
Qed.

Lemma stat_made j m s fl nd s' : made j s → m ≤ length T →
  op_stat_gen fl (take m T) s = inr (nd, s') → m ≤ j ∧ s' = s ∧ ∃ md, nd = Dir md.
Proof.
  intros Hmade Hm. unfold op_stat_gen, on_node. destruct (decide (m ≤ j)) as [Hle|Hgt].
  - destruct (made_there j m s fl Hmade Hle) as [-> [md ->]]. intros [= <- <-]. by eauto.
  - destruct (made_missing j m s fl Hmade) as [(_ & -> & ->)| ->]; [lia|done|done].
Qed.

Lemma made_mkdir j m mode s u s' : made j s → m ≤ length T →
  op_mkdir (take m T) mode s = inr (u, s') → m = S j ∧ made (S j) s'.
Proof.
  intros Hmade Hm. unfold op_mkdir, on_node. destruct (decide (m ≤ j)) as [Hle|Hgt].
  { destruct (made_there j m s false Hmade Hle) as [-> [md ->]]. done. }
  destruct (made_missing j m s false Hmade) as [(-> & -> & ->)| ->]; [lia| |done].
  intros [= <- <-]. split; [done|]. destruct Hmade as (Hj & Hr & Hno).
  destruct (take_next j) as (c & Hdd & Hc & _); [lia|].
  assert (length (take j T) = j) as Hlen by (rewrite length_take; lia). split_and!; [lia| |].
  - rewrite Hc. eapply (real_snoc _ [] (take j T)); [|done|by rewrite lookup_insert_eq].
    eapply real_from_same; [|exact Hr]. intros k [_ Hk]. simpl. apply lookup_insert_ne. intros H.
    apply (f_equal length) in H. simpl in H. rewrite length_app, !length_take in H. simpl in H. lia.
  - intros q Hq Hne. rewrite lookup_insert_ne by done. apply Hno.
    + etrans; [|exact Hq]. exists (drop (S j) (take (S (S j)) T)).
      rewrite <-(take_drop (S j) (take (S (S j)) T)) at 1. by rewrite take_take, min_l by lia.
    + intros ->. apply prefix_length in Hq. rewrite !length_take in Hq. lia.
Qed.

Lemma parent_take m : parent (take m T) = take (m - 1) T ∨ length T < m.
Proof.
  destruct (decide (length T < m)) as [?|Hle]; [by right|left]. unfold parent.
  rewrite take_take, length_take. f_equal. lia.
Qed.

Section run.
Context {W : Type} `{!FsHost W, !FsHostLaws W} (FL : Prop) (P : disk → Prop).
Hypothesis made_P : ∀ j s, made j s → P s.

Abbreviation partial := (λ s, ∃ j, made j s).

(** What a made directory answers to Stat and Lstat. *)
Abbreviation found_made m r s := (∃ j, made j s ∧ ∀ nd, r = inr nd → m ≤ j ∧ ∃ md, nd = Dir md).

Lemma stat_made_triple fl m : m ≤ length T →
  triple FL P partial (host_call (op_stat_gen fl (take m T))) (λ r s, found_made m r s).
Proof.
  intros Hm. apply triple_read; [apply reads_on_node; intros q [n|] s a s' [=]; congruence|..].
  - intros s [j Hj]. by eapply made_P.
  - intros s nd [j Hj] Hst. exists j. split; [done|]. intros nd' [= <-].
    by destruct (stat_made j m s fl nd s Hj Hm Hst) as (? & _ & ?).
  - intros s e [j Hj] _ _. by exists j.
Qed.

(** Mkdir, where losing a race is no error. *)
Lemma mkdir_made_triple m mode : m ≤ length T →
  triple FL P partial
    (let! r := Mkdir (take m T) mode in
     match r with
     | inr _ => go_ret (inr ())
     | inl e => let! l := Lstat (take m T) in
                match l with inr (Dir _) => go_ret (inr ()) | _ => go_ret (inl e) end
     end) (λ r s, ∃ j, made j s ∧ (r = inr () → m ≤ j)).
Proof.
  intros Hm. eapply (triple_bind _ _ _ _ _ (λ r s, ∃ j, made j s ∧ (r = inr () → m ≤ j))).
  { apply triple_call.
    - intros s u s' [j Hj] Hop. destruct (made_mkdir j m mode s u s' Hj Hm Hop) as [-> Hmade].
      split; [by eapply made_P|by exists (S j)].
    - intros s e' [j Hj] _ _. by exists j. }
  intros [e'|[]]; [|apply triple_ret; naive_solver].
  eapply triple_bind.
  { eapply triple_pre; [by apply (stat_made_triple false)|]. naive_solver. }
  intros r. destruct r as [e2|nd]; [apply triple_ret; naive_solver|].
  apply triple_at. intros s (j & Hj & Hnd). destruct (Hnd nd eq_refl) as [Hle [md ->]].
  apply triple_ret. intros ? ->. by exists j.
Qed.

Lemma MkdirAll_made n m mode : m ≤ length T →
  triple FL P partial (MkdirAll_fuel n (take m T) mode) (λ r s, ∃ j, made j s ∧ (r = inr () → m ≤ j)).
Proof.
  revert m. induction n as [|n IH]; intros m Hm; cbn [MkdirAll_fuel];
    (eapply triple_bind; [by apply (stat_made_triple true)|]); intros r;
    (destruct r as [e|nd]; [|apply triple_at; intros s (j & Hj & Hnd); destruct (Hnd nd eq_refl) as [Hle [md ->]];
      apply triple_ret; intros ? ->; by exists j]).
  - eapply triple_pre; [by apply mkdir_made_triple|]. naive_solver.
  - destruct (parent_take m) as [->|?]; [|lia]. eapply triple_bind.
    { eapply triple_pre; [apply (IH (m - 1)); lia|]. naive_solver. }
    intros [e'|u]; [apply triple_ret; naive_solver|].
    eapply triple_pre; [by apply mkdir_made_triple|]. naive_solver.
Qed.
End run.
End making.

(** ** The directory the writer meets *)
Section ready.
Context (T : path).

Abbreviation at_name n := (T ++ [n]).

(** In order, with the six names free, or links that show a file. *)
Definition in_order (s : disk) : Prop :=
  target_ok T s ∧ ∀ n, n ∈ cert_filenames → managed T s n ∧
    (∀ nd s', op_stat (at_name n) s = inr (nd, s') → is_Some (view T s n)).

(** In order, or not there yet. *)
Definition dir_ready (s : disk) : Prop := in_order s ∨ ∃ j, made T j s.

Lemma stat_no_file s n : op_stat (at_name n) s = inl ENOENT → view T s n = None.
Proof.
  unfold view, read_at, op_stat, op_stat_gen, op_readfile, on_node.
  destruct (resolve s true (at_name n)) as [e|q]; [done|]. by destruct (node_at s q) as [nd|].
Qed.

Lemma shows_in_order a s : shows_certs T a s → in_order s.
Proof.
  intros [Hok Hs]. split; [done|]. intros n Hn. destruct (Hs n Hn) as [Hm Hv]. split; [done|].
  intros _ _ _. rewrite Hv. unfold new_content. by apply fmap_is_Some, cert_payload_names.
Qed.

Section partial.
Hypothesis T_plain : Forall (λ c, c ≠ "..") T.

Lemma made_below j s n rest : made T j s → s !! (T ++ n :: rest) = None.
Proof.
  intros (Hj & _ & Hno). apply Hno.
  - etrans; [apply prefix_take|]. by exists (n :: rest).
  - intros H. apply (f_equal length) in H. rewrite length_app, length_take in H. simpl in H. lia.
Qed.

Lemma made_stat j s n : made T j s → plain n → op_stat (at_name n) s = inl ENOENT.
Proof.
  intros Hmade Hn. pose proof (made_below j s n [] Hmade) as Hnone.
  unfold op_stat, op_stat_gen, on_node. destruct (decide (length T ≤ j)) as [Hle|Hlt].
  - destruct Hmade as (Hj & Hr & _). rewrite take_ge in Hr by lia. rewrite resolve_below by done.
    rewrite resolve_follow by (first [by eauto with fs_names|by rewrite Hnone]).
    by rewrite node_at_snoc, Hnone.
  - destruct (take_next T T_plain j) as (c & Hdd & Hc & HT); [lia|].
    rewrite HT at 1. rewrite <-app_assoc. simpl.
    rewrite (made_stop T j s true c) by (done || lia). by destruct (drop (S j) T).
Qed.

Lemma made_view j s n : made T j s → n ∈ cert_filenames → view T s n = None.
Proof. intros Hj Hn. eapply stat_no_file, made_stat; [done|]. by apply visible_plain, cert_names_visible. Qed.

(** Once it is made, the directory is in order. *)
Lemma made_managed j s n : made T j s → n ∈ cert_filenames → managed T s n.
Proof. intros Hj Hn. split; [by apply cert_names_visible|]. left. by eapply made_below. Qed.

Lemma made_target_ok j s : made T j s → length T ≤ j → target_ok T s.
Proof.
  intros Hmade Hj. pose proof Hmade as (_ & Hr & _). rewrite take_ge in Hr by lia.
  apply unused_target_ok; [done|by eapply made_below..|]. intros x rest _. by eapply made_below.
Qed.

(** A name that is there shows a file. *)
Lemma ready_shown s n nd s' : dir_ready s → n ∈ cert_filenames →
  op_stat (at_name n) s = inr (nd, s') → is_Some (view T s n).
Proof.
  intros [[_ Hs]|[j Hj]] Hn Hst; [by eapply Hs|].
  rewrite (made_stat j) in Hst; [done|done|]. by apply visible_plain, cert_names_visible.
Qed.
End partial.

(** The certificates the directory shows, if it shows all six files. *)
Definition fs_stored (s : disk) : option Artifacts :=
  match view T s CAKeyName, view T s CACertName, view T s ServerCertName, view T s ServerKeyName,
        view T s ServerCertName2, view T s ServerKeyName2 with
  | Some caKey, Some caCert, Some cert, Some key, Some _, Some _ =>
      Some (mkArtifacts (Some key) (Some cert) (Some caKey) (Some caCert) "")
  | _, _, _, _, _, _ => None
  end.

Lemma fs_stored_same s s' : (∀ n, n ∈ cert_filenames → view T s' n = view T s n) → fs_stored s' = fs_stored s.
Proof. intros H. unfold fs_stored. by rewrite !H by set_solver. Qed.

Lemma fs_stored_none s n : n ∈ cert_filenames → view T s n = None → fs_stored s = None.
Proof.
  unfold cert_filenames, fs_stored. intros Hn Hv.
  repeat (apply elem_of_cons in Hn as [->|Hn]; [rewrite Hv; by repeat case_match|]).
  by apply not_elem_of_nil in Hn.
Qed.

Lemma new_content_stored a s :
  (∀ n, n ∈ cert_filenames → view T s n = new_content (certToProjectionMap a) n) →
  fs_stored s = Some (read_back a).
Proof. intros H. unfold fs_stored. by rewrite !H by set_solver. Qed.

Lemma shows_stored a s : shows_certs T a s → fs_stored s = Some (read_back a).
Proof. intros [_ Hs]. apply new_content_stored. intros n Hn. by apply Hs. Qed.
End ready.

(** ** Writing and reading, with calls that are refused *)
Section refused.
Context {W : Type} `{!FsHost W, !FsHostLaws W}.
Context (range : ∀ V, gmap string V → list (string * V)).
Hypothesis range_perm : ∀ V (m : gmap string V), range V m ≡ₚ map_to_list m.
Hypothesis readlink_true : ∀ q (w : W),
  wp (Readlink q) (λ r _, ∀ e, r = inl e → op_readlink q (disk_of w) = inl e) w.
Context (T : path) (FL : Prop).
Hypothesis T_plain : Forall (λ c, c ≠ "..") T.

Abbreviation at_name n := (T ++ [n]).

(** A reader finds what it found in [s0], or the new certificates. *)
Definition old_or_new (s0 : disk) (a : Artifacts) (s : disk) : Prop :=
  (∀ n, n ∈ cert_filenames → view T s n = view T s0 n) ∨
  (∀ n, n ∈ cert_filenames → view T s n = new_content (certToProjectionMap a) n).

Lemma atomic_old_or_new s0 s1 a s :
  (∀ n, n ∈ cert_filenames → managed T s1 n ∧ view T s1 n = view T s0 n) →
  atomic T s1 (certToProjectionMap a) s → old_or_new s0 a s.
Proof.
  intros Hs1 [H|H]; [left|right]; intros n Hn; destruct (Hs1 n Hn) as [Hm Hv]; [|by apply H].
  rewrite <-Hv. by apply H.
Qed.

(** prepareToWrite makes the directory. *)
Lemma prepareToWrite_made s0 j a : made T j s0 →
  triple FL (old_or_new s0 a) (λ s, s = s0) (prepareToWrite T)
    (λ r s, ∃ j, made T j s ∧ (r = None → length T ≤ j)).
Proof.
  intros Hj.
  assert (∀ j s, made T j s → old_or_new s0 a s) as Hmade.
  { intros j' s' Hj'. left. intros n Hn. by rewrite (made_view T T_plain j'), (made_view T T_plain j). }
  assert (triple FL (old_or_new s0 a) (λ s, made T (length T) s)
    (do! clear_each T cert_filenames in go_ret (@None string)) (λ r s, ∃ j, made T j s ∧ (r = None → length T ≤ j))) as Hclear.
  { apply triple_at. intros s1 Hs1. eapply triple_bind.
    - eapply triple_inv_mono; [|apply (clear_each_managed readlink_true T FL s1 a)].
      + intros s Hs. eapply atomic_old_or_new; [|exact Hs]. intros n Hn.
        split; [by eapply made_managed|]. by rewrite (made_view T T_plain (length T)), (made_view T T_plain j).
      + by eapply made_target_ok.
      + intros n Hn. by eapply made_managed.
      + done.
    - intros []. apply triple_ret. intros s ->. by exists (length T). }
  pose proof (stat_made_triple T T_plain FL (old_or_new s0 a) Hmade true (length T) (le_n _)) as Hstat.
  pose proof (MkdirAll_made T T_plain FL (old_or_new s0 a) Hmade (length T) (length T) 511 (le_n _)) as Hmk.
  rewrite firstn_all in Hstat, Hmk.
  unfold prepareToWrite. eapply triple_bind.
  { eapply triple_pre; [exact Hstat|]. intros s ->. by exists j. }
  assert (∀ s j, made T j s → length T ≤ j → made T (length T) s) as Hfull.
  { intros s j' Hj' Hle. pose proof Hj' as [Hle' _]. by replace (length T) with j' at 1 by lia. }
  intros [e|nd].
  - assert (triple FL (old_or_new s0 a) (λ s, ∃ j, made T j s ∧ ∀ nd, @inl Errno node e = inr nd → length T ≤ j ∧ ∃ md, nd = Dir md)
      (go_ret (Some (errno_message e))) (λ r s, ∃ j, made T j s ∧ (r = None → length T ≤ j))) as Hret
      by (apply triple_ret; intros s (j' & Hj' & _); by exists j').
    destruct e; try exact Hret. eapply triple_bind.
    { eapply triple_pre; [exact Hmk|]. intros s (j' & Hj' & _). by exists j'. }
    intros [e'|[]]; [apply triple_ret; intros s (j' & Hj' & _); by exists j'|]. eapply triple_pre; [exact Hclear|].
    intros s (j' & Hj' & Hle). by eapply Hfull; [|apply Hle].
  - eapply triple_pre; [exact Hclear|]. intros s (j' & Hj' & Hnd). eapply Hfull; [done|]. by apply (Hnd nd).
Qed.

Lemma WriteCertsToDir_ready s0 a : dir_ready T s0 →
  triple FL (old_or_new s0 a) (λ s, s = s0) (WriteCertsToDir range T a)
    (λ r s, old_or_new s0 a s ∧ (r = None → shows_certs T a s)).
Proof.
  intros [[Hok Hs0]|[j Hj]].
  - assert (∀ s, atomic T s0 (certToProjectionMap a) s → old_or_new s0 a s) as Hat.
    { intros s. apply atomic_old_or_new. intros n Hn. split; [by apply Hs0|done]. }
    apply (triple_inv_mono FL _ _ _ _ _ Hat).
    eapply triple_post; [apply (WriteCertsToDir_triple range range_perm readlink_true T FL s0 a Hok)|].
    + intros n Hn. apply (Hs0 n Hn).
    + intros r s [Hs Hr]. split; [apply (Hat _ Hs)|exact Hr].
  - unfold WriteCertsToDir. eapply triple_bind; [by eapply prepareToWrite_made|].
    intros [err|].
    { apply triple_ret. intros s (j' & Hj' & _). split; [|done]. left. intros n Hn.
      by rewrite (made_view T T_plain j'), (made_view T T_plain j). }
    apply triple_at. intros s1 (j' & Hj' & Hle). specialize (Hle eq_refl).
    assert (∀ s, atomic T s1 (certToProjectionMap a) s → old_or_new s0 a s) as Hat.
    { intros s. apply atomic_old_or_new. intros n Hn. split; [by eapply made_managed|].
      by rewrite (made_view T T_plain j'), (made_view T T_plain j). }
    apply (triple_inv_mono FL _ _ _ _ _ Hat). eapply triple_post.
    + apply (write_prepared_triple range range_perm readlink_true T FL s1 a);
        [by eapply made_target_ok|]. intros n Hn. by eapply made_managed.
    + intros r s [Hs Hr]. split; [apply (Hat _ Hs)|exact Hr].
Qed.

End refused.

(** *** Reading *)
Section reading.
Context {W : Type} `{!FsHost W, !FsHostLaws W} (T : path) (FL : Prop).
Hypothesis T_plain : Forall (λ c, c ≠ "..") T.

Abbreviation at_name n := (T ++ [n]).
Abbreviation untouched := (λ _ : disk, True).

Lemma exist_each_triple (l : list string) (s0 : disk) :
  (∀ n, n ∈ l → n ∈ cert_filenames) →
  triple FL untouched (λ s, s = s0) (exist_each T l) (λ r s, s = s0 ∧
    match r with
    | None => ∀ n, n ∈ l → ∃ nd, op_stat (at_name n) s0 = inr (nd, s0)
    | Some e => isNotFound (Some e) = true → ∃ n, n ∈ cert_filenames ∧ op_stat (at_name n) s0 = inl ENOENT
    end).
Proof.
  induction l as [|n l IH]; intros Hl; cbn [exist_each].
  { apply triple_ret. intros s ->. split; [done|]. intros n Hn. by apply not_elem_of_nil in Hn. }
  assert (n ∈ cert_filenames) as Hn by (apply Hl; left).
  rewrite path_Join_plain by by apply visible_plain, cert_names_visible.
  eapply (triple_bind _ _ _ _ _ (λ r s, s = s0 ∧ match r with
    | inr nd => op_stat (at_name n) s0 = inr (nd, s0)
    | inl e => e = ENOENT → op_stat (at_name n) s0 = inl ENOENT end)).
  { apply triple_read; [apply stat_reads|done|by intros s nd ->|by intros s e ->]. }
  intros [e|nd]; apply triple_put.
  - intros He. destruct e; apply triple_ret; intros s ->; (split; [done|]); try by intros.
    intros _. exists n. by split; [|apply He].
  - intros Hst. eapply triple_post; [apply IH; intros n' Hn'; apply Hl; by right|].
    intros [e|] s [-> Hr]; (split; [done|]); [done|]. intros n' [->|Hn']%elem_of_cons; [by exists nd|by apply Hr].
Qed.

Lemma read_file_triple (n : string) (s0 : disk) (k : string → GoM W cert_result) (Q : cert_result → disk → Prop) :
  (∀ e (s : disk), s = s0 → Q (None, Some (otherError e)) s) → n ∈ cert_filenames →
  (∀ d, view T s0 n = Some d → triple FL untouched (λ s, s = s0) (k d) Q) →
  triple FL untouched (λ s, s = s0) (read_or (ReadFile (path_Join T n)) k) Q.
Proof.
  intros He Hn Hk. rewrite path_Join_plain by by apply visible_plain, cert_names_visible.
  unfold read_or. eapply (triple_bind _ _ _ _ _ (λ r s, s = s0 ∧ ∀ d, r = inr d → view T s0 n = Some d)).
  { apply triple_read; [apply readfile_reads|done| |by intros s e ->].
    intros s d -> Hd. split; [done|]. intros ? [= <-]. unfold view, read_at. by rewrite Hd. }
  intros [e|d]; apply triple_put; intros Hd; [by apply triple_ret; intros s ->; apply He|by apply Hk, Hd].
Qed.

Lemma fs_read_triple (dns : string) (s0 : disk) : dir_ready T s0 →
  triple FL untouched (λ s, s = s0) (fs_read (mkFsCertWriter dns T)) (λ '(c, e) s, s = s0 ∧
    match e with
    | None => is_Some c ∧ fs_stored T s0 = c
    | Some e => isNotFound (Some e) = true → fs_stored T s0 = None
    end).
Proof.
  intros Hready. unfold fs_read. cbn [fcw_Path].
  eapply triple_bind; [by apply (exist_each_triple cert_filenames s0)|]. intros r. apply triple_put. intros Hr.
  destruct r as [e|].
  { apply triple_ret. intros s ->. split; [done|]. intros He. destruct (Hr He) as (n & Hn & Hst).
    eapply fs_stored_none; [exact Hn|by apply stat_no_file]. }
  assert (∀ n, n ∈ cert_filenames → is_Some (view T s0 n)) as Hshown.
  { intros n Hn. destruct (Hr n Hn) as [nd Hst]. by eapply ready_shown. }
  repeat (apply read_file_triple; [by intros e s ->|set_solver|];
    let d := fresh "d" in let Hd := fresh "Hd" in intros d Hd).
  apply triple_ret. intros s ->. split; [done|]. split; [done|]. unfold fs_stored.
  destruct (Hshown ServerCertName2) as [? ->]; [set_solver|].
  destruct (Hshown ServerKeyName2) as [? ->]; [set_solver|]. by rewrite Hd, Hd0, Hd1, Hd2.
Qed.
End reading.

(** * The directory when no call is refused

    Before, what the writer leaves whatever the host refuses; here the host refuses nothing,
    and the writer succeeds: it makes the directory if it is not there yet, writes, and
    reads, from every state that it can meet ([dir_ready]). *)
Section calm_directory.
Context {W : Type} `{!FsHost W, !FsHostLaws W}.
Context (range : ∀ V, gmap string V → list (string * V)).
Hypothesis range_perm : ∀ V (m : gmap string V), range V m ≡ₚ map_to_list m.
Hypothesis readlink_true : ∀ q (w : W),
  wp (Readlink q) (λ r _, ∀ e, r = inl e → op_readlink q (disk_of w) = inl e) w.
Context (T : path).
Hypothesis T_plain : Forall (λ c, c ≠ "..") T.

Abbreviation calm := (triple (W := W) True (λ _, True)).
Abbreviation at_name n := (T ++ [n]).

(** ** Making the directory *)
Lemma MkdirAll_calm fuel m j s mode :
  made T j s → m ≤ length T → m ≤ fuel →
  calm (λ s1, s1 = s) (MkdirAll_fuel fuel (take m T) mode) (λ r s', r = inr () ∧ made T (j `max` m) s').
Proof.
  revert m. induction fuel as [|fuel IH]; intros m Hj Hm Hfuel; cbn [MkdirAll_fuel];
    apply (calm_call (op_stat (take m T))); unfold op_stat, op_stat_gen, on_node;
    (destruct (decide (m ≤ j)) as [Hle|Hgt];
     [destruct (made_there T j m s true Hj Hle) as [-> [md ->]]; apply triple_ret; intros s' ->;
      by rewrite Nat.max_l|]); [lia|].
  assert (calm (λ s1, s1 = s)
    (let! up := MkdirAll_fuel fuel (parent (take m T)) mode in
     match up with
     | inl e => go_ret (inl e)
     | inr _ =>
         let! r := Mkdir (take m T) mode in
         match r with
         | inr _ => go_ret (inr ())
         | inl e =>
             let! l := Lstat (take m T) in
             match l with inr (Dir _) => go_ret (inr ()) | _ => go_ret (inl e) end
         end
     end) (λ r s', r = inr () ∧ made T (j `max` m) s')) as Hmake.
  { destruct (parent_take T m) as [->|?]; [|lia]. eapply triple_bind; [apply IH; [done|lia..]|].
    intros up. apply triple_pre_and. intros ->. apply triple_at. intros s1 Hs1.
    replace (j `max` (m - 1)) with (m - 1) in Hs1 by lia. replace (j `max` m) with (S (m - 1)) by lia.
    destruct (made_next T T_plain (m - 1) s1 false Hs1) as [Hres Hnode]; [lia|]. replace (S (m - 1)) with m in * by lia.
    assert (op_mkdir (take m T) mode s1 = inr ((), <[take m T := Dir mode]> s1)) as Hop
      by (unfold op_mkdir, on_node; by rewrite Hres, Hnode).
    apply (calm_call (op_mkdir (take m T) mode)). rewrite Hop. apply triple_ret. intros s' ->. split; [done|].
    destruct (made_mkdir T T_plain (m - 1) m mode s1 () _ Hs1 Hm Hop) as [_ H].
    by replace (S (m - 1)) with m in H by lia. }
  destruct (made_missing T T_plain j m s true Hj) as [(_ & -> & ->)| ->]; [lia|exact Hmake..].
Qed.

Lemma made_calm j s : made T j s →
  calm (λ s1, s1 = s) (prepareToWrite T) (λ r s',
    r = None ∧ target_ok T s' ∧ ∀ n, n ∈ cert_filenames → managed T s' n).
Proof.
  intros Hj. assert (calm (made T (length T)) (do! clear_each T cert_filenames in go_ret (@None string))
    (λ r s', r = None ∧ target_ok T s' ∧ ∀ n, n ∈ cert_filenames → managed T s' n)) as Hclear.
  { apply triple_at. intros s1 Hs1. eapply triple_bind.
    - apply (clear_each_calm T cert_filenames s1); [by eapply made_target_ok|]. intros n Hn. left. by eapply made_managed.
    - intros []. apply triple_ret. intros s' [Hok H']. split_and!; [done|done|]. intros n Hn. apply H'. by left. }
  unfold prepareToWrite. apply (calm_call (op_stat T)). unfold op_stat, op_stat_gen, on_node.
  pose proof Hj as [Hle _]. destruct (decide (length T ≤ j)) as [Hfull|Hpart].
  - destruct (made_there T j (length T) s true Hj Hfull) as [Hres [md Hnode]]. rewrite firstn_all in Hres, Hnode.
    rewrite Hres, Hnode. eapply triple_pre; [exact Hclear|]. intros s1 ->. by replace (length T) with j at 1 by lia.
  - pose proof (MkdirAll_calm (length T) (length T) j s 511 Hj (le_n _) (le_n _)) as Hmk. rewrite firstn_all in Hmk.
    assert (calm (λ s1, s1 = s)
      (let! r := MkdirAll T 511 in
       match r with
       | inl _ => go_ret (Some "can't create dir")
       | inr _ => do! clear_each T cert_filenames in go_ret None
       end) (λ r s', r = None ∧ target_ok T s' ∧ ∀ n, n ∈ cert_filenames → managed T s' n)) as Hmake.
    { eapply triple_bind; [exact Hmk|]. intros r. apply triple_pre_and. intros ->.
      eapply triple_pre; [exact Hclear|]. intros s1. by rewrite Nat.max_r by lia. }
    destruct (made_missing T T_plain j (length T) s true Hj) as [(_ & Hres & Hnode)|Hres]; [lia|..];
      rewrite firstn_all in *; rewrite Hres, ?Hnode; exact Hmake.
Qed.

(** ** Writing *)
Lemma WriteCertsToDir_works s a : dir_ready T s →
  calm (λ s1, s1 = s) (WriteCertsToDir range T a) (λ r s', r = None ∧ shows_certs T a s').
Proof.
  intros [[Hok Hs]|[j Hj]].
  - apply (WriteCertsToDir_calm range range_perm readlink_true); [done|]. intros n Hn. left. by apply Hs.
  - unfold WriteCertsToDir. eapply triple_bind; [by eapply made_calm|]. intros r. apply triple_pre_and. intros ->.
    apply triple_at. intros s1 [Hok1 Hm1]. by apply (write_prepared_calm range range_perm readlink_true).
Qed.

End calm_directory.

(** ** Reading *)
Section calm_reading.
Context {W : Type} `{!FsHost W, !FsHostLaws W} (T : path).
Hypothesis T_plain : Forall (λ c, c ≠ "..") T.

Abbreviation calm := (triple (W := W) True (λ _, True)).
Abbreviation at_name n := (T ++ [n]).

(** A name that is free or linked is there, or is not found. *)
Lemma stat_managed_error s n e :
  target_ok T s → managed T s n → op_stat (at_name n) s = inl e → e = ENOENT.
Proof.
  intros Hok [Hn Hlink]. unfold op_stat, op_stat_gen, on_node. rewrite resolve_below by apply Hok.
  unfold max_links. rewrite resolve_from_cons, decide_False by eauto with fs_names. simpl. destruct Hlink as [Hnone|Hlink].
  - rewrite Hnone, node_at_snoc, Hnone. congruence.
  - unfold linked in Hlink. rewrite Hlink. unfold link_target at 1. rewrite not_abs_cons by apply data_plain.
    rewrite components_link_target by eauto with fs_names. simpl.
    destruct (target_at_data T s Hok) as [Hnone|(x & Hx & Htemp & [m Hdir] & Hfiles)]; [rewrite Hnone; congruence|].
    unfold current in Hx. rewrite Hx, plain_not_abs by eauto with fs_names.
    rewrite components_plain by eauto with fs_names. simpl.
    rewrite decide_False by eauto with fs_names. rewrite Hdir.
    rewrite decide_False by eauto with fs_names. rewrite !snoc2.
    assert (node_at s (T ++ [x; n]) = s !! (T ++ [x; n])) as Hat by (rewrite <-snoc2; apply node_at_snoc).
    destruct (s !! (T ++ [x; n])) as [[| |t]|] eqn:He; rewrite ?Hat; try congruence. by destruct (Hfiles n t).
Qed.

Lemma ready_stat s n e : dir_ready T s → n ∈ cert_filenames → op_stat (at_name n) s = inl e → e = ENOENT.
Proof.
  intros [[Hok Hs]|[j Hj]] Hn Hst; [eapply stat_managed_error; [done|by apply Hs|done]|].
  rewrite (made_stat T T_plain j) in Hst; [congruence|done|]. by apply visible_plain, cert_names_visible.
Qed.

Lemma exist_each_works s l : dir_ready T s → (∀ n, n ∈ l → n ∈ cert_filenames) →
  calm (λ s1, s1 = s) (exist_each T l) (λ r s', s' = s ∧
    (r = None ∧ (∀ n, n ∈ l → ∃ nd, op_stat (at_name n) s = inr (nd, s)) ∨ isNotFound r = true)).
Proof.
  intros Hready. induction l as [|n l IH]; intros Hl; cbn [exist_each].
  { apply triple_ret. intros s' ->. split; [done|left]. split; [done|]. intros n Hn. by apply not_elem_of_nil in Hn. }
  assert (n ∈ cert_filenames) as Hn by (apply Hl; left).
  rewrite path_Join_plain by by apply visible_plain, cert_names_visible. apply (calm_call (op_stat (at_name n))).
  destruct (op_stat (at_name n) s) as [e|[nd s']] eqn:Hst.
  - rewrite (ready_stat s n e Hready Hn Hst). apply triple_ret. auto.
  - pose proof (stat_reads _ _ _ _ Hst) as ->. eapply triple_post; [apply IH; intros n' Hn'; apply Hl; by right|].
    intros r s' [-> [[-> Hall]|Hr]]; (split; [done|]); [left|by right]. split; [done|].
    intros n' [->|Hn']%elem_of_cons; [by exists nd|by apply Hall].
Qed.

(** Certificates are read, or they are not found. *)
Lemma fs_read_works dns s : dir_ready T s →
  calm (λ s1, s1 = s) (fs_read (mkFsCertWriter dns T)) (λ '(c, e) s',
    s' = s ∧ (e = None ∧ is_Some c ∨ isNotFound e = true)).
Proof.
  intros Hready. unfold fs_read. cbn [fcw_Path].
  eapply triple_bind; [by apply (exist_each_works s cert_filenames)|]. intros r.
  apply triple_at. intros s1 [-> [[-> Hall]|Hr]].
  2:{ destruct r as [e|]; [|done]. apply triple_ret. intros s' ->. split; [done|by right]. }
  assert (∀ n, n ∈ cert_filenames → ∃ d, op_readfile (at_name n) s = inr (d, s)) as Hread.
  { intros n Hn. destruct (Hall n Hn) as [nd Hst]. destruct (ready_shown T T_plain s n nd s Hready Hn Hst) as [d Hd].
    exists d. by apply view_reads. }
  unfold read_or. rewrite !path_Join_plain by (by split_and!).
  destruct (Hread CAKeyName) as [d1 H1]; [set_solver|]. destruct (Hread CACertName) as [d2 H2]; [set_solver|].
  destruct (Hread ServerCertName) as [d3 H3]; [set_solver|]. destruct (Hread ServerKeyName) as [d4 H4]; [set_solver|].
  apply (calm_call (op_readfile (at_name CAKeyName))). rewrite H1.
  apply (calm_call (op_readfile (at_name CACertName))). rewrite H2.
  apply (calm_call (op_readfile (at_name ServerCertName))). rewrite H3.
  apply (calm_call (op_readfile (at_name ServerKeyName))). rewrite H4.
  apply triple_ret. intros s' ->. split; [done|left]. by split.
Qed.
End calm_reading.
