(* ===== verification/WebhookServer.v ===== *)
(** * The webhook server: [internal/webhook/server.go]

    Which admission handlers there are, which of them a feature gate turns off, and their
    registration with the HTTP server of controller-runtime ([add_pod.go], and
    [pod/mutating/webhooks.go] and [util/framework/builder.go] for the builders).  The
    package variables are a record; the server and the manager are parameters. *)
From stdpp Require Export sorting.
From S2P Require Export GoStrings.

(** Package variables of server.go over the builders [B] and the handlers [H]; a gate reads
    the feature gates when it is called. *)
Definition FeatureGates : Type := string → bool.
Definition GateFunc : Type := FeatureGates → bool.

Record Registry (B H : Type) := mkRegistry {
  HandlerBuilderMap : gmap string B;
  handlerGates : gmap string GateFunc;
  handlerMap : gmap string H }.
Arguments mkRegistry {B H}.
Arguments HandlerBuilderMap {B H}.
Arguments handlerGates {B H}.
Arguments handlerMap {B H}.

Definition with_builders {B H} (m : gmap string B) (r : Registry B H) : Registry B H :=
  mkRegistry m (handlerGates r) (handlerMap r).
Definition with_handler {B H} (p : string) (h : H) (r : Registry B H) : Registry B H :=
  mkRegistry (HandlerBuilderMap r) (handlerGates r) (<[p := h]> (handlerMap r)).

(** framework.HandlerBuilder; Build of a builder that was given no manager is a nil
    dereference. *)
Class HandlerBuilder (Mgr B H : Type) := {
  WithControllerManager : Mgr → B → B;
  Build : B → option H }.

(** What is served under a path. *)
Inductive Served (H S : Type) :=
| Admission (h : H)
| Conversion (scheme : S)
| Health.
Arguments Admission {H S}.
Arguments Conversion {H S}.
Arguments Health {H S}.

(** webhook.Server of controller-runtime: two hooks under one path are a panic. *)
Class HookServer (W H S : Type) := {
  hooks : W → gmap string (Served H S);
  set_hooks : gmap string (Served H S) → W → W;
  hooks_set m w : hooks (set_hooks m w) = m }.

Section server.
Context {W Mgr B H S : Type} `{!HandlerBuilder Mgr B H, !HookServer W H S}.
(** The order in which a map is ranged over. *)
Variable range : ∀ {V}, gmap string V → list (string * V).
Variable gates : FeatureGates.
Variable GetScheme : Mgr → S.

Definition Register (path : string) (hook : Served H S) : GoM W () := λ w,
  match hooks w !! path with
  | Some _ => (Panic "can't register duplicate path", w)
  | None => (Ret (), set_hooks (<[path := hook]> (hooks w)) w)
  end.

Definition absolute_path (path : string) : string :=
  match path with
  | String "/" _ => path
  | _ => "/" +:+ path
  end.

Definition addHandler (fn : option GateFunc) (r : Registry B H) (pb : string * B) : Registry B H :=
  let '(path, handlerBuilder) := pb in
  if (go_len path =? 0)%Z then r
  else
    let path := absolute_path path in
    mkRegistry (<[path := handlerBuilder]> (HandlerBuilderMap r))
      (match fn with Some fn => <[path := fn]> (handlerGates r) | None => handlerGates r end)
      (handlerMap r).
Definition addHandlersWithGate (m : gmap string B) (fn : option GateFunc) (r : Registry B H) : Registry B H :=
  foldl (addHandler fn) r (range m).

Definition disabled (r : Registry B H) (path : string) : bool :=
  match handlerGates r !! path with Some fn => negb (fn gates) | None => false end.
Definition filterActiveHandlers (r : Registry B H) : Registry B H :=
  let disablePaths := filter (λ path, disabled r path = true) (range (HandlerBuilderMap r)).*1 in
  with_builders (foldl (λ m path, delete path m) (HandlerBuilderMap r) (merge_sort String.le disablePaths)) r.

(** One turn of the loop of SetupWithManager. *)
Definition setup_handler (mgr : Mgr) (pb : string * B) (r : Registry B H) : GoM W (Registry B H) :=
  let '(path, handlerBuilder) := pb in
  match Build (WithControllerManager mgr handlerBuilder) with
  | None => go_panic "invalid memory address or nil pointer dereference"
  | Some handler => do! Register path (Admission handler) in go_ret (with_handler path handler r)
  end.

Definition SetupWithManager (mgr : Mgr) (r : Registry B H) : GoM W (Registry B H) :=
  let r := filterActiveHandlers r in
  let! r := go_for (setup_handler mgr) (range (HandlerBuilderMap r)) r in
  do! Register "/convert" (Conversion (GetScheme mgr)) in
  do! Register "/healthz" Health in
  go_ret r.
End server.

(** ** The builder of the mutating handler: [pod/mutating/webhooks.go] *)
Section builder.
Context {Mgr Client Scheme Decoder : Type}.
Variable GetClient : Mgr → Client.
Variable GetScheme : Mgr → Scheme.
Variable NewDecoder : Scheme → Decoder.

Record PodMutatingHandler := mkPodMutatingHandler { pmh_Client : Client; pmh_Decoder : Decoder }.
Record podMutateBuilder := mkPodMutateBuilder { pmb_mgr : option Mgr }.

Definition podMutate_WithControllerManager (mgr : Mgr) (b : podMutateBuilder) : podMutateBuilder :=
  mkPodMutateBuilder (Some mgr).
Definition podMutate_Build (b : podMutateBuilder) : option PodMutatingHandler :=
  mgr ← pmb_mgr b; Some (mkPodMutatingHandler (GetClient mgr) (NewDecoder (GetScheme mgr))).
Definition podMutate_builder : HandlerBuilder Mgr podMutateBuilder PodMutatingHandler :=
  {| WithControllerManager := podMutate_WithControllerManager; Build := podMutate_Build |}.

(** HandlerBuilderMap of the package mutating, and the init function of add_pod.go. *)
Definition mutating_HandlerBuilderMap : gmap string podMutateBuilder :=
  {[ "mutate-pod" := mkPodMutateBuilder None ]}.
Definition PodMutatingWebhook : string := "PodMutatingWebhook".
Definition registry_init (range : ∀ V, gmap string V → list (string * V))
    : Registry podMutateBuilder PodMutatingHandler :=
  addHandlersWithGate range mutating_HandlerBuilderMap (Some (λ gates, gates PodMutatingWebhook))
    (mkRegistry ∅ ∅ ∅).
End builder.
Arguments PodMutatingHandler : clear implicits.
Arguments podMutateBuilder : clear implicits.
