(* ===== verification/WebhookServerTheorems.v ===== *)
(** * The properties of the webhook server

    What is served once the manager is set up; that the webhooks [Ensure] registers with
    the API server are among it. *)
From S2P Require Export WebhookServer MemConfigurations.

Section server.
Context {W Mgr B H S : Type} `{!HandlerBuilder Mgr B H, !HookServer W H S}.
Context (range : ∀ V, gmap string V → list (string * V)).
Hypothesis range_perm : ∀ V (m : gmap string V), range V m ≡ₚ map_to_list m.
Context (gates : FeatureGates) (GetScheme : Mgr → S).

Definition built (mgr : Mgr) (b : B) : option H := Build (WithControllerManager mgr b).

(** The builders a gate leaves on. *)
Definition active (r : Registry B H) (p : string) : option B :=
  b ← HandlerBuilderMap r !! p; if disabled gates r p then None else Some b.

Lemma foldl_delete {V} (l : list string) (m : gmap string V) p :
  foldl (λ m path, delete path m) m l !! p = if decide (p ∈ l) then None else m !! p.
Proof.
  revert m. induction l as [|q l IH]; intros m; cbn [foldl]; [by rewrite decide_False by apply not_elem_of_nil|].
  rewrite IH. destruct (decide (q = p)) as [->|Hne].
  - rewrite lookup_delete_eq, (decide_True _ _ (list_elem_of_here p l)). by case_decide.
  - rewrite lookup_delete_ne by done. destruct (decide (p ∈ l)) as [Hin|Hin].
    + by rewrite decide_True by by right.
    + rewrite decide_False; [done|]. intros [->|?]%elem_of_cons; done.
Qed.

Lemma range_keys {V} (m : gmap string V) p : p ∈ (range V m).*1 ↔ is_Some (m !! p).
Proof.
  rewrite range_perm, list_elem_of_fmap. split.
  - intros ([k v] & -> & Hk%elem_of_map_to_list). by eexists.
  - intros [v Hv]. exists (p, v). by rewrite elem_of_map_to_list.
Qed.

Lemma filter_active_lookup r p :
  HandlerBuilderMap (filterActiveHandlers range gates r) !! p = active r p.
Proof.
  unfold filterActiveHandlers, active, with_builders. cbn [HandlerBuilderMap]. rewrite foldl_delete.
  assert (p ∈ merge_sort String.le (filter (λ path, disabled gates r path = true) (range B (HandlerBuilderMap r)).*1) ↔
    disabled gates r p = true ∧ is_Some (HandlerBuilderMap r !! p)) as Hin.
  { rewrite merge_sort_Permutation, list_elem_of_filter. by rewrite range_keys. }
  destruct (HandlerBuilderMap r !! p) as [b|]; [|by case_decide].
  cbn [mbind option_bind]. destruct (disabled gates r p).
  - rewrite decide_True; [done|]. apply Hin. by split.
  - rewrite decide_False; [done|]. intros [? _]%Hin. done.
Qed.

Section setup.
Context (mgr : Mgr) (r : Registry B H) (w : W).

(** The state between two turns of the loop: [l] is still to be registered. *)
Definition registered_so_far (l : list (string * B)) (r' : Registry B H) (w' : W) : Prop :=
  NoDup l.*1 ∧ (∀ p b, (p, b) ∈ l → active r p = Some b) ∧
  ∀ p, hooks w' !! p = match active r p with
       | Some b => if decide (p ∈ l.*1) then hooks w !! p else Admission <$> built mgr b
       | None => hooks w !! p end ∧
     handlerMap r' !! p = match active r p with
       | Some b => if decide (p ∈ l.*1) then handlerMap r !! p else built mgr b
       | None => handlerMap r !! p end.

Hypothesis builds : ∀ p b, active r p = Some b → is_Some (built mgr b).
Hypothesis unused : ∀ p, is_Some (active r p) → hooks w !! p = None.

Lemma setup_handler_wp p b l r' w' :
  registered_so_far ((p, b) :: l) r' w' →
  wp (setup_handler mgr (p, b) r') (λ r'' w'', registered_so_far l r'' w'') w'.
Proof.
  intros ([Hp Hnd]%NoDup_cons & Hl & Hreg). assert (active r p = Some b) as Hact by (apply Hl; left).
  destruct (builds p b Hact) as [h Hh]. cbn [setup_handler].
  assert (Build (WithControllerManager mgr b) = Some h) as -> by exact Hh.
  apply wp_bind. unfold wp at 1, Register. destruct (Hreg p) as [Hhook _]. rewrite Hact in Hhook.
  rewrite decide_True in Hhook by (cbn; left). rewrite unused in Hhook by by eexists. rewrite Hhook.
  apply wp_ret. split; [done|]. split; [intros p' b' H'; apply Hl; by right|].
  intros p'. rewrite hooks_set. destruct (Hreg p') as [Hh' Hm']. cbn in Hh', Hm'.
  destruct (decide (p = p')) as [<-|Hne].
  - rewrite Hact. cbn [handlerMap with_handler]. rewrite !lookup_insert_eq. rewrite !decide_False by done. by rewrite Hh.
  - rewrite lookup_insert_ne by done. cbn. rewrite lookup_insert_ne, Hh', Hm' by done.
    destruct (active r p'); [|done]. destruct (decide (p' ∈ l.*1)) as [Hin|Hin].
    + by rewrite !decide_True by by right.
    + rewrite !decide_False by (intros [->|?]%elem_of_cons; done). done.
Qed.

Hypothesis reserved : ∀ p, p = "/convert" ∨ p = "/healthz" → active r p = None ∧ hooks w !! p = None.

(** The hooks once the loop is done, and the two fixed ones. *)
Lemma SetupWithManager_wp :
  wp (SetupWithManager range gates GetScheme mgr r) (λ r' w', ∃ w1, registered_so_far [] r' w1 ∧
    hooks w' = <["/healthz" := Health]> (<["/convert" := Conversion (GetScheme mgr)]> (hooks w1))) w.
Proof.
  unfold SetupWithManager. apply wp_bind.
  set (m := HandlerBuilderMap (filterActiveHandlers range gates r)). eapply wp_mono.
  { apply (wp_for (setup_handler mgr) registered_so_far).
    - split_and!.
      + rewrite range_perm. apply NoDup_fst_map_to_list.
      + intros p b. rewrite range_perm, elem_of_map_to_list. unfold m. by rewrite filter_active_lookup.
      + intros p. destruct (active r p) as [b|] eqn:Hp; [|done].
        rewrite !decide_True by (apply range_keys; unfold m; rewrite filter_active_lookup; by eexists). done.
    - intros [p b] l r1 w1. apply setup_handler_wp. }
  intros r1 w1 Hreg. pose proof Hreg as (_ & _ & Hall). cbn in Hall.
  destruct (reserved "/convert") as [Hac Hhc]; [by left|]. destruct (reserved "/healthz") as [Hah Hhh]; [by right|].
  apply wp_bind. unfold wp at 1, Register. destruct (Hall "/convert") as [Hc _]. rewrite Hac, Hhc in Hc. rewrite Hc.
  apply wp_bind. unfold wp at 1. rewrite hooks_set, lookup_insert_ne by done.
  destruct (Hall "/healthz") as [Hh _]. rewrite Hah, Hhh in Hh. rewrite Hh. apply wp_ret.
  exists w1. split; [done|]. by rewrite !hooks_set.
Qed.

Lemma registered_all r' w1 p :
  registered_so_far [] r' w1 →
  hooks w1 !! p = match active r p with Some b => Admission <$> built mgr b | None => hooks w !! p end ∧
  handlerMap r' !! p = match active r p with Some b => built mgr b | None => handlerMap r !! p end.
Proof.
  intros (_ & _ & Hall). destruct (Hall p) as [-> ->]. destruct (active r p); [|done].
  by rewrite !decide_False by apply not_elem_of_nil.
Qed.

(** What is served, and what handlerMap holds, after SetupWithManager. *)
Definition serves_active (r' : Registry B H) (w' : W) : Prop := ∀ p,
  hooks w' !! p =
    (if decide (p = "/healthz") then Some Health
     else if decide (p = "/convert") then Some (Conversion (GetScheme mgr))
     else match active r p with Some b => Admission <$> built mgr b | None => hooks w !! p end) ∧
  handlerMap r' !! p = match active r p with Some b => built mgr b | None => handlerMap r !! p end.

Lemma SetupWithManager_serves : wp (SetupWithManager range gates GetScheme mgr r) serves_active w.
Proof.
  eapply wp_mono; [apply SetupWithManager_wp|]. intros r' w' (w1 & Hreg & Hhooks) p. rewrite Hhooks.
  destruct (registered_all r' w1 p Hreg) as [Hh Hm]. split; [|done].
  destruct (decide (p = "/healthz")) as [->|H1]; [by rewrite lookup_insert_eq|].
  rewrite lookup_insert_ne by done.
  destruct (decide (p = "/convert")) as [->|H2]; [by rewrite lookup_insert_eq|].
  by rewrite lookup_insert_ne.
Qed.

(** After SetupWithManager the server serves, besides what it served before, an
    admission hook under the path of each builder that no gate turns off, and nothing under
    the others; the conversion hook under /convert and the health handler under /healthz;
    and handlerMap holds exactly the handlers registered.  Each active builder must build,
    and no two hooks may ask for one path. *)
Theorem setup_serves_active_handlers :
  wp (SetupWithManager range gates GetScheme mgr r) (λ r' w', ∀ p,
    hooks w' !! p =
      (if decide (p = "/healthz") then Some Health
       else if decide (p = "/convert") then Some (Conversion (GetScheme mgr))
       else match active r p with Some b => Admission <$> built mgr b | None => hooks w !! p end) ∧
    handlerMap r' !! p = match active r p with Some b => built mgr b | None => handlerMap r !! p end) w.
Proof. exact SetupWithManager_serves. Qed.

(** ** The API server is told of nothing that is not served *)
Section ensured.
Context {C : Type} `{!ConfigurationClient C, !ConfigurationLaws C}.
Context (Getenv : string → string).
Context (UnmarshalWebhooks : WebhookKind → string → string + Webhooks).
Context (MarshalWebhooks : WebhookKind → Webhooks → string + string).
Context (url_Path : string → string + string).

(** C22: Server and registration agree.  Let SetupWithManager run from an empty handlerMap,
    and then let Ensure, given that handlerMap, return nil: every webhook in the two
    configurations has a path under which the server holds an admission hook, and it is the
    handler that handlerMap has for the path. *)
Theorem ensured_webhooks_are_served r' w' (ca : gobytes) (c c' : C) :
  handlerMap r = ∅ →
  runs (SetupWithManager range gates GetScheme mgr r) w r' w' →
  json_roundtrip UnmarshalWebhooks MarshalWebhooks → named Getenv c →
  runs (Ensure Getenv UnmarshalWebhooks MarshalWebhooks url_Path (dom (handlerMap r')) ca) c None c' →
  ∀ kind, ∃ cfg, config_at c' kind (configurationName Getenv kind) = Some cfg ∧
    ∀ wh, wh ∈ default [] (wc_Webhooks cfg) → ∃ template path h,
      served_path url_Path template = Some path ∧
      wh = mkWebhook (wh_Name template) (registered_config Getenv ca (wh_ClientConfig template)) (wh_rest template) ∧
      handlerMap r' !! path = Some h ∧ hooks w' !! path = Some (Admission h).
Proof.
  intros Hempty Hsetup Hjson Hnamed Hrun kind.
  destruct (Ensure_run _ _ _ _ _ _ _ _ Hnamed Hrun kind) as (old & new & Hold & Hnew & rv & Hc).
  exists (wc_with_rv rv new). split; [done|]. unfold ensured_config in Hnew.
  destruct (parseTemplate _ _ kind old) as [err|[t cfg]]; [done|]. injection Hnew as <-.
  intros wh Hwh. cbn in Hwh. unfold registered_webhooks in Hwh.
  rewrite go_appends_elements in Hwh. apply list_elem_of_omap in Hwh as (template & _ & Hreg).
  unfold registered in Hreg. destruct (served_path url_Path template) as [path|] eqn:Hpath; [|done].
  simpl in Hreg. case_decide as Hin; [|done]. injection Hreg as <-.
  pose proof SetupWithManager_wp as (r1 & w1 & Hrun' & w2 & Hso & Hhooks)%wp_runs.
  unfold runs in *. rewrite Hsetup in Hrun'. injection Hrun' as -> ->.
  apply elem_of_dom in Hin as [h Hh]. exists template, path, h. split_and!; [done|done|done|].
  destruct (registered_all _ _ path Hso) as [H1 H2]. rewrite Hh, Hempty, lookup_empty in H2.
  destruct (active r path) as [b|] eqn:Hact; [|done]. rewrite Hhooks.
  assert (path ≠ "/healthz" ∧ path ≠ "/convert") as [Hn1 Hn2].
  { split; intros ->; [destruct (reserved "/healthz")|destruct (reserved "/convert")]; auto; congruence. }
  by rewrite !lookup_insert_ne, H1, <-H2.
Qed.
End ensured.
End setup.
End server.

(** ** The program's own handlers, on a server that is a map *)
Section program.
Definition MemHooks : Type := gmap string (Served (PodMutatingHandler string string) string).
Definition no_hooks : MemHooks := (∅ : gmap string (Served _ string)).
#[local] Instance mem_server : HookServer MemHooks (PodMutatingHandler string string) string.
Proof. by refine {| hooks w := w; set_hooks m _ := m |}. Defined.
#[local] Instance mem_builder : HandlerBuilder string (podMutateBuilder string) (PodMutatingHandler string string) :=
  podMutate_builder (λ m, "client of " +:+ m) (λ m, "scheme of " +:+ m) (λ s, "decoder for " +:+ s).

Definition in_some_order {V} (m : gmap string V) : list (string * V) := map_to_list m.
Lemma in_some_order_perm V (m : gmap string V) : in_some_order m ≡ₚ map_to_list m.
Proof. done. Qed.

Definition program_registry : Registry (podMutateBuilder string) (PodMutatingHandler string string) :=
  registry_init (@in_some_order).
Definition all_on : FeatureGates := λ _, true.
Definition scheme_of (mgr : string) : string := "scheme of " +:+ mgr.
Abbreviation setup_program :=
  (SetupWithManager (W := MemHooks) (@in_some_order) all_on scheme_of "mgr" program_registry).

(** What the program serves: the mutating webhook if its gate is on, and no other. *)
Definition serves_paths (w : MemHooks) (paths : list string) : list bool :=
  (λ p, bool_decide (is_Some (w !! p))) <$> paths.
Example program_serves gate :
  let w := (SetupWithManager (W := MemHooks) (@in_some_order) (λ _, gate) scheme_of "mgr" program_registry no_hooks).2 in
  serves_paths w ["/mutate-pod"; "/convert"; "/healthz"; "/mutate-v1-pod"] = [gate; true; true; false] ∧
  size w = if gate then 3 else 2.
Proof. destruct gate; vm_compute; by split. Qed.

Lemma program_builds p b : active all_on program_registry p = Some b → is_Some (built "mgr" b).
Proof. intros _. by eexists. Qed.
Lemma program_unused p : is_Some (active all_on program_registry p) → hooks no_hooks !! p = None.
Proof. intros _. exact (lookup_empty p). Qed.
Lemma program_reserved p : p = "/convert" ∨ p = "/healthz" →
  active all_on program_registry p = None ∧ hooks no_hooks !! p = None.
Proof. by intros [->| ->]. Qed.

Lemma setup_serves_active_handlers_witness :
  wp setup_program (λ r' w', hooks w' !! "/mutate-pod" = Some (Admission
    (mkPodMutatingHandler "client of mgr" "decoder for scheme of mgr"))) no_hooks.
Proof.
  eapply wp_mono.
  - exact (setup_serves_active_handlers (W := MemHooks) (@in_some_order) in_some_order_perm all_on scheme_of
      "mgr" program_registry no_hooks program_builds program_unused program_reserved).
  - intros r' w' H. exact (proj1 (H "/mutate-pod")).
Defined.

Definition program_server : MemHooks := (setup_program no_hooks).2.
Definition program_handlers : Registry (podMutateBuilder string) (PodMutatingHandler string string) :=
  match setup_program no_hooks with (Ret r, _) => r | _ => program_registry end.

Lemma program_setup_runs : runs setup_program no_hooks program_handlers program_server.
Proof. reflexivity. Qed.
Lemma program_handlers_paths : dom (handlerMap program_handlers) = demo_handlers.
Proof.
  assert (∃ h, handlerMap program_handlers = {[ "/mutate-pod" := h ]}) as [h ->] by by eexists.
  apply dom_singleton_L.
Qed.
Lemma program_ensure_runs :
  runs (Ensure demo_env mem_unmarshal mem_marshal demo_url_path (dom (handlerMap program_handlers)) demo_ca)
    demo_configs None demo_ensured.
Proof. rewrite program_handlers_paths. apply demo_ensure_runs. Qed.

Lemma ensured_webhooks_are_served_witness :
  ∃ cfg, config_at demo_ensured Mutating (configurationName demo_env Mutating) = Some cfg ∧
    ∀ wh, wh ∈ default [] (wc_Webhooks cfg) → ∃ template path h,
      served_path demo_url_path template = Some path ∧
      wh = mkWebhook (wh_Name template) (registered_config demo_env demo_ca (wh_ClientConfig template)) (wh_rest template) ∧
      handlerMap program_handlers !! path = Some h ∧ hooks program_server !! path = Some (Admission h).
Proof.
  exact (ensured_webhooks_are_served (W := MemHooks) (@in_some_order) in_some_order_perm all_on scheme_of
    "mgr" program_registry no_hooks program_builds program_unused program_reserved
    demo_env mem_unmarshal mem_marshal demo_url_path program_handlers program_server demo_ca
    demo_configs demo_ensured eq_refl program_setup_runs mem_json demo_named program_ensure_runs Mutating).
Defined.
End program.
