(* ===== verification/PackageInit.v ===== *)
(** * The initialization of the packages

    What Go runs before main: the feature gates of [pkg/features/features.go] and
    [pkg/util/feature/feature_gate.go]; the schemes of [api/apps/v1alpha1]
    ([groupversion_info.go], the init function of [persistentpodstate_types.go]), of the
    clientsets ([scheme/register.go], [fake/register.go]) and of [cmd/main.go].  The gate of
    component-base and the schemes of apimachinery are interfaces.  And what it is for: the
    webhook is on, and the clients know their types. *)
From S2P Require Export WebhookServerTheorems.
From S2P Require Import Clientset.

(** utilruntime.Must *)
Definition Must {W} (m : GoM W (option string)) : GoM W () :=
  let! err := m in match err with Some err => go_panic err | None => go_ret () end.

(** ** Feature gates *)
Inductive PreRelease := Alpha | Beta | GA | Deprecated.
Record FeatureSpec := mkFeatureSpec { fs_Default : bool; fs_PreRelease : PreRelease }.
#[export] Instance FeatureSpec_eq_dec : EqDecision FeatureSpec.
Proof. unfold EqDecision, Decision. decide equality; decide equality. Defined.

Class FeatureGate (G : Type) := {
  NewFeatureGate : G;
  gate_Add : gmap string FeatureSpec → GoM G (option string);
  gate_Enabled : G → string → bool }.

Definition defaultFeatureGates : gmap string FeatureSpec := {[ PodMutatingWebhook := mkFeatureSpec true Beta ]}.
Definition DisablePVCReservation : string := "DisablePVCReservation".
Definition defaultDeschedulerFeatureGates : gmap string FeatureSpec :=
  {[ DisablePVCReservation := mkFeatureSpec false Beta ]}.

(** DefaultMutableFeatureGate, which DefaultFeatureGate is too: the state of this. *)
Definition features_init {G} `{!FeatureGate G} : GoM G () :=
  do! Must (gate_Add defaultFeatureGates) in
  do! Must (gate_Add defaultDeschedulerFeatureGates) in
  go_ret ().
Definition SetDefaultFeatureGates {G} : GoM G () := go_ret ().

(** A gate knows features; it takes those it does not know, and until it is told otherwise a
    known feature is as its specification says. *)
Class FeatureGateLaws (G : Type) `{!FeatureGate G} := {
  known : G → gmap string FeatureSpec;
  untold : G → Prop;
  new_gate : untold NewFeatureGate ∧ known NewFeatureGate !! PodMutatingWebhook = None ∧
    known NewFeatureGate !! DisablePVCReservation = None;
  gate_add_law m g : (∀ k, is_Some (m !! k) → known g !! k = None) → untold g →
    wp (gate_Add m) (λ e g', e = None ∧ known g' = m ∪ known g ∧ untold g') g;
  enabled_law g k spec : untold g → known g !! k = Some spec → gate_Enabled g k = fs_Default spec }.

(** ** Schemes *)
Class SchemeLibrary (S : Type) := {
  NewScheme : S;
  (** scheme.Builder of controller-runtime *)
  Builder : Type;
  new_Builder : GroupVersion → Builder;
  builder_Register : list string → Builder → Builder;
  builder_AddToScheme : Builder → GoM S (option string);
  (** runtime.SchemeBuilder *)
  SchemeBuilder_AddToScheme : list (GoM S (option string)) → GoM S (option string);
  metav1_AddToGroupVersion : GroupVersion → GoM S ();
  clientgoscheme_AddToScheme : GoM S (option string);
  kubevirt_AddToScheme : GoM S (option string);
  calico_AddToScheme : GoM S (option string) }.

Section schemes.
Context {S : Type} `{!SchemeLibrary S}.

(** The Go types of the group, by name. *)
Definition group_types : list string := ["PersistentPodState"; "PersistentPodStateList"].

(** var SchemeBuilder, as the init function of persistentpodstate_types.go leaves it; the
    method value AddToScheme has it for its receiver, a pointer. *)
Definition SchemeBuilder : Builder := builder_Register group_types (new_Builder SchemeGroupVersion).
Definition apps_AddToScheme : GoM S (option string) := builder_AddToScheme SchemeBuilder.

(** scheme/register.go: localSchemeBuilder, AddToScheme and init. *)
Definition localSchemeBuilder : list (GoM S (option string)) := [apps_AddToScheme].
Definition clientset_AddToScheme : GoM S (option string) := SchemeBuilder_AddToScheme localSchemeBuilder.
Definition clientset_scheme_init : GoM S () :=
  do! metav1_AddToGroupVersion (mkGroupVersion "" "v1") in
  Must clientset_AddToScheme.

(** fake/register.go: the same again, for a scheme of its own. *)
Definition fake_localSchemeBuilder : list (GoM S (option string)) := [apps_AddToScheme].
Definition fake_AddToScheme : GoM S (option string) := SchemeBuilder_AddToScheme fake_localSchemeBuilder.
Definition fake_scheme_init : GoM S () :=
  do! metav1_AddToGroupVersion (mkGroupVersion "" "v1") in
  Must fake_AddToScheme.

(** The init function of main.go. *)
Definition main_init : GoM S () :=
  do! Must clientgoscheme_AddToScheme in
  do! Must apps_AddToScheme in
  do! Must kubevirt_AddToScheme in
  do! Must calico_AddToScheme in
  go_ret ().
End schemes.

(** A scheme recognizes types of a group and version, and never forgets one; a builder adds
    those registered with it; a list of functions is run up to the first error. *)
Class SchemeLaws (S : Type) `{!SchemeLibrary S} := {
  recognizes : S → GroupVersion → string → Prop;
  builder_law gv types b : b = builder_Register types (new_Builder gv) →
    always (λ s s', ∀ gv k, recognizes s gv k → recognizes s' gv k) (builder_AddToScheme b) ∧
    ∀ s s', runs (builder_AddToScheme b) s None s' → ∀ k, k ∈ types → recognizes s' gv k;
  builders_law fs s : SchemeBuilder_AddToScheme fs s = go_for (λ (f : GoM S (option string)) err,
    match err with Some _ => go_ret err | None => f end) fs None s;
  others_keep m : m ∈ [clientgoscheme_AddToScheme; kubevirt_AddToScheme; calico_AddToScheme] →
    always (λ s s', ∀ gv k, recognizes s gv k → recognizes s' gv k) m }.

Section init.
Context {G : Type} `{!FeatureGate G, !FeatureGateLaws G}.

Lemma Must_wp (m : GoM G (option string)) (Q : G → Prop) g :
  wp m (λ e g', e = None ∧ Q g') g → wp (Must m) (λ _ g', Q g') g.
Proof. intros H. apply wp_bind. eapply wp_mono; [exact H|]. intros e g' [-> HQ]. by apply wp_ret. Qed.

(** The gates once the package is initialized. *)
Lemma features_init_wp :
  wp features_init (λ _ g, gate_Enabled g PodMutatingWebhook = true ∧ gate_Enabled g DisablePVCReservation = false)
    (NewFeatureGate (G := G)).
Proof.
  destruct (new_gate (G := G)) as (Hu & Hp & Hd). unfold features_init.
  apply wp_bind, Must_wp. eapply wp_mono; [apply gate_add_law; [|done]|].
  { unfold defaultFeatureGates. by intros k [spec [<- _]%lookup_singleton_Some]. }
  intros e g1 (-> & Hk1 & Hu1). split; [done|].
  apply wp_bind, Must_wp. eapply wp_mono; [apply gate_add_law; [|done]|].
  { unfold defaultDeschedulerFeatureGates. intros k [spec [<- _]%lookup_singleton_Some]. by rewrite Hk1, lookup_union_r. }
  intros e g2 (-> & Hk2 & Hu2). split; [done|]. apply wp_ret. split.
  - apply (enabled_law g2 PodMutatingWebhook (mkFeatureSpec true Beta)); [done|].
    rewrite Hk2, lookup_union_r, Hk1; [|done]. apply lookup_union_Some_l. apply lookup_singleton_eq.
  - apply (enabled_law g2 DisablePVCReservation (mkFeatureSpec false Beta)); [done|].
    rewrite Hk2. apply lookup_union_Some_l. apply lookup_singleton_eq.
Qed.
End init.

Section schemes_facts.
Context {S : Type} `{!SchemeLibrary S, !SchemeLaws S}.

Lemma Must_runs (m : GoM S (option string)) s s' : runs (Must m) s () s' → runs m s None s'.
Proof. intros ([err|] & s1 & Hm & Hk)%go_bind_inv; [done|]. by injection Hk as <-. Qed.

Lemma apps_recognized (s s' : S) k :
  runs apps_AddToScheme s None s' → k ∈ group_types → recognizes s' SchemeGroupVersion k.
Proof. intros Hrun. exact (proj2 (builder_law SchemeGroupVersion group_types _ eq_refl) s s' Hrun k). Qed.

(** Once initialized, the schemes of the clientsets and of main know the types of the group. *)
Lemma schemes_know_the_group (s : S) k :
  k ∈ group_types →
  (runs clientset_scheme_init NewScheme () s → recognizes s SchemeGroupVersion k) ∧
  (runs fake_scheme_init NewScheme () s → recognizes s SchemeGroupVersion k) ∧
  (runs main_init NewScheme () s → recognizes s SchemeGroupVersion k).
Proof.
  intros Hk. assert (∀ s s', runs (SchemeBuilder_AddToScheme [apps_AddToScheme]) s None s' →
    recognizes s' SchemeGroupVersion k) as Hsingle.
  { intros s0 s' Hrun. unfold runs in Hrun. rewrite builders_law in Hrun.
    apply go_bind_inv in Hrun as (e & s2 & Hrun & Hret). injection Hret as -> ->. by eapply apps_recognized. }
  split; [|split].
  - intros ([] & s1 & _ & Hrun%Must_runs)%go_bind_inv. by eapply Hsingle.
  - intros ([] & s1 & _ & Hrun%Must_runs)%go_bind_inv. by eapply Hsingle.
  - intros ([] & s1 & _ & Hrun)%go_bind_inv. apply go_bind_inv in Hrun as ([] & s2 & Happs%Must_runs & Hrun).
    apply go_bind_inv in Hrun as ([] & s3 & Hkv%Must_runs & Hrun).
    apply go_bind_inv in Hrun as ([] & s4 & Hcal%Must_runs & Hret). injection Hret as ->.
    eapply (always_runs _ _ _ _ _ (others_keep calico_AddToScheme ltac:(set_solver)) Hcal).
    eapply (always_runs _ _ _ _ _ (others_keep kubevirt_AddToScheme ltac:(set_solver)) Hkv).
    by eapply apps_recognized.
Qed.
End schemes_facts.

(** ** What an initialized process serves *)
Section served.
Context {G : Type} `{!FeatureGate G, !FeatureGateLaws G}.
Context {W Mgr Client Scheme Decoder : Type}.
Context (GetClient : Mgr → Client) (GetScheme : Mgr → Scheme) (NewDecoder : Scheme → Decoder).
Context (range : ∀ V, gmap string V → list (string * V)).
Hypothesis range_perm : ∀ V (m : gmap string V), range V m ≡ₚ map_to_list m.
Abbreviation handler := (PodMutatingHandler Client Decoder).
Context {HS : HookServer W handler Scheme}.
#[local] Instance program_builder : HandlerBuilder Mgr (podMutateBuilder Mgr) handler :=
  podMutate_builder GetClient GetScheme NewDecoder.
Abbreviation registry := (registry_init (Client := Client) (Decoder := Decoder) range : Registry (podMutateBuilder Mgr) handler).

Lemma registry_init_eq :
  registry = mkRegistry {[ "/mutate-pod" := mkPodMutateBuilder None ]}
    {[ "/mutate-pod" := λ gates, gates PodMutatingWebhook ]} ∅.
Proof.
  unfold registry_init, addHandlersWithGate.
  assert (range _ (mutating_HandlerBuilderMap (Mgr := Mgr)) = [("mutate-pod", mkPodMutateBuilder None)]) as ->.
  { apply Permutation_singleton_r. rewrite range_perm. unfold mutating_HandlerBuilderMap. by rewrite map_to_list_singleton. }
  reflexivity.
Qed.

Definition pod_handler (mgr : Mgr) : handler := mkPodMutatingHandler (GetClient mgr) (NewDecoder (GetScheme mgr)).

Lemma registry_active gates p :
  gates PodMutatingWebhook = true →
  active gates registry p = if decide (p = "/mutate-pod") then Some (mkPodMutateBuilder None) else None.
Proof.
  intros Hg. rewrite registry_init_eq. unfold active, disabled. cbn [HandlerBuilderMap handlerGates].
  case_decide as Hp; [subst|].
  - rewrite !lookup_singleton_eq. cbn. by rewrite Hg.
  - by rewrite !(lookup_singleton_ne "/mutate-pod" p) by congruence.
Qed.

(** C26: Out of the box.  Once the packages are initialized, setting up the webhook server of a
    manager makes the process serve exactly three paths: /mutate-pod by the handler of Pods
    with the manager's client and a decoder for its scheme, the conversion hook, and the
    health check; and handlerMap, from which the webhooks are registered, holds exactly that
    handler. *)
Theorem initialized_process_serves mgr w :
  hooks w = ∅ →
  wp features_init (λ _ g,
    wp (SetupWithManager range (gate_Enabled g) GetScheme mgr registry) (λ r' w',
      hooks w' = <["/mutate-pod" := Admission (pod_handler mgr)]>
        (<["/convert" := Conversion (GetScheme mgr)]> {[ "/healthz" := Health ]}) ∧
      handlerMap r' = {[ "/mutate-pod" := pod_handler mgr ]}) w) (NewFeatureGate (G := G)).
Proof.
  intros Hw. eapply wp_mono; [apply features_init_wp|]. intros [] g [Hg _].
  pose proof (λ p, registry_active (gate_Enabled g) p Hg) as Hact.
  eapply wp_mono; [apply (SetupWithManager_serves range range_perm (gate_Enabled g) GetScheme mgr)|].
  - intros p b. rewrite Hact. case_decide; [|done]. intros _. by eexists.
  - intros p _. by rewrite Hw.
  - intros p Hp. rewrite Hact, Hw, decide_False by (intros ->; by destruct Hp). done.
  - intros r' w' Hserves. assert (handlerMap registry = ∅) as Hmap by by rewrite registry_init_eq.
    split; apply map_eq; intros p; destruct (Hserves p) as [Hh Hm]; rewrite ?Hh, ?Hm, Hact, ?Hw, ?Hmap.
    + destruct (decide (p = "/healthz")) as [->|H1]; [done|]. destruct (decide (p = "/convert")) as [->|H2]; [done|].
      case_decide as H3; [by subst|]. by rewrite !lookup_insert_ne, lookup_singleton_ne, lookup_empty by congruence.
    + destruct (decide (p = "/mutate-pod")) as [->|H3]; [by rewrite lookup_singleton_eq|]. by rewrite (lookup_singleton_ne "/mutate-pod" p), lookup_empty by congruence.
Qed.
End served.

(** *** Witness: a gate that is the map of what it knows *)
Definition MemGate : Type := gmap string FeatureSpec.
#[export] Instance mem_gate : FeatureGate MemGate := {|
  NewFeatureGate := ({[ "AllAlpha" := mkFeatureSpec false Alpha ]} : gmap string FeatureSpec);
  gate_Add m := λ g, (Ret None, m ∪ (g : gmap string FeatureSpec));
  gate_Enabled g k := match (g : gmap string FeatureSpec) !! k with Some spec => fs_Default spec | None => false end |}.
#[export] Instance mem_gate_laws : FeatureGateLaws MemGate.
Proof.
  refine {| known g := g; untold _ := True |}; [done|done|]. intros g k spec _ Hk. unfold gate_Enabled. cbn. by rewrite Hk.
Qed.

#[local] Existing Instance mem_server.
#[local] Existing Instance mem_builder.
Definition program_handler : PodMutatingHandler string string :=
  mkPodMutatingHandler "client of mgr" "decoder for scheme of mgr".
Definition program_hooks : MemHooks :=
  <["/mutate-pod" := Admission program_handler]> (<["/convert" := Conversion "scheme of mgr"]> {[ "/healthz" := Health ]}).

Lemma initialized_process_serves_witness :
  wp features_init (λ _ g,
    wp (SetupWithManager (W := MemHooks) (@in_some_order) (gate_Enabled g) scheme_of "mgr" program_registry) (λ r' w',
      hooks w' = program_hooks ∧ handlerMap r' = {[ "/mutate-pod" := program_handler ]}) no_hooks)
    (NewFeatureGate (G := MemGate)).
Proof.
  exact (initialized_process_serves (W := MemHooks) (λ m, "client of " +:+ m) scheme_of (λ s, "decoder for " +:+ s)
    (@in_some_order) in_some_order_perm "mgr" no_hooks eq_refl).
Defined.
