(* ===== verification/HealthChecker.v ===== *)
(** * The health check: [internal/webhook/util/health]

    [checker.go]: a client that trusts the CA certificate in the certificate directory,
    reloaded when the file changes, and a check that asks the server for /healthz;
    [handler.go]: what answers.  The package variables are a record in front of the world;
    a sync.Once is done once its function has returned or panicked.  The file watcher and
    the HTTP client are parameters. *)
From S2P Require Export WebhookUtil FileSystemFacts CertWriter.

(** http.Client, as the program builds it: the certificates it trusts; None is a pool into
    which no certificate could be parsed. *)
Record HttpClient (Pool : Type) := mkHttpClient { hc_RootCAs : option Pool }.
Arguments mkHttpClient {Pool}.
Arguments hc_RootCAs {Pool}.

(** The package variables onceWatch and client. *)
Record HealthVars (Pool : Type) := mkHealthVars {
  onceWatch : bool;
  client : option (HttpClient Pool) }.
Arguments mkHealthVars {Pool}.
Arguments onceWatch {Pool}.
Arguments client {Pool}.

(** fsnotify: an event is a name and a set of bits. *)
Record Event := mkEvent { ev_Name : path; ev_Op : Z }.

Section checker.
Context {W Pool : Type} `{!FsHost W}.
Variable Getenv : string → string.
(** fsnotify.Create, fsnotify.Write, fsnotify.Remove; NewWatcher, and Add of a watcher *)
Variable Create_bit Write_bit Remove_bit : Z.
Variable NewWatcher : GoM W (option string).
Variable Watcher_Add : path → GoM W (option string).
(** x509.CertPool.AppendCertsFromPEM on an empty pool, Do of an http.Client, http.NewRequest *)
Variable AppendCerts : string → option Pool.
Variable client_Do : HttpClient Pool → string → GoM W (option string).
Variable NewRequest : string → option string.

Abbreviation vars := (HealthVars Pool).
Abbreviation M A := (GoM (vars * W) A).

Definition on_world {A} (m : GoM W A) : M A := λ '(v, w), let '(o, w') := m w in (o, (v, w')).
Definition get_vars : M vars := λ '(v, w), (Ret v, (v, w)).
Definition set_client (c : HttpClient Pool) : M () := λ '(v, w),
  (Ret (), (mkHealthVars (onceWatch v) (Some c), w)).

(** onceWatch.Do(f) *)
Definition onceWatch_Do (f : M ()) : M () := λ '(v, w),
  if onceWatch v then (Ret (), (v, w))
  else let '(o, (v', w')) := f (v, w) in (o, (mkHealthVars true (client v'), w')).

Definition caCertFilePath : path := path_Join (path_Join [] (GetCertDir Getenv)) CACertName.

(** func loadHTTPClientWithCACert: what AppendCertsFromPEM returns is not looked at. *)
Definition loadHTTPClientWithCACert : M (option Errno) :=
  let! r := on_world (ReadFile caCertFilePath) in
  match r with
  | inl err => go_ret (Some err)
  | inr caCert => do! set_client (mkHttpClient (AppendCerts caCert)) in go_ret None
  end.

Definition isWrite (event : Event) : bool := (Z.land (ev_Op event) Write_bit =? Write_bit)%Z.
Definition isCreate (event : Event) : bool := (Z.land (ev_Op event) Create_bit =? Create_bit)%Z.
Definition isRemove (event : Event) : bool := (Z.land (ev_Op event) Remove_bit =? Remove_bit)%Z.

(** One event in the loop of watchCACert; errors are only logged. *)
Definition watch_event (event : Event) : M () :=
  if negb (isWrite event || isRemove event || isCreate event) then go_ret ()
  else
    do! (if isRemove event then on_world (Watcher_Add (ev_Name event)) else go_ret None) in
    do! loadHTTPClientWithCACert in go_ret ().

(** The loop, over the events of a channel until it is closed. *)
Definition watchCACert (events : list Event) : M () := go_for (λ e _, watch_event e) events ().

(** The function given to onceWatch.Do; the watch it starts is watchCACert. *)
Definition first_watch : M () :=
  let! err := loadHTTPClientWithCACert in
  match err with
  | Some _ => go_panic "failed to load ca-cert for the first time"
  | None =>
      let! err := on_world NewWatcher in
      match err with
      | Some _ => go_panic "failed to new ca-cert watcher"
      | None =>
          let! err := on_world (Watcher_Add caCertFilePath) in
          match err with
          | Some _ => go_panic "failed to add into watcher"
          | None => go_ret ()
          end
      end
  end.

Definition Checker : M (option string) :=
  do! onceWatch_Do first_watch in
  let! port := on_world (GetPort Getenv) in
  let url := "https://localhost:" +:+ pretty port +:+ "/healthz" in
  match NewRequest url with
  | Some err => go_ret (Some err)
  | None =>
      let! v := get_vars in
      match client v with
      | None => go_panic "invalid memory address or nil pointer dereference"
      | Some c => on_world (client_Do c url)
      end
  end.
End checker.

(** func (wh *Handler) ServeHTTP: the status written. *)
Definition ServeHTTP : Z := 200.
