(* ===== verification/HealthTheorems.v ===== *)
(** * The properties of the health check *)
From S2P Require Export HealthChecker MemHost.

Section checker.
Context {W Pool : Type} `{!FsHost W, !FsHostLaws W}.
Context (Getenv : string → string) (Create_bit Write_bit Remove_bit : Z).
Context (NewWatcher : GoM W (option string)) (Watcher_Add : path → GoM W (option string)).
Context (AppendCerts : string → option Pool).
Context (client_Do : HttpClient Pool → string → GoM W (option string)) (NewRequest : string → option string).
(** Watching a file does not change the disk, nor make later calls fail. *)
Hypothesis watcher_add_law : ∀ p w, wp (Watcher_Add p) (λ _ w',
  disk_of w' = disk_of w ∧ (faultless w → faultless w')) w.

Abbreviation vars := (HealthVars Pool).
Abbreviation ca_file := (caCertFilePath Getenv).
Abbreviation load := (loadHTTPClientWithCACert Getenv AppendCerts).
Abbreviation check := (Checker Getenv NewWatcher Watcher_Add AppendCerts client_Do NewRequest).
Abbreviation event := (watch_event Getenv Create_bit Write_bit Remove_bit Watcher_Add AppendCerts).

Lemma wp_on_world {A} (m : GoM W A) (Q : A → vars * W → Prop) v w :
  wp m (λ a w', Q a (v, w')) w → wp (on_world m) Q (v, w).
Proof. unfold wp, on_world. by destruct (m w) as [[]]. Qed.

(** The client that trusts what the CA file holds on this disk. *)
Definition trusts (s : disk) (c : option (HttpClient Pool)) : Prop :=
  ∃ d, read_at s ca_file = Some d ∧ c = Some (mkHttpClient (AppendCerts d)).

Lemma load_wp (v : vars) (w : W) :
  wp load (λ e '(v', w'), disk_of w' = disk_of w ∧ onceWatch v' = onceWatch v ∧
    (match e with None => trusts (disk_of w) (client v') | Some _ => client v' = client v end) ∧
    (faultless w → e = None ↔ is_Some (read_at (disk_of w) ca_file))) (v, w).
Proof.
  unfold loadHTTPClientWithCACert. apply wp_bind, wp_on_world. wp_call (host_call_law (op_readfile ca_file)).
  intros [e|d] w' [Hr Hfl].
  - apply wp_ret. destruct Hr as (Hd & _). split_and!; [done..|]. intros H.
    destruct (Hfl H) as [_ He]. specialize (He e eq_refl). unfold read_at. rewrite He.
    split; [done|by intros []].
  - destruct Hr as (s' & Hf & Hd & _). pose proof (readfile_reads _ _ _ _ Hf) as ->.
    apply wp_bind. unfold wp, set_client, go_ret. cbn.
    assert (read_at (disk_of w) ca_file = Some d) as Hread by (unfold read_at; by rewrite Hf).
    split_and!; [done|done|by exists d|]. intros _. split; [intros _; by exists d|done].
Qed.

Definition relevant (e : Event) : bool :=
  isWrite Write_bit e || isRemove Remove_bit e || isCreate Create_bit e.

Lemma watch_event_wp e (v : vars) (w : W) :
  wp (event e) (λ _ '(v', w'),
    (client v' = client v ∨ trusts (disk_of w) (client v')) ∧
    (relevant e = true → faultless w → is_Some (read_at (disk_of w) ca_file) →
      trusts (disk_of w) (client v'))) (v, w).
Proof.
  unfold watch_event. fold (relevant e). destruct (relevant e); cbn [negb].
  2: { apply wp_ret. split; [by left|done]. }
  apply wp_bind. eapply (wp_mono _ (λ _ '(v', w'), v' = v ∧ disk_of w' = disk_of w ∧ (faultless w → faultless w'))).
  { destruct (isRemove Remove_bit e); [|by apply wp_ret]. apply wp_on_world.
    wp_call watcher_add_law. intros _ w' [? ?]. done. }
  intros _ [v1 w1] (-> & Hd1 & Hf1). apply wp_bind. wp_call load_wp. intros r [v2 w2] (_ & _ & Hr & Hf).
  rewrite Hd1 in *. apply wp_ret. split; [destruct r; auto|]. intros _ Hfl Hs.
  specialize (Hf (Hf1 Hfl)). by rewrite (proj2 Hf Hs) in Hr.
Qed.

(** A run of the watch, while others change the disk: [seen] is what the disk has been. *)
Inductive watched (v0 : vars) (w0 : W) : list disk → vars → W → Prop :=
| watched_start : watched v0 w0 [disk_of w0] v0 w0
| watched_other seen v w w' : watched v0 w0 seen v w → watched v0 w0 (disk_of w' :: seen) v w'
| watched_event seen v w e v' w' :
    watched v0 w0 seen v w → runs (event e) (v, w) () (v', w') → watched v0 w0 (disk_of w' :: seen) v' w'.

Lemma watched_now v0 w0 seen v w : watched v0 w0 seen v w → disk_of w ∈ seen.
Proof. destruct 1; left. Qed.

Lemma first_check_run w0 r v w :
  runs check (mkHealthVars false None, w0) r (v, w) →
  onceWatch v = true ∧ trusts (disk_of w0) (client v).
Proof.
  unfold Checker. intros ([] & [v1 w1] & Honce & Hrest)%go_bind_inv.
  assert (onceWatch v1 = true ∧ trusts (disk_of w0) (client v1)) as Hv1.
  { unfold runs, onceWatch_Do in Honce. cbn in Honce.
    destruct (first_watch _ _ _ _ _) as [o [v' w']] eqn:Hfirst. injection Honce as -> <- <-.
    split; [done|]. unfold first_watch in Hfirst.
    pose proof (load_wp (mkHealthVars false None) w0) as Hload. unfold wp in Hload. unfold go_bind at 1 in Hfirst.
    destruct (load (mkHealthVars false None, w0)) as [[e|why] [v2 w2]]; [|done].
    destruct Hload as (_ & _ & Hc & _). destruct e as [e|]; [done|]. cbn.
    assert (∀ A (m : GoM W A) (k : A → GoM (vars * W) ()) (v : vars) (w : W) v' w',
      go_bind (on_world m) k (v, w) = (Ret (), (v', w')) → ∃ a w1, k a (v, w1) = (Ret (), (v', w'))) as Hbind.
    { intros A m k v3 w3 v4 w4. unfold go_bind, on_world. destruct (m w3) as [[a|] w5]; [|done].
      intros H. by exists a, w5. }
    apply Hbind in Hfirst as ([err|] & w3 & Hfirst); [done|].
    apply Hbind in Hfirst as ([err|] & w4 & Hfirst); [done|]. by injection Hfirst as <- _. }
  apply go_bind_inv in Hrest as (port & [v2 w2] & Hport & Hrest).
  assert (v2 = v1) as ->.
  { unfold runs, on_world in Hport. destruct (GetPort Getenv w1) as [o w3]. by injection Hport as _ -> _. }
  destruct (NewRequest _) as [err|]; [by injection Hrest as _ <- _|].
  apply go_bind_inv in Hrest as (v3 & [v4 w4] & Hget & Hrest). injection Hget as -> <- <-.
  destruct (client v3) as [c|] eqn:Hc; [|done]. unfold runs, on_world in Hrest.
  destruct (client_Do c _ w2) as [o w5]. injection Hrest as _ <- _. by rewrite Hc.
Qed.

(** C29: The health check trusts the CA file.  Once a first check has returned, whatever
    events the watch handles and whatever others do to the disk meanwhile, the client trusts
    what the CA file held on a disk there has been since; and an event that the watch reacts
    to, while the file can be read and calls do not fail, makes it trust the file as it is. *)
Theorem health_client_trusts_the_file w0 r v1 w1 seen v w :
  runs check (mkHealthVars false None, w0) r (v1, w1) →
  watched v1 w1 seen v w →
  (∃ s, s ∈ disk_of w0 :: seen ∧ trusts s (client v)) ∧
  ∀ e, relevant e = true → faultless w → is_Some (read_at (disk_of w) ca_file) →
    wp (event e) (λ _ '(v', w'), trusts (disk_of w) (client v')) (v, w).
Proof.
  intros Hfirst Hwatch. apply first_check_run in Hfirst as [_ Hv1]. split.
  - induction Hwatch as [|seen v w w' _ (s & Hs & Ht)|seen v w e v' w' Hw (s & Hs & Ht) Hrun].
    + exists (disk_of w0). split; [left|done].
    + exists s. split; [|done]. set_solver.
    + pose proof (watch_event_wp e v w) as (? & [? ?] & Hrun' & Hc & _)%wp_runs.
      unfold runs in *. rewrite Hrun in Hrun'. injection Hrun' as <- <- <-. destruct Hc as [->|Hc].
      * exists s. split; [set_solver|done].
      * exists (disk_of w). split; [|done]. apply watched_now in Hw. set_solver.
  - intros e He Hfl Hs. wp_call watch_event_wp. intros _ [v' w'] [_ H]. by apply H.
Qed.

(** C38: A first check that does not find the CA file is the last word: it panics, the once is
    spent and there is no client, so that no later check, in any world, reports the webhook
    healthy. *)
Theorem failed_first_check_is_final w :
  read_at (disk_of w) ca_file = None →
  panics check (mkHealthVars false None, w) ∧
  ∀ w' w'', ¬ runs check ((check (mkHealthVars false None, w)).2.1, w') None w''.
Proof.
  intros Hno. assert (∃ w1, onceWatch_Do (first_watch Getenv NewWatcher Watcher_Add AppendCerts)
    (mkHealthVars false None, w) =
    (Panic "failed to load ca-cert for the first time", (mkHealthVars true None, w1))) as [w1 Honce].
  { pose proof (load_wp (mkHealthVars false None) w) as Hload. unfold wp in Hload.
    unfold onceWatch_Do, first_watch, go_bind at 1. cbn [onceWatch].
    destruct (load (mkHealthVars false None, w)) as [[[e|]|why] [v' w']].
    - destruct Hload as (_ & _ & Hc & _). exists w'. unfold go_panic. by rewrite Hc.
    - destruct Hload as (_ & _ & (d & Hd & _) & _). congruence.
    - done. }
  assert (check (mkHealthVars false None, w) =
    (Panic "failed to load ca-cert for the first time", (mkHealthVars true None, w1))) as Hrun
    by (unfold Checker, go_bind at 1; by rewrite Honce).
  split; [by eexists _, _|]. rewrite Hrun. cbn. intros w' w''. unfold runs, Checker, go_bind, onceWatch_Do. cbn.
  destruct (GetPort Getenv w') as [[port|] w2]; [|done]. by destruct (NewRequest _).
Qed.
End checker.

(** ** Witnesses: the CA file in /certs, and a server that answers *)
Definition health_env : string → string := env_of [("WEBHOOK_CERT_DIR", "/certs")].
Definition pem_pool (s : string) : option string := if decide (s = "") then None else Some s.
Definition calm_watcher (_ : path) : GoM (MemHost false) (option string) := go_ret None.
Definition answering (_ : HttpClient string) (_ : string) : GoM (MemHost false) (option string) := go_ret None.
Definition valid_request (_ : string) : option string := None.

Lemma calm_watcher_law p (w : MemHost false) :
  wp (calm_watcher p) (λ _ w', disk_of w' = disk_of w ∧ (faultless w → faultless w')) w.
Proof. by apply wp_ret. Qed.

Definition ca_disk : disk := <[ certs_dir ++ [CACertName] := File 420 "the CA" ]> empty_disk.
Abbreviation health_check :=
  (Checker health_env (go_ret None) calm_watcher pem_pool answering valid_request).
Definition checked : HealthVars string * MemHost false :=
  (health_check (mkHealthVars false None, mkMemHost ca_disk [] [])).2.

Lemma checked_runs :
  runs health_check (mkHealthVars false None, mkMemHost ca_disk [] []) None (checked.1, checked.2).
Proof. vm_compute. reflexivity. Qed.

Lemma health_client_trusts_the_file_witness :
  ∃ s, s ∈ [ca_disk; ca_disk] ∧ trusts health_env pem_pool s (client checked.1).
Proof.
  exact (proj1 (health_client_trusts_the_file health_env 1 2 4 (go_ret None) calm_watcher pem_pool answering
    valid_request calm_watcher_law (mkMemHost ca_disk [] []) None checked.1 checked.2 _ _ _ checked_runs
    (watched_start health_env 1 2 4 calm_watcher pem_pool checked.1 checked.2))).
Defined.

Lemma failed_first_check_is_final_witness :
  panics health_check (mkHealthVars false None, start []) ∧
  ∀ w' w'', ¬ runs health_check ((health_check (mkHealthVars false None, start [])).2.1, w') None w''.
Proof.
  exact (failed_first_check_is_final health_env (go_ret None) calm_watcher pem_pool answering valid_request
    (start []) eq_refl).
Defined.
