(* ===== verification/WebhookController.v ===== *)
(** * The webhook controller: [internal/webhook/util/controller/webhook_controller.go]

    A work queue with one key, fed by the events of the Secret and of the two webhook
    configurations; [sync] provides the certificates, writes them to the directory of the
    server and registers them.  Informers and queue are client-go's: the queue is an
    interface, in front of the world. *)
From S2P Require Export CertWorld FsWriter Configuration FileSystemFacts.

(** workqueue.RateLimitingInterface *)
Class WorkQueue (Q : Type) := {
  queue_Get : GoM Q (string * bool);
  queue_Done : string → GoM Q ();
  queue_Add : string → GoM Q ();
  queue_AddAfter : string → Z → GoM Q ();
  queue_Forget : string → GoM Q ();
  queue_AddRateLimited : string → GoM Q ();
  queue_ShutDown : GoM Q () }.

(** The package variables: onceInit, and whether the channel uninit is closed. *)
Record ControllerVars := mkControllerVars { onceInit : bool; uninit_closed : bool }.
Definition initial_vars : ControllerVars := mkControllerVars false false.

(** time.Minute *)
Definition defaultResyncPeriod : Z := 60 * 10 ^ 9.

(** A file system behind a generator. *)
#[export] Instance fs_host_lift {S W} `{!FsHost W} : FsHost (S * W) := {|
  host_call A f := go_lift (host_call f);
  timestamp := go_lift timestamp;
  random_suffix := go_lift random_suffix |}.

(** A computation with a generator of its own, which is dropped with it. *)
Definition with_generator {W A} (g : SelfSignedCertGenerator)
    (m : GoM (SelfSignedCertGenerator * W) A) : GoM W A := λ w,
  let '(o, (_, w')) := m (g, w) in (o, w').

(** err.Error() *)
Definition cert_message (e : CertError) : string :=
  match e with notFoundError err | alreadyExistError err | otherError err => err end.

Section controller.
Context {W : Type} `{!Crypto W, !SecretClient W, !FsHost W, !ConfigurationClient W}.
Variable Getenv : string → string.
Variable range : ∀ {V}, gmap string V → list (string * V).
Variable UnmarshalWebhooks : WebhookKind → string → string + Webhooks.
Variable MarshalWebhooks : WebhookKind → Webhooks → string + string.
Variable url_Path : string → string + string.
(** The keys of c.handlers. *)
Variable handlers : gset string.

Definition cert_dir : path := path_Join [] (GetCertDir Getenv).

Definition dns_name : string :=
  if (go_len (GetHost Getenv) =? 0)%Z
  then ServiceToCommonName (GetNamespace Getenv) (GetServiceName Getenv) else GetHost Getenv.

(** certWriterType == writer.FsCertWriter || (len(certWriterType) == 0 && len(GetHost()) != 0) *)
Definition writes_to_fs : bool :=
  bool_decide (GetCertWriter Getenv = FsCertWriter) ||
  ((go_len (GetCertWriter Getenv) =? 0)%Z && negb (go_len (GetHost Getenv) =? 0)%Z).

Definition fs_options : FSCertWriterOptions :=
  mkFSCertWriterOptions None (if decide (GetCertDir Getenv = "") then None else Some cert_dir).
Definition secret_options : SecretCertWriterOptions :=
  mkSecretCertWriterOptions true None (Some (GetNamespace Getenv, GetSecretName Getenv)).

(** The first half of sync: a writer, and its EnsureCert. *)
Definition ensure_certs : GoM W (option Artifacts * option string) :=
  if writes_to_fs then
    match NewFSCertWriter fs_options with
    | inl err => go_ret (None, Some err)
    | inr (f, g) =>
        let! (certs, _, err) := with_generator g (fs_EnsureCert (@range) f dns_name) in
        go_ret (certs, cert_message <$> err)
    end
  else
    match NewSecretCertWriter secret_options with
    | inl err => go_ret (None, Some err)
    | inr (s, g) =>
        let! (certs, _, err) := with_generator g (secret_EnsureCert s dns_name) in
        go_ret (certs, cert_message <$> err)
    end.

(** writer.WriteCertsToDir(dir, certs): nil certs are dereferenced once the directory is
    prepared. *)
Definition write_certs (certs : option Artifacts) : GoM W (option string) :=
  match certs with
  | Some certs => WriteCertsToDir (@range) cert_dir certs
  | None =>
      let! e := prepareToWrite cert_dir in
      match e with
      | Some err => go_ret (Some err)
      | None =>
          let! r := NewAtomicWriter cert_dir in
          match r with
          | inl e => go_ret (Some (errno_message e))
          | inr _ => go_panic "invalid memory address or nil pointer dereference"
          end
      end
  end.

(** onceInit.Do(func() { close(uninit) }) *)
Definition close_uninit : GoM (ControllerVars * W) () := λ '(v, w),
  if onceInit v then (Ret (), (v, w))
  else if uninit_closed v then (Panic "close of closed channel", (mkControllerVars true true, w))
  else (Ret (), (mkControllerVars true true, w)).

Definition sync : GoM (ControllerVars * W) (option string) :=
  let! (certs, err) := go_lift ensure_certs in
  match err with
  | Some err => go_ret (Some ("failed to ensure certs: " +:+ err))
  | None =>
      let! err := go_lift (write_certs certs) in
      match err with
      | Some err => go_ret (Some ("failed to write certs to dir: " +:+ err))
      | None =>
          match certs with
          | None => go_panic "invalid memory address or nil pointer dereference"
          | Some certs =>
              let! err := go_lift (Ensure Getenv UnmarshalWebhooks MarshalWebhooks url_Path handlers (art_CACert certs)) in
              match err with
              | Some err => go_ret (Some ("failed to ensure configuration: " +:+ err))
              | None => do! close_uninit in go_ret None
              end
          end
      end
  end.

(** ** The queue *)
Context {Q : Type} `{!WorkQueue Q}.
Abbreviation world := (Q * (ControllerVars * W))%type.

Definition on_queue {A} (m : GoM Q A) : GoM world A := λ '(q, w),
  let '(o, q') := m q in (o, (q', w)).

(** defer queue.Done(key) *)
Definition deferring (key : string) (m : GoM world bool) : GoM world bool := λ w,
  let '(o, w') := m w in
  match on_queue (queue_Done key) w' with
  | (Ret _, w'') => (o, w'')
  | (Panic why, w'') => (Panic why, w'')
  end.

Definition processNextWorkItem : GoM world bool :=
  let! (key, quit) := on_queue queue_Get in
  if (quit : bool) then go_ret false
  else
    deferring key
      (let! err := go_lift sync in
       match err with
       | None =>
           do! on_queue (queue_AddAfter key defaultResyncPeriod) in
           do! on_queue (queue_Forget key) in
           go_ret true
       | Some _ =>
           do! on_queue (queue_AddRateLimited key) in
           go_ret true
       end).

(** The event handlers New installs: an object of the right name queues the key. *)
Definition queue_named (name wanted : string) : GoM Q () :=
  if decide (name = wanted) then queue_Add "" else go_ret ().
Definition Secret_AddFunc (s : Secret) : GoM Q () := queue_named (sec_Name s) (GetSecretName Getenv).
Definition Secret_UpdateFunc (old cur : Secret) : GoM Q () := queue_named (sec_Name cur) (GetSecretName Getenv).
Definition Configuration_AddFunc (kind : WebhookKind) (c : WebhookConfiguration) : GoM Q () :=
  queue_named (om_Name (wc_ObjectMeta c)) (configurationName Getenv kind).
Definition Configuration_UpdateFunc (kind : WebhookKind) (old cur : WebhookConfiguration) : GoM Q () :=
  queue_named (om_Name (wc_ObjectMeta cur)) (configurationName Getenv kind).

(** ** Start

    A run of the controller, a step at a time.  The informers deliver events once the factory
    has been started, each by one of the handlers; the worker turns once the caches are
    synced, and goes on after the queue is shut down until it finds it empty. *)
Inductive Phase := Created | CachesSyncing | Working | Stopped (worker : bool).

Inductive InformerEvent :=
| SecretAdded (s : Secret)
| SecretUpdated (old cur : Secret)
| ConfigurationAdded (kind : WebhookKind) (c : WebhookConfiguration)
| ConfigurationUpdated (kind : WebhookKind) (old cur : WebhookConfiguration).
Definition deliver (e : InformerEvent) : GoM Q () :=
  match e with
  | SecretAdded s => Secret_AddFunc s
  | SecretUpdated old cur => Secret_UpdateFunc old cur
  | ConfigurationAdded kind c => Configuration_AddFunc kind c
  | ConfigurationUpdated kind old cur => Configuration_UpdateFunc kind old cur
  end.

Inductive Label :=
| InformersStarted | Delivered (e : InformerEvent) | CachesSynced | CachesNotSynced | ContextDone
| Turned (again : bool) | OthersActed.

Definition worker_runs (p : Phase) : bool :=
  match p with Working | Stopped true => true | _ => false end.

(** func (c *Controller) Start *)
Inductive start_step : Phase * world → Label → Phase * world → Prop :=
| start_informers gw : start_step (Created, gw) InformersStarted (CachesSyncing, gw)
| start_deliver p e q q' vw :
    p ≠ Created → runs (deliver e) q () q' → start_step (p, (q, vw)) (Delivered e) (p, (q', vw))
| start_synced gw : start_step (CachesSyncing, gw) CachesSynced (Working, gw)
| start_not_synced q q' vw :
    runs queue_ShutDown q () q' → start_step (CachesSyncing, (q, vw)) CachesNotSynced (Stopped false, (q', vw))
| start_done q q' vw :
    runs queue_ShutDown q () q' → start_step (Working, (q, vw)) ContextDone (Stopped true, (q', vw))
| start_turn p gw again gw' :
    worker_runs p = true → runs processNextWorkItem gw again gw' →
    start_step (p, gw) (Turned again) (p, gw')
(** Other goroutines, processes and replicas may do anything to the world. *)
| start_others p q v w w' : start_step (p, (q, (v, w))) OthersActed (p, (q, (v, w'))).

(** A run, the latest step first. *)
Inductive start_run (gw0 : world) : list Label → Phase * world → Prop :=
| start_run_nil : start_run gw0 [] (Created, gw0)
| start_run_step tr s l s' : start_run gw0 tr s → start_step s l s' → start_run gw0 (l :: tr) s'.
End controller.

(** ** The check of [server.go], before the health check: has sync succeeded once? *)
Definition Checker_inited {W} (health : GoM W (option string)) : GoM (ControllerVars * W) (option string) :=
  λ '(v, w),
    if uninit_closed v then go_lift health (v, w)
    else (Ret (Some "webhook controller has not initialized"), (v, w)).
