(* ===== verification/WorldLifts.v ===== *)
(** * Components side by side

    A world that is a pair runs the calls of either half: the interfaces of the certificate
    library, the Secrets, the file system and the configurations lift to pairs, with their
    laws, so that a whole process can be put together from the models of its parts. *)
From S2P Require Export WebhookController MemHost MemCluster MemConfigurations.

(** ** A computation on the first half *)
Definition go_fst {A B X} (m : GoM A X) : GoM (A * B) X := λ '(a, b),
  let '(o, a') := m a in (o, (a', b)).

Lemma wp_fst {A B X} (m : GoM A X) (Q : X → A * B → Prop) (a : A) (b : B) :
  wp m (λ x a', Q x (a', b)) a → wp (go_fst m) Q (a, b).
Proof. unfold wp, go_fst. by destruct (m a) as [[x|why] a']. Qed.

#[export] Instance fs_host_fst {A B} `{!FsHost A} : FsHost (A * B) | 10 := {|
  host_call X f := go_fst (host_call f);
  timestamp := go_fst timestamp;
  random_suffix := go_fst random_suffix |}.

#[export] Instance configuration_client_fst {A B} `{!ConfigurationClient A} : ConfigurationClient (A * B) := {|
  GetConfiguration kind name := go_fst (GetConfiguration kind name);
  UpdateConfiguration kind c := go_fst (UpdateConfiguration kind c) |}.

Section laws.
Context {S W : Type}.

#[export] Instance secret_laws_lift `{!Crypto W, !CryptoLaws W, !SecretClient W, !SecretClientLaws W} :
  SecretClientLaws (S * W).
Proof.
  refine {| api_secrets := λ sw : S * W, api_secrets sw.2;
            api_rely := λ sw sw' : S * W, sw'.1 = sw.1 ∧ api_rely sw.2 sw'.2 |}.
  - intros [s w]. split; [done|apply api_rely_refl].
  - intros [s w] [s' w'] [_ Hrely] Hst. exact (api_rely_usable w w' Hrely Hst).
  - intros k [s w]. apply (wp_lift (GetSecret k) _ s w). wp_call api_get_secret.
    intros r w' (Hle & w1 & Hrely & Hrest). split; [done|]. by exists (s, w1).
  - intros o [s w]. apply (wp_lift (CreateSecret o) _ s w). wp_call api_create_secret.
    intros r w' (Hle & w1 & Hrely & Hrest). split; [done|]. by exists (s, w1).
  - intros o [s w]. apply (wp_lift (UpdateSecret o) _ s w). wp_call api_update_secret.
    intros r w' (Hle & w1 & Hrely & Hrest). split; [done|]. by exists (s, w1).
  - intros [s w]. exact (wp_lift _ _ s w (api_now (W:=W) w)).
  - intros bits [s w]. exact (wp_lift _ _ s w (api_generate_key (W:=W) bits w)).
  - intros b [s w]. exact (wp_lift _ _ s w (api_rand_int (W:=W) b w)).
  - intros cfg k [s w]. exact (wp_lift _ _ s w (api_self_signed (W:=W) cfg k w)).
  - intros t c k sg [s w]. exact (wp_lift _ _ s w (api_create_certificate (W:=W) t c k sg w)).
Defined.

#[export] Instance fs_laws_lift `{!FsHost W, !FsHostLaws W} : FsHostLaws (S * W).
Proof.
  refine {| disk_of := λ sw : S * W, disk_of sw.2; trace_of := λ sw, trace_of sw.2;
            faultless := λ sw, faultless sw.2 |}.
  - intros A f [s w]. exact (wp_lift _ _ s w (host_call_law f w)).
  - intros [s w]. exact (wp_lift _ _ s w (timestamp_law w)).
  - intros [s w]. exact (wp_lift _ _ s w (random_suffix_law w)).
Defined.

#[export] Instance fs_laws_fst `{!FsHost S, !FsHostLaws S} : FsHostLaws (S * W) | 10.
Proof.
  refine {| disk_of := λ sw : S * W, disk_of sw.1; trace_of := λ sw, trace_of sw.1;
            faultless := λ sw, faultless sw.1 |}.
  - intros A f [s w]. exact (wp_fst _ _ s w (host_call_law f s)).
  - intros [s w]. exact (wp_fst _ _ s w (timestamp_law s)).
  - intros [s w]. exact (wp_fst _ _ s w (random_suffix_law s)).
Defined.

#[export] Instance configuration_laws_fst `{!ConfigurationClient S, !ConfigurationLaws S} :
  ConfigurationLaws (S * W).
Proof.
  refine {| configs := λ sw : S * W, configs sw.1; calm := λ sw, calm sw.1 |}.
  - intros kind name [s w]. exact (wp_fst _ _ s w (get_configuration_law kind name s)).
  - intros kind c [s w] Hc. exact (wp_fst _ _ s w (update_configuration_law kind c s Hc)).
Defined.
End laws.

(** ** The process in memory: configurations, a disk, and the cluster with its Secrets *)
Abbreviation MemProcess := (MemConfigs * (MemHost false * MemCluster))%type.
