(* ===== verification/ProcessFrames.v ===== *)
(** * Who touches what

    [always I m] (of the prelude): whatever [m] does, failures and panics included, [I]
    relates the worlds before and after.  If every call on a component respects [I], so does
    every operation of the program that makes only such calls; with "the disk is the same"
    or "the Secrets are the same" for [I], an operation leaves the other components alone. *)
From S2P Require Export WorldLifts.

(** ** The relations *)
Definition same_disk {W} `{!FsHost W, !FsHostLaws W} (w w' : W) : Prop := disk_of w' = disk_of w.
Definition same_secrets {W} `{!Crypto W, !CryptoLaws W, !SecretClient W, !SecretClientLaws W} (w w' : W) : Prop :=
  api_secrets w' = api_secrets w.
#[export] Instance same_disk_refl {W} `{!FsHost W, !FsHostLaws W} : Reflexive (same_disk (W := W)).
Proof. by intros w. Qed.
#[export] Instance same_disk_trans {W} `{!FsHost W, !FsHostLaws W} : Transitive (same_disk (W := W)).
Proof. intros a b c. unfold same_disk. congruence. Qed.
#[export] Instance same_secrets_refl {W} `{!Crypto W, !CryptoLaws W, !SecretClient W, !SecretClientLaws W} :
  Reflexive (same_secrets (W := W)).
Proof. by intros w. Qed.
#[export] Instance same_secrets_trans {W} `{!Crypto W, !CryptoLaws W, !SecretClient W, !SecretClientLaws W} :
  Transitive (same_secrets (W := W)).
Proof. intros a b c. unfold same_secrets. congruence. Qed.

Definition same_configs {W} `{!ConfigurationClient W, !ConfigurationLaws W} (w w' : W) : Prop :=
  configs w' = configs w.
#[export] Instance same_configs_refl {W} `{!ConfigurationClient W, !ConfigurationLaws W} :
  Reflexive (same_configs (W := W)).
Proof. by intros w. Qed.
#[export] Instance same_configs_trans {W} `{!ConfigurationClient W, !ConfigurationLaws W} :
  Transitive (same_configs (W := W)).
Proof. intros a b c. unfold same_configs. congruence. Qed.

(** Time does not run backwards. *)
Definition time_moves {W} `{!Crypto W, !CryptoLaws W} (w w' : W) : Prop := (clock w ≤ clock w')%Z.
#[export] Instance time_moves_refl {W} `{!Crypto W, !CryptoLaws W} : Reflexive (time_moves (W := W)).
Proof. intros w. unfold time_moves. lia. Qed.
#[export] Instance time_moves_trans {W} `{!Crypto W, !CryptoLaws W} : Transitive (time_moves (W := W)).
Proof. intros a b c. unfold time_moves. lia. Qed.

Section frames.
Context {W : Type} (I : W → W → Prop) `{!Reflexive I, !Transitive I}.

(** *** The calls of each component *)
Class crypto_frame `{!Crypto W} := {
  cf_generate_key bits : always I (GenerateKey bits);
  cf_rand_int b : always I (RandInt b);
  cf_now : always I Now;
  cf_self_signed cfg k : always I (NewSelfSignedCACert cfg k);
  cf_create_certificate t c k s : always I (CreateCertificate t c k s) }.

Class cert_frame `{!Crypto W, !SecretClient W} := {
  cf_crypto :: crypto_frame;
  cf_get k : always I (GetSecret k);
  cf_create o : always I (CreateSecret o);
  cf_update o : always I (UpdateSecret o) }.

Class fs_frame `{!FsHost W} := {
  ff_call A (f : fs_call A) : always I (host_call f);
  ff_timestamp : always I timestamp;
  ff_random : always I random_suffix }.

Class config_frame `{!ConfigurationClient W} := {
  gf_get kind name : always I (GetConfiguration kind name);
  gf_update kind c : always I (UpdateConfiguration kind c) }.

(** *** The certificates *)
Section certs.
Context `{!Crypto W, F : !crypto_frame}.
#[local] Hint Resolve cf_generate_key cf_rand_int cf_now cf_self_signed cf_create_certificate : go_always.

Lemma NewSignedCert_always cfg k ca signer : always I (NewSignedCert cfg k ca signer).
Proof. unfold NewSignedCert, try. always_solve. Qed.
#[local] Hint Resolve NewSignedCert_always : go_always.

Lemma signing_CA_always cp : always I (signing_CA cp).
Proof. unfold signing_CA, validCACert, NewPrivateKey, try. always_solve. Qed.
#[local] Hint Resolve signing_CA_always : go_always.

Lemma SelfSigned_Generate_always cp name : always I (SelfSigned_Generate cp name).
Proof. unfold SelfSigned_Generate, NewPrivateKey, try. always_solve. Qed.

(** The same, behind a generator. *)
Definition behind (sw sw' : SelfSignedCertGenerator * W) : Prop := I sw.2 sw'.2.
#[local] Instance behind_refl : Reflexive behind.
Proof. intros sw. unfold behind. reflexivity. Qed.
#[local] Instance behind_trans : Transitive behind.
Proof. intros a b c. unfold behind. apply transitivity. Qed.

Lemma always_lift {A} (m : GoM W A) : always I m → always behind (go_lift m).
Proof. intros Hm [g w]. specialize (Hm w). unfold go_lift, behind. by destruct (m w). Qed.

Lemma Generate_always name : always behind (Generate name).
Proof.
  intros [g w]. pose proof (SelfSigned_Generate_always g name w) as H. unfold behind. simpl.
  by destruct (SelfSigned_Generate g name w).
Qed.
Lemma SetCA_always k c : always behind (SetCA k c).
Proof. intros [g w]. unfold behind. simpl. reflexivity. Qed.
#[local] Hint Resolve Generate_always SetCA_always behind_refl : go_always.
#[local] Hint Extern 1 (always behind _) => solve [apply always_lift; eauto with go_always] : go_always.

Context `{!SecretClient W, FS : !cert_frame}.
#[local] Hint Resolve cf_get cf_create cf_update : go_always.

Lemma secret_EnsureCert_always s dnsName : always behind (secret_EnsureCert s dnsName).
Proof.
  unfold secret_EnsureCert, handleCommon, createIfNotExists, validCert. cbn.
  unfold secret_read, secret_write, secret_overwrite, secret_buildSecret, try. always_solve.
Qed.

Lemma with_generator_always {A} g (m : GoM (SelfSignedCertGenerator * W) A) :
  always behind m → always I (with_generator g m).
Proof. intros Hm w. specialize (Hm (g, w)). unfold with_generator, behind in *. by destruct (m (g, w)) as [o [g' w']]. Qed.
End certs.

(** *** The directory *)
Section dir.
Context `{!FsHost W, F : !fs_frame}.
#[local] Hint Resolve ff_call ff_timestamp ff_random : go_always.

Lemma MkdirAll_fuel_always n p mode : always I (MkdirAll_fuel n p mode).
Proof.
  revert p. induction n as [|n IH]; intros p; cbn [MkdirAll_fuel]; unfold Stat, Mkdir, Lstat; always_solve.
Qed.
#[local] Hint Resolve MkdirAll_fuel_always : go_always.

Lemma remove_each_always l err : always I (remove_each l err).
Proof. revert err. induction l; intros err; cbn [remove_each]; always_solve. Qed.
#[local] Hint Resolve remove_each_always : go_always.

Lemma RemoveAll_always p : always I (RemoveAll p).
Proof. unfold RemoveAll, Walk. always_solve. Qed.
#[local] Hint Resolve RemoveAll_always : go_always.

Lemma MkdirTemp_tries_always n d pre : always I (MkdirTemp_tries n d pre).
Proof. induction n; cbn [MkdirTemp_tries]; unfold Mkdir; always_solve. Qed.
#[local] Hint Resolve MkdirTemp_tries_always : go_always.

Lemma clear_each_always d l : always I (clear_each d l).
Proof. induction l; cbn [clear_each]; unfold Stat, Readlink, Remove; always_solve. Qed.
#[local] Hint Resolve clear_each_always : go_always.

Lemma prepareToWrite_always d : always I (prepareToWrite d).
Proof. unfold prepareToWrite, Stat, MkdirAll. always_solve. Qed.
#[local] Hint Resolve prepareToWrite_always : go_always.

Section writer.
Context (range : ∀ V, gmap string V → list (string * V)) (T : path).

Lemma newTimestampDir_always : always I (newTimestampDir T).
Proof.
  unfold newTimestampDir, must, MkdirTemp, Chmod. apply always_bind; [done|eauto with go_always|].
  intros stamp. apply always_bind; [done|eauto with go_always|]. intros [e|d]; always_solve.
Qed.

Lemma should_each_always l d : always I (should_each l d).
Proof.
  induction l as [|[n fp] l IH]; cbn [should_each]; unfold must, shouldWriteFile, Lstat, ReadFile, must; always_solve.
Qed.

Lemma write_each_always l d : always I (write_each l d).
Proof.
  induction l as [|[n fp] l IH]; cbn [write_each]; unfold must, MkdirAll, WriteFile, Chmod, must; always_solve.
Qed.

Lemma link_each_always l : always I (link_each T l).
Proof. induction l as [|[n fp] l IH]; cbn [link_each]; unfold must, Readlink, SymlinkAt; always_solve. Qed.

Lemma unlink_each_always l e : always I (unlink_each T l e).
Proof. revert e. induction l as [|n l IH]; intros e; cbn [unlink_each]; unfold Remove; always_solve. Qed.
#[local] Hint Resolve newTimestampDir_always should_each_always write_each_always link_each_always
  unlink_each_always : go_always.

Lemma publish_always ts old x : always I (publish range T ts old x).
Proof. unfold publish, SymlinkAt, Rename, Remove, removeUserVisiblePaths. always_solve. Qed.
#[local] Hint Resolve publish_always : go_always.

Lemma Write_always p : always I (Write range T p).
Proof.
  unfold Write, project, writePayloadToDir, createUserVisibleFiles, pathsToRemove, shouldWritePayload,
    Readlink, Walk. always_solve.
Qed.
End writer.
#[local] Hint Resolve Write_always : go_always.

Lemma WriteCertsToDir_always range T a : always I (WriteCertsToDir range T a).
Proof. unfold WriteCertsToDir, NewAtomicWriter, Stat. always_solve. Qed.

Lemma exist_each_always T l : always I (exist_each T l).
Proof. induction l; cbn [exist_each]; unfold Stat; always_solve. Qed.
#[local] Hint Resolve exist_each_always : go_always.

Lemma fs_read_always f : always I (fs_read f).
Proof. unfold fs_read, ensureExist, read_or, ReadFile. always_solve. Qed.
End dir.

(** *** The configurations *)
Section configurations.
Context `{!ConfigurationClient W, F : !config_frame}.
Context (Getenv : string → string) (UnmarshalWebhooks : WebhookKind → string → string + Webhooks).
Context (MarshalWebhooks : WebhookKind → Webhooks → string + string).
Context (url_Path : string → string + string) (handlers : gset string) (ca : gobytes).
#[local] Hint Resolve gf_get gf_update : go_always.

Lemma rewriteWebhooks_always template acc :
  always I (rewriteWebhooks Getenv url_Path handlers ca template acc).
Proof.
  revert acc. induction template as [|wh l IH]; intros acc; cbn [rewriteWebhooks];
    unfold rewriteWebhook, getPath, convertClientConfig, GetPort; always_solve.
Qed.
#[local] Hint Resolve rewriteWebhooks_always : go_always.

Lemma Ensure_always :
  always I (Ensure Getenv UnmarshalWebhooks MarshalWebhooks url_Path handlers ca).
Proof. unfold Ensure, updateIfChanged. always_solve. Qed.
End configurations.
End frames.

(** ** Certificates in a directory *)
Section fs_certs.
Context {W : Type} (I : W → W → Prop) `{!Reflexive I, !Transitive I}.
Context `{!Crypto W, !FsHost W, FC : !crypto_frame I, FD : !fs_frame I}.
#[local] Existing Instances behind_refl behind_trans.
#[local] Hint Resolve behind_refl : go_always.

#[local] Instance behind_fs_frame : fs_frame (behind I).
Proof.
  split; [intros A f; apply always_lift, (ff_call I)|apply always_lift, (ff_timestamp I)|apply always_lift, (ff_random I)].
Qed.

Lemma fs_EnsureCert_always range f dnsName : always (behind I) (fs_EnsureCert range f dnsName).
Proof.
  assert (∀ name, always (behind I) (Generate (W := SelfSignedCertGenerator * W) name)) as Hgen
    by (intros name; apply (Generate_always I)).
  assert (always (behind I) (Now (W := SelfSignedCertGenerator * W))) as Hnow
    by apply always_lift, (cf_now I).
  unfold fs_EnsureCert, handleCommon, createIfNotExists, validCert. cbn.
  unfold fs_write, fs_overwrite, fs_doWrite.
  pose proof (fs_read_always (behind I)). pose proof (WriteCertsToDir_always (behind I)).
  always_solve.
Qed.
End fs_certs.
