(* ===== verification/FsCertFacts.v ===== *)
(** * The filesystem writer keeps the contract of a certificate writer

    Over a disk of which any call may be refused, from a directory that is in order or not
    there yet: [fs_rw_laws] discharges [certReadWriterLaws].  The guarantee says what even a
    failed write leaves: the certificates that were there, or new ones that are valid. *)
From S2P Require Export ProcessFrames CertDirectory.

(** Certificates of a generator read back as they are. *)
Lemma read_back_filled a : filled a → same_certs (read_back a) a.
Proof. intros ([? Hk] & [? Hc] & [? Hck] & [? Hcc]). unfold read_back. rewrite Hk, Hc, Hck, Hcc. by split_and!. Qed.

Section laws.
Context {W : Type} `{!Crypto W, !CryptoLaws W, !FsHost W, !FsHostLaws W}.
(** Generating does not touch the disk; the clock runs on while the disk is used. *)
Context `{!crypto_frame (same_disk (W := W)), !fs_frame (time_moves (W := W))}.
Context (range : ∀ V, gmap string V → list (string * V)).
Hypothesis range_perm : ∀ V (m : gmap string V), range V m ≡ₚ map_to_list m.
Hypothesis readlink_true : ∀ q (w : W),
  wp (Readlink q) (λ r _, ∀ e, r = inl e → op_readlink q (disk_of w) = inl e) w.
Context (T : path) (name : string).
Hypothesis T_plain : Forall (λ c, c ≠ "..") T.
Hypothesis name_servable : servable (W := W) name.

Abbreviation world := (SelfSignedCertGenerator * W)%type.

(** The generator's CA, if any, may issue certificates of servers and has started. *)
Definition generator_ready (gw : world) : Prop := CA_usable gw.1 gw.2.

(** What the disk calls do besides: the generator stays, time passes. *)
Definition passes (gw gw' : world) : Prop := gw'.1 = gw.1 ∧ (clock gw.2 ≤ clock gw'.2)%Z.
#[local] Instance passes_refl : Reflexive passes.
Proof. intros gw. unfold passes. split; [done|lia]. Qed.
#[local] Instance passes_trans : Transitive passes.
Proof. intros a b c. unfold passes. intros [-> ?] [-> ?]. split; [done|lia]. Qed.

#[local] Instance passes_frame : fs_frame passes.
Proof.
  assert (∀ (A : Type) (m : GoM W A), always time_moves m → always passes (go_lift m)) as Hlift.
  { intros A m Hm [g w]. specialize (Hm w). unfold passes, go_lift. by destruct (m w). }
  split; [intros A f|..]; apply Hlift; apply F || apply ff_call || apply ff_timestamp || apply ff_random; apply _.
Qed.

Lemma passes_ready gw gw' : passes gw gw' → generator_ready gw → generator_ready gw'.
Proof.
  intros [Hg Hle] Hr. unfold generator_ready. rewrite Hg. by eapply CA_usable_mono; [|exact Hr].
Qed.

Lemma readlink_lifted q (gw : world) :
  wp (Readlink q) (λ r _, ∀ e, r = inl e → op_readlink q (disk_of gw) = inl e) gw.
Proof. destruct gw as [g w]. exact (wp_lift (Readlink q) _ g w (readlink_true q w)). Qed.

(** A step over the disk, from a triple. *)
Lemma disk_step {A : Type} (P : disk → Prop) (m : GoM world A) (Q : A → disk → Prop) (gw : world) :
  generator_ready gw → always passes m → triple False P (λ s, s = disk_of gw) m Q →
  wp m (λ a gw', Q a (disk_of gw') ∧ generator_ready gw' ∧ (clock gw ≤ clock gw')%Z) gw.
Proof.
  intros Hg Hp Hm. eapply wp_mono; [apply (wp_always passes); [done|by apply (Hm gw)]|].
  intros a gw' [[HQ _] Hpass]. split_and!; [done|by eapply passes_ready|apply Hpass].
Qed.

Lemma generate_step (gw : world) :
  generator_ready gw →
  wp (Generate name) (λ r gw', disk_of gw' = disk_of gw ∧ generator_ready gw' ∧ (clock gw ≤ clock gw')%Z ∧
    ∀ a, r = inr a → filled a ∧ stays_valid (Some a) name (clock gw) (clock gw')) gw.
Proof.
  destruct gw as [g w]. intros Hg.
  assert (wp (SelfSigned_Generate g name) (λ r w', disk_of w' = disk_of w ∧ (clock w ≤ clock w')%Z ∧
    ∀ a, r = inr a → filled a ∧ stays_valid (Some a) name (clock w) (clock w')) w) as H.
  { eapply wp_mono; [apply (wp_always same_disk); [apply SelfSigned_Generate_always; apply _|];
      apply SelfSigned_Generate_wp; [exact Hg|done]|].
    intros r w' [[Hle Hr] Hd]. split_and!; [exact Hd|done|]. intros a Ha.
    destruct (Hr a Ha) as (_ & Hv & Hf & _). by split. }
  apply (wp_lift (SelfSigned_Generate g name) _ g w). eapply wp_mono; [exact H|].
  intros r w' (Hd & Hle & Hr). split_and!; [exact Hd| |exact Hle|exact Hr].
  eapply passes_ready; [|exact Hg]. by split.
Qed.

(** ** The contract *)
Definition fs_rw_stored (gw : world) : option Artifacts := fs_stored T (disk_of gw).
Definition fs_rw_inv (gw : world) : Prop := generator_ready gw ∧ dir_ready T (disk_of gw).
Definition fs_rw_rely (gw gw1 : world) : Prop := disk_of gw1 = disk_of gw.

(** The certificates of before, or valid ones made since. *)
Definition fs_rw_guar (gw gw' : world) : Prop :=
  (clock gw ≤ clock gw')%Z ∧
  (fs_rw_stored gw' = fs_rw_stored gw ∨
   ∃ a t1 t2, (clock gw ≤ t1 ∧ t1 ≤ t2 ∧ t2 ≤ clock gw')%Z ∧
     same_certs_opt (fs_rw_stored gw') (Some a) ∧ stays_valid (Some a) name t1 t2).

#[export] Instance fs_rw_guar_pre : PreOrder fs_rw_guar.
Proof.
  split.
  - intros gw. split; [lia|by left].
  - intros gw1 gw2 gw3 [Hle1 H1] [Hle2 H2]. split; [lia|].
    destruct H2 as [H2|(a & t1 & t2 & Ht & Hs & Hv)]; [|right; exists a, t1, t2; by split_and!; try lia].
    unfold fs_rw_guar. rewrite H2. destruct H1 as [H1|(a & t1 & t2 & Ht & Hs & Hv)]; [by left|].
    right. exists a, t1, t2. by split_and!; try lia.
Qed.

Section writer.
Context (f : fsCertWriter).
Hypothesis f_path : fcw_Path f = T.
Hypothesis f_name : fcw_dnsName f = name.

Lemma fs_read_step (gw : world) : fs_rw_inv gw →
  wp (fs_read f) (λ '(c, e) gw', fs_rw_inv gw' ∧ fs_rw_guar gw gw' ∧ (clock gw ≤ clock gw')%Z ∧
    ∃ gw1, fs_rw_rely gw gw1 ∧ fs_rw_stored gw' = fs_rw_stored gw1 ∧
    match e with
    | None => is_Some c ∧ fs_rw_stored gw1 = c
    | Some _ => isNotFound e = true → fs_rw_stored gw1 = None
    end) gw.
Proof.
  intros [Hg Hd]. destruct f as [dns path]. cbn in f_path. subst path.
  eapply wp_mono; [apply (disk_step (λ _, True)); [exact Hg|apply fs_read_always; apply _|]|].
  - by apply (fs_read_triple T False T_plain dns (disk_of gw)).
  - intros [c e] gw' [[Hsame Hr] [Hg' Hle]]. split; [split; [done|by rewrite Hsame]|].
    split; [split; [done|left; unfold fs_rw_stored; by rewrite Hsame]|]. split; [done|]. exists gw'. split; [done|]. split; [done|]. unfold fs_rw_stored. rewrite Hsame. by destruct e.
Qed.

(** What is written is what is then shown. *)
Lemma fs_doWrite_step (gw : world) : fs_rw_inv gw →
  wp (fs_doWrite range f) (λ '(c, e) gw', fs_rw_guar gw gw' ∧ (clock gw ≤ clock gw')%Z ∧
    match e with
    | None => fs_rw_inv gw' ∧ is_Some c ∧ same_certs_opt (fs_rw_stored gw') c ∧
        stays_valid c name (clock gw) (clock gw')
    | Some e => isAlreadyExists (Some e) = false
    end) gw.
Proof.
  intros [Hg Hd]. destruct f as [dns path]. cbn in f_path, f_name. subst path dns.
  unfold fs_doWrite. cbn [fcw_dnsName fcw_Path]. apply wp_bind. wp_call generate_step; [done|].
  intros r gw1 (Hd1 & Hg1 & Hle1 & Hr). destruct r as [err|a].
  { apply wp_ret. split; [split; [done|left; unfold fs_rw_stored; by rewrite Hd1]|done]. }
  destruct (Hr a eq_refl) as [Hfill Hvalid]. apply wp_bind.
  eapply wp_mono; [apply (disk_step (old_or_new T (disk_of gw1) a)); [exact Hg1|apply WriteCertsToDir_always; apply _|]|].
  { apply (WriteCertsToDir_ready range range_perm readlink_lifted T False T_plain). by rewrite Hd1. }
  intros e gw2 [[Hshown He] [Hg2 Hle2]]. cbv beta in Hshown.
  assert (stays_valid (Some a) name (clock gw) (clock gw2)) as Hval.
  { eapply stays_valid_widen; [|exact Hle2|exact Hvalid]. lia. }
  assert (fs_rw_guar gw gw2) as Hguar.
  { split; [lia|]. destruct Hshown as [Hold|Hnew].
    - left. unfold fs_rw_stored. rewrite <-Hd1. by apply fs_stored_same.
    - right. exists a, (clock gw), (clock gw2). split; [lia|]. split; [|done].
      unfold fs_rw_stored. rewrite (new_content_stored _ _ _ Hnew). constructor. by apply read_back_filled. }
  assert (clock gw ≤ clock gw2)%Z as Hle by lia.
  destruct e as [err|]; apply wp_ret; (split; [done|]); (split; [exact Hle|]); [done|].
  specialize (He eq_refl). split; [split; [done|left; by eapply shows_in_order]|]. split; [done|]. split; [|done].
  unfold fs_rw_stored. rewrite (shows_stored _ _ _ He). constructor. by apply read_back_filled.
Qed.

(** The filesystem writer is a certificate writer. *)
#[export] Instance fs_rw_laws : certReadWriterLaws (fs_rw range f) name.
Proof.
  refine {| rw_stored := fs_rw_stored; rw_rely := fs_rw_rely; rw_inv := fs_rw_inv;
            rw_guar := fs_rw_guar; rw_guar_pre := fs_rw_guar_pre |}.
  - intros [g w]. apply (wp_lift (Now (W := W)) _ g w).
    eapply wp_mono; [apply (wp_always same_disk); [apply (cf_now same_disk)|apply now_law]|].
    intros t w' [[-> Hle] Hd]. unfold same_disk in Hd.
    assert (fs_rw_stored (g, w') = fs_rw_stored (g, w)) as Hst by (unfold fs_rw_stored; cbn; by rewrite Hd).
    split; [done|]. split; [|split; [exact Hle|by left]]. intros [Hg Hr]. split; [|cbn; by rewrite Hd].
    eapply passes_ready; [|exact Hg]. by split.
  - exact fs_read_step.
  - intros gw Hinv. eapply wp_mono; [by apply fs_doWrite_step|]. intros [c [e|]] gw'; [|done].
    intros (Hg & Hle & He). split; [done|]. split; [done|]. by rewrite He.
  - intros rv gw Hinv. eapply wp_mono; [by apply fs_doWrite_step|]. intros [c [e|]] gw'; [|done].
    intros (Hg & Hle & _). by split.
Defined.
End writer.
End laws.

(** ** EnsureCert over a directory *)
Section ensure.
Context {W : Type} `{!Crypto W, !CryptoLaws W, !FsHost W, !FsHostLaws W}.
Context `{!crypto_frame (same_disk (W := W)), !fs_frame (time_moves (W := W))}.
Context (range : ∀ V, gmap string V → list (string * V)).
Hypothesis range_perm : ∀ V (m : gmap string V), range V m ≡ₚ map_to_list m.
Hypothesis readlink_true : ∀ q (w : W),
  wp (Readlink q) (λ r _, ∀ e, r = inl e → op_readlink q (disk_of w) = inl e) w.
Abbreviation world := (SelfSignedCertGenerator * W)%type.

(** Valid at some time of the run from [gw] to [gw'], or from a time of it on. *)
Definition valid_during (c : option Artifacts) (dnsName : string) (gw gw' : world) : Prop :=
  (∃ t, (clock gw ≤ t ≤ clock gw')%Z ∧ cert_ok c dnsName (AddDate t 0 6 0) = true) ∨
  (∃ t1 t2, (clock gw ≤ t1 ∧ t1 ≤ t2 ∧ t2 ≤ clock gw')%Z ∧ stays_valid c dnsName t1 t2).

Lemma fs_EnsureCert_wp f dnsName (gw : world) :
  dnsName ≠ "" → servable (W := W) dnsName → Forall (λ c, c ≠ "..") (fcw_Path f) →
  fs_rw_inv (fcw_Path f) gw →
  wp (fs_EnsureCert range f dnsName) (λ '(c, changed, e) gw',
    fs_rw_guar (fcw_Path f) dnsName gw gw' ∧
    match e with
    | Some _ => c = None
    | None => fs_rw_inv (fcw_Path f) gw' ∧ is_Some c ∧
        same_certs_opt (fs_rw_stored (fcw_Path f) gw') c ∧ valid_during c dnsName gw gw' ∧
        (changed = false → fs_rw_stored (fcw_Path f) gw' = fs_rw_stored (fcw_Path f) gw) ∧
        (is_Some (fs_rw_stored (fcw_Path f) gw) ∧
         (∀ t, (clock gw ≤ t ≤ clock gw')%Z →
            cert_ok (fs_rw_stored (fcw_Path f) gw) dnsName (AddDate t 0 6 0) = true) → changed = false)
    end) gw.
Proof.
  intros Hne Hname Hplain Hinv. unfold fs_EnsureCert. cbn [fcw_dnsName].
  eapply wp_mono.
  { exact (handleCommon_wp (fs_rw range (mkFsCertWriter dnsName (fcw_Path f))) dnsName
      (laws := fs_rw_laws range range_perm readlink_true (fcw_Path f) dnsName Hplain Hname
        (mkFsCertWriter dnsName (fcw_Path f)) eq_refl eq_refl) gw Hne Hinv). }
  intros [[c changed] e] gw' (Hg & _ & Hr & Hch). split; [exact Hg|]. destruct e as [e|]; [exact Hr|].
  destruct Hr as (Hinv' & (Hsome & Hsame & Hval) & Hkept).
  split; [exact Hinv'|]. split; [done|]. split; [exact Hsame|]. split; [exact Hval|]. split.
  - intros Hcf. destruct (Hkept Hcf) as (w1 & Hrely & H1 & H2). cbn in H1, H2, Hrely.
    rewrite H2, <-H1. unfold fs_rw_rely, fs_rw_stored in *. by rewrite Hrely.
  - intros [Hs Hall]. apply Hch; [done|]. intros w1 Hrely. cbn in Hrely |- *.
    unfold fs_rw_rely in Hrely. unfold fs_rw_stored. rewrite Hrely. by split.
Qed.

(** C20: EnsureCert over a directory that is in order or does not exist yet, for a name that
    certificates can serve, never panics, if the generator's CA, if it holds one, has started
    and may issue certificates of servers, and the reading of a link fails only when it should
    (the host may refuse any other call).  On success it returns the certificates the directory
    shows, they pass the check, and the directory is in order for the next time; it reports
    no change only if the directory still shows what it did, and if what it showed passes
    the check all along it does report none.  On an error it returns no certificates, and
    what the directory shows is what it showed before, or new certificates that are valid. *)
Theorem fs_ensures_valid_certs f dnsName (gw : world) :
  dnsName ≠ "" → servable (W := W) dnsName → Forall (λ c, c ≠ "..") (fcw_Path f) →
  generator_ready gw → dir_ready (fcw_Path f) (disk_of gw) →
  let shown (gw : world) := fs_stored (fcw_Path f) (disk_of gw) in
  wp (fs_EnsureCert range f dnsName) (λ '(c, changed, e) gw',
    match e with
    | Some _ => c = None ∧
        (shown gw' = shown gw ∨ ∃ a, same_certs_opt (shown gw') (Some a) ∧ valid_during (Some a) dnsName gw gw')
    | None => dir_ready (fcw_Path f) (disk_of gw') ∧ is_Some c ∧ same_certs_opt (shown gw') c ∧
        valid_during c dnsName gw gw' ∧
        (changed = false → shown gw' = shown gw) ∧
        (is_Some (shown gw) ∧ (∀ t, (clock gw ≤ t ≤ clock gw')%Z →
           cert_ok (shown gw) dnsName (AddDate t 0 6 0) = true) → changed = false)
    end) gw.
Proof.
  intros Hne Hname Hplain Hg Hd shown. eapply wp_mono; [by apply fs_EnsureCert_wp|].
  intros [[c changed] [e|]] gw' [Hguar Hr].
  - split; [exact Hr|]. destruct Hguar as [_ [Hsame|(a & t1 & t2 & Ht & Hs & Hv)]]; [by left|right].
    exists a. split; [exact Hs|]. right. by exists t1, t2.
  - destruct Hr as ([_ Hd'] & Hrest). split; [exact Hd'|exact Hrest].
Qed.
End ensure.
