(* ===== verification/ControllerTheorems.v ===== *)
(** * The webhook controller provides what the webhook needs

    [sync] against the interfaces of all its components at once; and that the queue's key
    is never lost. *)
From S2P Require Export FsCertFacts CertTheorems.

(** ** Runs of lifted computations *)
Lemma runs_lift {S W A} (m : GoM W A) (s s' : S) w a w' :
  runs (go_lift m) (s, w) a (s', w') → s' = s ∧ runs m w a w'.
Proof. unfold runs, go_lift. destruct (m w) as [o w1]. by intros [= -> -> ->]. Qed.

Lemma wp_with_generator {W A} g (m : GoM (SelfSignedCertGenerator * W) A) (Q : A → W → Prop) w :
  wp m (λ a gw, Q a gw.2) (g, w) → wp (with_generator g m) Q w.
Proof. unfold wp, with_generator. by destruct (m (g, w)) as [[a|why] [g' w']]. Qed.

Lemma path_Join_no_dotdot p s : Forall (λ c, c ≠ "..") p → Forall (λ c, c ≠ "..") (path_Join p s).
Proof.
  unfold path_Join. generalize (components s). intros l. revert p.
  induction l as [|c l IH]; intros p Hp; cbn; [done|]. apply IH. case_decide.
  - by apply Forall_take.
  - apply Forall_app. split; [done|by constructor].
Qed.

Section sync.
Context {W : Type} `{!Crypto W, !CryptoLaws W, !SecretClient W, !SecretClientLaws W}.
Context `{!FsHost W, !FsHostLaws W, !ConfigurationClient W, !ConfigurationLaws W}.
(** The components do not touch each other; time does not run backwards. *)
Context `{!cert_frame (same_disk (W := W)), !cert_frame (same_configs (W := W))}.
Context `{!fs_frame (same_secrets (W := W)), !fs_frame (same_configs (W := W)), !fs_frame (time_moves (W := W))}.
Context `{!config_frame (same_disk (W := W)), !config_frame (same_secrets (W := W))}.
Context (Getenv : string → string) (range : ∀ V, gmap string V → list (string * V)).
Context (UnmarshalWebhooks : WebhookKind → string → string + Webhooks).
Context (MarshalWebhooks : WebhookKind → Webhooks → string + string).
Context (url_Path : string → string + string) (handlers : gset string).
Hypothesis range_perm : ∀ V (m : gmap string V), range V m ≡ₚ map_to_list m.
Hypothesis readlink_true : ∀ q (w : W),
  wp (Readlink q) (λ r _, ∀ e, r = inl e → op_readlink q (disk_of w) = inl e) w.
Hypothesis nothing_parsed : ∀ c, ParseCertsPEM (W := W) "" ≠ inr [c].
Hypothesis dns_servable : servable (W := W) (dns_name Getenv).

Abbreviation dir := (cert_dir Getenv).
Abbreviation secret_key := (GetNamespace Getenv, GetSecretName Getenv).
Abbreviation run_sync := (sync Getenv range UnmarshalWebhooks MarshalWebhooks url_Path handlers).

(** The certificates in the store the settings choose: the directory or the Secret. *)
Definition provisioned (w : W) : option Artifacts :=
  if writes_to_fs Getenv then fs_stored dir (disk_of w) else secretToCerts <$> api_secrets w !! secret_key.

Lemma dir_plain : Forall (λ c, c ≠ "..") dir.
Proof. by apply path_Join_no_dotdot. Qed.

Lemma dns_name_set : dns_name Getenv ≠ "".
Proof.
  unfold dns_name. destruct (go_len (GetHost Getenv) =? 0)%Z eqn:H.
  - unfold ServiceToCommonName. destruct (GetServiceName Getenv); discriminate.
  - intros H'. by rewrite H' in H.
Qed.

Lemma fresh_generator_ready w : generator_ready (mkSelfSignedCertGenerator None None, w).
Proof. intros c Hc. by destruct (nothing_parsed c). Qed.

(** Valid during (or from some time of) the run from [w] to [w']. *)
Definition checked_valid (a : Artifacts) (w w' : W) : Prop :=
  (∃ t, (clock w ≤ t ≤ clock w')%Z ∧ cert_ok (Some a) (dns_name Getenv) (AddDate t 0 6 0) = true) ∨
  (∃ t1 t2, (clock w ≤ t1 ∧ t1 ≤ t2 ∧ t2 ≤ clock w')%Z ∧ stays_valid (Some a) (dns_name Getenv) t1 t2).

(** What ensure_certs leaves, in either store. *)
Definition certs_ensured (w w' : W) (c : option Artifacts) : Prop :=
  ∃ a, c = Some a ∧ same_certs_opt (provisioned w') (Some a) ∧ checked_valid a w w' ∧ dir_ready dir (disk_of w').

Lemma ensure_fs_wp w :
  writes_to_fs Getenv = true → dir_ready dir (disk_of w) →
  wp (ensure_certs Getenv range) (λ '(c, e) w', e = None → certs_ensured w w' c) w.
Proof.
  intros Hfs Hd. unfold ensure_certs. rewrite Hfs. unfold NewFSCertWriter, fs_options, fs_validate, fs_setDefaults.
  cbn. destruct (decide (GetCertDir Getenv = "")); [by apply (wp_ret (None, Some _))|]. cbn [fso_Path fso_CertGenerator default].
  apply wp_bind, wp_with_generator.
  eapply wp_mono; [apply (fs_EnsureCert_wp range range_perm readlink_true (mkFsCertWriter "" dir) (dns_name Getenv)
    (mkSelfSignedCertGenerator None None, w) dns_name_set dns_servable dir_plain)|].
  { split; [apply fresh_generator_ready|exact Hd]. }
  intros [[c changed] e] [g w'] [_ He]. apply wp_ret. intros Hnone. destruct e as [e|]; [done|].
  destruct He as ([_ Hd'] & [a ->] & Hsame & Hval & _).
  exists a. split; [done|]. unfold provisioned. rewrite Hfs. by split.
Qed.

Lemma ensure_secret_wp w :
  writes_to_fs Getenv = false → secrets_usable (api_secrets w) w → dir_ready dir (disk_of w) →
  wp (ensure_certs Getenv range) (λ '(c, e) w', e = None → certs_ensured w w' c) w.
Proof.
  intros Hsec Hst Hd. unfold ensure_certs. rewrite Hsec. cbn [NewSecretCertWriter secret_options].
  eapply wp_mono.
  - apply (wp_always same_disk).
    { apply (always_bind _); [apply with_generator_always, secret_EnsureCert_always; apply _|].
      intros [[? ?] ?]. by apply always_ret. }
    apply wp_bind, wp_with_generator.
    eapply wp_mono; [apply (secret_EnsureCert_wp (W := SelfSignedCertGenerator * W)
      (mkSecretCertWriter secret_key "") (dns_name Getenv) (mkSelfSignedCertGenerator None None, w));
      [exact dns_servable|exact dns_name_set|split; [apply fresh_generator_ready|exact Hst]]|].
    intros [[c changed] e] [g w'] [_ He]. apply wp_ret.
    instantiate (1 := λ '(c, e) w', e = None →
      ∃ a, c = Some a ∧ same_certs_opt (provisioned w') (Some a) ∧ checked_valid a w w').
    intros Hnone. destruct e as [e|]; [done|]. destruct He as ([a ->] & Hsame & Hvalid & _).
    exists a. unfold provisioned. rewrite Hsec. split; [done|]. split; [exact Hsame|exact Hvalid].
  - intros [c e] w' [Hr Hd'] Hnone. destruct (Hr Hnone) as (a & ? & ? & ?). exists a.
    unfold same_disk in Hd'. rewrite Hd'. by split_and!.
Qed.

Lemma ensure_certs_wp w :
  (writes_to_fs Getenv = false → secrets_usable (api_secrets w) w) → dir_ready dir (disk_of w) →
  wp (ensure_certs Getenv range) (λ '(c, e) w', e = None → certs_ensured w w' c) w.
Proof.
  intros Hst Hd. destruct (writes_to_fs Getenv) eqn:Hfs; [by apply ensure_fs_wp|].
  apply ensure_secret_wp; auto.
Qed.

(** The configurations carry the bundle. *)
Definition bundle_registered (ca : gobytes) (w : W) : Prop :=
  ∀ kind, ∃ cfg, config_at w kind (configurationName Getenv kind) = Some cfg ∧
    ∀ wh, wh ∈ default [] (wc_Webhooks cfg) → cc_CABundle (wh_ClientConfig wh) = ca.

Lemma Ensure_registers_bundle ca w w' :
  named Getenv w →
  runs (Ensure Getenv UnmarshalWebhooks MarshalWebhooks url_Path handlers ca) w None w' →
  bundle_registered ca w'.
Proof.
  intros Hnamed Hrun kind. destruct (Ensure_run _ _ _ _ _ _ _ _ Hnamed Hrun kind)
    as (old & new & _ & Hnew & rv & Hc). exists (wc_with_rv rv new). split; [done|].
  unfold ensured_config in Hnew. destruct (parseTemplate _ _ kind old) as [err|[t cfg]]; [done|].
  injection Hnew as <-. intros wh Hwh. cbn in Hwh. unfold registered_webhooks in Hwh.
  rewrite go_appends_elements in Hwh. apply list_elem_of_omap in Hwh as (tmpl & _ & Hreg).
  unfold registered in Hreg. destruct (served_path url_Path tmpl); [|done]. simpl in Hreg.
  case_decide; [|done]. injection Hreg as <-. unfold registered_config. cbn.
  destruct (cc_Service (wh_ClientConfig tmpl)); [by case_decide|done].
Qed.

(** The channel is closed at most once, and only after a success. *)
Definition init_ok (v : ControllerVars) : Prop := onceInit v = uninit_closed v.

Lemma close_uninit_run v (w : W) v' w' :
  init_ok v → runs close_uninit (v, w) () (v', w') → w' = w ∧ init_ok v' ∧ uninit_closed v' = true.
Proof.
  unfold init_ok, runs, close_uninit. destruct v as [[] []]; simpl; intros Hv; try done;
    by intros [= <- <-].
Qed.

Lemma write_certs_run a w w' :
  dir_ready dir (disk_of w) →
  runs (write_certs Getenv range (Some a)) w None w' → shows_certs dir a (disk_of w').
Proof.
  intros Hd Hrun.
  assert (wp (write_certs Getenv range (Some a)) (λ r w', r = None → shows_certs dir a (disk_of w')) w) as Hwp.
  { eapply wp_mono; [by apply (WriteCertsToDir_ready range range_perm readlink_true dir False dir_plain (disk_of w) a Hd w)|].
    by intros r w1 [[_ H] _]. }
  unfold wp in Hwp. rewrite Hrun in Hwp. by apply Hwp.
Qed.

Lemma ensure_certs_always (I : W → W → Prop) `{!Reflexive I, !Transitive I, !cert_frame I, !fs_frame I} :
  always I (ensure_certs Getenv range).
Proof.
  unfold ensure_certs. destruct (writes_to_fs Getenv).
  - destruct (NewFSCertWriter _) as [err|[f g]]; [by apply always_ret|]. apply (always_bind _).
    + apply with_generator_always, fs_EnsureCert_always; apply _.
    + intros [[? ?] ?]. by apply always_ret.
  - destruct (NewSecretCertWriter _) as [err|[f g]]; [by apply always_ret|]. apply (always_bind _).
    + apply with_generator_always, secret_EnsureCert_always; apply _.
    + intros [[? ?] ?]. by apply always_ret.
Qed.

(** Writing the certificates that are provisioned keeps them provisioned. *)
Lemma provisioned_kept a w w' :
  same_certs_opt (provisioned w) (Some a) → same_secrets w w' → shows_certs dir a (disk_of w') →
  same_certs_opt (provisioned w') (Some a).
Proof.
  unfold provisioned, same_secrets. destruct (writes_to_fs Getenv); [|by intros ? ->].
  intros Hst _ Hshow. rewrite (shows_stored _ _ _ Hshow). constructor. apply read_back_filled.
  inversion Hst as [b ? (Hk & Hc & Hck & Hcc) Hb|]; subst. unfold fs_stored in Hb.
  unfold filled. rewrite <-Hk, <-Hc, <-Hck, <-Hcc. repeat case_match; naive_solver.
Qed.

Lemma sync_run v w v' w' :
  init_ok v → (writes_to_fs Getenv = false → secrets_usable (api_secrets w) w) → named Getenv w →
  dir_ready dir (disk_of w) →
  runs run_sync (v, w) None (v', w') →
  uninit_closed v' = true ∧ init_ok v' ∧
  ∃ a, same_certs_opt (provisioned w') (Some a) ∧
    (∃ w1, checked_valid a w w1) ∧
    shows_certs dir a (disk_of w') ∧
    bundle_registered (art_CACert a) w'.
Proof.
  intros Hv Hst Hnamed Hd Hrun. unfold sync in Hrun.
  apply go_bind_inv in Hrun as ([c e] & [v1 w1] & Hcerts & Hrun).
  apply runs_lift in Hcerts as [-> Hcerts]. destruct e as [e|]; [done|].
  assert (certs_ensured w w1 c) as (a & -> & Hsec & Hval & Hd1).
  { pose proof (ensure_certs_wp w Hst Hd) as Hwp. unfold wp in Hwp. rewrite Hcerts in Hwp. by apply Hwp. }
  pose proof (always_runs (same_configs (W := W)) _ _ _ _ (ensure_certs_always _) Hcerts) as Hc1.
  apply go_bind_inv in Hrun as (e & [v2 w2] & Hwrite & Hrun).
  apply runs_lift in Hwrite as [-> Hwrite]. destruct e as [e|]; [done|].
  pose proof (write_certs_run _ _ _ Hd1 Hwrite) as Hshows.
  pose proof (always_runs (same_secrets (W := W)) _ _ _ _ (WriteCertsToDir_always _ _ _ a) Hwrite) as Hs2.
  pose proof (always_runs (same_configs (W := W)) _ _ _ _ (WriteCertsToDir_always _ _ _ a) Hwrite) as Hc2.
  assert (named Getenv w2) as Hnamed2.
  { unfold same_configs in *. intros kind cfg. unfold config_at. rewrite Hc2, Hc1. apply Hnamed. }
  apply go_bind_inv in Hrun as (e & [v3 w3] & Hens & Hrun).
  apply runs_lift in Hens as [-> Hens]. destruct e as [e|]; [done|].
  pose proof (always_runs (same_disk (W := W)) _ _ _ _ (Ensure_always _ _ _ _ _ _ _) Hens) as Hd3.
  pose proof (always_runs (same_secrets (W := W)) _ _ _ _ (Ensure_always _ _ _ _ _ _ _) Hens) as Hs3.
  apply go_bind_inv in Hrun as ([] & [v4 w4] & Hclose & Hrun). injection Hrun as <- <-.
  apply close_uninit_run in Hclose as (-> & Hv' & Hclosed); [|done].
  unfold same_disk in Hd3. split; [done|]. split; [done|]. exists a. rewrite Hd3. split.
  - eapply provisioned_kept; [exact Hsec|by etrans|by rewrite Hd3].
  - split; [by exists w1|]. split; [done|by eapply Ensure_registers_bundle].
Qed.

End sync.

(** ** The queue never loses its key *)

(** What client-go documents of a rate-limited queue: [waiting] are the keys added, or to be
    added after a delay; [processing] those handed out and not yet done.  Get waits for a key
    that is not being processed, or for the end; a queue that is shut down takes no keys. *)
Class WorkQueueLaws (Q : Type) `{!WorkQueue Q} := {
  waiting : Q → gset string;
  processing : Q → gset string;
  shut : Q → bool;
  queue_get_law q : shut q = true ∨ ¬ (waiting q ⊆ processing q) →
    wp queue_Get (λ '(k, quit) q', shut q' = shut q ∧
      if (quit : bool) then shut q = true ∧ waiting q' = waiting q ∧ processing q' = processing q
      else k ∉ processing q ∧ waiting q ⊆ {[k]} ∪ waiting q' ∧ processing q' = {[k]} ∪ processing q) q;
  queue_get_runs q k quit q' : runs queue_Get q (k, quit) q' → if quit then shut q = true else k ∈ waiting q;
  queue_done_law k q : wp (queue_Done k) (λ _ q',
    waiting q ⊆ waiting q' ∧ processing q' = processing q ∖ {[k]} ∧ shut q' = shut q) q;
  queue_add_law k q : wp (queue_Add k) (λ _ q',
    waiting q' = (if shut q then waiting q else {[k]} ∪ waiting q) ∧ processing q' = processing q ∧ shut q' = shut q) q;
  queue_add_after_law k d q : wp (queue_AddAfter k d) (λ _ q',
    waiting q' = (if shut q then waiting q else {[k]} ∪ waiting q) ∧ processing q' = processing q ∧ shut q' = shut q) q;
  queue_forget_law k q : wp (queue_Forget k) (λ _ q',
    waiting q' = waiting q ∧ processing q' = processing q ∧ shut q' = shut q) q;
  queue_add_rate_limited_law k q : wp (queue_AddRateLimited k) (λ _ q',
    waiting q' = (if shut q then waiting q else {[k]} ∪ waiting q) ∧ processing q' = processing q ∧ shut q' = shut q) q;
  queue_shut_down_law q : wp queue_ShutDown (λ _ q',
    waiting q' = waiting q ∧ processing q' = processing q ∧ shut q' = true) q }.

Section queue.
Context {W : Type} `{!Crypto W, !SecretClient W, !FsHost W, !ConfigurationClient W}.
Context {Q : Type} `{!WorkQueue Q, !WorkQueueLaws Q}.
Context (Getenv : string → string) (range : ∀ V, gmap string V → list (string * V)).
Context (UnmarshalWebhooks : WebhookKind → string → string + Webhooks).
Context (MarshalWebhooks : WebhookKind → Webhooks → string + string).
Context (url_Path : string → string + string) (handlers : gset string).

Abbreviation run_sync := (sync Getenv range UnmarshalWebhooks MarshalWebhooks url_Path handlers).
Abbreviation process :=
  (processNextWorkItem (Q := Q) Getenv range UnmarshalWebhooks MarshalWebhooks url_Path handlers).

Lemma wp_on_queue {A} (m : GoM Q A) (P : A → Q * (ControllerVars * W) → Prop) q w :
  wp m (λ a q', P a (q', w)) q → wp (on_queue m) P (q, w).
Proof. unfold wp, on_queue. by destruct (m q) as [[]]. Qed.

(** What a turn does with the queue, given what its sync returns. *)
Definition turned (q : Q) (again : bool) (q' : Q) : Prop :=
  shut q' = shut q ∧
  if again then processing q' = processing q ∧ (shut q = false → waiting q ⊆ waiting q' ∧ waiting q' ≠ ∅)
  else shut q = true ∧ waiting q' = waiting q ∧ processing q' = processing q.

Lemma process_wp q v w (P : option string → ControllerVars * W → Prop) :
  shut q = true ∨ ¬ (waiting q ⊆ processing q) →
  wp run_sync P (v, w) →
  wp process (λ again '(q', vw'), turned q again q' ∧
    if (again : bool) then ∃ err, P err vw' else vw' = (v, w)) (q, (v, w)).
Proof.
  intros Hready Hsync. unfold processNextWorkItem. apply wp_bind, wp_on_queue.
  eapply wp_mono; [by apply queue_get_law|].
  intros [k [|]] q1 [Hs1 Hget]; [by apply wp_ret|]. destruct Hget as (Hk & Hw1 & Hp1).
  unfold deferring, wp. apply wp_runs in Hsync as (err & vw1 & Hrun & HP).
  assert (wp (let! err := go_lift run_sync in
     match err with
     | None => do! on_queue (queue_AddAfter k defaultResyncPeriod) in
               do! on_queue (queue_Forget k) in go_ret true
     | Some _ => do! on_queue (queue_AddRateLimited k) in go_ret true
     end) (λ b '(q2, vw2), b = true ∧ vw2 = vw1 ∧ shut q2 = shut q1 ∧ processing q2 = processing q1 ∧
       waiting q2 = if shut q1 then waiting q1 else {[k]} ∪ waiting q1) (q1, (v, w))) as Hbody.
  { apply wp_bind. unfold wp at 1, go_lift. rewrite Hrun. destruct err as [err|].
    - apply wp_bind, wp_on_queue. wp_call queue_add_rate_limited_law. intros _ q2 (Hw & Hp & Hs). by apply wp_ret.
    - apply wp_bind, wp_on_queue. wp_call queue_add_after_law. intros _ q2 (Hw & Hp & Hs).
      apply wp_bind, wp_on_queue. wp_call queue_forget_law. intros _ q3 (Hw3 & Hp3 & Hs3). apply wp_ret.
      split_and!; congruence. }
  unfold wp in Hbody. cbv zeta in Hbody |- *.
  match type of Hbody with match ?m with _ => _ end => destruct m as [[b|why] [q2 vw2]]; [|done] end.
  destruct Hbody as (-> & -> & Hs2 & Hp2 & Hw2). unfold on_queue.
  pose proof (queue_done_law k q2) as Hd. unfold wp in Hd. destruct (queue_Done k q2) as [[u|why] q3]; [|done].
  destruct Hd as (Hw3 & Hp3 & Hs3). rewrite Hp2, Hp1 in Hp3. split; [|by exists err].
  split; [congruence|]. split; [set_solver|]. intros Hsh. rewrite Hs1, Hsh in Hw2. set_solver.
Qed.

(** What a turn that returns did: it found the end, or it had a key to take and synced. *)
Lemma on_queue_runs {A} (m : GoM Q A) q (vw : ControllerVars * W) a gw :
  runs (on_queue m) (q, vw) a gw → ∃ q', gw = (q', vw) ∧ runs m q a q'.
Proof. unfold runs, on_queue. destruct (m q) as [o q']. intros [= -> <-]. by exists q'. Qed.

Lemma process_cases q vw again q' vw' :
  runs process (q, vw) again (q', vw') →
  (again = false ∧ vw' = vw ∧ ∃ k, runs queue_Get q (k, true) q') ∨
  (again = true ∧ (∃ k q1, runs queue_Get q (k, false) q1) ∧ ∃ err vw1, runs run_sync vw err vw1).
Proof.
  intros Hrun. apply go_bind_inv in Hrun as ([k quit] & gw1 & Hget & Hrun).
  apply on_queue_runs in Hget as (q1 & -> & Hget). destruct quit.
  - injection Hrun as <- <- <-. left. eauto.
  - right. unfold runs, deferring in Hrun.
    match type of Hrun with (let (_, _) := ?m in _) = _ => destruct m as [o w1] eqn:Hm end.
    assert (∃ b, o = Ret b) as [b ->].
    { destruct o as [b|why]; [by exists b|]. by destruct (on_queue _ _) as [[]]. }
    assert (b = again) as -> by (destruct (on_queue _ _) as [[]]; congruence).
    apply go_bind_inv in Hm as (err & [q2 vw2] & Hs & Hm). apply runs_lift in Hs as [_ Hs].
    split; [|by split; [exists k, q1|exists err, vw2]].
    destruct err; repeat apply go_bind_inv in Hm as ([] & ? & _ & Hm); by injection Hm.
Qed.

Lemma process_runs q v w again q' vw' :
  processing q = ∅ → runs process (q, (v, w)) again (q', vw') →
  turned q again q' ∧ if again then ∃ err, runs run_sync (v, w) err vw' else vw' = (v, w).
Proof.
  intros Hp Hrun. destruct (process_cases _ _ _ _ _ Hrun) as
    [(-> & -> & k & Hget)|(-> & (k & q1 & Hget) & err & vw1 & Hsync)]; pose proof (queue_get_runs _ _ _ _ Hget) as Hq.
  - pose proof (queue_get_law q (or_introl Hq)) as Hl. unfold wp in Hl. rewrite Hget in Hl.
    by destruct Hl as (? & _ & ? & ?).
  - assert (shut q = true ∨ ¬ (waiting q ⊆ processing q)) as Hready by (right; rewrite Hp; set_solver).
    pose proof (process_wp q v w (λ err vw, runs run_sync (v, w) err vw) Hready) as H.
    unfold wp in H at 2. rewrite Hrun in H. apply H, wp_runs. eauto.
Qed.

(** C23: No work is lost: a turn of the worker during which sync returns, with an error or
    without, takes a key that is not being processed, and, as long as the queue is not shut
    down, leaves every key that was waiting, and the one it took, waiting again, with nothing
    left marked as being processed; it asks for another turn.  Only a queue that is shut down
    ends the worker, untouched. *)
Theorem work_is_never_lost q v w :
  shut q = true ∨ ¬ (waiting q ⊆ processing q) →
  wp run_sync (λ _ _, True) (v, w) →
  wp process (λ again '(q', vw'), shut q' = shut q ∧
    if (again : bool) then processing q' = processing q ∧ (shut q = false → waiting q ⊆ waiting q' ∧ waiting q' ≠ ∅)
    else shut q = true ∧ waiting q' = waiting q ∧ processing q' = processing q ∧ vw' = (v, w)) (q, (v, w)).
Proof.
  intros Hready Hsync. eapply wp_mono; [by apply process_wp|].
  intros again [q' vw'] [[Hs Ht] Hvw]. split; [done|]. destruct again; [done|]. naive_solver.
Qed.
End queue.
