(* ===== verification/QuietRuns.v ===== *)
(** * Runs in which nothing is refused: the certificates

    The contracts of the certificate writers say what they leave whatever is refused on the
    way; here nothing is ([quiet]), and EnsureCert succeeds.  [certWriterWorks] is the
    interface between the shared logic and a writer in such a run; both writers implement
    it.  [sync] then succeeds too ([SyncSucceeds]). *)
From S2P Require Export CertDirectory ControllerTheorems.

(** ** The shared logic *)
Section interface.
Context {W : Type} `{!Crypto W}.

(** [ok]: the world is as the writer needs it.  [absent]: there are no certificates, and a
    write succeeds.  [holds rv]: there are some, and they can be overwritten at [rv]. *)
Class certWriterWorks (ch : certReadWriter W) := {
  ok : W → Prop;
  absent : W → Prop;
  holds : W → string → Prop;
  works_read w : ok w → wp (cw_read ch) (λ '(c, e) w', ok w' ∧
    (e = None ∧ (∃ a, c = Some a ∧ holds w' (art_ResourceVersion a)) ∨ isNotFound e = true ∧ absent w')) w;
  works_write w : ok w → absent w → wp (cw_write ch) (λ '(c, e) w', ok w' ∧
    e = None ∧ ∃ a, c = Some a ∧ holds w' (art_ResourceVersion a)) w;
  works_now w : ok w → wp Now (λ _ w', ok w' ∧ ∀ rv, holds w rv → holds w' rv) w;
  works_overwrite rv w : ok w → holds w rv → wp (cw_overwrite ch rv) (λ '(c, e) w', ok w' ∧ e = None) w }.

Context (ch : certReadWriter W) `{works : !certWriterWorks ch}.

Lemma createIfNotExists_works w : ok w →
  wp (createIfNotExists ch) (λ '(c, _, e) w', ok w' ∧
    e = None ∧ ∃ a, c = Some a ∧ holds w' (art_ResourceVersion a)) w.
Proof.
  intros Hok. unfold createIfNotExists. apply wp_bind. wp_call works_read; [done|].
  intros [c e] w1 (Hok1 & [[-> Hc]|[-> Habs]]); [by apply wp_ret|].
  apply wp_bind. wp_call works_write; [done|done|]. intros [c2 e2] w2 (Hok2 & -> & Hc2). by apply wp_ret.
Qed.

Lemma validCert_works c name rv w : ok w → holds w rv →
  wp (validCert c name) (λ _ w', ok w' ∧ holds w' rv) w.
Proof.
  intros Hok Hrv. assert (∀ b, wp (go_ret b) (λ (_ : bool) w', ok w' ∧ holds w' rv) w) as Hret by (intros b; by apply wp_ret).
  unfold validCert. destruct c as [a|]; [|apply Hret].
  destruct (art_Cert a) as [cert|], (art_Key a) as [key|], (art_CACert a) as [ca|]; try apply Hret.
  destruct (X509KeyPair cert key); [apply Hret|]. destruct (AppendCertsFromPEM ca); [|apply Hret].
  destruct (pem_Decode cert) as [block|]; [|apply Hret]. destruct (ParseCertificate block); [apply Hret|].
  apply wp_bind. wp_call works_now; [done|]. intros t w' [Hok' Hk]. apply wp_ret. auto.
Qed.

Lemma handleCommon_works dnsName w : dnsName ≠ "" → ok w →
  wp (handleCommon dnsName (Some ch)) (λ '(_, _, e) w', ok w' ∧ e = None) w.
Proof.
  intros Hname Hok. unfold handleCommon.
  destruct (go_len dnsName =? 0)%Z eqn:Hlen; [by apply Z.eqb_eq, go_len_zero in Hlen|].
  apply wp_bind. wp_call createIfNotExists_works; [done|].
  intros [[c changed] e] w1 (Hok1 & -> & a & -> & Hrv). apply wp_bind.
  eapply wp_mono; [by apply (validCert_works _ _ (art_ResourceVersion a))|].
  intros [] w2 [Hok2 Hrv2]; simpl; [by apply wp_ret|]. apply wp_bind.
  wp_call works_overwrite; [done|done|]. intros [c3 e3] w3 [Hok3 ->]. by apply wp_ret.
Qed.
End interface.

(** ** The components, when they refuse nothing *)
Section components.
Context {W : Type} (quiet : W → Prop).

Definition works {E A : Type} (m : GoM W (E + A)) : Prop :=
  ∀ w, quiet w → wp m (λ r w', (∃ a, r = inr a) ∧ quiet w') w.

Class crypto_works `{!Crypto W, !CryptoLaws W} := {
  cw_generate_key bits : works (GenerateKey bits);
  cw_rand_int b : works (RandInt b);
  cw_now w : quiet w → wp Now (λ _ w', quiet w') w;
  cw_self_signed cfg k : works (NewSelfSignedCACert cfg k);
  cw_create_certificate t ca pub signer : key_of ca signer → works (CreateCertificate t ca pub signer) }.

(** No one else writes the Secrets, and the server refuses only what it must. *)
Class secrets_work `{!Crypto W, !CryptoLaws W, !SecretClient W, !SecretClientLaws W} := {
  sw_crypto :: crypto_works;
  sw_get k w : quiet w → wp (GetSecret k) (λ r w', quiet w' ∧ api_secrets w' = api_secrets w ∧
    r = match api_secrets w !! k with Some s => inr s | None => inl NotFound end) w;
  sw_create o w : quiet w → api_secrets w !! sec_key o = None →
    wp (CreateSecret o) (λ r w', quiet w' ∧ (∃ s, r = inr s) ∧ is_Some (api_secrets w' !! sec_key o)) w;
  sw_update o w s : quiet w → api_secrets w !! sec_key o = Some s →
    sec_ResourceVersion o = "" ∨ sec_ResourceVersion o = sec_ResourceVersion s →
    wp (UpdateSecret o) (λ r w', quiet w' ∧ ∃ s', r = inr s') w }.

(** A relation to frame with: the world stays quiet. *)
Definition stays_quiet (w w' : W) : Prop := quiet w → quiet w'.
#[export] Instance stays_quiet_refl : Reflexive stays_quiet.
Proof. intros w. exact id. Qed.
#[export] Instance stays_quiet_trans : Transitive stays_quiet.
Proof. intros a b c Hab Hbc Ha. by apply Hbc, Hab. Qed.
End components.

(** ** The generator *)
Section generator.
Context {W : Type} (quiet : W → Prop) `{!Crypto W, !CryptoLaws W, !crypto_works quiet}.
Abbreviation works := (works quiet).

Lemma works_try {A B : Type} (m : GoM W (string + A)) (k : A → GoM W (string + B)) :
  works m → (∀ a, works (k a)) → works (try m k).
Proof.
  intros Hm Hk w Hw. apply wp_try. eapply wp_mono; [by apply Hm|]. intros r w' [[a ->] Hw']. by apply Hk.
Qed.
Lemma works_wrap {A B : Type} prefix (m : GoM W (string + A)) (k : A → GoM W (string + B)) :
  works m → (∀ a, works (k a)) → works (let! r := m in try (go_ret (wrap prefix r)) k).
Proof.
  intros Hm Hk w Hw. apply wp_bind. eapply wp_mono; [by apply Hm|]. intros r w' [[a ->] Hw'].
  apply wp_try, wp_ret. by apply Hk.
Qed.
Lemma works_ret {A : Type} (a : A) : works (go_ret (A := string + A) (inr a)).
Proof. intros w Hw. apply wp_ret. split; [by eexists|done]. Qed.

Lemma signing_CA_works cp : works (signing_CA cp).
Proof.
  intros w Hw. unfold signing_CA, validCACert. apply wp_bind, wp_bind.
  eapply wp_mono; [by apply (cw_now quiet)|]. intros now w1 Hw1. apply wp_ret.
  match goal with |- wp (match ?x with _ => _ end) _ _ => destruct x as [ca|] end; [by apply works_ret|].
  apply (works_wrap "failed to create the CA private key" NewPrivateKey); [apply (cw_generate_key quiet)| |done]. intros k.
  apply works_wrap; [apply (cw_self_signed quiet)|]. intros ca. apply works_ret.
Qed.

Lemma NewSignedCert_works cfg key ca signer :
  key_of ca signer → cfg_CommonName cfg ≠ "" → cfg_Usages cfg ≠ [] → works (NewSignedCert cfg key ca signer).
Proof.
  intros Hca Hname Husages. unfold NewSignedCert. apply works_try; [apply (cw_rand_int quiet)|]. intros serial w Hw.
  destruct (go_len (cfg_CommonName cfg) =? 0)%Z eqn:Hlen; [by apply Z.eqb_eq, go_len_zero in Hlen|].
  destruct (Z.of_nat (length (cfg_Usages cfg)) =? 0)%Z eqn:Hu.
  { apply Z.eqb_eq in Hu. destruct (cfg_Usages cfg); [done|]. simpl in Hu. lia. }
  apply wp_bind. eapply wp_mono; [by apply (cw_now quiet)|]. intros now w1 Hw1. apply wp_try.
  eapply wp_mono; [apply wp_and; [by apply (cw_create_certificate quiet)|apply create_certificate_law]|].
  intros r w2 [[[der ->] Hw2] [_ Hder]]. destruct (Hder der eq_refl Hca) as (c & -> & _). by apply works_ret.
Qed.

Lemma SelfSigned_Generate_works cp name w : CA_usable cp w → name ≠ "" → quiet w →
  wp (SelfSigned_Generate cp name) (λ r w', (∃ a, r = inr a) ∧ quiet w') w.
Proof.
  intros Hcp Hname Hw. unfold SelfSigned_Generate. apply wp_try.
  eapply wp_mono; [apply wp_and; [by apply signing_CA_works|by apply signing_CA_wp]|].
  intros r w1 [[[[signer ca] ->] Hw1] [_ Hca]]. destruct (Hca signer ca eq_refl) as [Hkey _]. revert w1 Hw1 Hca.
  intros w1 Hw1 _. apply (works_wrap "failed to create the private key" NewPrivateKey); [apply (cw_generate_key quiet)| |done].
  intros key. apply works_wrap; [by apply NewSignedCert_works|]. intros c. apply works_ret.
Qed.

Lemma Generate_works name (gw : SelfSignedCertGenerator * W) : CA_usable gw.1 gw.2 → name ≠ "" → quiet gw.2 →
  wp (Generate name) (λ r gw', (∃ a, r = inr a) ∧ quiet gw'.2) gw.
Proof.
  destruct gw as [g w]. intros Hg Hname Hw. apply (wp_lift (SelfSigned_Generate g name) _ g w).
  by apply SelfSigned_Generate_works.
Qed.
End generator.

(** ** The Secret writer *)
Section secret.
Context {W : Type} (quiet : W → Prop).
Context `{!Crypto W, !CryptoLaws W, !SecretClient W, !SecretClientLaws W, !secrets_work quiet}.
Abbreviation world := (SelfSignedCertGenerator * W)%type.

Context (s : secretCertWriter).
Hypothesis name_servable : servable (W := W) (scw_dnsName s).
Hypothesis name_set : scw_dnsName s ≠ "".

Definition secret_ok (gw : world) : Prop := quiet gw.2 ∧ secret_inv gw.
Definition secret_absent (gw : world) : Prop := api_secrets gw.2 !! scw_Secret s = None.
(** An update at [rv] does not conflict. *)
Definition secret_holds (gw : world) (rv : string) : Prop :=
  ∃ o, api_secrets gw.2 !! scw_Secret s = Some o ∧ (rv = "" ∨ rv = sec_ResourceVersion o).

Lemma secret_read_works gw : secret_ok gw →
  wp (secret_read s) (λ '(c, e) gw', secret_ok gw' ∧
    (e = None ∧ (∃ a, c = Some a ∧ secret_holds gw' (art_ResourceVersion a)) ∨
     isNotFound e = true ∧ secret_absent gw')) gw.
Proof.
  intros [Hq Hinv]. assert (wp (secret_read s) (λ '(c, e) gw', quiet gw'.2 ∧
    (e = None ∧ (∃ a, c = Some a ∧ secret_holds gw' (art_ResourceVersion a)) ∨
     isNotFound e = true ∧ secret_absent gw')) gw) as Hread.
  { unfold secret_read. apply wp_bind. destruct gw as [g w]. apply (wp_lift (GetSecret (scw_Secret s)) _ g w).
    eapply wp_mono; [by apply (sw_get quiet)|]. intros r w1 (Hq1 & Hsec & ->).
    destruct (api_secrets w !! scw_Secret s) as [o|] eqn:Ho.
    - assert (∀ g', secret_holds (g', w1) (art_ResourceVersion (secretToCerts o))) as Hholds.
      { intros g'. exists o. split; [cbn; by rewrite Hsec|right]. unfold secretToCerts. by destruct (sec_Data o). }
      destruct (art_CACert (secretToCerts o)), (art_CAKey (secretToCerts o)); try apply wp_bind;
        apply (wp_ret (Some (secretToCerts o), None)); (split; [done|left]); (split; [done|]); by eexists.
    - apply (wp_ret (None, Some (notFoundError _))). split; [done|right]. split; [done|].
      unfold secret_absent. cbn. by rewrite Hsec. }
  eapply wp_mono; [apply wp_and; [exact Hread|exact (secret_read_wp s gw Hinv)]|].
  intros [c e] gw' [[Hq' Hr] [Hinv' _]]. by split.
Qed.

(** Building the Secret, and what it carries. *)
Lemma buildSecret_works gw : secret_ok gw →
  wp (secret_buildSecret s) (λ r gw', secret_ok gw' ∧ api_secrets gw'.2 = api_secrets gw.2 ∧
    ∃ o a, r = inr (o, a) ∧ sec_key o = scw_Secret s ∧ sec_ResourceVersion o = "" ∧ art_ResourceVersion a = "") gw.
Proof.
  intros [Hq Hinv]. pose proof Hinv as [Hg _].
  assert (wp (secret_buildSecret s) (λ r gw', quiet gw'.2 ∧
    ∃ o a, r = inr (o, a) ∧ sec_key o = scw_Secret s ∧ sec_ResourceVersion o = "" ∧ art_ResourceVersion a = "") gw) as Hbuild.
  { unfold secret_buildSecret. apply wp_try. eapply wp_mono.
    - apply wp_and; [by apply (Generate_works quiet)|by apply generate_law].
    - intros r gw' [[[a ->] Hq'] (_ & _ & _ & Ha)]. apply (wp_ret (inr (certsToSecret a (scw_Secret s), a))).
      split; [done|]. eexists _, a. split; [done|]. split; [apply sec_key_certsToSecret|]. split; [done|].
      by destruct (Ha a eq_refl). }
  eapply wp_mono; [apply wp_and; [exact Hbuild|exact (buildSecret_wp s gw Hinv name_servable)]|].
  intros r gw' [[Hq' Ho] (_ & Hinv' & Hsec & _)]. split; [by split|]. split; [exact Hsec|exact Ho].
Qed.

Lemma secret_write_works gw : secret_ok gw → secret_absent gw →
  wp (secret_write s) (λ '(c, e) gw', secret_ok gw' ∧
    e = None ∧ ∃ a, c = Some a ∧ secret_holds gw' (art_ResourceVersion a)) gw.
Proof.
  intros Hok Habs. assert (wp (secret_write s) (λ '(c, e) gw', quiet gw'.2 ∧
    e = None ∧ ∃ a, c = Some a ∧ secret_holds gw' (art_ResourceVersion a)) gw) as Hwrite.
  { unfold secret_write. apply wp_bind. eapply wp_mono; [by apply buildSecret_works|].
    intros r gw1 ([Hq1 _] & Hsec & o & a & -> & Hkey & _ & Hrv). apply wp_bind. destruct gw1 as [g w1].
    apply (wp_lift (CreateSecret o) _ g w1). eapply wp_mono.
    - apply (sw_create quiet); [exact Hq1|]. rewrite Hkey. cbn in Hsec. by rewrite Hsec.
    - intros r w2 (Hq2 & [o' ->] & [x Hx]). apply (wp_ret (Some a, None)). split; [done|]. split; [done|]. exists a.
      split; [done|]. rewrite Hkey in Hx. exists x. split; [exact Hx|by left]. }
  destruct Hok as [_ Hinv]. eapply wp_mono; [apply wp_and; [exact Hwrite|exact (secret_write_wp s gw name_servable Hinv)]|].
  intros [c e] gw' [[Hq' Hr] [Hinv' _]]. by split.
Qed.

Lemma secret_overwrite_works rv gw : secret_ok gw → secret_holds gw rv →
  wp (secret_overwrite s rv) (λ '(c, e) gw', secret_ok gw' ∧ e = None) gw.
Proof.
  intros Hok (x & Hx & Hrv). assert (wp (secret_overwrite s rv) (λ '(c, e) gw', quiet gw'.2 ∧ e = None) gw) as Hwrite.
  { unfold secret_overwrite. apply wp_bind. eapply wp_mono; [by apply buildSecret_works|].
    intros r gw1 ([Hq1 _] & Hsec & o & a & -> & Hkey & _ & _). apply wp_bind. destruct gw1 as [g w1].
    apply (wp_lift (UpdateSecret (sec_with_rv rv o)) _ g w1). eapply wp_mono.
    - apply (sw_update quiet _ _ x); [exact Hq1| |exact Hrv]. rewrite sec_key_with_rv, Hkey. cbn in Hsec. by rewrite Hsec.
    - intros r w2 (Hq2 & [o' ->]). by apply (wp_ret (Some a, None)). }
  destruct Hok as [_ Hinv]. eapply wp_mono; [apply wp_and; [exact Hwrite|exact (secret_overwrite_wp s rv gw name_servable Hinv)]|].
  intros [c e] gw' [[Hq' Hr] [Hinv' _]]. by split.
Qed.

#[export] Instance secret_writer_works : certWriterWorks (secret_rw s).
Proof.
  refine (@Build_certWriterWorks _ _ (secret_rw s) secret_ok secret_absent secret_holds
    secret_read_works secret_write_works _ secret_overwrite_works).
  intros [g w] [Hq [Hg Hs]]. apply (wp_lift (Now (W := W)) _ g w).
  eapply wp_mono; [apply wp_and; [by apply (cw_now quiet)|apply wp_and; [apply now_law|apply api_now]]|].
  intros t w' (Hq' & [-> Hle] & Hsec). split.
  - split; [done|]. split; [exact (CA_usable_mono g w w' Hle Hg)|]. cbn in *. rewrite Hsec.
    by eapply (secrets_usable_mono _ (g, w) (g, w')).
  - intros rv. unfold secret_holds. cbn. by rewrite Hsec.
Defined.
End secret.

Lemma secret_EnsureCert_works {W} quiet `{!Crypto W, !CryptoLaws W, !SecretClient W, !SecretClientLaws W, !secrets_work quiet}
    sec dnsName (gw : SelfSignedCertGenerator * W) :
  servable (W := W) dnsName → dnsName ≠ "" → quiet gw.2 → secret_inv gw →
  wp (secret_EnsureCert (mkSecretCertWriter sec "") dnsName) (λ '(_, _, e) gw', quiet gw'.2 ∧ e = None) gw.
Proof.
  intros Hserv Hset Hq Hinv. set (s := mkSecretCertWriter sec dnsName).
  eapply wp_mono; [apply (handleCommon_works (secret_rw s) (works := secret_writer_works quiet s Hserv Hset) dnsName gw Hset)|].
  - by split.
  - intros [[c ch] e] gw' [[Hq' _] He]. by split.
Qed.

(** ** The filesystem writer *)
Section filesystem.
Context {W : Type} (quiet : W → Prop).
Context `{!Crypto W, !CryptoLaws W, !FsHost W, !FsHostLaws W}.
Context `{!crypto_frame (same_disk (W := W)), !fs_frame (time_moves (W := W))}.
Context `{!crypto_works quiet, !fs_frame (stays_quiet quiet)}.
Hypothesis quiet_faultless : ∀ w, quiet w → faultless w.
Context (range : ∀ V, gmap string V → list (string * V)).
Hypothesis range_perm : ∀ V (m : gmap string V), range V m ≡ₚ map_to_list m.
Hypothesis readlink_true : ∀ q (w : W),
  wp (Readlink q) (λ r _, ∀ e, r = inl e → op_readlink q (disk_of w) = inl e) w.
Abbreviation world := (SelfSignedCertGenerator * W)%type.

(** A step over the disk, behind a generator or not. *)
Lemma quiet_disk_step {A : Type} (m : GoM W A) (Q : A → disk → Prop) w :
  quiet w → always (stays_quiet quiet) m → triple True (λ _, True) (λ s, s = disk_of w) m Q →
  wp m (λ a w', Q a (disk_of w') ∧ quiet w') w.
Proof.
  intros Hq Ha Hm. eapply wp_mono; [apply (wp_always (stays_quiet quiet)); [exact Ha|apply (Hm w eq_refl)]|].
  - intros _. by apply quiet_faultless.
  - intros a w' [[HQ _] Hq']. split; [exact HQ|by apply Hq'].
Qed.

Context (T : path) (name : string).
Hypothesis T_plain : Forall (λ c, c ≠ "..") T.
Hypothesis name_servable : servable (W := W) name.
Hypothesis name_set : name ≠ "".
Abbreviation f := (mkFsCertWriter name T).

#[local] Instance generator_quiet_frame : fs_frame (stays_quiet (λ gw : world, quiet gw.2)).
Proof.
  assert (∀ (A : Type) (m : GoM W A), always (stays_quiet quiet) m →
    always (stays_quiet (λ gw : world, quiet gw.2)) (go_lift m)) as Hlift.
  { intros A m Hm [g w]. specialize (Hm w). unfold stays_quiet, go_lift in *. by destruct (m w). }
  split; [intros A c|..]; apply Hlift; apply (ff_call (stays_quiet quiet)) || apply (ff_timestamp (stays_quiet quiet)) ||
    apply (ff_random (stays_quiet quiet)).
Qed.

(** The same, behind a generator. *)
Lemma quiet_generator_step {A : Type} (m : GoM world A) (Q : A → disk → Prop) (gw : world) :
  quiet gw.2 → always (stays_quiet (λ gw : world, quiet gw.2)) m → triple True (λ _, True) (λ s, s = disk_of gw) m Q →
  wp m (λ a gw', Q a (disk_of gw') ∧ quiet gw'.2) gw.
Proof.
  intros Hq Ha Hm. eapply wp_mono; [apply (wp_always (stays_quiet (λ gw : world, quiet gw.2))); [exact Ha|apply (Hm gw eq_refl)]|].
  - intros _. by apply quiet_faultless.
  - intros a w' [[HQ _] Hq']. split; [exact HQ|by apply Hq'].
Qed.

Definition fs_ok (gw : world) : Prop := quiet gw.2 ∧ fs_rw_inv T gw.

Lemma fs_read_ok gw : fs_ok gw →
  wp (fs_read f) (λ '(c, e) gw', fs_ok gw' ∧ (e = None ∧ (∃ a, c = Some a ∧ True) ∨ isNotFound e = true ∧ True)) gw.
Proof.
  intros [Hq Hinv]. pose proof (fs_read_step T name T_plain f eq_refl eq_refl gw Hinv) as Hstep.
  assert (wp (fs_read f) (λ '(c, e) gw', (e = None ∧ is_Some c ∨ isNotFound e = true) ∧ quiet gw'.2) gw) as Hread.
  { eapply wp_mono; [apply quiet_generator_step; [exact Hq|apply fs_read_always; apply _|]|].
    - apply (fs_read_works T T_plain name (disk_of gw)). apply Hinv.
    - intros [c e] gw' [[_ He] Hq']. by split. }
  eapply wp_mono; [apply wp_and; [exact Hread|exact Hstep]|].
  intros [c e] gw' [[He Hq'] [Hinv' _]]. split; [by split|]. destruct He as [[-> [a ->]]|He]; [left|by right].
  split; [done|by exists a].
Qed.

Lemma fs_doWrite_ok gw : fs_ok gw →
  wp (fs_doWrite range f) (λ '(c, e) gw', fs_ok gw' ∧ e = None ∧ ∃ a, c = Some a ∧ True) gw.
Proof.
  intros [Hq Hinv]. pose proof Hinv as [Hg Hd].
  pose proof (fs_doWrite_step range range_perm readlink_true T name T_plain name_servable f eq_refl eq_refl gw Hinv) as Hstep.
  assert (wp (fs_doWrite range f) (λ '(c, e) gw', e = None ∧ is_Some c ∧ quiet gw'.2) gw) as Hwrite.
  { unfold fs_doWrite. apply wp_bind.
    eapply wp_mono; [apply wp_and; [by apply (Generate_works quiet)|by apply generate_step]|].
    intros r gw1 [[[a ->] Hq1] (Hd1 & _)]. apply wp_bind.
    eapply wp_mono; [apply quiet_generator_step; [exact Hq1|apply WriteCertsToDir_always; apply _|]|].
    - apply (WriteCertsToDir_works range range_perm (readlink_lifted readlink_true) T T_plain (disk_of gw1) a).
      by rewrite Hd1.
    - intros e gw2 [[-> _] Hq2]. apply (wp_ret (Some a, None)). split_and!; [done|by eexists|done]. }
  eapply wp_mono; [apply wp_and; [exact Hwrite|exact Hstep]|].
  intros [c e] gw' [(-> & [a ->] & Hq') (_ & _ & Hinv' & _)]. split; [by split|]. split; [done|by exists a].
Qed.

#[export] Instance fs_writer_works : certWriterWorks (fs_rw range f).
Proof.
  refine (@Build_certWriterWorks _ _ (fs_rw range f) fs_ok (λ _, True) (λ _ _, True) fs_read_ok _ _ _).
  - intros gw Hok _. by apply fs_doWrite_ok.
  - intros [g w] [Hq [Hg Hd]]. apply (wp_lift (Now (W := W)) _ g w).
    eapply wp_mono; [apply wp_and; [by apply (cw_now quiet)|apply (wp_always same_disk); [apply (cf_now same_disk)|apply now_law]]|].
    intros t w' (Hq' & [-> Hle] & Hsame). split; [|done]. split; [done|]. unfold same_disk in Hsame. split.
    + exact (CA_usable_mono g w w' Hle Hg).
    + cbn in *. by rewrite Hsame.
  - intros rv gw Hok _. eapply wp_mono; [by apply fs_doWrite_ok|]. intros [c e] gw' (Hok' & -> & _). done.
Defined.

Lemma fs_EnsureCert_works gw : fs_ok gw →
  wp (fs_EnsureCert range (mkFsCertWriter "" T) name) (λ '(_, _, e) gw', quiet gw'.2 ∧ e = None) gw.
Proof.
  intros Hok. eapply wp_mono; [apply (handleCommon_works (fs_rw range f) (works := fs_writer_works) name gw name_set Hok)|].
  intros [[c ch] e] gw' [[Hq _] He]. by split.
Qed.
End filesystem.
