(* ===== verification/SyncSucceeds.v ===== *)
(** * sync succeeds when nothing is refused

    [sync_provides_the_webhook] says what a sync that returns nil has done; here it returns
    nil: from a directory in order or not there yet, whatever the Secret holds (but for a CA that
    has not started or may not issue certificates of servers), with the two configurations in
    the cluster, if no component refuses a call that it need not. *)
From S2P Require Export QuietRuns.

Section sync.
Context {W : Type} (quiet : W → Prop).
Context `{!Crypto W, !CryptoLaws W, !SecretClient W, !SecretClientLaws W}.
Context `{!FsHost W, !FsHostLaws W, !ConfigurationClient W, !ConfigurationLaws W}.
Context `{!cert_frame (same_disk (W := W)), !cert_frame (same_configs (W := W))}.
Context `{!fs_frame (same_secrets (W := W)), !fs_frame (same_configs (W := W)), !fs_frame (time_moves (W := W))}.
Context `{!config_frame (same_disk (W := W)), !config_frame (same_secrets (W := W))}.
(** What a quiet world is. *)
Context `{!secrets_work quiet, !fs_frame (stays_quiet quiet), !config_frame (stays_quiet quiet)}.
Hypothesis quiet_faultless : ∀ w, quiet w → faultless w.
Hypothesis quiet_calm : ∀ w, quiet w → calm w.
Context (Getenv : string → string) (range : ∀ V, gmap string V → list (string * V)).
Context (UnmarshalWebhooks : WebhookKind → string → string + Webhooks).
Context (MarshalWebhooks : WebhookKind → Webhooks → string + string).
Context (url_Path : string → string + string) (handlers : gset string).
Hypothesis range_perm : ∀ V (m : gmap string V), range V m ≡ₚ map_to_list m.
Hypothesis readlink_true : ∀ q (w : W),
  wp (Readlink q) (λ r _, ∀ e, r = inl e → op_readlink q (disk_of w) = inl e) w.
Hypothesis nothing_parsed : ∀ c, ParseCertsPEM (W := W) "" ≠ inr [c].
Hypothesis dns_servable : servable (W := W) (dns_name Getenv).

Abbreviation dir := (cert_dir Getenv).
Abbreviation run_sync := (sync Getenv range UnmarshalWebhooks MarshalWebhooks url_Path handlers).

(** Both configurations are there, and every webhook of their templates has a path. *)
Definition configurations_usable (w : W) : Prop :=
  ∀ kind, ∃ old t, config_at w kind (configurationName Getenv kind) = Some old ∧
    template_of UnmarshalWebhooks MarshalWebhooks kind old = Some t ∧ Forall (λ wh, is_Some (served_path url_Path wh)) (default [] t).

Lemma GetCertDir_set : GetCertDir Getenv ≠ "".
Proof.
  unfold GetCertDir, env_or. destruct (go_len (Getenv _) >? 0)%Z eqn:Hlen; [|done]. intros He. by rewrite He in Hlen.
Qed.

Lemma ensure_certs_works w :
  quiet w → (writes_to_fs Getenv = false → secrets_usable (api_secrets w) w) → dir_ready dir (disk_of w) →
  wp (ensure_certs Getenv range) (λ '(_, e) w', e = None ∧ quiet w') w.
Proof.
  intros Hq Hst Hd. unfold ensure_certs. destruct (writes_to_fs Getenv).
  - unfold NewFSCertWriter, fs_options, fs_validate, fs_setDefaults. cbn. rewrite decide_False by apply GetCertDir_set.
    cbn [fso_Path fso_CertGenerator default]. apply wp_bind, wp_with_generator.
    eapply wp_mono; [apply (fs_EnsureCert_works quiet quiet_faultless range range_perm readlink_true dir (dns_name Getenv)
      (dir_plain Getenv) dns_servable (dns_name_set Getenv) (mkSelfSignedCertGenerator None None, w))|].
    { split; [exact Hq|]. split; [by apply fresh_generator_ready|exact Hd]. }
    intros [[c ch] e] gw' [Hq' ->]. by apply wp_ret.
  - cbn [NewSecretCertWriter secret_options]. apply wp_bind, wp_with_generator.
    eapply wp_mono; [apply (secret_EnsureCert_works quiet (GetNamespace Getenv, GetSecretName Getenv) (dns_name Getenv)
      (mkSelfSignedCertGenerator None None, w) dns_servable (dns_name_set Getenv) Hq)|].
    { split; [by apply fresh_generator_ready|by apply Hst]. }
    intros [[c ch] e] gw' [Hq' ->]. by apply wp_ret.
Qed.

Lemma ensured_step w :
  quiet w → (writes_to_fs Getenv = false → secrets_usable (api_secrets w) w) → dir_ready dir (disk_of w) →
  wp (ensure_certs Getenv range) (λ '(c, e) w1, e = None ∧ quiet w1 ∧ (∃ a, c = Some a) ∧
    dir_ready dir (disk_of w1) ∧ configs w1 = configs w) w.
Proof.
  intros Hq Hst Hd. pose proof (ensure_certs_works w Hq Hst Hd) as Hworks.
  pose proof (ensure_certs_wp Getenv range range_perm readlink_true nothing_parsed dns_servable w Hst Hd) as Hwp.
  eapply wp_mono; [apply wp_and; [exact Hworks|apply (wp_always same_configs); [|exact Hwp]]|].
  - by apply (ensure_certs_always Getenv range); apply _.
  - intros [c e] w1 [[-> Hq1] [Hcerts Hc1]]. destruct (Hcerts eq_refl) as (a & -> & _ & _ & Hd1).
    split_and!; [done|done|by exists a|done|exact Hc1].
Qed.

Lemma written_step a w :
  quiet w → dir_ready dir (disk_of w) →
  wp (WriteCertsToDir range dir a) (λ e w1, e = None ∧ quiet w1 ∧ configs w1 = configs w) w.
Proof.
  intros Hq Hd. eapply wp_mono.
  - apply (wp_always same_configs); [by apply (WriteCertsToDir_always same_configs)|].
    apply (quiet_disk_step quiet quiet_faultless); [done|by apply (WriteCertsToDir_always (stays_quiet quiet))|].
    by apply (WriteCertsToDir_works range range_perm readlink_true dir (dir_plain Getenv)).
  - intros e w1 [[[-> _] Hq1] Hc]. by split_and!.
Qed.

Lemma sync_returns_nil v w :
  init_ok v → quiet w → (writes_to_fs Getenv = false → secrets_usable (api_secrets w) w) → named Getenv w →
  dir_ready dir (disk_of w) → port_reads Getenv → configurations_usable w →
  wp run_sync (λ e '(_, w'), e = None ∧ quiet w') (v, w).
Proof.
  intros Hv Hq Hst Hnamed Hd Hport Hconf. unfold sync. apply wp_bind, wp_lift.
  eapply wp_mono; [by apply ensured_step|]. intros [c e] w1 (-> & Hq1 & [a ->] & Hd1 & Hc1).
  apply wp_bind, wp_lift. cbn [write_certs]. eapply wp_mono; [by apply written_step|].
  intros e w2 (-> & Hq2 & Hc2). apply wp_bind, wp_lift.
  assert (∀ kind name, config_at w2 kind name = config_at w kind name) as Hat
    by (intros kind name; unfold config_at; by rewrite Hc2, Hc1).
  eapply wp_mono; [apply (wp_always (stays_quiet quiet)); [by apply (Ensure_always (stays_quiet quiet))|]|].
  - apply (ensure_succeeds Getenv UnmarshalWebhooks MarshalWebhooks url_Path handlers _ w2); [|by apply quiet_calm|done|].
    + intros kind cfg. rewrite Hat. apply Hnamed.
    + intros kind. rewrite Hat. apply Hconf.
  - intros e w3 [-> Hq3]. apply wp_bind. unfold wp, close_uninit. unfold init_ok in Hv.
    destruct v as [[] []]; try done; cbn; (split; [done|by apply Hq3]).
Qed.

End sync.
