(* ===== verification/ControllerRuns.v ===== *)
(** * Runs of the webhook controller, from its creation on

    What holds after any steps of [Start]: of the informers' events, the worker's turns, the
    end of the context and whatever the rest of the world does in between. *)
From S2P Require Export ControllerTheorems.

(** An event of one of the three objects the controller keeps. *)
Definition concerns (Getenv : string → string) (e : InformerEvent) : bool :=
  match e with
  | SecretAdded s | SecretUpdated _ s => bool_decide (sec_Name s = GetSecretName Getenv)
  | ConfigurationAdded kind c | ConfigurationUpdated kind _ c =>
      bool_decide (om_Name (wc_ObjectMeta c) = configurationName Getenv kind)
  end.

(** What sync does to the variables: a success, and only a success, closes the channel. *)
Section variables.
Context {W : Type} `{!Crypto W, !SecretClient W, !FsHost W, !ConfigurationClient W}.
Context (Getenv : string → string) (range : ∀ V, gmap string V → list (string * V)).
Context (UnmarshalWebhooks : WebhookKind → string → string + Webhooks).
Context (MarshalWebhooks : WebhookKind → Webhooks → string + string).
Context (url_Path : string → string + string) (handlers : gset string).
Abbreviation run_sync := (sync Getenv range UnmarshalWebhooks MarshalWebhooks url_Path handlers).

Lemma sync_vars v w err v' w' :
  init_ok v → runs run_sync (v, w) err (v', w') →
  init_ok v' ∧ if err is None then uninit_closed v' = true else v' = v.
Proof.
  intros Hv Hrun. unfold sync in Hrun.
  apply go_bind_inv in Hrun as ([c e] & [v1 w1] & H1 & Hrun). apply runs_lift in H1 as [-> _].
  destruct e; [by injection Hrun as <- <- _|].
  apply go_bind_inv in Hrun as (e & [v2 w2] & H2 & Hrun). apply runs_lift in H2 as [-> _].
  destruct e; [by injection Hrun as <- <- _|]. destruct c as [c|]; [|done].
  apply go_bind_inv in Hrun as (e & [v3 w3] & H3 & Hrun). apply runs_lift in H3 as [-> _].
  destruct e; [by injection Hrun as <- <- _|].
  apply go_bind_inv in Hrun as ([] & [v4 w4] & H4 & Hrun). injection Hrun as <- <- <-.
  by apply close_uninit_run in H4 as (_ & ? & ?).
Qed.
End variables.

Section runs.
Context {W : Type} `{!Crypto W, !SecretClient W, !FsHost W, !ConfigurationClient W}.
Context {Q : Type} `{!WorkQueue Q, !WorkQueueLaws Q}.
Context (Getenv : string → string) (range : ∀ V, gmap string V → list (string * V)).
Context (UnmarshalWebhooks : WebhookKind → string → string + Webhooks).
Context (MarshalWebhooks : WebhookKind → Webhooks → string + string).
Context (url_Path : string → string + string) (handlers : gset string).
Abbreviation run_sync := (sync (W := W) Getenv range UnmarshalWebhooks MarshalWebhooks url_Path handlers).
Abbreviation world := (Q * (ControllerVars * W))%type.
Abbreviation step := (start_step (Q := Q) Getenv range UnmarshalWebhooks MarshalWebhooks url_Path handlers).
Abbreviation run := (start_run (Q := Q) Getenv range UnmarshalWebhooks MarshalWebhooks url_Path handlers).

Lemma deliver_wp e q :
  wp (deliver Getenv e) (λ _ q', waiting q ⊆ waiting q' ∧ processing q' = processing q ∧ shut q' = shut q ∧
    (concerns Getenv e = true → shut q = false → "" ∈ waiting q')) (q : Q).
Proof.
  assert (∀ name wanted b, b = bool_decide (name = wanted) →
    wp (queue_named name wanted) (λ _ q', waiting q ⊆ waiting q' ∧ processing q' = processing q ∧
      shut q' = shut q ∧ (b = true → shut q = false → "" ∈ waiting q')) q) as H.
  { intros name wanted b ->. unfold queue_named. case_decide as Hn.
    - wp_call queue_add_law. intros _ q' (Hw & Hp & Hs). rewrite Hw.
      destruct (shut q); split_and!; try done; set_solver.
    - apply wp_ret. by rewrite bool_decide_eq_false_2. }
  destruct e; by apply H.
Qed.

Definition is_stopped (p : Phase) : bool := if p is Stopped _ then true else false.

(** A turn of the trace [tr] whose sync returned nil. *)
Definition synced_turn (gw0 : world) (tr : list Label) : Prop :=
  ∃ later before p q vw vw', tr = later ++ Turned true :: before ∧
    run gw0 before (p, (q, vw)) ∧ runs run_sync vw None vw'.

Record run_inv (gw0 : world) (tr : list Label) (p : Phase) (q : Q) (v : ControllerVars) : Prop := {
  inv_once : init_ok v;
  inv_synced : uninit_closed v = true → synced_turn gw0 tr;
  inv_processing : processing q = ∅;
  inv_shut : shut q = is_stopped p;
  inv_waiting e : Delivered e ∈ tr → concerns Getenv e = true → shut q = false → waiting q ≠ ∅;
  inv_working : worker_runs p = true → CachesSynced ∈ tr;
  inv_stopped : p = Stopped true → ContextDone ∈ tr;
  inv_turns again : Turned again ∈ tr → CachesSynced ∈ tr ∧ (again = false → ContextDone ∈ tr) }.

Lemma synced_turn_later gw0 l tr : synced_turn gw0 tr → synced_turn gw0 (l :: tr).
Proof. intros (later & before & p & q & vw & vw' & -> & H). by exists (l :: later), before, p, q, vw, vw'. Qed.

Lemma run_inv_init q0 w0 :
  waiting q0 = ∅ → processing q0 = ∅ → shut q0 = false →
  run_inv (q0, (initial_vars, w0)) [] Created q0 initial_vars.
Proof. intros Hw Hp Hs. split; try done; intros; set_solver. Qed.

(** A step that is not a turn leaves the variables, and adds to the queue at most. *)
Lemma run_inv_quiet gw0 tr l p q v p' q' :
  run_inv gw0 tr p q v → (∀ again, l ≠ Turned again) →
  waiting q ⊆ waiting q' → processing q' = processing q → shut q' = is_stopped p' →
  (is_stopped p = true → is_stopped p' = true) →
  (∀ e, l = Delivered e → concerns Getenv e = true → shut q' = false → waiting q' ≠ ∅) →
  (worker_runs p' = true → worker_runs p = true ∨ l = CachesSynced) →
  (p' = Stopped true → p = Stopped true ∨ l = ContextDone) →
  run_inv gw0 (l :: tr) p' q' v.
Proof.
  intros [] Hl Hw Hp Hs Hmono Hd Hwork Hstop. split; try done.
  - intros Hc. by apply synced_turn_later, inv_synced0.
  - congruence.
  - intros e [He|He]%elem_of_cons Hc Hsh; [by eapply Hd|].
    assert (waiting q ≠ ∅) as Hne; [|set_solver]. eapply inv_waiting0; [done..|].
    rewrite inv_shut0. destruct (is_stopped p); [|done]. rewrite Hs, Hmono in Hsh; done.
  - intros Hr. apply elem_of_cons. destruct (Hwork Hr) as [?|]; [right|left]; auto.
  - intros Hr. apply elem_of_cons. destruct (Hstop Hr) as [?|]; [right|left]; auto.
  - intros again [He|He]%elem_of_cons; [by destruct (Hl again)|].
    destruct (inv_turns0 _ He) as [? Hcd]. split; [by right|]. intros ?. right. auto.
Qed.

Lemma run_inv_turn gw0 tr p q v w again q' v' w' :
  run_inv gw0 tr p q v → run gw0 tr (p, (q, (v, w))) → worker_runs p = true →
  runs (processNextWorkItem Getenv range UnmarshalWebhooks MarshalWebhooks url_Path handlers)
    (q, (v, w)) again (q', (v', w')) →
  run_inv gw0 (Turned again :: tr) p q' v'.
Proof.
  intros [] Htr Hwork Hrun. destruct (process_runs Getenv range UnmarshalWebhooks MarshalWebhooks url_Path handlers _ _ _ _ _ _ inv_processing0 Hrun) as [[Hs Ht] Hv].
  assert (init_ok v' ∧ (uninit_closed v' = true → synced_turn gw0 (Turned again :: tr))) as [Ho Hc].
  { destruct again; [|injection Hv as -> ->; split; [done|intros ?; by apply synced_turn_later, inv_synced0]].
    destruct Hv as [err Hsync]. destruct (sync_vars Getenv range UnmarshalWebhooks MarshalWebhooks url_Path handlers _ _ _ _ _ inv_once0 Hsync) as [Ho Hc].
    split; [done|]. intros Hcl. destruct err as [err|]; [subst; by apply synced_turn_later, inv_synced0|].
    by exists [], tr, p, q, (v, w), (v', w'). }
  assert (processing q' = ∅) as Hp by (destruct again; [destruct Ht|destruct Ht as (_ & _ & ?)]; congruence).
  split; try done.
  - congruence.
  - intros e [He|He]%elem_of_cons Hce Hsh; [done|]. rewrite Hs in Hsh.
    destruct again; [by apply Ht|]. destruct Ht; congruence.
  - intros _. right. auto.
  - intros ->. right. auto.
  - intros b [Hb|Hb]%elem_of_cons; [injection Hb as ->|destruct (inv_turns0 _ Hb); split; [by right|intros; right; auto]].
    split; [right; auto|]. intros ->. right. destruct Ht as [Hsh _]. rewrite inv_shut0 in Hsh.
    apply inv_stopped0. by destruct p as [| | |[]].
Qed.

Lemma run_inv_holds q0 w0 tr p q v w :
  waiting q0 = ∅ → processing q0 = ∅ → shut q0 = false →
  run (q0, (initial_vars, w0)) tr (p, (q, (v, w))) → run_inv (q0, (initial_vars, w0)) tr p q v.
Proof.
  intros Hw0 Hp0 Hs0 Hrun. remember (p, (q, (v, w))) as s eqn:Hs. revert p q v w Hs.
  induction Hrun as [|tr [p0 [q1 [v1 w1]]] l s' Hrun IH Hstep]; intros p q v w Hs.
  { injection Hs as <- <- <- <-. by apply run_inv_init. }
  pose proof (IH _ _ _ _ eq_refl) as Hinv. pose proof (inv_shut _ _ _ _ _ Hinv) as Hsh. subst s'.
  inversion Hstep; subst.
  - by apply (run_inv_quiet _ _ _ _ _ _ _ _ Hinv).
  - pose proof (deliver_wp e q1) as H. unfold wp in H.
    match goal with Hd : runs (deliver _ _) _ _ _ |- _ => rewrite Hd in H end.
    destruct H as (Hw & Hp & Hsq & Hadd).
    apply (run_inv_quiet _ _ _ _ _ _ _ _ Hinv); try done; [congruence| |by left|by left].
    intros e' [= <-] Hc Hf. rewrite Hsq in Hf. specialize (Hadd Hc Hf). set_solver.
  - apply (run_inv_quiet _ _ _ _ _ _ _ _ Hinv); try done. by right.
  - pose proof (queue_shut_down_law q1) as H. unfold wp in H.
    match goal with Hd : runs queue_ShutDown _ _ _ |- _ => rewrite Hd in H end. destruct H as (Hw & Hp & Hsq).
    apply (run_inv_quiet _ _ _ _ _ _ _ _ Hinv); try done. set_solver.
  - pose proof (queue_shut_down_law q1) as H. unfold wp in H.
    match goal with Hd : runs queue_ShutDown _ _ _ |- _ => rewrite Hd in H end. destruct H as (Hw & Hp & Hsq).
    apply (run_inv_quiet _ _ _ _ _ _ _ _ Hinv); try done; [set_solver|by left|by right].
  - by eapply run_inv_turn.
  - apply (run_inv_quiet _ _ _ _ _ _ _ _ Hinv); try done; by left.
Qed.

(** C24: The life of the webhook controller, from a fresh queue on, whatever events arrive,
    whatever its syncs return and whatever else happens in the cluster between its steps.
    The channel of [Inited] is closed only if some turn's sync returned nil, and can never
    be closed twice; no turn comes before the caches are synced; the worker ends only after
    the context; once an event of the Secret or of one of the configurations has arrived,
    the queue has work until it is shut down; and no key is held back by a turn. *)
Theorem controller_runs q0 w0 tr p q v w :
  waiting q0 = ∅ → processing q0 = ∅ → shut q0 = false →
  run (q0, (initial_vars, w0)) tr (p, (q, (v, w))) →
  init_ok v ∧
  (uninit_closed v = true → ∃ later before p1 q1 vw vw', tr = later ++ Turned true :: before ∧
    run (q0, (initial_vars, w0)) before (p1, (q1, vw)) ∧ runs run_sync vw None vw') ∧
  (∀ again, Turned again ∈ tr → CachesSynced ∈ tr ∧ (again = false → ContextDone ∈ tr)) ∧
  (∀ e, Delivered e ∈ tr → concerns Getenv e = true → shut q = false → waiting q ≠ ∅) ∧
  processing q = ∅ ∧ (shut q = true ↔ ∃ worker, p = Stopped worker).
Proof.
  intros Hw Hp Hs Hrun. destruct (run_inv_holds _ _ _ _ _ _ _ Hw Hp Hs Hrun) as [].
  split; [done|]. split; [done|]. split; [done|]. split; [done|]. split; [done|].
  rewrite inv_shut0. destruct p; split; try done; try (by intros []). eauto.
Qed.
End runs.
