(* ===== verification/Startup.v ===== *)
(** * The start of the process: [cmd/main.go]

    The flags, the options of the manager, and the order in which [main] puts the parts
    together; with [Initialize], [Checker] and [WaitReady] of [internal/webhook/server.go],
    [New] of the webhook controller and [SetupWithManager] of the reconciler.  The package
    variables of all packages are one record in front of the world.  os.Exit(1) ends the
    process, as a panic does; logging is left out. *)
From S2P Require Export Features EventHandlers WebhookServer WebhookController HealthChecker TypedClient Informers.

(** ** Flags: what flag.Parse leaves in the variables of main, and their defaults *)
Record Flags := mkFlags {
  fl_metricsAddr : string;
  fl_probeAddr : string;
  fl_enableLeaderElection : bool;
  fl_secureMetrics : bool;
  fl_enableHTTP2 : bool;
  fl_enableVMIPersistence : bool;
  fl_enableStatefulSetPersistence : bool }.
Definition default_flags : Flags := mkFlags "0" ":8081" false true false true true.

(** ** Options *)

(** tls.Config, of which the options set one field. *)
Record TlsConfig := mkTlsConfig { tls_NextProtos : list string; tls_rest : opaque }.
Definition disableHTTP2 (c : TlsConfig) : TlsConfig := mkTlsConfig ["http/1.1"] (tls_rest c).

Definition tlsOpts (f : Flags) : list (TlsConfig → TlsConfig) :=
  if negb (fl_enableHTTP2 f) then [disableHTTP2] else [].

(** metricsserver.Options; the filter provider is WithAuthenticationAndAuthorization or nil. *)
Record MetricsServerOptions := mkMetricsServerOptions {
  mo_BindAddress : string;
  mo_SecureServing : bool;
  mo_TLSOpts : list (TlsConfig → TlsConfig);
  mo_FilterProvider : bool }.
Definition metricsServerOptions (f : Flags) : MetricsServerOptions :=
  mkMetricsServerOptions (fl_metricsAddr f) (fl_secureMetrics f) (tlsOpts f) (fl_secureMetrics f).

(** webhook.Options *)
Record WebhookOptions := mkWebhookOptions {
  wo_Host : string;
  wo_Port : Z;
  wo_CertDir : string;
  wo_TLSOpts : list (TlsConfig → TlsConfig) }.

(** manager.Options *)
Record ManagerOptions := mkManagerOptions {
  mgo_Metrics : MetricsServerOptions;
  mgo_WebhookServer : WebhookOptions;
  mgo_HealthProbeBindAddress : string;
  mgo_LeaderElection : bool;
  mgo_LeaderElectionID : string }.

Definition webhook_options {W} (Getenv : string → string) : GoM W WebhookOptions :=
  let! port := GetPort Getenv in
  go_ret (mkWebhookOptions "0.0.0.0" port (GetCertDir Getenv) []).

(** SetupWithWebhookOpt of server.go *)
Definition SetupWithWebhookOpt {W} (Getenv : string → string) (opt : ManagerOptions) : GoM W ManagerOptions :=
  let! server := webhook_options Getenv in
  go_ret (mkManagerOptions (mgo_Metrics opt) server (mgo_HealthProbeBindAddress opt)
            (mgo_LeaderElection opt) (mgo_LeaderElectionID opt)).

Definition manager_options {W} (Getenv : string → string) (f : Flags) : GoM W ManagerOptions :=
  let! server := webhook_options Getenv in
  go_ret (mkManagerOptions (metricsServerOptions f) server (fl_probeAddr f) (fl_enableLeaderElection f)
            "5d820af4.clay.io").

(** The TLS configuration of a server: its own, changed by the options in turn. *)
Definition apply_tls (opts : list (TlsConfig → TlsConfig)) (c : TlsConfig) : TlsConfig :=
  foldl (λ c opt, opt c) c opts.

(** The probes main adds to the manager. *)
Inductive HealthzCheck := Ping | WebhookChecker.

Section main.
Context {W Pool Mgr B H S : Type}.
Context `{!FsHost W, RestTypes, !RestLibrary W, !HandlerBuilder Mgr B H, !HookServer W H S}.
Variable Getenv : string → string.
Variable range : ∀ {V}, gmap string V → list (string * V).

(** *** The package variables *)
Record Globals := mkGlobals {
  g_features : PersistenceConfig;
  g_webhook : Registry B H;
  g_client : RegistryVars;
  g_controller : ControllerVars;
  g_health : HealthVars Pool }.

Abbreviation M A := (GoM (Globals * W) A).

Definition on_outside {A} (m : GoM W A) : M A := λ '(g, w), let '(o, w') := m w in (o, (g, w')).
Definition on_features {A} (m : GoM PersistenceConfig A) : M A := λ '(g, w),
  let '(o, s) := m (g_features g) in
  (o, (mkGlobals s (g_webhook g) (g_client g) (g_controller g) (g_health g), w)).
Definition on_client {A} (m : GoM (RegistryVars * W) A) : M A := λ '(g, w),
  let '(o, (s, w')) := m (g_client g, w) in
  (o, (mkGlobals (g_features g) (g_webhook g) s (g_controller g) (g_health g), w')).
Definition on_health {A} (m : GoM (HealthVars Pool * W) A) : M A := λ '(g, w),
  let '(o, (s, w')) := m (g_health g, w) in
  (o, (mkGlobals (g_features g) (g_webhook g) (g_client g) (g_controller g) s, w')).
Definition get_globals : M Globals := λ '(g, w), (Ret g, (g, w)).
Definition set_webhook (r : Registry B H) : M () := λ '(g, w),
  (Ret (), (mkGlobals (g_features g) r (g_client g) (g_controller g) (g_health g), w)).

(** os.Exit(1) *)
Definition exit_1 {A} : M A := go_panic "exit status 1".
(** if err != nil { setupLog.Error(…); os.Exit(1) } *)
Definition or_exit (m : M (option string)) : M () :=
  let! err := m in match err with Some _ => exit_1 | None => go_ret () end.

(** *** controller-runtime *)
Variable gates : FeatureGates.
Variable GetScheme : Mgr → S.
Variable GetConfigOrDie : GoM W RestConfig.
Variable NewManager : RestConfig → ManagerOptions → GoM W (string + Mgr).
Variable AddHealthzCheck AddReadyzCheck : Mgr → string → HealthzCheck → GoM W (option string).
Variable AddToScheme : S → GoM W (option string).
Variable Complete : Mgr → ControllerBuilder → GoM W (option string).
Variable Manager_Start : Mgr → GoM W (option string).

(** *** Time, and what the other goroutines do while this one waits *)
Variable Since_start : M Z.
Variable Sleep : Z → M ().
(** select on Inited() and a timer: whether the first was ready. *)
Variable select_Inited : Z → M bool.

(** *** health.Checker (HealthChecker.v, with its parameters) *)
Variable health_Checker : GoM (HealthVars Pool * W) (option string).

(** *** New of the webhook controller: its client must be there. *)
Record Controller := mkController { c_kubeClient : KubeClientset; c_handlers : gset string }.
Definition webhookcontroller_New (handlers : gmap string H) : M (string + Controller) :=
  let! gc := on_client (GetGenericClientWithName "webhook-controller") in
  match gc with
  | None => go_panic "invalid memory address or nil pointer dereference"
  | Some gc => go_ret (inr (mkController (KubeClient gc) (dom handlers)))
  end.

(** *** server.go *)
Definition Initialize (cfg : RestConfig) : M (option string) :=
  let! g := get_globals in
  let! c := webhookcontroller_New (handlerMap (g_webhook g)) in
  match c with
  | inl err => go_ret (Some err)
  | inr _ =>
      let! inited := select_Inited (20 * Second) in
      go_ret (if (inited : bool) then None
              else Some "failed to start webhook controller for waiting more than 20s")
  end.

Definition webhook_Checker : M (option string) :=
  let! g := get_globals in
  if uninit_closed (g_controller g) then on_health health_Checker
  else go_ret (Some "webhook controller has not initialized").

(** The loop; [None] when [fuel] turns were not enough.  A warning is logged after 5 s. *)
Fixpoint WaitReady_turns (fuel : nat) : M (option (option string)) :=
  match fuel with
  | O => go_ret None
  | Datatypes.S n =>
      do! Since_start in
      let! err := webhook_Checker in
      match err with
      | None => go_ret (Some None)
      | Some _ => do! Sleep (2 * Second) in WaitReady_turns n
      end
  end.

(** *** SetupWithManager of the reconciler *)
Definition reconciler_SetupWithManager (mgr : Mgr) : M (option string) :=
  let! err := on_outside (AddToScheme (GetScheme mgr)) in
  match err with
  | Some err => go_ret (Some ("unable to add Calico APIs to scheme: " +:+ err))
  | None =>
      let! g := get_globals in
      on_outside (Complete mgr (reconciler_watches (g_features g)))
  end.

(** *** main *)
Definition webhook_SetupWithManager (mgr : Mgr) : M (option string) :=
  let! g := get_globals in
  let! r := on_outside (SetupWithManager (@range) gates GetScheme mgr (g_webhook g)) in
  do! set_webhook r in go_ret None.

(** Up to the go statement. *)
Definition main_setup (flags : Flags) : M Mgr :=
  let! cfg := on_outside GetConfigOrDie in
  let! options := on_outside (manager_options Getenv flags) in
  let! mgr := on_outside (NewManager cfg options) in
  match mgr with
  | inl _ => exit_1
  | inr mgr =>
      do! or_exit (on_client (NewRegistry cfg)) in
      do! or_exit (webhook_SetupWithManager mgr) in
      do! or_exit (Initialize cfg) in
      do! or_exit (on_outside (AddHealthzCheck mgr "healthz" Ping)) in
      do! or_exit (on_outside (AddReadyzCheck mgr "webhook-ready" WebhookChecker)) in
      do! on_features (SetPersistenceConfig (fl_enableVMIPersistence flags) (fl_enableStatefulSetPersistence flags)) in
      go_ret mgr
  end.

(** The goroutine; [None] when [fuel] turns of WaitReady were not enough. *)
Definition main_goroutine (fuel : nat) (mgr : Mgr) : M (option ()) :=
  let! r := WaitReady_turns fuel in
  match r with
  | None => go_ret None
  | Some (Some _) => exit_1
  | Some None => do! or_exit (reconciler_SetupWithManager mgr) in go_ret (Some ())
  end.

(** The end of main: it returns when the manager has stopped. *)
Definition main_start (mgr : Mgr) : M () := or_exit (on_outside (Manager_Start mgr)).
End main.
Arguments Globals Pool B H {_}.
