(* ===== verification/StartupTheorems.v ===== *)
(** * The properties of the start

    The readiness loop and what it waits for; the controllers, which start after it; and
    what [main] has put in place when it starts the manager. *)
From S2P Require Export Startup HealthTheorems WebhookServerTheorems ClientsetTheorems.

(** ** The health check where no call is refused *)
Section probe.
Context {W Pool : Type} `{!FsHost W, !FsHostLaws W}.
Context (Getenv : string → string).
Context (NewWatcher : GoM W (option string)) (Watcher_Add : path → GoM W (option string)).
Context (AppendCerts : string → option Pool).
Context (client_Do : HttpClient Pool → string → GoM W (option string)) (NewRequest : string → option string).
(** How many more polls the webhook server leaves unanswered; and whether the TLS handshake of
    a client with these RootCAs succeeds, with the certificate that the server presents. *)
Context (countdown : W → nat) (handshake : W → option Pool → Prop).

(** The server comes no further from answering, and keeps its certificate. *)
Definition serves_on (w w' : W) : Prop :=
  countdown w' ≤ countdown w ∧ ∀ pool, handshake w pool → handshake w' pool.

Definition moves (w w' : W) : Prop :=
  disk_of w' = disk_of w ∧ (faultless w → faultless w') ∧ serves_on w w'.

Hypothesis read_serves_on : ∀ p w, wp (host_call (op_readfile p)) (λ _ w', serves_on w w') w.
Hypothesis new_watcher_law : ∀ w, wp NewWatcher (λ e w', moves w w' ∧ (faultless w → e = None)) w.
Hypothesis watcher_add_law : ∀ p w, wp (Watcher_Add p) (λ e w', moves w w' ∧ (faultless w → e = None)) w.
(** A request has an answer only through a handshake; it has one if the server answers, and
    presents a certificate that this client accepts. *)
Hypothesis client_do_law : ∀ c url w,
  wp (client_Do c url) (λ r w', moves w w' ∧ (r = None → handshake w (hc_RootCAs c)) ∧
    (countdown w = 0 → handshake w (hc_RootCAs c) → r = None)) w.
Hypothesis port_set : ∃ port, ∀ w : W, GetPort Getenv w = (Ret port, w).
Hypothesis local_url : ∀ port : Z, NewRequest ("https://localhost:" +:+ pretty port +:+ "/healthz") = None.

#[local] Instance moves_refl : Reflexive moves.
Proof. intros w. by split_and!. Qed.
#[local] Instance moves_trans : Transitive moves.
Proof. intros w1 w2 w3 (?&?&?&?) (?&?&?&?). split_and!; [congruence|auto|split; [lia|auto]]. Qed.

Abbreviation ca_file := (caCertFilePath Getenv).
Abbreviation check := (Checker Getenv NewWatcher Watcher_Add AppendCerts client_Do NewRequest).

(** The CA file can be read, and a check that was begun has left a client. *)
Definition checkable (v : HealthVars Pool) (w : W) : Prop :=
  faultless w ∧ is_Some (read_at (disk_of w) ca_file) ∧ (onceWatch v = true → is_Some (client v)).

(** The client of the next request accepts the server's certificate: the one there is, or the
    one that the first check makes of the CA file. *)
Definition accepted (v : HealthVars Pool) (w : W) : Prop :=
  if onceWatch v then ∀ c, client v = Some c → handshake w (hc_RootCAs c)
  else ∀ d, read_at (disk_of w) ca_file = Some d → handshake w (AppendCerts d).

Lemma load_calm (v : HealthVars Pool) w :
  faultless w → is_Some (read_at (disk_of w) ca_file) →
  wp (loadHTTPClientWithCACert Getenv AppendCerts)
    (λ e '(v', w'), e = None ∧ trusts Getenv AppendCerts (disk_of w) (client v') ∧ moves w w') (v, w).
Proof.
  intros Hfl Hs. unfold loadHTTPClientWithCACert. apply wp_bind, wp_on_world.
  eapply wp_mono; [apply (wp_and _ _ _ _ (host_call_law (op_readfile ca_file) w) (read_serves_on ca_file w))|].
  intros [e|d] w' [[Hr Hf] Hc].
  - destruct (Hf Hfl) as [_ He]. specialize (He e eq_refl). unfold read_at in Hs. rewrite He in Hs. by destruct Hs.
  - destruct Hr as (s' & Hop & Hd & _). pose proof (readfile_reads _ _ _ _ Hop) as ->.
    apply wp_bind. unfold wp, set_client, go_ret. cbn. split; [done|]. split.
    + exists d. split; [unfold read_at; by rewrite Hop|done].
    + split; [done|]. split; [by intros; apply Hf|done].
Qed.

Lemma first_watch_calm (v : HealthVars Pool) w :
  faultless w → is_Some (read_at (disk_of w) ca_file) →
  wp (first_watch Getenv NewWatcher Watcher_Add AppendCerts)
    (λ _ '(v', w'), trusts Getenv AppendCerts (disk_of w) (client v') ∧ moves w w') (v, w).
Proof.
  intros Hfl Hs. unfold first_watch. apply wp_bind. eapply wp_mono; [by apply load_calm|].
  intros e [v1 w1] (-> & Ht & Hm1). apply wp_bind, wp_on_world. wp_call new_watcher_law.
  intros e w2 [Hm2 He]. rewrite He by by apply Hm1.
  apply wp_bind, wp_on_world. wp_call watcher_add_law. intros e' w3 [Hm3 He'].
  rewrite He' by by apply Hm2, Hm1. apply wp_ret. split; [done|]. by do 2 (etrans; [eassumption|]).
Qed.

(** The first check makes a client of the CA file, a later one leaves it alone. *)
Lemma once_calm (v : HealthVars Pool) w :
  checkable v w →
  wp (onceWatch_Do (first_watch Getenv NewWatcher Watcher_Add AppendCerts))
    (λ _ '(v', w'), moves w w' ∧ onceWatch v' = true ∧
      (onceWatch v = false → trusts Getenv AppendCerts (disk_of w) (client v')) ∧
      ∃ c, client v' = Some c ∧ (accepted v w → handshake w (hc_RootCAs c))) (v, w).
Proof.
  intros (Hfl & Hs & Hv). unfold wp, onceWatch_Do, accepted. destruct (onceWatch v) eqn:Ho.
  - destruct (Hv eq_refl) as [c Hc]. split_and!; [done|done|done|]. exists c. auto.
  - pose proof (first_watch_calm v w Hfl Hs) as Hfw. unfold wp in Hfw.
    destruct (first_watch _ _ _ _ _) as [[[]|why] [v1 w1]]; [|done]. destruct Hfw as [Ht Hm]. cbn.
    split; [done|]. split; [done|]. split; [done|]. destruct Ht as (d & Hd & ->). eexists. split; [done|].
    intros Hacc. by apply Hacc.
Qed.

(** A check returns; it says yes when the server answers and its certificate is accepted, and
    only then. *)
Lemma check_calm (v : HealthVars Pool) w :
  checkable v w →
  wp check (λ r '(v', w'), checkable v' w' ∧ moves w w' ∧ (accepted v w → accepted v' w') ∧
    (countdown w = 0 → accepted v w → r = None) ∧
    (r = None → ∃ c, client v' = Some c ∧ handshake w' (hc_RootCAs c)) ∧
    (onceWatch v = false → trusts Getenv AppendCerts (disk_of w) (client v'))) (v, w).
Proof.
  intros Hv. pose proof Hv as (Hfl & Hs & _). unfold Checker. apply wp_bind.
  eapply wp_mono; [by apply once_calm|].
  intros _ [v1 w1] (Hm & Ho & Ht & c & Hc & Hacc). apply wp_bind, wp_on_world. destruct port_set as [port Hp].
  unfold wp at 1. rewrite Hp. rewrite local_url. apply wp_bind. unfold wp at 1. cbn.
  rewrite Hc. apply wp_on_world. wp_call client_do_law.
  intros r w2 (Hm2 & Hyes & Hr). assert (moves w w2) as Hmm by by etrans.
  pose proof Hmm as (Hd & Hfw & Hcd & Hsh). pose proof Hm as (_ & _ & Hcd1 & Hsh1).
  pose proof Hm2 as (_ & _ & _ & Hsh2).
  split; [split; [by apply Hfw|split; [by rewrite Hd|by rewrite Hc]]|]. split; [done|]. split_and!.
  - intros Ha. unfold accepted. rewrite Ho, Hc. intros c' [= <-]. by apply Hsh, Hacc.
  - intros H0 Ha. apply Hr; [lia|]. by apply Hsh1, Hacc.
  - intros Hn. exists c. split; [done|]. by apply Hsh2, Hyes.
  - exact Ht.
Qed.

(** Whatever the state, the disk and the watcher: a yes comes of a handshake. *)
Lemma check_yes (vw : HealthVars Pool * W) vw' :
  runs check vw None vw' → ∃ w1 c, client vw'.1 = Some c ∧ handshake w1 (hc_RootCAs c).
Proof.
  intros ([] & [v1 w1] & _ & Hrun)%go_bind_inv. apply go_bind_inv in Hrun as (port & [v2 w2] & _ & Hrun).
  cbv zeta in Hrun. destruct (NewRequest _); [done|].
  apply go_bind_inv in Hrun as (v3 & [v4 w4] & Hget & Hrun).
  injection Hget as <- <- <-. destruct (client v2) as [c|] eqn:Hc; [|done].
  unfold runs, on_world in Hrun. destruct vw' as [v' w'].
  match type of Hrun with context [client_Do c ?url w2] => pose proof (client_do_law c url w2) as Hlaw end.
  unfold wp in Hlaw. destruct (client_Do c _ w2) as [[r|why] w5]; [|done].
  injection Hrun as -> <- <-. exists w2, c. split; [done|]. by apply Hlaw.
Qed.
End probe.

(** ** The readiness loop *)
Section waiting.
Context {W Pool B H : Type} {RT : RestTypes}.
Abbreviation G := (Globals Pool B H).
Context (Since_start : GoM (G * W) Z) (Sleep : Z → GoM (G * W) ()).
Context (health : GoM (HealthVars Pool * W) (option string)).

Abbreviation wait := (WaitReady_turns Since_start Sleep health).

Lemma WaitReady_no_error fuel (gw : G * W) r gw' : runs (wait fuel) gw r gw' → ∀ e, r ≠ Some (Some e).
Proof.
  revert gw. induction fuel as [|n IH]; intros gw Hrun e; [by injection Hrun as <-|].
  apply go_bind_inv in Hrun as (d & gw1 & _ & Hrun). apply go_bind_inv in Hrun as (err & gw2 & _ & Hrun).
  destruct err as [err|]; [|by injection Hrun as <-].
  apply go_bind_inv in Hrun as ([] & gw3 & _ & Hrun). exact (IH _ Hrun e).
Qed.

(** The turn that ends the loop; [I] is what holds of all it waits through. *)
Lemma WaitReady_last (I : G * W → G * W → Prop) `{!Reflexive I, !Transitive I} fuel gw e gw' :
  always I Since_start → (∀ d, always I (Sleep d)) → always I (webhook_Checker health) →
  runs (wait fuel) gw (Some e) gw' →
  e = None ∧ ∃ gw1, I gw gw1 ∧ runs (webhook_Checker health) gw1 None gw'.
Proof.
  intros Hsince Hsleep Hcheck. revert gw. induction fuel as [|n IH]; intros gw Hrun; [by injection Hrun|].
  apply go_bind_inv in Hrun as (d & gw1 & H1%(always_runs I) & Hrun); [|done].
  apply go_bind_inv in Hrun as (err & gw2 & Hc & Hrun).
  destruct err as [err|]; [|injection Hrun as <- <-; split; [done|by exists gw1]].
  apply (always_runs I) in Hc; [|done].
  apply go_bind_inv in Hrun as ([] & gw3 & H3%(always_runs I) & Hrun); [|done].
  apply IH in Hrun as (-> & gw4 & H4 & Hrun). split; [done|]. exists gw4. split; [|done].
  by do 3 (etrans; [eassumption|]).
Qed.

Lemma webhook_Checker_run (gw gw' : G * W) :
  runs (webhook_Checker health) gw None gw' →
  uninit_closed (g_controller gw.1) = true ∧
  runs health (g_health gw.1, gw.2) None (g_health gw'.1, gw'.2) ∧
  g_features gw'.1 = g_features gw.1.
Proof.
  destruct gw as [g w]. unfold webhook_Checker, runs, get_globals, go_bind. cbn.
  destruct (uninit_closed _); [|done]. unfold on_health. destruct (health (g_health g, w)) as [o [v w']].
  by intros [= -> <-].
Qed.

Lemma wp_webhook_Checker (g : G) (w : W) (Q : option string → HealthVars Pool → W → Prop) :
  uninit_closed (g_controller g) = true →
  wp health (λ r '(v, w'), Q r v w') (g_health g, w) →
  wp (webhook_Checker health) (λ r '(g', w'), g_controller g' = g_controller g ∧ Q r (g_health g') w') (g, w).
Proof.
  intros Hc Hw. unfold wp, webhook_Checker, get_globals, go_bind. rewrite Hc. unfold on_health.
  unfold wp in Hw. by destruct (health (g_health g, w)) as [[r|why] [v w']].
Qed.
End waiting.

Section ready.
Context {W Pool B H : Type} `{!FsHost W, !FsHostLaws W} {RT : RestTypes}.
Context (Getenv : string → string).
Context (NewWatcher : GoM W (option string)) (Watcher_Add : path → GoM W (option string)).
Context (AppendCerts : string → option Pool).
Context (client_Do : HttpClient Pool → string → GoM W (option string)) (NewRequest : string → option string).
Context (countdown : W → nat) (handshake : W → option Pool → Prop).
Abbreviation G := (Globals Pool B H).
Context (Since_start : GoM (G * W) Z) (Sleep : Z → GoM (G * W) ()).

Abbreviation check := (Checker Getenv NewWatcher Watcher_Add AppendCerts client_Do NewRequest).
Abbreviation wait := (WaitReady_turns Since_start Sleep check).

Abbreviation moves := (moves countdown handshake).

(** The webhook controller has done its part, the health check can do its own, and the server's
    certificate is one that its client accepts. *)
Definition ready_state (gw : G * W) : Prop :=
  uninit_closed (g_controller gw.1) = true ∧ checkable Getenv (g_health gw.1) gw.2 ∧
  accepted Getenv AppendCerts handshake (g_health gw.1) gw.2.

Hypothesis read_serves_on : ∀ p (w : W),
  wp (host_call (op_readfile p)) (λ _ w', serves_on countdown handshake w w') w.
Hypothesis new_watcher_law : ∀ w, wp NewWatcher (λ e w', moves w w' ∧ (faultless w → e = None)) w.
Hypothesis watcher_add_law : ∀ p w, wp (Watcher_Add p) (λ e w', moves w w' ∧ (faultless w → e = None)) w.
Hypothesis client_do_law : ∀ c url w,
  wp (client_Do c url) (λ r w', moves w w' ∧ (r = None → handshake w (hc_RootCAs c)) ∧
    (countdown w = 0 → handshake w (hc_RootCAs c) → r = None)) w.
Hypothesis port_set : ∃ port, ∀ w : W, GetPort Getenv w = (Ret port, w).
Hypothesis local_url : ∀ port : Z, NewRequest ("https://localhost:" +:+ pretty port +:+ "/healthz") = None.
Hypothesis since_law : ∀ gw, wp Since_start (λ _ gw', gw' = gw) gw.
(** While this one sleeps, the others leave things ready, and the server comes nearer to
    answering. *)
Hypothesis sleep_law : ∀ d gw, ready_state gw →
  wp (Sleep d) (λ _ gw', ready_state gw' ∧ countdown gw'.2 ≤ pred (countdown gw.2)) gw.

Definition anything (_ _ : G * W) : Prop := True.
#[local] Instance anything_refl : Reflexive anything.
Proof. done. Qed.
#[local] Instance anything_trans : Transitive anything.
Proof. done. Qed.
Lemma always_anything {A} (m : GoM (G * W) A) : always anything m.
Proof. intros gw. by destruct (m gw). Qed.

End ready.

(** ** The controllers *)
Section controllers.
Context {W Pool Mgr B H S : Type} {RT : RestTypes}.
Abbreviation G := (Globals Pool B H).
Context (GetScheme : Mgr → S) (AddToScheme : S → GoM W (option string)).
Context (Complete : Mgr → ControllerBuilder → GoM W (option string)).
Context (Since_start : GoM (G * W) Z) (Sleep : Z → GoM (G * W) ()).
Context (health : GoM (HealthVars Pool * W) (option string)).

(** Nobody but main writes the persistence switches. *)
Definition same_features (gw gw' : G * W) : Prop := g_features gw'.1 = g_features gw.1.
#[local] Instance same_features_refl : Reflexive same_features.
Proof. done. Qed.
#[local] Instance same_features_trans : Transitive same_features.
Proof. intros ?? ? H1 H2. exact (eq_trans H2 H1). Qed.
Hypothesis since_features : always same_features Since_start.
Hypothesis sleep_features : ∀ d, always same_features (Sleep d).

Lemma Checker_features : always same_features (webhook_Checker health).
Proof.
  intros [g w]. unfold webhook_Checker, get_globals, go_bind, same_features. cbn.
  destruct (uninit_closed _); [|done]. unfold on_health. by destruct (health _) as [o [v w']].
Qed.

Lemma or_exit_run (m : GoM (G * W) (option string)) gw gw' :
  runs (or_exit m) gw () gw' → runs m gw None gw'.
Proof. by intros ([err|] & gw1 & Hm & [= ->])%go_bind_inv. Qed.

Lemma elem_of_watches c k :
  k ∈ reconciler_watches c ↔
    match k with
    | WatchPersistentPodState => True
    | WatchVirtualMachineInstance => EnableVMIPersistence c = true
    | WatchStatefulSet => EnableStatefulSetPersistence c = true
    end.
Proof. unfold reconciler_watches. destruct c as [[] []], k; cbn; set_solver. Qed.

(** C28: The controllers wait for the webhook.  If the goroutine of main finishes, whatever
    other goroutines did in between, then the webhook controller had initialized and the
    health check had said yes before the reconciler was set up; and the reconciler's controller
    was completed with watches on the recorded states and on exactly the kinds whose
    persistence was switched on when the goroutine started. *)
Theorem controllers_wait_for_the_webhook n mgr (gw gw' : G * W) :
  runs (main_goroutine GetScheme AddToScheme Complete Since_start Sleep health n mgr) gw (Some ()) gw' →
  ∃ (gw1 gw2 : G * W) (w3 : W), uninit_closed (g_controller gw1.1) = true ∧
    runs health (g_health gw1.1, gw1.2) None (g_health gw2.1, gw2.2) ∧
    runs (AddToScheme (GetScheme mgr)) gw2.2 None w3 ∧
    runs (Complete mgr (reconciler_watches (g_features gw.1))) w3 None gw'.2 ∧
    ∀ kind, kind ∈ reconciler_watches (g_features gw.1) ↔
      match kind with
      | WatchPersistentPodState => True
      | WatchVirtualMachineInstance => EnableVMIPersistence (g_features gw.1) = true
      | WatchStatefulSet => EnableStatefulSetPersistence (g_features gw.1) = true
      end.
Proof.
  intros ([e|] & gw2 & Hwait & Hrun)%go_bind_inv; [|done].
  apply (WaitReady_last _ _ _ same_features) in Hwait as (-> & gw1 & Hf1 & Hc);
    [|done|done|apply Checker_features].
  apply webhook_Checker_run in Hc as (Hclosed & Hhealth & Hf2).
  apply go_bind_inv in Hrun as ([] & gw3 & Hset%or_exit_run & Hrun). injection Hrun as <-.
  apply go_bind_inv in Hset as ([err|] & gw4 & Hadd & Hset); [done|].
  destruct gw2 as [g2 w2], gw4 as [g4 w4]. unfold runs, on_outside in Hadd.
  destruct (AddToScheme _ w2) as [o w5] eqn:Hadd'. injection Hadd as -> <- <-.
  unfold runs, get_globals, go_bind, on_outside in Hset.
  destruct (Complete _ _ w5) as [o w6] eqn:Hcomp. injection Hset as -> <-.
  exists gw1, (g2, w2), w5. split; [done|]. split; [done|]. split; [done|]. split.
  - unfold same_features in Hf1. unfold runs. rewrite <-Hf1, <-Hf2. exact Hcomp.
  - apply elem_of_watches.
Qed.
End controllers.

(** ** HTTP/2: the switch reaches the metrics server, and not the webhook server *)
Lemma http2_switch {W} Getenv (f : Flags) (c : TlsConfig) (w : W) options w' :
  runs (manager_options Getenv f) w options w' →
  tls_NextProtos (apply_tls (mo_TLSOpts (mgo_Metrics options)) c) =
    (if fl_enableHTTP2 f then tls_NextProtos c else ["http/1.1"]) ∧
  apply_tls (wo_TLSOpts (mgo_WebhookServer options)) c = c.
Proof.
  intros (server & w1 & Hserver & Hrun)%go_bind_inv. injection Hrun as <- _.
  apply go_bind_inv in Hserver as (port & w2 & _ & Hserver). injection Hserver as <- _.
  cbn. unfold tlsOpts. by destruct (fl_enableHTTP2 f).
Qed.

(** ** What main has put in place *)

(** What holds of every call of the client library. *)
Class rest_frame {W} {RT : RestTypes} `{!RestLibrary W} (I : W → W → Prop) := {
  rf_http c : always I (HTTPClientFor c);
  rf_client c h : always I (RESTClientForConfigAndClient c h);
  rf_discovery c : always I (NewDiscoveryClientForConfig c);
  rf_discovery_http c h : always I (NewDiscoveryClientForConfigAndClient c h);
  rf_kube c : always I (kube_NewForConfig c) }.

Section clients.
Context {W : Type} {RT : RestTypes} `{!RestLibrary W}.
Context (I : W → W → Prop) `{!Reflexive I, !Transitive I, !rest_frame I}.

Lemma try_always {A B} (m : GoM W (string + A)) (k : A → GoM W (string + B)) :
  always I m → (∀ a, always I (k a)) → always I (try m k).
Proof. intros Hm Hk. apply (always_bind _); [done|]. intros [err|a]; [by apply always_ret|done]. Qed.

Lemma newForConfig_always c : always I (newForConfig c).
Proof.
  unfold newForConfig. apply try_always; [apply rf_discovery|intros d].
  apply try_always; [apply rf_kube|intros k]. apply try_always; [|intros cs; by apply always_ret].
  unfold versioned_NewForConfig. apply try_always; [apply rf_http|intros h].
  unfold versioned_NewForConfigAndClient. destruct (if _ : bool then _ else _) as [err|c']; [by apply always_ret|].
  apply try_always.
  - unfold apps_NewForConfigAndClient. apply try_always; [apply rf_client|intros a; by apply always_ret].
  - intros a. apply try_always; [apply rf_discovery_http|intros d']. by apply always_ret.
Qed.

Lemma NewRegistry_run c v w e v' w' :
  runs (NewRegistry c) (v, w) e (v', w') → I w w'.
Proof.
  unfold runs, NewRegistry. pose proof (newForConfig_always c w) as Hi.
  destruct (newForConfig c w) as [[[err|g]|why] w1]; by intros [= <- <- <-].
Qed.

Lemma GetGenericClientWithName_run n v w g v' w' :
  runs (GetGenericClientWithName n) (v, w) g (v', w') → v' = v ∧ I w w'.
Proof.
  unfold runs, GetGenericClientWithName. destruct (cfg v) as [c|]; [|by intros [= <- <- <-]].
  unfold newForConfigOrDie, or_die, go_bind.
  pose proof (newForConfig_always (rc_with_agent (rc_UserAgent c +:+ "/" +:+ n) c) w) as Hi.
  destruct (newForConfig _ w) as [[[err|g']|why] w1]; by intros [= <- <- <-].
Qed.
End clients.

Section setup.
Context {W Pool Mgr B H S : Type} {RT : RestTypes} `{!RestLibrary W, !HandlerBuilder Mgr B H, !HookServer W H S}.
Abbreviation G := (Globals Pool B H).
Context (Getenv : string → string) (range : ∀ V, gmap string V → list (string * V)).
Hypothesis range_perm : ∀ V (m : gmap string V), range V m ≡ₚ map_to_list m.
Context (gates : FeatureGates) (GetScheme : Mgr → S) (GetConfigOrDie : GoM W RestConfig).
Context (NewManager : RestConfig → ManagerOptions → GoM W (string + Mgr)).
Context (AddHealthzCheck AddReadyzCheck : Mgr → string → HealthzCheck → GoM W (option string)).
Context (select_Inited : Z → GoM (G * W) bool).

(** Only Register changes the hooks of a server; a new manager's server has none. *)
Definition same_hooks (w w' : W) : Prop := hooks w' = hooks w.
#[local] Instance same_hooks_refl : Reflexive same_hooks.
Proof. done. Qed.
#[local] Instance same_hooks_trans : Transitive same_hooks.
Proof. intros ??? H1 H2. exact (eq_trans H2 H1). Qed.
Context `{!rest_frame same_hooks}.
Hypothesis new_manager_hooks : ∀ c o w mgr w', runs (NewManager c o) w (inr mgr) w' → hooks w' = ∅.
Hypothesis healthz_hooks : ∀ m n c, always same_hooks (AddHealthzCheck m n c).
Hypothesis readyz_hooks : ∀ m n c, always same_hooks (AddReadyzCheck m n c).
(** While main waits, the webhook controller may close its channel, and is seen to. *)
Hypothesis select_law : ∀ d gw b gw', runs (select_Inited d) gw b gw' →
  g_webhook gw'.1 = g_webhook gw.1 ∧ g_client gw'.1 = g_client gw.1 ∧ hooks gw'.2 = hooks gw.2 ∧
  (b = true → uninit_closed (g_controller gw'.1) = true).

Abbreviation setup :=
  (main_setup Getenv range gates GetScheme GetConfigOrDie NewManager AddHealthzCheck AddReadyzCheck select_Inited).

Lemma on_outside_run {A} (m : GoM W A) (g g' : G) w a w' :
  runs (on_outside m) (g, w) a (g', w') → g' = g ∧ runs m w a w'.
Proof. unfold runs, on_outside. destruct (m w) as [o w1]. by intros [= -> -> ->]. Qed.

Lemma on_client_run {A} (m : GoM (RegistryVars * W) A) (g g' : G) w a w' :
  runs (on_client m) (g, w) a (g', w') →
  runs m (g_client g, w) a (g_client g', w') ∧ g_webhook g' = g_webhook g ∧ g_controller g' = g_controller g.
Proof. unfold runs, on_client. destruct (m _) as [o [v w1]]. by intros [= -> <- <-]. Qed.

Lemma Initialize_run c (g g' : G) w w' :
  runs (Initialize select_Inited c) (g, w) None (g', w') →
  uninit_closed (g_controller g') = true ∧ g_webhook g' = g_webhook g ∧ g_client g' = g_client g ∧
  hooks w' = hooks w.
Proof.
  intros (g0 & [g1 w1] & Hget & Hrun)%go_bind_inv. injection Hget as -> <- <-.
  apply go_bind_inv in Hrun as ([err|ctl] & [g2 w2] & Hnew & Hrun); [done|].
  apply go_bind_inv in Hnew as ([gc|] & [g3 w3] & Hgc & Hnew); [|done]. injection Hnew as _ <- <-.
  apply on_client_run in Hgc as (Hgc & Hwh & Hctl).
  apply (GetGenericClientWithName_run same_hooks) in Hgc as [Hcl Hh].
  apply go_bind_inv in Hrun as (b & [g4 w4] & Hsel & Hrun). apply select_law in Hsel as (H1 & H2 & H3 & H4).
  cbn in *. destruct b; [|done]. injection Hrun as <- <-. unfold same_hooks in Hh.
  split; [by apply H4|]. split_and!; congruence.
Qed.

(** C25: main puts everything in place before it starts the manager.  If the setup gets so far,
    from an empty handlerMap and whatever other calls failed: the manager was made with a
    webhook server that listens on the port and reads the directory of the settings, the
    clients of the registry follow the same configuration, the server has exactly the
    hooks of the active builders and the two fixed ones and handlerMap their handlers, the
    webhook controller has initialized, and the persistence switches are those of the
    flags. *)
Theorem main_sets_up flags (g : G) w mgr g' w' :
  (∀ m p b, active gates (g_webhook g) p = Some b → is_Some (built m b)) →
  (∀ p, p = "/convert" ∨ p = "/healthz" → active gates (g_webhook g) p = None) →
  runs (setup flags) (g, w) mgr (g', w') →
  (∃ c options w1 w2, runs (NewManager c options) w1 (inr mgr) w2 ∧
     runs (GetPort Getenv) w1 (wo_Port (mgo_WebhookServer options)) w1 ∧
     wo_CertDir (mgo_WebhookServer options) = GetCertDir Getenv ∧
     cfg (g_client g') = Some c ∧ is_Some (defaultGenericClient (g_client g')) ∧
     ∃ w3, hooks w3 = ∅ ∧ serves_active gates GetScheme mgr (g_webhook g) w3 (g_webhook g') w') ∧
  uninit_closed (g_controller g') = true ∧
  g_features g' = mkPersistenceConfig (fl_enableVMIPersistence flags) (fl_enableStatefulSetPersistence flags).
Proof.
  intros Hbuilds Hreserved Hrun. unfold main_setup in Hrun.
  apply go_bind_inv in Hrun as (c & [g1 w1] & Hcfg & Hrun). apply on_outside_run in Hcfg as [-> _].
  apply go_bind_inv in Hrun as (options & [g2 w2] & Hopt & Hrun). apply on_outside_run in Hopt as [-> Hopt].
  apply go_bind_inv in Hrun as ([err|m] & [g3 w3] & Hmgr & Hrun); [done|]. apply on_outside_run in Hmgr as [-> Hmgr].
  pose proof (new_manager_hooks _ _ _ _ _ Hmgr) as Hempty.
  apply go_bind_inv in Hrun as ([] & [g4 w4] & Hreg%or_exit_run & Hrun).
  apply on_client_run in Hreg as (Hreg & Hwh4 & _).
  pose proof (NewRegistry_run same_hooks _ _ _ _ _ _ Hreg) as Hh4.
  apply go_bind_inv in Hrun as ([] & [g5 w5] & Hset%or_exit_run & Hrun).
  apply go_bind_inv in Hset as (g0 & [g6 w6] & Hget & Hset). injection Hget as -> <- <-.
  apply go_bind_inv in Hset as (r & [g6 w6] & Hset & Hput). apply on_outside_run in Hset as [-> Hset].
  apply go_bind_inv in Hput as ([] & [g7 w7] & Hput & Hput2). injection Hput2 as <- <-. injection Hput as <- <-.
  apply go_bind_inv in Hrun as ([] & [g8 w8] & Hinit%or_exit_run & Hrun).
  apply Initialize_run in Hinit as (Hclosed & Hwh8 & Hcl8 & Hh8). cbn in Hwh8, Hcl8.
  apply go_bind_inv in Hrun as ([] & [g9 w9] & Hz%or_exit_run & Hrun). apply on_outside_run in Hz as [-> Hz].
  apply (always_runs same_hooks) in Hz; [|done].
  apply go_bind_inv in Hrun as ([] & [g10 w10] & Hr%or_exit_run & Hrun). apply on_outside_run in Hr as [-> Hr].
  apply (always_runs same_hooks) in Hr; [|done].
  apply go_bind_inv in Hrun as ([] & [g11 w11] & Hf & Hrun). injection Hf as <- <-. injection Hrun as -> <- <-.
  unfold same_hooks in *. split; [|by split].
  apply go_bind_inv in Hopt as (server & w12 & Hserver & Hopt). injection Hopt as <- <-.
  apply go_bind_inv in Hserver as (port & w13 & Hport & Hserver). injection Hserver as <- <-.
  assert (w13 = w1) as ->.
  { unfold runs, GetPort in Hport. repeat case_match; by injection Hport. }
  assert (cfg (g_client g0) = Some c ∧ is_Some (defaultGenericClient (g_client g0))) as [Hc Hd].
  { unfold runs, NewRegistry in Hreg. destruct (newForConfig c w3) as [[[err|cl]|why] w14]; [done| |done].
    injection Hreg as <- _. by split; [|eexists]. }
  eexists c, _, _, _. split; [exact Hmgr|]. split; [exact Hport|]. split; [done|].
  cbn [g_client]. rewrite Hcl8. split; [done|]. split; [done|]. exists w4. split; [congruence|].
  cbn [g_webhook]. rewrite Hwh8, <-Hwh4. rewrite <-Hwh4 in Hbuilds, Hreserved.
  pose proof (SetupWithManager_serves range range_perm gates GetScheme mgr (g_webhook g0) w4 (Hbuilds mgr)) as Hserves.
  specialize (Hserves ltac:(intros p _; rewrite Hh4, Hempty; apply lookup_empty)).
  specialize (Hserves ltac:(intros p Hp; split; [by apply Hreserved|rewrite Hh4, Hempty; apply lookup_empty])).
  unfold wp in Hserves. rewrite Hset in Hserves.
  intros p. rewrite Hr, Hz, Hh8. apply Hserves.
Qed.
End setup.
