(* ===== verification/Readiness.v ===== *)
(** * From the registered certificates to the readiness probe

    The webhook controller registers a CA and writes it to the directory of the server; the
    health check reads it there.  Between them, that the probe trusts what the API server
    was told to trust. *)
From S2P Require Export ControllerTheorems StartupTheorems.

Section readiness.
Context {W Pool : Type} `{!Crypto W, !CryptoLaws W, !SecretClient W, !SecretClientLaws W}.
Context `{!FsHost W, !FsHostLaws W, !ConfigurationClient W, !ConfigurationLaws W}.
Context `{!cert_frame (same_disk (W := W)), !cert_frame (same_configs (W := W))}.
Context `{!fs_frame (same_secrets (W := W)), !fs_frame (same_configs (W := W)), !fs_frame (time_moves (W := W))}.
Context `{!config_frame (same_disk (W := W)), !config_frame (same_secrets (W := W))}.
Context (Getenv : string → string) (range : ∀ V, gmap string V → list (string * V)).
Context (UnmarshalWebhooks : WebhookKind → string → string + Webhooks).
Context (MarshalWebhooks : WebhookKind → Webhooks → string + string).
Context (url_Path : string → string + string) (handlers : gset string).
Hypothesis range_perm : ∀ V (m : gmap string V), range V m ≡ₚ map_to_list m.
Hypothesis readlink_true : ∀ q (w : W),
  wp (Readlink q) (λ r _, ∀ e, r = inl e → op_readlink q (disk_of w) = inl e) w.
Hypothesis nothing_parsed : ∀ c, ParseCertsPEM (W := W) "" ≠ inr [c].
Hypothesis dns_servable : servable (W := W) (dns_name Getenv).

(** The health check, as in [StartupTheorems]. *)
Context (NewWatcher : GoM W (option string)) (Watcher_Add : path → GoM W (option string)).
Context (AppendCerts : string → option Pool).
Context (client_Do : HttpClient Pool → string → GoM W (option string)) (NewRequest : string → option string).
Context (countdown : W → nat) (handshake : W → option Pool → Prop).
Abbreviation moves := (moves countdown handshake).
Hypothesis read_serves_on : ∀ p (w : W),
  wp (host_call (op_readfile p)) (λ _ w', serves_on countdown handshake w w') w.
Hypothesis new_watcher_law : ∀ w, wp NewWatcher (λ e w', moves w w' ∧ (faultless w → e = None)) w.
Hypothesis watcher_add_law : ∀ p w, wp (Watcher_Add p) (λ e w', moves w w' ∧ (faultless w → e = None)) w.
Hypothesis client_do_law : ∀ c url w,
  wp (client_Do c url) (λ r w', moves w w' ∧ (r = None → handshake w (hc_RootCAs c)) ∧
    (countdown w = 0 → handshake w (hc_RootCAs c) → r = None)) w.
Hypothesis port_set : ∃ port, ∀ w : W, GetPort Getenv w = (Ret port, w).
Hypothesis local_url : ∀ port : Z, NewRequest ("https://localhost:" +:+ pretty port +:+ "/healthz") = None.

Abbreviation run_sync := (sync Getenv range UnmarshalWebhooks MarshalWebhooks url_Path handlers).
Abbreviation check := (Checker Getenv NewWatcher Watcher_Add AppendCerts client_Do NewRequest).

Lemma shown_ca a s :
  shows_certs (cert_dir Getenv) a s →
  read_at s (caCertFilePath Getenv) = Some (default "" (art_CACert a)).
Proof. intros [_ Hs]. exact (proj2 (Hs CACertName ltac:(set_solver))). Qed.

(** C8: The probe trusts what the API server trusts.  Let sync return nil, from a directory in
    order or not there yet, on a host that fails to read a link only when it should, and with
    Secrets, if they are used, that hold only CAs that have started and may issue certificates of servers
    (for the other conditions see [sync_provides_the_webhook]).  Then the CA
    in every webhook of both configurations is the one the first health check loads, in any
    later world in which the disk is the same and neither a read nor the file watcher fails:
    the check does not panic, its client trusts exactly that CA, and it says yes if the server
    answers and presents a certificate that this CA makes acceptable; and only if it does
    present one. *)
Theorem probe_trusts_registered_ca v w v' w' :
  init_ok v → (writes_to_fs Getenv = false → secrets_usable (api_secrets w) w) → named Getenv w →
  dir_ready (cert_dir Getenv) (disk_of w) →
  runs run_sync (v, w) None (v', w') →
  ∃ ca, bundle_registered Getenv ca w' ∧
    ∀ w2, disk_of w2 = disk_of w' → faultless w2 →
      wp check (λ r '(hv, w3), client hv = Some (mkHttpClient (AppendCerts (default "" ca))) ∧
        (countdown w2 = 0 → handshake w2 (AppendCerts (default "" ca)) → r = None) ∧
        (r = None → handshake w3 (AppendCerts (default "" ca)))) (mkHealthVars false None, w2).
Proof.
  intros Hv Hst Hnamed Hd Hrun.
  apply (sync_run Getenv range UnmarshalWebhooks MarshalWebhooks url_Path handlers range_perm readlink_true
    nothing_parsed dns_servable) in Hrun as (_ & _ & a & _ & _ & Hshow & Hca); [|done..].
  exists (art_CACert a). split; [done|]. intros w2 Hdisk Hfl. apply shown_ca in Hshow. rewrite <-Hdisk in Hshow.
  eapply wp_mono.
  { apply (check_calm Getenv NewWatcher Watcher_Add AppendCerts client_Do NewRequest countdown handshake); done. }
  intros r [hv w3] (_ & _ & _ & Hr & Hyes & Ht). destruct (Ht eq_refl) as (d & Hread & Hclient).
  rewrite Hshow in Hread. injection Hread as <-. split_and!; [done| |].
  - intros H0 Hacc. apply Hr; [done|]. unfold accepted. cbn [onceWatch]. intros d Hd2. rewrite Hshow in Hd2.
    by injection Hd2 as <-.
  - intros Hn. destruct (Hyes Hn) as (c & Hc & Hshake). rewrite Hclient in Hc. by injection Hc as <-.
Qed.
End readiness.
