(* ===== verification/MemProcess.v ===== *)
(** * The whole webhook process in memory, and the witnesses of its controller

    [MemProcess] puts the configurations, a disk and a cluster with Secrets and certificates
    side by side; on it [sync] runs from nothing to a webhook that is provided for. *)
From S2P Require Export ControllerRuns SyncSucceeds.

(** ** The components keep apart *)
#[export] Instance process_certs_disk : cert_frame (W := MemProcess) same_disk.
Proof.
  split; [split|..]; intros; intros [cfgs [host cluster]]; unfold same_disk; cbn;
    match goal with |- context [let (_, _) := ?x in _] => by destruct x | _ => done end.
Qed.
#[export] Instance process_certs_configs : cert_frame (W := MemProcess) same_configs.
Proof.
  split; [split|..]; intros; intros [cfgs [host cluster]]; unfold same_configs; cbn;
    match goal with |- context [let (_, _) := ?x in _] => by destruct x | _ => done end.
Qed.
#[export] Instance process_fs_secrets : fs_frame (W := MemProcess) same_secrets.
Proof.
  split; [intros A f|..]; intros [c [h m]]; unfold same_secrets; cbn; [|done|done].
  by destruct (mem_host_call f h).
Qed.
#[export] Instance process_fs_configs : fs_frame (W := MemProcess) same_configs.
Proof.
  split; [intros A f|..]; intros [c [h m]]; unfold same_configs; cbn; [|done|done].
  by destruct (mem_host_call f h).
Qed.
#[export] Instance process_fs_time : fs_frame (W := MemProcess) time_moves.
Proof.
  split; [intros A f|..]; intros [c [h m]]; unfold time_moves; cbn; [|lia..].
  destruct (mem_host_call f h). cbn. lia.
Qed.
#[export] Instance process_config_disk : config_frame (W := MemProcess) same_disk.
Proof.
  split; [intros kind name|intros kind cfg]; intros [c [h m]]; unfold same_disk; cbn;
    by destruct (mem_config_call _ _ c).
Qed.
#[export] Instance process_config_secrets : config_frame (W := MemProcess) same_secrets.
Proof.
  split; [intros kind name|intros kind cfg]; intros [c [h m]]; unfold same_secrets; cbn;
    by destruct (mem_config_call _ _ c).
Qed.

Lemma process_readlink q (w : MemProcess) :
  wp (Readlink q) (λ r _, ∀ e, r = inl e → op_readlink q (disk_of w) = inl e) w.
Proof. destruct w as [c [h m]]. apply (wp_lift (S := MemConfigs)), (wp_fst (Readlink q)), mem_readlink. Qed.

(** ** A process before its first sync *)
Definition process_env : string → string := env_of [("SERVICE_NAME", "s"); ("POD_NAMESPACE", "n")].
Definition process_dir : path := cert_dir process_env.
(** The directory of the certificates does not exist yet. *)
Definition process_disk : disk := {[ ["tmp"] := Dir 1023 ]}.
Definition process : MemProcess :=
  (demo_configs, (mkMemHost process_disk [] [], mkMemCluster 1000 1 ∅ [])).

Lemma process_dir_ready : dir_ready process_dir (disk_of process).
Proof.
  right. exists 1. change process_dir with ["tmp"; "persistentpodstate-webhook-certs"].
  split; [cbn; lia|]. split; [split; [done|]; by split; [eexists|]|].
  intros q [rest ->] _. cbn. by apply lookup_singleton_ne.
Qed.

Lemma process_started : secrets_usable (api_secrets process) process.
Proof. apply map_Forall_empty. Qed.

Lemma process_named : named process_env process.
Proof. intros kind c. exact (demo_named kind c). Qed.

Abbreviation process_sync :=
  (sync (W := MemProcess) process_env (@by_key) mem_unmarshal mem_marshal demo_url_path demo_handlers).
Definition synced : ControllerVars * MemProcess := (process_sync (initial_vars, process)).2.

Lemma runs_self {W A} (m : GoM W A) w a : (m w).1 = Ret a → runs m w a (m w).2.
Proof. unfold runs. destruct (m w) as [o w']. by intros [= ->]. Qed.

Lemma process_sync_returns : (process_sync (initial_vars, process)).1 = Ret None.
Proof. vm_compute. reflexivity. Qed.

Definition synced_vars : ControllerVars := (process_sync (initial_vars, process)).2.1.
Definition synced_process : MemProcess := (process_sync (initial_vars, process)).2.2.

Lemma process_synced : runs process_sync (initial_vars, process) None (synced_vars, synced_process).
Proof.
  pose proof (runs_self _ _ _ process_sync_returns) as H. unfold synced_vars, synced_process.
  by destruct ((process_sync (initial_vars, process)).2).
Qed.

Lemma process_servable : servable (W := MemProcess) (dns_name process_env).
Proof. done. Qed.
Lemma process_nothing_parsed (c : Certificate (W := MemProcess)) : ParseCertsPEM (W := MemProcess) "" ≠ inr [c].
Proof. done. Qed.


(** Nothing is refused: no component has a fault left. *)
Definition process_quiet (w : MemProcess) : Prop :=
  mcf_faults w.1 = [] ∧ Forall (λ r, r = false) (mh_refuse w.2.1) ∧ mc_faults w.2.2 = [].

#[export] Instance process_crypto_works : crypto_works process_quiet.
Proof. split; [intros bits|intros b| |intros cfg k|intros t ca pub signer _]; intros [c [h m]] Hq; (split; [by eexists|apply Hq]) || apply Hq. Qed.
#[export] Instance process_secrets_work : secrets_work process_quiet.
Proof.
  split; [apply _|..].
  - intros k [c [h m]] Hq. pose proof Hq as (_ & _ & Hf). unfold wp; cbn in *. unfold mem_secret_call. rewrite Hf. cbn. done.
  - intros o [c [h m]] Hq Ho. pose proof Hq as (Hc & Hh & Hf). unfold wp; cbn in *. unfold mem_secret_call. rewrite Hf. cbn.
    rewrite Ho. split; [done|]. split; [by eexists|]. eexists. apply lookup_insert_eq.
  - intros o [c [h m]] x Hq Ho Hrv. pose proof Hq as (Hc & Hh & Hf). unfold wp; cbn in *. unfold mem_secret_call. rewrite Hf. cbn.
    rewrite Ho, decide_True by done. split; [done|by eexists].
Qed.
#[export] Instance process_fs_quiet : fs_frame (stays_quiet process_quiet).
Proof.
  split; [intros A f|..]; intros [c [h m]]; unfold stays_quiet; cbn; [|done|done].
  unfold mem_host_call, process_quiet. cbn.
  assert (Forall (λ r, r = false) (mh_refuse h) → Forall (λ r, r = false) (tail (mh_refuse h))) as Htl by (by intros []).
  destruct (f (mh_disk h)) as [e|[a s']]; [|destruct (refused _ _ _)]; cbn; naive_solver.
Qed.
#[export] Instance process_config_quiet : config_frame (stays_quiet process_quiet).
Proof.
  assert (∀ A (fail : string → A) (k : GoM MemConfigs A), always (λ c c', mcf_faults c = [] → mcf_faults c' = []) k →
    always (λ c c', mcf_faults c = [] → mcf_faults c' = []) (mem_config_call fail k)) as Hcall.
  { intros A fail k Hk c Hc. unfold mem_config_call. rewrite Hc. by apply Hk. }
  assert (∀ A (m : GoM MemConfigs A), always (λ c c', mcf_faults c = [] → mcf_faults c' = []) m →
    always (stays_quiet process_quiet) (go_fst m)) as Hfst.
  { intros A m Hm [c [h w]] (Hc & Hh & Hw). specialize (Hm c Hc). unfold go_fst. destruct (m c). by split. }
  split; [intros kind name|intros kind cfg]; apply Hfst, Hcall; [by intros c|]. intros c Hc.
  cbn. destruct (mem_configs kind c !! om_Name (wc_ObjectMeta cfg)) as [old|]; [|done]. case_decide; [|done]. by destruct kind.
Qed.

Lemma process_usable : configurations_usable process_env mem_unmarshal mem_marshal demo_url_path process.
Proof.
  intros [|]; (eexists _, _; split; [reflexivity|]; split; [vm_compute; reflexivity|]); repeat constructor; by eexists.
Qed.


(** The certificates of the same process in its directory. *)
Definition process_fs_writer : fsCertWriter := mkFsCertWriter "" process_dir.
Definition process_with_generator : SelfSignedCertGenerator * MemProcess :=
  (mkSelfSignedCertGenerator None None, process).
Lemma process_dir_plain : Forall (λ c, c ≠ "..") process_dir.
Proof. by apply path_Join_no_dotdot. Qed.
Lemma process_dns_set : dns_name process_env ≠ "".
Proof. apply dns_name_set. Qed.
Lemma process_generator_ready : generator_ready process_with_generator.
Proof. by intros c Hc. Qed.

Lemma fs_ensures_valid_certs_witness :
  let shown (gw : SelfSignedCertGenerator * MemProcess) := fs_stored process_dir (disk_of gw) in
  wp (fs_EnsureCert (@by_key) process_fs_writer (dns_name process_env)) (λ '(c, changed, e) gw',
    match e with
    | Some _ => c = None ∧ (shown gw' = shown process_with_generator ∨
        ∃ a, same_certs_opt (shown gw') (Some a) ∧
          valid_during (Some a) (dns_name process_env) process_with_generator gw')
    | None => dir_ready process_dir (disk_of gw') ∧ is_Some c ∧ same_certs_opt (shown gw') c ∧
        valid_during c (dns_name process_env) process_with_generator gw' ∧
        (changed = false → shown gw' = shown process_with_generator) ∧
        (is_Some (shown process_with_generator) ∧
         (∀ t, (clock process_with_generator ≤ t ≤ clock gw')%Z →
           cert_ok (shown process_with_generator) (dns_name process_env) (AddDate t 0 6 0) = true) →
         changed = false)
    end) process_with_generator.
Proof.
  exact (fs_ensures_valid_certs (@by_key) by_key_perm process_readlink process_fs_writer
    (dns_name process_env) process_with_generator process_dns_set process_servable process_dir_plain
    process_generator_ready process_dir_ready).
Defined.

(** It succeeds, and a second run changes nothing. *)
Example fs_certs_are_kept :
  let once := fs_EnsureCert (@by_key) process_fs_writer "s.n.svc" process_with_generator in
  let twice := fs_EnsureCert (@by_key) process_fs_writer "s.n.svc" once.2 in
  match once.1, twice.1 with
  | Ret (Some _, true, None), Ret (Some _, false, None) => True
  | _, _ => False
  end.
Proof. vm_compute. exact I. Qed.

(** ** A queue in memory: the keys waiting, those being processed, whether it is shut down *)
Definition MemQueue : Type := (gset string * gset string * bool)%type.
Definition mem_enqueue (k : string) : GoM MemQueue () := λ q,
  (Ret (), if q.2 then q else ({[k]} ∪ q.1.1, q.1.2, false)).
#[export] Instance mem_queue : WorkQueue MemQueue := {|
  queue_Get := λ q : MemQueue,
    match elements (q.1.1 ∖ q.1.2 : gset string) with
    | k :: _ => (Ret (k, false), (q.1.1 ∖ {[k]} : gset string, {[k]} ∪ q.1.2 : gset string, q.2))
    | [] => if q.2 then (Ret ("", true), q) else (Panic "all goroutines are asleep - deadlock!", q)
    end;
  queue_Done k := λ q : MemQueue, (Ret (), (q.1.1, q.1.2 ∖ {[k]} : gset string, q.2));
  queue_Add := mem_enqueue;
  queue_AddAfter k _ := mem_enqueue k;
  queue_Forget _ := go_ret ();
  queue_AddRateLimited := mem_enqueue;
  queue_ShutDown := λ q : MemQueue, (Ret (), (q.1, true)) |}.

#[export] Instance mem_queue_laws : WorkQueueLaws MemQueue.
Proof.
  refine {| waiting (q : MemQueue) := q.1.1; processing (q : MemQueue) := q.1.2; shut := snd |}; try done;
    try (by intros k [[w p] []]); try (by intros k d [[w p] []]).
  - intros [[w p] sh]. unfold wp, queue_Get. cbn. intros Hready.
    destruct (elements (w ∖ p)) as [|k l] eqn:He; cbn.
    + destruct sh; [done|]. destruct Hready as [|[]]; [done|]. apply elements_empty_inv in He. set_solver.
    + assert (k ∈ w ∖ p) as Hk by (rewrite <-elem_of_elements, He; left).
      split_and!; [done|set_solver| |done]. intros x Hx. destruct (decide (x = k)); set_solver.
  - intros [[w p] sh] k quit q' Hrun. unfold runs, queue_Get in Hrun. cbn in Hrun.
    destruct (elements (w ∖ p)) as [|k' l] eqn:He; [by destruct sh; simplify_eq|].
    assert (k' ∈ w ∖ p) as Hk by (rewrite <-elem_of_elements, He; left). simplify_eq. set_solver.
Defined.

Lemma process_sync_returns_any : wp process_sync (λ _ _, True) (initial_vars, process).
Proof. unfold wp. pose proof process_sync_returns as H. by destruct (process_sync (initial_vars, process)) as [[]]. Qed.

Abbreviation process_next :=
  (processNextWorkItem (Q := MemQueue) process_env (@by_key) mem_unmarshal mem_marshal demo_url_path demo_handlers).
Definition queue_of_key : MemQueue := ({[""]}, ∅, false).
Lemma queue_of_key_ready : shut queue_of_key = true ∨ ¬ (waiting queue_of_key ⊆ processing queue_of_key).
Proof. right. cbn. set_solver. Qed.

Lemma work_is_never_lost_witness :
  wp process_next
    (λ again '(q', vw'), shut q' = shut queue_of_key ∧
      if (again : bool) then processing q' = processing queue_of_key ∧
        (shut queue_of_key = false → waiting queue_of_key ⊆ waiting q' ∧ waiting q' ≠ ∅)
      else shut queue_of_key = true ∧ waiting q' = waiting queue_of_key ∧
        processing q' = processing queue_of_key ∧ vw' = (initial_vars, process))
    (queue_of_key, (initial_vars, process)).
Proof.
  exact (work_is_never_lost process_env (@by_key) mem_unmarshal mem_marshal demo_url_path demo_handlers
    queue_of_key initial_vars process queue_of_key_ready process_sync_returns_any).
Defined.

(** ** A life of the controller: the Secret is seen, the caches sync, a turn *)
Definition empty_queue : MemQueue := (∅, ∅, false).
Definition own_secret : Secret := mkSecret "n" "persistentpodstate-webhook-certs" "" None.
Definition life : list Label :=
  [Turned true; CachesSynced; Delivered (SecretAdded own_secret); InformersStarted].
Abbreviation process_run :=
  (start_run (Q := MemQueue) process_env (@by_key) mem_unmarshal mem_marshal demo_url_path demo_handlers).
Definition after_turn : MemQueue * (ControllerVars * MemProcess) :=
  (process_next (queue_of_key, (initial_vars, process))).2.

Lemma process_turn_facts :
  (process_next (queue_of_key, (initial_vars, process))).1 = Ret true ∧ uninit_closed after_turn.2.1 = true.
Proof. split; vm_compute; reflexivity. Qed.
Lemma process_turn : runs process_next (queue_of_key, (initial_vars, process)) true after_turn.
Proof. unfold after_turn. exact (runs_self process_next _ true (proj1 process_turn_facts)). Qed.
Lemma after_turn_closed : uninit_closed after_turn.2.1 = true.
Proof. exact (proj2 process_turn_facts). Qed.
#[global] Opaque after_turn.

Lemma life_runs : process_run (empty_queue, (initial_vars, process)) life (Working, after_turn).
Proof.
  eapply start_run_step; [|exact (start_turn _ _ _ _ _ _ Working _ true _ eq_refl process_turn)].
  eapply start_run_step; [|apply start_synced].
  eapply start_run_step; [|apply (start_deliver _ _ _ _ _ _ CachesSyncing _ empty_queue); [done|reflexivity]].
  eapply start_run_step; [apply start_run_nil|apply start_informers].
Qed.

Lemma after_turn_parts : after_turn = (after_turn.1, (after_turn.2.1, after_turn.2.2)).
Proof. destruct after_turn as [q [v w]]. reflexivity. Qed.
Lemma life_runs_parts :
  process_run (empty_queue, (initial_vars, process)) life
    (Working, (after_turn.1, (after_turn.2.1, after_turn.2.2))).
Proof. rewrite <-after_turn_parts. exact life_runs. Qed.

(** The channel is closed at its end, the Secret's event was delivered, and the key waits. *)
Lemma controller_runs_witness :
  uninit_closed after_turn.2.1 = true ∧ concerns process_env (SecretAdded own_secret) = true ∧
  init_ok after_turn.2.1 ∧
  (uninit_closed after_turn.2.1 = true → ∃ later before p1 q1 vw vw',
    life = later ++ Turned true :: before ∧
    process_run (empty_queue, (initial_vars, process)) before (p1, (q1, vw)) ∧ runs process_sync vw None vw') ∧
  (∀ again, Turned again ∈ life → CachesSynced ∈ life ∧ (again = false → ContextDone ∈ life)) ∧
  (∀ e, Delivered e ∈ life → concerns process_env e = true → shut after_turn.1 = false → waiting after_turn.1 ≠ ∅) ∧
  processing after_turn.1 = ∅ ∧ (shut after_turn.1 = true ↔ ∃ worker, Working = Stopped worker).
Proof.
  split; [exact after_turn_closed|]. split; [reflexivity|].
  exact (controller_runs process_env (@by_key) mem_unmarshal mem_marshal demo_url_path demo_handlers
    empty_queue process life Working after_turn.1 after_turn.2.1 after_turn.2.2
    eq_refl eq_refl eq_refl life_runs_parts).
Defined.
