(* ===== verification/MemStartup.v ===== *)
(** * A start in memory: the witnesses of the startup

    The provided process of [MemProcess] with a webhook server that leaves some polls
    unanswered; and [main] on a server that is a map. *)
From S2P Require Export MemProcess Readiness.

#[local] Existing Instance mem_rest_types.
#[local] Existing Instance mem_rest.
#[local] Existing Instance mem_server.
#[local] Existing Instance mem_builder.

(** ** Polling a provided process: the number is of the polls left unanswered *)
Definition Polled : Type := nat * MemProcess.
Definition polls (w : Polled) : nat := w.1.
Definition polled_watcher : GoM Polled (option string) := go_ret None.
Definition polled_Add (_ : path) : GoM Polled (option string) := go_ret None.

(** The server presents a certificate of the CA in its directory: a client accepts it that
    trusts what is in the file. *)
Definition ca_pool (s : disk) : option string := pem_pool (default "" (read_at s (caCertFilePath process_env))).
Definition ca_handshake {W} `{!FsHost W, !FsHostLaws W} (w : W) (pool : option string) : Prop :=
  pool = ca_pool (disk_of w).
Definition polled_Do (c : HttpClient string) (_ : string) : GoM Polled (option string) := λ w,
  (Ret (if decide (w.1 = 0)
        then if decide (hc_RootCAs c = ca_pool (disk_of (W := Polled) w)) then None
             else Some "x509: certificate signed by unknown authority"
        else Some "connection refused"), w).

Abbreviation PolledGlobals := (Globals string unit unit).
Definition polled_since : GoM (PolledGlobals * Polled) Z := go_ret 0%Z.
Definition polled_sleep (_ : Z) : GoM (PolledGlobals * Polled) () := λ '(g, (n, w)), (Ret (), (g, (pred n, w))).


(** Reading leaves the disk as it is. *)
Lemma read_keeps_disk {W} `{!FsHost W, !FsHostLaws W} p (w : W) :
  wp (host_call (op_readfile p)) (λ _ w', disk_of w' = disk_of w) w.
Proof.
  wp_call (host_call_law (op_readfile p)). intros [e|d] w' [Hr _]; [apply Hr|].
  destruct Hr as (s' & Hop & Hd & _). by rewrite Hd, (readfile_reads _ _ _ _ Hop).
Qed.

Lemma polled_host p (w : Polled) :
  wp (host_call (op_readfile p)) (λ _ w', serves_on polls ca_handshake w w') w.
Proof.
  destruct w as [n w]. apply (wp_lift (host_call (op_readfile p))).
  wp_call (read_keeps_disk (W := MemProcess) p). intros r w' Hd. split; [done|].
  unfold ca_handshake. intros pool ->. f_equal. symmetry. exact Hd.
Qed.
Lemma polled_watcher_law w :
  wp polled_watcher (λ e w', moves polls ca_handshake w w' ∧ (faultless w → e = None)) w.
Proof. by apply wp_ret. Qed.
Lemma polled_add_law p w :
  wp (polled_Add p) (λ e w', moves polls ca_handshake w w' ∧ (faultless w → e = None)) w.
Proof. by apply wp_ret. Qed.
Lemma polled_do_law c url w : wp (polled_Do c url) (λ r w', moves polls ca_handshake w w' ∧
  (r = None → ca_handshake w (hc_RootCAs c)) ∧ (polls w = 0 → ca_handshake w (hc_RootCAs c) → r = None)) w.
Proof.
  unfold wp, polled_Do. split; [by split_and!|]. split.
  - case_decide; [|done]. by case_decide.
  - intros Hp Hs. rewrite decide_True by exact Hp. by rewrite decide_True by exact Hs.
Qed.
Lemma polled_port : ∃ port, ∀ w : Polled, GetPort process_env w = (Ret port, w).
Proof. by exists 9876%Z. Qed.
Lemma polled_url (port : Z) : valid_request ("https://localhost:" +:+ pretty port +:+ "/healthz") = None.
Proof. done. Qed.
Lemma polled_since_law gw : wp polled_since (λ _ gw', gw' = gw) gw.
Proof. by apply wp_ret. Qed.
Abbreviation polled_ready := (ready_state (W := Polled) process_env pem_pool ca_handshake).
Lemma polled_sleep_law d gw : polled_ready gw →
  wp (polled_sleep d) (λ _ gw', polled_ready gw' ∧ polls gw'.2 ≤ pred (polls gw.2)) gw.
Proof. by destruct gw as [g [n w]]. Qed.

Definition provided_globals : PolledGlobals :=
  mkGlobals GlobalConfig (mkRegistry ∅ ∅ ∅) initial_registry synced_vars (mkHealthVars false None).

Lemma synced_checkable : checkable (W := Polled) process_env (mkHealthVars (Pool := string) false None) (2, synced_process).
Proof.
  split; [vm_compute; constructor|]. split; [|done].
  assert (is_Some (read_at (disk_of synced_process) (caCertFilePath process_env))) as H
    by (vm_compute; by eexists). exact H.
Qed.
Lemma synced_inited : uninit_closed synced_vars = true.
Proof. vm_compute. reflexivity. Qed.
Lemma provided_ready : polled_ready (provided_globals, (2, synced_process)).
Proof.
  split; [exact synced_inited|]. split; [exact synced_checkable|]. unfold accepted, ca_handshake, ca_pool.
  cbn [onceWatch g_health provided_globals fst snd]. by intros d ->.
Qed.
Lemma three_is_more : polls (2, synced_process) < 3.
Proof. cbn. lia. Qed.


(** ** The probe of that process trusts the registered CA *)
Definition calm_watching : GoM MemProcess (option string) := go_ret None.
Definition calm_add (_ : path) : GoM MemProcess (option string) := go_ret None.
Definition calm_do (c : HttpClient string) (_ : string) : GoM MemProcess (option string) := λ w,
  (Ret (if decide (hc_RootCAs c = ca_pool (disk_of w)) then None
        else Some "x509: certificate signed by unknown authority"), w).
Definition no_polls (_ : MemProcess) : nat := 0.

Lemma calm_host p (w : MemProcess) :
  wp (host_call (op_readfile p)) (λ _ w', serves_on no_polls ca_handshake w w') w.
Proof.
  wp_call (read_keeps_disk (W := MemProcess) p). intros r w' Hd. split; [done|].
  unfold ca_handshake. intros pool ->. by rewrite Hd.
Qed.
Lemma calm_watching_law w :
  wp calm_watching (λ e w', moves no_polls ca_handshake w w' ∧ (faultless w → e = None)) w.
Proof. by apply wp_ret. Qed.
Lemma calm_add_law p w :
  wp (calm_add p) (λ e w', moves no_polls ca_handshake w w' ∧ (faultless w → e = None)) w.
Proof. by apply wp_ret. Qed.
Lemma calm_do_law c url w : wp (calm_do c url) (λ r w', moves no_polls ca_handshake w w' ∧
  (r = None → ca_handshake w (hc_RootCAs c)) ∧ (no_polls w = 0 → ca_handshake w (hc_RootCAs c) → r = None)) w.
Proof.
  unfold wp, calm_do. split; [by split_and!|]. split; [by case_decide|].
  intros _ Hs. by rewrite decide_True by exact Hs.
Qed.
Lemma calm_port : ∃ port, ∀ w : MemProcess, GetPort process_env w = (Ret port, w).
Proof. by exists 9876%Z. Qed.

Lemma probe_trusts_registered_ca_witness :
  ∃ ca, bundle_registered process_env ca synced_process ∧
    ∀ w2 : MemProcess, disk_of w2 = disk_of synced_process → faultless w2 →
      wp (Checker process_env calm_watching calm_add pem_pool calm_do valid_request)
        (λ r '(hv, w3), client hv = Some (mkHttpClient (pem_pool (default "" ca))) ∧
          (no_polls w2 = 0 → ca_handshake w2 (pem_pool (default "" ca)) → r = None) ∧
          (r = None → ca_handshake w3 (pem_pool (default "" ca))))
        (mkHealthVars false None, w2).
Proof.
  exact (probe_trusts_registered_ca process_env (@by_key) mem_unmarshal mem_marshal demo_url_path demo_handlers
    by_key_perm process_readlink process_nothing_parsed process_servable
    calm_watching calm_add pem_pool calm_do valid_request no_polls ca_handshake calm_host calm_watching_law calm_add_law
    calm_do_law calm_port polled_url initial_vars process synced_vars synced_process eq_refl
    (λ _, process_started) process_named process_dir_ready process_synced).
Defined.

(** ** The controllers, once a check has said yes *)
Definition yes : GoM (HealthVars string * Polled) (option string) := go_ret None.
Definition polled_scheme : string → GoM Polled (option string) := λ _, go_ret None.
Definition polled_complete : string → ControllerBuilder → GoM Polled (option string) := λ _ _, go_ret None.
Abbreviation polled_goroutine :=
  (main_goroutine (λ mgr : string, mgr) polled_scheme polled_complete polled_since polled_sleep yes).

Lemma polled_since_features : always same_features polled_since.
Proof. by intros gw. Qed.
Lemma polled_sleep_features d : always same_features (polled_sleep d).
Proof. by intros [g [n w]]. Qed.
Lemma polled_goroutine_runs :
  runs (polled_goroutine 1 "mgr") (provided_globals, (0, synced_process)) (Some ())
    (provided_globals, (0, synced_process)).
Proof.
  unfold runs, main_goroutine, WaitReady_turns, webhook_Checker, get_globals, go_bind, polled_since, go_ret. cbn.
  by rewrite synced_inited.
Qed.

Lemma controllers_wait_for_the_webhook_witness :
  ∃ (gw1 gw2 : PolledGlobals * Polled) (w3 : Polled), uninit_closed (g_controller gw1.1) = true ∧
    runs yes (g_health gw1.1, gw1.2) None (g_health gw2.1, gw2.2) ∧
    runs (polled_scheme "mgr") gw2.2 None w3 ∧
    runs (polled_complete "mgr" (reconciler_watches GlobalConfig)) w3 None (0, synced_process) ∧
    ∀ kind, kind ∈ reconciler_watches GlobalConfig ↔
      match kind with
      | WatchPersistentPodState => True
      | WatchVirtualMachineInstance => EnableVMIPersistence GlobalConfig = true
      | WatchStatefulSet => EnableStatefulSetPersistence GlobalConfig = true
      end.
Proof.
  exact (controllers_wait_for_the_webhook (λ mgr : string, mgr) polled_scheme polled_complete polled_since
    polled_sleep yes polled_since_features polled_sleep_features 1 "mgr"
    (provided_globals, (0, synced_process)) (provided_globals, (0, synced_process)) polled_goroutine_runs).
Defined.

(** ** main, up to the start of the manager *)
Abbreviation MainGlobals := (Globals string (podMutateBuilder string) (PodMutatingHandler string string)).
Definition main_globals : MainGlobals :=
  mkGlobals GlobalConfig program_registry initial_registry initial_vars (mkHealthVars false None).
Definition given_config : GoM MemHooks RestConfig := go_ret demo_config.
Definition new_manager (_ : RestConfig) (_ : ManagerOptions) : GoM MemHooks (string + string) := λ _,
  (Ret (inr "mgr"), no_hooks).
Definition add_check (_ : string) (_ : string) (_ : HealthzCheck) : GoM MemHooks (option string) := go_ret None.
Definition soon_inited (_ : Z) : GoM (MainGlobals * MemHooks) bool := λ '(g, w),
  (Ret true, (mkGlobals (g_features g) (g_webhook g) (g_client g) (mkControllerVars true true) (g_health g), w)).
Definition main_flags : Flags := mkFlags "0" ":8081" false true false false true.

Abbreviation main_in_memory :=
  (main_setup (W := MemHooks) (Pool := string) process_env (@in_some_order) all_on scheme_of given_config
    new_manager add_check add_check soon_inited main_flags).
Definition main_done : MainGlobals * MemHooks := (main_in_memory (main_globals, no_hooks)).2.

#[local] Instance memory_rest_hooks : rest_frame (W := MemHooks) same_hooks.
Proof. by split. Qed.
Lemma new_manager_no_hooks c o w mgr w' : runs (new_manager c o) w (inr mgr) w' → hooks w' = ∅.
Proof. by intros [= _ <-]. Qed.
Lemma add_check_hooks m n c : always same_hooks (add_check m n c).
Proof. by intros w. Qed.
Lemma soon_inited_law d gw b gw' : runs (soon_inited d) gw b gw' →
  g_webhook gw'.1 = g_webhook gw.1 ∧ g_client gw'.1 = g_client gw.1 ∧ hooks gw'.2 = hooks gw.2 ∧
  (b = true → uninit_closed (g_controller gw'.1) = true).
Proof. destruct gw as [g w]. by intros [= <- <-]. Qed.
Lemma program_builders_build (m p : string) b :
  active all_on (g_webhook main_globals) p = Some b → is_Some (built m b).
Proof. intros _. by eexists. Qed.
Lemma program_paths_free p : p = "/convert" ∨ p = "/healthz" → active all_on (g_webhook main_globals) p = None.
Proof. by intros [->| ->]. Qed.
Lemma main_runs : runs main_in_memory (main_globals, no_hooks) "mgr" (main_done.1, main_done.2).
Proof. reflexivity. Qed.

Lemma main_sets_up_witness :
  uninit_closed (g_controller main_done.1) = true ∧ g_features main_done.1 = mkPersistenceConfig false true.
Proof.
  exact (proj2 (main_sets_up process_env (@in_some_order) in_some_order_perm all_on scheme_of given_config
    new_manager add_check add_check soon_inited new_manager_no_hooks add_check_hooks add_check_hooks
    soon_inited_law main_flags main_globals no_hooks "mgr" main_done.1 main_done.2
    program_builders_build program_paths_free main_runs)).
Defined.
